(** * ILI9341_T4: vsync-aligned differential display driver

    Shallow embedding of [src/ILI9341Driver.cpp] (the ILI9341 driver for
    Teensy 4) and the properties of its update coordinator, refresh-mode
    and rotation settings, scanline oracle, pixel pusher and tear-margin
    statistics.

    The driver object is a record; every member function is a computation
    in a state monad over the driver and the hardware it talks to.  The
    hardware (SPI receive queue, interrupt arrivals, the answers of the diff
    reader) is an explicit oracle held in the state, and everything the
    driver sends to the outside is appended to a trace. *)

From Stdlib Require Import ZArith List Bool Lia QArith Qpower Lqa SpecFloat.
Import ListNotations.
Open Scope Z_scope.



(** ** Machine integers *)

Module MachineInt.

Definition INT_MIN : Z := - 2 ^ 31.
Definition INT_MAX : Z := 2 ^ 31 - 1.

(** Value of a [uint8_t] / [uint16_t] / [uint32_t] / [uint64_t] holding [z]. *)
Definition uint8 (z : Z) : Z := z mod 2 ^ 8.
Definition uint16 (z : Z) : Z := z mod 2 ^ 16.
Definition uint32 (z : Z) : Z := z mod 2 ^ 32.
Definition uint64 (z : Z) : Z := z mod 2 ^ 64.

(** Value of an [int] holding [z] (two's complement, 32 bits). *)
Definition int32 (z : Z) : Z := (z + 2 ^ 31) mod 2 ^ 32 - 2 ^ 31.

(** Value of an [int16_t] holding [z]. *)
Definition int16 (z : Z) : Z := (z + 2 ^ 15) mod 2 ^ 16 - 2 ^ 15.

(** C's [/] and [%] truncate toward zero. *)
Definition cdiv (a b : Z) : Z := Z.quot a b.
Definition cmod (a b : Z) : Z := Z.rem a b.

(** [round((double)a / (double)b)] for unsigned 32-bit [a], [b]: the
    quotient rounded to the nearest integer, halves away from zero. *)
Definition round_div (a b : Z) : Z := (2 * a + b) / (2 * b).

Lemma int32_id z : INT_MIN <= z <= INT_MAX -> int32 z = z.
Proof.
  unfold int32, INT_MIN, INT_MAX. intros H.
  rewrite Z.mod_small; lia.
Qed.

Lemma int32_range z : INT_MIN <= int32 z <= INT_MAX.
Proof.
  unfold int32, INT_MIN, INT_MAX.
  pose proof (Z.mod_pos_bound (z + 2 ^ 31) (2 ^ 32) ltac:(lia)). lia.
Qed.

Lemma uint32_id z : 0 <= z < 2 ^ 32 -> uint32 z = z.
Proof. intros H. unfold uint32. apply Z.mod_small; lia. Qed.

Lemma uint16_id z : 0 <= z < 2 ^ 16 -> uint16 z = z.
Proof. intros H. unfold uint16. apply Z.mod_small; lia. Qed.

Lemma uint8_id z : 0 <= z < 2 ^ 8 -> uint8 z = z.
Proof. intros H. unfold uint8. apply Z.mod_small; lia. Qed.

End MachineInt.
Import MachineInt.

(** ** Floating point

    [float] is IEEE-754 binary32 and [double] binary64 on the target; the
    operations are those of the standard library's specification of
    floating-point arithmetic, rounding to nearest, ties to even. *)

Definition float : Type := spec_float.
Definition double : Type := spec_float.

(** Conversion of an integer to [float] and to [double]. *)
Definition float_of_int (z : Z) : float := binary_normalize 24 128 z 0 false.
Definition double_of_int (z : Z) : double := binary_normalize 53 1024 z 0 false.

Definition float_add : float -> float -> float := SFadd 24 128.
Definition float_mul : float -> float -> float := SFmul 24 128.
Definition float_div : float -> float -> float := SFdiv 24 128.

Definition double_add : double -> double -> double := SFadd 53 1024.
Definition double_mul : double -> double -> double := SFmul 53 1024.
Definition double_div : double -> double -> double := SFdiv 53 1024.

(** Conversion of a floating-point value to [int]: the fraction is dropped.
    Outside the range of [int] the conversion is undefined in C; the
    target's conversion instruction saturates and turns NaN into 0. *)
Definition int_of_float (f : spec_float) : Z :=
  match f with
  | S754_zero _ | S754_nan => 0
  | S754_infinity s => if s then INT_MIN else INT_MAX
  | S754_finite s m e =>
      let a := if 0 <=? e then Zpos m * 2 ^ e else Zpos m / 2 ^ (- e) in
      Z.max INT_MIN (Z.min INT_MAX (if s then - a else a))
  end.

(** ** Constants of the panel *)

(** Modelled from the spec: the header [ILI9341Driver.h] with the
    [ILI9341_T4_*] macros is not part of the sources.  The spec fixes the
    panel at 240x320 pixels, scanned in 320 scanlines per refresh. *)
Definition ILI9341_T4_TFTWIDTH : Z := 240.
Definition ILI9341_T4_TFTHEIGHT : Z := 320.
Definition ILI9341_T4_NB_SCANLINES : Z := ILI9341_T4_TFTHEIGHT.
Definition ILI9341_T4_NB_PIXELS : Z := ILI9341_T4_TFTWIDTH * ILI9341_T4_TFTHEIGHT.

(** Modelled from the spec: tuning constants of the absent header.  The spec
    names them without giving values, so they are parameters of the board. *)
Record Board : Type := {
  ILI9341_T4_MIN_WAIT_TIME : Z;
  ILI9341_T4_MAX_VSYNC_SPACING : Z;
  ILI9341_T4_TOUCH_Z_THRESHOLD : Z;
  ILI9341_T4_TOUCH_Z_THRESHOLD_INT : Z
}.

(** Panel commands; the core treats them as opaque opcodes. *)
Inductive panel_cmd : Type :=
| ILI9341_T4_NOP | ILI9341_T4_SLPIN | ILI9341_T4_SLPOUT
| ILI9341_T4_INVOFF | ILI9341_T4_INVON
| ILI9341_T4_DISPOFF | ILI9341_T4_DISPON
| ILI9341_T4_CASET | ILI9341_T4_PASET | ILI9341_T4_RAMWR
| ILI9341_T4_VSCRSADD | ILI9341_T4_FRMCTR1.

(** ** Pointers, buffers and callbacks *)

(** A framebuffer pointer: [None] is [nullptr], [Some a] names the buffer. *)
Definition fbptr : Type := option nat.

(** Diff buffers: the two dummy diffs [_dd1], [_dd2] owned by the driver and
    the diff buffers supplied by the user. *)
Inductive diffref : Type :=
| dd1 | dd2 | UserDiff (id : nat).

Definition diffptr : Type := option diffref.

(** Pointers to member functions: the completion callback [_pcb], the
    callback of the one-shot timer and the handler attached to the DMA
    channel. *)
Inductive methodCB : Type :=
| cb_buffer2fullCB
| cb_subFrameTimerStartcb
| cb_subFrameTimerStartcb2
| cb_subFrameInterruptDiff2
| cb_dmaInterruptDiff.

Inductive dma_state : Type :=
| ILI9341_T4_DMA_IDLE | ILI9341_T4_DMA_ON.

Inductive buffering_mode : Type :=
| NO_BUFFERING | DOUBLE_BUFFERING | TRIPLE_BUFFERING.

Definition fbptr_eqb (a b : fbptr) : bool :=
  match a, b with
  | None, None => true
  | Some x, Some y => Nat.eqb x y
  | _, _ => false
  end.

Definition is_null {A : Type} (p : option A) : bool :=
  match p with None => true | Some _ => false end.

Definition dma_state_eqb (a b : dma_state) : bool :=
  match a, b with
  | ILI9341_T4_DMA_IDLE, ILI9341_T4_DMA_IDLE => true
  | ILI9341_T4_DMA_ON, ILI9341_T4_DMA_ON => true
  | _, _ => false
  end.

(** [elapsedMicros] / [elapsedMillis] objects hold the clock value at their
    last reset; reading one gives the time elapsed since then. *)
Definition elapsedMicros : Type := Z.
Definition elapsedMillis : Type := Z.

(** A [StatsVar] accumulator, kept as the samples pushed since its reset. *)
Definition StatsVar : Type := list Z.

(** ** The outside world *)

(** Interrupt sources: the periodic-interval timer and the completion of the
    SPI transmit DMA chain. *)
Inductive irq : Type :=
| IRQ_PIT | IRQ_DMA.

(** What one call of [readDiff] hands back: the return code and the values
    it leaves in [x], [y], [len] ([None]: the argument is left untouched). *)
Record read_result : Type := {
  rr_code : Z;
  rr_x : option Z;
  rr_y : option Z;
  rr_len : option Z
}.

(** Everything the driver does to its environment. *)
Inductive event : Type :=
| BeginSPITransaction (clk : Z)
| EndSPITransaction
| WriteCommand (c : panel_cmd)
| WriteData8 (b : Z)
| WriteData16 (w : Z)
| ScanlineQuery
| DmaPixels (fb : fbptr) (offset len : Z)
| DmaFinish
| SetTimerIn (us : Z) (cb : methodCB)
| SetTimerAt (ustime : Z) (cb : methodCB)
| ComputeDiff (diff : diffref) (fb_old fb_new : fbptr) (rot gap : Z)
              (copy_new_over_old : bool) (compare_mask : Z)
| ComputeDummyDiff (diff : diffref)
| InitRead (diff : diffref)
| CopyFb (fb_dst fb_src : fbptr) (rot : Z)
| FlushCache (fb : fbptr)
| TouchBeginTransaction (clk : Z)
| TouchEndTransaction
| DigitalWrite (pin : Z) (high : bool)
| Transfer (c : Z)
| Transfer16 (c : Z).

Record Stats : Type := {
  _stats_nb_frame : Z;
  _stats_elapsed_total : elapsedMillis;
  _stats_cputime : Z;
  _stats_uploadtime : Z;
  _stats_elapsed_cputime : elapsedMicros;
  _stats_elapsed_uploadtime : elapsedMicros;
  _stats_nb_uploaded_pixels : Z;
  _stats_nb_transactions : Z;
  _statsvar_cputime : StatsVar;
  _statsvar_uploadtime : StatsVar;
  _statsvar_uploaded_pixels : StatsVar;
  _statsvar_transactions : StatsVar;
  _statsvar_margin : StatsVar;
  _statsvar_vsyncspacing : StatsVar;
  _nbteared : Z
}.

Definition set_stats_nb_frame (v : Z) (s : Stats) : Stats := Build_Stats v (_stats_elapsed_total s)
  (_stats_cputime s) (_stats_uploadtime s) (_stats_elapsed_cputime s) (_stats_elapsed_uploadtime s)
  (_stats_nb_uploaded_pixels s) (_stats_nb_transactions s) (_statsvar_cputime s)
  (_statsvar_uploadtime s) (_statsvar_uploaded_pixels s) (_statsvar_transactions s)
  (_statsvar_margin s) (_statsvar_vsyncspacing s) (_nbteared s).
Definition set_stats_elapsed_total (v : elapsedMillis) (s : Stats) : Stats := Build_Stats
  (_stats_nb_frame s) v (_stats_cputime s) (_stats_uploadtime s) (_stats_elapsed_cputime s)
  (_stats_elapsed_uploadtime s) (_stats_nb_uploaded_pixels s) (_stats_nb_transactions s)
  (_statsvar_cputime s) (_statsvar_uploadtime s) (_statsvar_uploaded_pixels s)
  (_statsvar_transactions s) (_statsvar_margin s) (_statsvar_vsyncspacing s) (_nbteared s).
Definition set_stats_cputime (v : Z) (s : Stats) : Stats := Build_Stats (_stats_nb_frame s)
  (_stats_elapsed_total s) v (_stats_uploadtime s) (_stats_elapsed_cputime s)
  (_stats_elapsed_uploadtime s) (_stats_nb_uploaded_pixels s) (_stats_nb_transactions s)
  (_statsvar_cputime s) (_statsvar_uploadtime s) (_statsvar_uploaded_pixels s)
  (_statsvar_transactions s) (_statsvar_margin s) (_statsvar_vsyncspacing s) (_nbteared s).
Definition set_stats_uploadtime (v : Z) (s : Stats) : Stats := Build_Stats (_stats_nb_frame s)
  (_stats_elapsed_total s) (_stats_cputime s) v (_stats_elapsed_cputime s)
  (_stats_elapsed_uploadtime s) (_stats_nb_uploaded_pixels s) (_stats_nb_transactions s)
  (_statsvar_cputime s) (_statsvar_uploadtime s) (_statsvar_uploaded_pixels s)
  (_statsvar_transactions s) (_statsvar_margin s) (_statsvar_vsyncspacing s) (_nbteared s).
Definition set_stats_elapsed_cputime (v : elapsedMicros) (s : Stats) : Stats := Build_Stats
  (_stats_nb_frame s) (_stats_elapsed_total s) (_stats_cputime s) (_stats_uploadtime s) v
  (_stats_elapsed_uploadtime s) (_stats_nb_uploaded_pixels s) (_stats_nb_transactions s)
  (_statsvar_cputime s) (_statsvar_uploadtime s) (_statsvar_uploaded_pixels s)
  (_statsvar_transactions s) (_statsvar_margin s) (_statsvar_vsyncspacing s) (_nbteared s).
Definition set_stats_elapsed_uploadtime (v : elapsedMicros) (s : Stats) : Stats := Build_Stats
  (_stats_nb_frame s) (_stats_elapsed_total s) (_stats_cputime s) (_stats_uploadtime s)
  (_stats_elapsed_cputime s) v (_stats_nb_uploaded_pixels s) (_stats_nb_transactions s)
  (_statsvar_cputime s) (_statsvar_uploadtime s) (_statsvar_uploaded_pixels s)
  (_statsvar_transactions s) (_statsvar_margin s) (_statsvar_vsyncspacing s) (_nbteared s).
Definition set_stats_nb_uploaded_pixels (v : Z) (s : Stats) : Stats := Build_Stats (_stats_nb_frame
  s) (_stats_elapsed_total s) (_stats_cputime s) (_stats_uploadtime s) (_stats_elapsed_cputime s)
  (_stats_elapsed_uploadtime s) v (_stats_nb_transactions s) (_statsvar_cputime s)
  (_statsvar_uploadtime s) (_statsvar_uploaded_pixels s) (_statsvar_transactions s)
  (_statsvar_margin s) (_statsvar_vsyncspacing s) (_nbteared s).
Definition set_stats_nb_transactions (v : Z) (s : Stats) : Stats := Build_Stats (_stats_nb_frame s)
  (_stats_elapsed_total s) (_stats_cputime s) (_stats_uploadtime s) (_stats_elapsed_cputime s)
  (_stats_elapsed_uploadtime s) (_stats_nb_uploaded_pixels s) v (_statsvar_cputime s)
  (_statsvar_uploadtime s) (_statsvar_uploaded_pixels s) (_statsvar_transactions s)
  (_statsvar_margin s) (_statsvar_vsyncspacing s) (_nbteared s).
Definition set_statsvar_cputime (v : StatsVar) (s : Stats) : Stats := Build_Stats (_stats_nb_frame
  s) (_stats_elapsed_total s) (_stats_cputime s) (_stats_uploadtime s) (_stats_elapsed_cputime s)
  (_stats_elapsed_uploadtime s) (_stats_nb_uploaded_pixels s) (_stats_nb_transactions s) v
  (_statsvar_uploadtime s) (_statsvar_uploaded_pixels s) (_statsvar_transactions s)
  (_statsvar_margin s) (_statsvar_vsyncspacing s) (_nbteared s).
Definition set_statsvar_uploadtime (v : StatsVar) (s : Stats) : Stats := Build_Stats
  (_stats_nb_frame s) (_stats_elapsed_total s) (_stats_cputime s) (_stats_uploadtime s)
  (_stats_elapsed_cputime s) (_stats_elapsed_uploadtime s) (_stats_nb_uploaded_pixels s)
  (_stats_nb_transactions s) (_statsvar_cputime s) v (_statsvar_uploaded_pixels s)
  (_statsvar_transactions s) (_statsvar_margin s) (_statsvar_vsyncspacing s) (_nbteared s).
Definition set_statsvar_uploaded_pixels (v : StatsVar) (s : Stats) : Stats := Build_Stats
  (_stats_nb_frame s) (_stats_elapsed_total s) (_stats_cputime s) (_stats_uploadtime s)
  (_stats_elapsed_cputime s) (_stats_elapsed_uploadtime s) (_stats_nb_uploaded_pixels s)
  (_stats_nb_transactions s) (_statsvar_cputime s) (_statsvar_uploadtime s) v
  (_statsvar_transactions s) (_statsvar_margin s) (_statsvar_vsyncspacing s) (_nbteared s).
Definition set_statsvar_transactions (v : StatsVar) (s : Stats) : Stats := Build_Stats
  (_stats_nb_frame s) (_stats_elapsed_total s) (_stats_cputime s) (_stats_uploadtime s)
  (_stats_elapsed_cputime s) (_stats_elapsed_uploadtime s) (_stats_nb_uploaded_pixels s)
  (_stats_nb_transactions s) (_statsvar_cputime s) (_statsvar_uploadtime s)
  (_statsvar_uploaded_pixels s) v (_statsvar_margin s) (_statsvar_vsyncspacing s) (_nbteared s).
Definition set_statsvar_margin (v : StatsVar) (s : Stats) : Stats := Build_Stats (_stats_nb_frame s)
  (_stats_elapsed_total s) (_stats_cputime s) (_stats_uploadtime s) (_stats_elapsed_cputime s)
  (_stats_elapsed_uploadtime s) (_stats_nb_uploaded_pixels s) (_stats_nb_transactions s)
  (_statsvar_cputime s) (_statsvar_uploadtime s) (_statsvar_uploaded_pixels s)
  (_statsvar_transactions s) v (_statsvar_vsyncspacing s) (_nbteared s).
Definition set_statsvar_vsyncspacing (v : StatsVar) (s : Stats) : Stats := Build_Stats
  (_stats_nb_frame s) (_stats_elapsed_total s) (_stats_cputime s) (_stats_uploadtime s)
  (_stats_elapsed_cputime s) (_stats_elapsed_uploadtime s) (_stats_nb_uploaded_pixels s)
  (_stats_nb_transactions s) (_statsvar_cputime s) (_statsvar_uploadtime s)
  (_statsvar_uploaded_pixels s) (_statsvar_transactions s) (_statsvar_margin s) v (_nbteared s).
Definition set_nbteared (v : Z) (s : Stats) : Stats := Build_Stats (_stats_nb_frame s)
  (_stats_elapsed_total s) (_stats_cputime s) (_stats_uploadtime s) (_stats_elapsed_cputime s)
  (_stats_elapsed_uploadtime s) (_stats_nb_uploaded_pixels s) (_stats_nb_transactions s)
  (_statsvar_cputime s) (_statsvar_uploadtime s) (_statsvar_uploaded_pixels s)
  (_statsvar_transactions s) (_statsvar_margin s) (_statsvar_vsyncspacing s) v.

Record ILI9341Driver : Type := {
  _width : Z;
  _height : Z;
  _rotation : Z;
  _refreshmode : Z;
  _late_start_ratio : float;
  _late_start_ratio_override : bool;
  _diff_gap : Z;
  _vsync_spacing : Z;
  _diff1 : diffptr;
  _diff2 : diffptr;
  _fb1 : fbptr;
  _fb2 : fbptr;
  _dummydiff1 : diffref;
  _dummydiff2 : diffref;
  _mirrorfb : fbptr;
  _fb2full : bool;
  _compare_mask : Z;
  _period : Z;
  _period_mode0 : Z;
  _synced_em : elapsedMicros;
  _synced_scanline : Z;
  _pcb : option methodCB;
  _fb : fbptr;
  _diff : diffptr;
  _dma_state : dma_state;
  _last_delta : Z;
  _timeframestart : Z;
  _last_y : Z;
  _slinitpos : Z;
  _em_async : elapsedMicros;
  _margin : Z;
  _prev_caset_x : Z;
  _prev_paset_y : Z;
  _pitcb : option methodCB;
  _spi_clock : Z;
  _spi_clock_read : Z;
  _touch_request_read : bool;
  _touch_cs : Z;
  _touch_irq : Z;
  _touched_read : bool;
  _touch_x : Z;
  _touch_y : Z;
  _touch_z : Z;
  _em_touched_read : elapsedMillis;
  stats : Stats
}.

Definition set_width (v : Z) (s : ILI9341Driver) : ILI9341Driver := Build_ILI9341Driver v (_height
  s) (_rotation s) (_refreshmode s) (_late_start_ratio s) (_late_start_ratio_override s) (_diff_gap
  s) (_vsync_spacing s) (_diff1 s) (_diff2 s) (_fb1 s) (_fb2 s) (_dummydiff1 s) (_dummydiff2 s)
  (_mirrorfb s) (_fb2full s) (_compare_mask s) (_period s) (_period_mode0 s) (_synced_em s)
  (_synced_scanline s) (_pcb s) (_fb s) (_diff s) (_dma_state s) (_last_delta s) (_timeframestart s)
  (_last_y s) (_slinitpos s) (_em_async s) (_margin s) (_prev_caset_x s) (_prev_paset_y s) (_pitcb
  s) (_spi_clock s) (_spi_clock_read s) (_touch_request_read s) (_touch_cs s) (_touch_irq s)
  (_touched_read s) (_touch_x s) (_touch_y s) (_touch_z s) (_em_touched_read s) (stats s).
Definition set_height (v : Z) (s : ILI9341Driver) : ILI9341Driver := Build_ILI9341Driver (_width s)
  v (_rotation s) (_refreshmode s) (_late_start_ratio s) (_late_start_ratio_override s) (_diff_gap
  s) (_vsync_spacing s) (_diff1 s) (_diff2 s) (_fb1 s) (_fb2 s) (_dummydiff1 s) (_dummydiff2 s)
  (_mirrorfb s) (_fb2full s) (_compare_mask s) (_period s) (_period_mode0 s) (_synced_em s)
  (_synced_scanline s) (_pcb s) (_fb s) (_diff s) (_dma_state s) (_last_delta s) (_timeframestart s)
  (_last_y s) (_slinitpos s) (_em_async s) (_margin s) (_prev_caset_x s) (_prev_paset_y s) (_pitcb
  s) (_spi_clock s) (_spi_clock_read s) (_touch_request_read s) (_touch_cs s) (_touch_irq s)
  (_touched_read s) (_touch_x s) (_touch_y s) (_touch_z s) (_em_touched_read s) (stats s).
Definition set_rotation (v : Z) (s : ILI9341Driver) : ILI9341Driver := Build_ILI9341Driver (_width
  s) (_height s) v (_refreshmode s) (_late_start_ratio s) (_late_start_ratio_override s) (_diff_gap
  s) (_vsync_spacing s) (_diff1 s) (_diff2 s) (_fb1 s) (_fb2 s) (_dummydiff1 s) (_dummydiff2 s)
  (_mirrorfb s) (_fb2full s) (_compare_mask s) (_period s) (_period_mode0 s) (_synced_em s)
  (_synced_scanline s) (_pcb s) (_fb s) (_diff s) (_dma_state s) (_last_delta s) (_timeframestart s)
  (_last_y s) (_slinitpos s) (_em_async s) (_margin s) (_prev_caset_x s) (_prev_paset_y s) (_pitcb
  s) (_spi_clock s) (_spi_clock_read s) (_touch_request_read s) (_touch_cs s) (_touch_irq s)
  (_touched_read s) (_touch_x s) (_touch_y s) (_touch_z s) (_em_touched_read s) (stats s).
Definition set_refreshmode (v : Z) (s : ILI9341Driver) : ILI9341Driver := Build_ILI9341Driver
  (_width s) (_height s) (_rotation s) v (_late_start_ratio s) (_late_start_ratio_override s)
  (_diff_gap s) (_vsync_spacing s) (_diff1 s) (_diff2 s) (_fb1 s) (_fb2 s) (_dummydiff1 s)
  (_dummydiff2 s) (_mirrorfb s) (_fb2full s) (_compare_mask s) (_period s) (_period_mode0 s)
  (_synced_em s) (_synced_scanline s) (_pcb s) (_fb s) (_diff s) (_dma_state s) (_last_delta s)
  (_timeframestart s) (_last_y s) (_slinitpos s) (_em_async s) (_margin s) (_prev_caset_x s)
  (_prev_paset_y s) (_pitcb s) (_spi_clock s) (_spi_clock_read s) (_touch_request_read s) (_touch_cs
  s) (_touch_irq s) (_touched_read s) (_touch_x s) (_touch_y s) (_touch_z s) (_em_touched_read s)
  (stats s).
Definition set_late_start_ratio (v : float) (s : ILI9341Driver) : ILI9341Driver :=
  Build_ILI9341Driver (_width s) (_height s) (_rotation s) (_refreshmode s) v
  (_late_start_ratio_override s) (_diff_gap s) (_vsync_spacing s) (_diff1 s) (_diff2 s) (_fb1 s)
  (_fb2 s) (_dummydiff1 s) (_dummydiff2 s) (_mirrorfb s) (_fb2full s) (_compare_mask s) (_period s)
  (_period_mode0 s) (_synced_em s) (_synced_scanline s) (_pcb s) (_fb s) (_diff s) (_dma_state s)
  (_last_delta s) (_timeframestart s) (_last_y s) (_slinitpos s) (_em_async s) (_margin s)
  (_prev_caset_x s) (_prev_paset_y s) (_pitcb s) (_spi_clock s) (_spi_clock_read s)
  (_touch_request_read s) (_touch_cs s) (_touch_irq s) (_touched_read s) (_touch_x s) (_touch_y s)
  (_touch_z s) (_em_touched_read s) (stats s).
Definition set_late_start_ratio_override (v : bool) (s : ILI9341Driver) : ILI9341Driver :=
  Build_ILI9341Driver (_width s) (_height s) (_rotation s) (_refreshmode s) (_late_start_ratio s) v
  (_diff_gap s) (_vsync_spacing s) (_diff1 s) (_diff2 s) (_fb1 s) (_fb2 s) (_dummydiff1 s)
  (_dummydiff2 s) (_mirrorfb s) (_fb2full s) (_compare_mask s) (_period s) (_period_mode0 s)
  (_synced_em s) (_synced_scanline s) (_pcb s) (_fb s) (_diff s) (_dma_state s) (_last_delta s)
  (_timeframestart s) (_last_y s) (_slinitpos s) (_em_async s) (_margin s) (_prev_caset_x s)
  (_prev_paset_y s) (_pitcb s) (_spi_clock s) (_spi_clock_read s) (_touch_request_read s) (_touch_cs
  s) (_touch_irq s) (_touched_read s) (_touch_x s) (_touch_y s) (_touch_z s) (_em_touched_read s)
  (stats s).
Definition set_diff_gap (v : Z) (s : ILI9341Driver) : ILI9341Driver := Build_ILI9341Driver (_width
  s) (_height s) (_rotation s) (_refreshmode s) (_late_start_ratio s) (_late_start_ratio_override s)
  v (_vsync_spacing s) (_diff1 s) (_diff2 s) (_fb1 s) (_fb2 s) (_dummydiff1 s) (_dummydiff2 s)
  (_mirrorfb s) (_fb2full s) (_compare_mask s) (_period s) (_period_mode0 s) (_synced_em s)
  (_synced_scanline s) (_pcb s) (_fb s) (_diff s) (_dma_state s) (_last_delta s) (_timeframestart s)
  (_last_y s) (_slinitpos s) (_em_async s) (_margin s) (_prev_caset_x s) (_prev_paset_y s) (_pitcb
  s) (_spi_clock s) (_spi_clock_read s) (_touch_request_read s) (_touch_cs s) (_touch_irq s)
  (_touched_read s) (_touch_x s) (_touch_y s) (_touch_z s) (_em_touched_read s) (stats s).
Definition set_vsync_spacing (v : Z) (s : ILI9341Driver) : ILI9341Driver := Build_ILI9341Driver
  (_width s) (_height s) (_rotation s) (_refreshmode s) (_late_start_ratio s)
  (_late_start_ratio_override s) (_diff_gap s) v (_diff1 s) (_diff2 s) (_fb1 s) (_fb2 s)
  (_dummydiff1 s) (_dummydiff2 s) (_mirrorfb s) (_fb2full s) (_compare_mask s) (_period s)
  (_period_mode0 s) (_synced_em s) (_synced_scanline s) (_pcb s) (_fb s) (_diff s) (_dma_state s)
  (_last_delta s) (_timeframestart s) (_last_y s) (_slinitpos s) (_em_async s) (_margin s)
  (_prev_caset_x s) (_prev_paset_y s) (_pitcb s) (_spi_clock s) (_spi_clock_read s)
  (_touch_request_read s) (_touch_cs s) (_touch_irq s) (_touched_read s) (_touch_x s) (_touch_y s)
  (_touch_z s) (_em_touched_read s) (stats s).
Definition set_diff1 (v : diffptr) (s : ILI9341Driver) : ILI9341Driver := Build_ILI9341Driver
  (_width s) (_height s) (_rotation s) (_refreshmode s) (_late_start_ratio s)
  (_late_start_ratio_override s) (_diff_gap s) (_vsync_spacing s) v (_diff2 s) (_fb1 s) (_fb2 s)
  (_dummydiff1 s) (_dummydiff2 s) (_mirrorfb s) (_fb2full s) (_compare_mask s) (_period s)
  (_period_mode0 s) (_synced_em s) (_synced_scanline s) (_pcb s) (_fb s) (_diff s) (_dma_state s)
  (_last_delta s) (_timeframestart s) (_last_y s) (_slinitpos s) (_em_async s) (_margin s)
  (_prev_caset_x s) (_prev_paset_y s) (_pitcb s) (_spi_clock s) (_spi_clock_read s)
  (_touch_request_read s) (_touch_cs s) (_touch_irq s) (_touched_read s) (_touch_x s) (_touch_y s)
  (_touch_z s) (_em_touched_read s) (stats s).
Definition set_diff2 (v : diffptr) (s : ILI9341Driver) : ILI9341Driver := Build_ILI9341Driver
  (_width s) (_height s) (_rotation s) (_refreshmode s) (_late_start_ratio s)
  (_late_start_ratio_override s) (_diff_gap s) (_vsync_spacing s) (_diff1 s) v (_fb1 s) (_fb2 s)
  (_dummydiff1 s) (_dummydiff2 s) (_mirrorfb s) (_fb2full s) (_compare_mask s) (_period s)
  (_period_mode0 s) (_synced_em s) (_synced_scanline s) (_pcb s) (_fb s) (_diff s) (_dma_state s)
  (_last_delta s) (_timeframestart s) (_last_y s) (_slinitpos s) (_em_async s) (_margin s)
  (_prev_caset_x s) (_prev_paset_y s) (_pitcb s) (_spi_clock s) (_spi_clock_read s)
  (_touch_request_read s) (_touch_cs s) (_touch_irq s) (_touched_read s) (_touch_x s) (_touch_y s)
  (_touch_z s) (_em_touched_read s) (stats s).
Definition set_fb1 (v : fbptr) (s : ILI9341Driver) : ILI9341Driver := Build_ILI9341Driver (_width s)
  (_height s) (_rotation s) (_refreshmode s) (_late_start_ratio s) (_late_start_ratio_override s)
  (_diff_gap s) (_vsync_spacing s) (_diff1 s) (_diff2 s) v (_fb2 s) (_dummydiff1 s) (_dummydiff2 s)
  (_mirrorfb s) (_fb2full s) (_compare_mask s) (_period s) (_period_mode0 s) (_synced_em s)
  (_synced_scanline s) (_pcb s) (_fb s) (_diff s) (_dma_state s) (_last_delta s) (_timeframestart s)
  (_last_y s) (_slinitpos s) (_em_async s) (_margin s) (_prev_caset_x s) (_prev_paset_y s) (_pitcb
  s) (_spi_clock s) (_spi_clock_read s) (_touch_request_read s) (_touch_cs s) (_touch_irq s)
  (_touched_read s) (_touch_x s) (_touch_y s) (_touch_z s) (_em_touched_read s) (stats s).
Definition set_fb2 (v : fbptr) (s : ILI9341Driver) : ILI9341Driver := Build_ILI9341Driver (_width s)
  (_height s) (_rotation s) (_refreshmode s) (_late_start_ratio s) (_late_start_ratio_override s)
  (_diff_gap s) (_vsync_spacing s) (_diff1 s) (_diff2 s) (_fb1 s) v (_dummydiff1 s) (_dummydiff2 s)
  (_mirrorfb s) (_fb2full s) (_compare_mask s) (_period s) (_period_mode0 s) (_synced_em s)
  (_synced_scanline s) (_pcb s) (_fb s) (_diff s) (_dma_state s) (_last_delta s) (_timeframestart s)
  (_last_y s) (_slinitpos s) (_em_async s) (_margin s) (_prev_caset_x s) (_prev_paset_y s) (_pitcb
  s) (_spi_clock s) (_spi_clock_read s) (_touch_request_read s) (_touch_cs s) (_touch_irq s)
  (_touched_read s) (_touch_x s) (_touch_y s) (_touch_z s) (_em_touched_read s) (stats s).
Definition set_dummydiff1 (v : diffref) (s : ILI9341Driver) : ILI9341Driver := Build_ILI9341Driver
  (_width s) (_height s) (_rotation s) (_refreshmode s) (_late_start_ratio s)
  (_late_start_ratio_override s) (_diff_gap s) (_vsync_spacing s) (_diff1 s) (_diff2 s) (_fb1 s)
  (_fb2 s) v (_dummydiff2 s) (_mirrorfb s) (_fb2full s) (_compare_mask s) (_period s) (_period_mode0
  s) (_synced_em s) (_synced_scanline s) (_pcb s) (_fb s) (_diff s) (_dma_state s) (_last_delta s)
  (_timeframestart s) (_last_y s) (_slinitpos s) (_em_async s) (_margin s) (_prev_caset_x s)
  (_prev_paset_y s) (_pitcb s) (_spi_clock s) (_spi_clock_read s) (_touch_request_read s) (_touch_cs
  s) (_touch_irq s) (_touched_read s) (_touch_x s) (_touch_y s) (_touch_z s) (_em_touched_read s)
  (stats s).
Definition set_dummydiff2 (v : diffref) (s : ILI9341Driver) : ILI9341Driver := Build_ILI9341Driver
  (_width s) (_height s) (_rotation s) (_refreshmode s) (_late_start_ratio s)
  (_late_start_ratio_override s) (_diff_gap s) (_vsync_spacing s) (_diff1 s) (_diff2 s) (_fb1 s)
  (_fb2 s) (_dummydiff1 s) v (_mirrorfb s) (_fb2full s) (_compare_mask s) (_period s) (_period_mode0
  s) (_synced_em s) (_synced_scanline s) (_pcb s) (_fb s) (_diff s) (_dma_state s) (_last_delta s)
  (_timeframestart s) (_last_y s) (_slinitpos s) (_em_async s) (_margin s) (_prev_caset_x s)
  (_prev_paset_y s) (_pitcb s) (_spi_clock s) (_spi_clock_read s) (_touch_request_read s) (_touch_cs
  s) (_touch_irq s) (_touched_read s) (_touch_x s) (_touch_y s) (_touch_z s) (_em_touched_read s)
  (stats s).
Definition set_mirrorfb (v : fbptr) (s : ILI9341Driver) : ILI9341Driver := Build_ILI9341Driver
  (_width s) (_height s) (_rotation s) (_refreshmode s) (_late_start_ratio s)
  (_late_start_ratio_override s) (_diff_gap s) (_vsync_spacing s) (_diff1 s) (_diff2 s) (_fb1 s)
  (_fb2 s) (_dummydiff1 s) (_dummydiff2 s) v (_fb2full s) (_compare_mask s) (_period s)
  (_period_mode0 s) (_synced_em s) (_synced_scanline s) (_pcb s) (_fb s) (_diff s) (_dma_state s)
  (_last_delta s) (_timeframestart s) (_last_y s) (_slinitpos s) (_em_async s) (_margin s)
  (_prev_caset_x s) (_prev_paset_y s) (_pitcb s) (_spi_clock s) (_spi_clock_read s)
  (_touch_request_read s) (_touch_cs s) (_touch_irq s) (_touched_read s) (_touch_x s) (_touch_y s)
  (_touch_z s) (_em_touched_read s) (stats s).
Definition set_fb2full (v : bool) (s : ILI9341Driver) : ILI9341Driver := Build_ILI9341Driver (_width
  s) (_height s) (_rotation s) (_refreshmode s) (_late_start_ratio s) (_late_start_ratio_override s)
  (_diff_gap s) (_vsync_spacing s) (_diff1 s) (_diff2 s) (_fb1 s) (_fb2 s) (_dummydiff1 s)
  (_dummydiff2 s) (_mirrorfb s) v (_compare_mask s) (_period s) (_period_mode0 s) (_synced_em s)
  (_synced_scanline s) (_pcb s) (_fb s) (_diff s) (_dma_state s) (_last_delta s) (_timeframestart s)
  (_last_y s) (_slinitpos s) (_em_async s) (_margin s) (_prev_caset_x s) (_prev_paset_y s) (_pitcb
  s) (_spi_clock s) (_spi_clock_read s) (_touch_request_read s) (_touch_cs s) (_touch_irq s)
  (_touched_read s) (_touch_x s) (_touch_y s) (_touch_z s) (_em_touched_read s) (stats s).
Definition set_compare_mask (v : Z) (s : ILI9341Driver) : ILI9341Driver := Build_ILI9341Driver
  (_width s) (_height s) (_rotation s) (_refreshmode s) (_late_start_ratio s)
  (_late_start_ratio_override s) (_diff_gap s) (_vsync_spacing s) (_diff1 s) (_diff2 s) (_fb1 s)
  (_fb2 s) (_dummydiff1 s) (_dummydiff2 s) (_mirrorfb s) (_fb2full s) v (_period s) (_period_mode0
  s) (_synced_em s) (_synced_scanline s) (_pcb s) (_fb s) (_diff s) (_dma_state s) (_last_delta s)
  (_timeframestart s) (_last_y s) (_slinitpos s) (_em_async s) (_margin s) (_prev_caset_x s)
  (_prev_paset_y s) (_pitcb s) (_spi_clock s) (_spi_clock_read s) (_touch_request_read s) (_touch_cs
  s) (_touch_irq s) (_touched_read s) (_touch_x s) (_touch_y s) (_touch_z s) (_em_touched_read s)
  (stats s).
Definition set_period (v : Z) (s : ILI9341Driver) : ILI9341Driver := Build_ILI9341Driver (_width s)
  (_height s) (_rotation s) (_refreshmode s) (_late_start_ratio s) (_late_start_ratio_override s)
  (_diff_gap s) (_vsync_spacing s) (_diff1 s) (_diff2 s) (_fb1 s) (_fb2 s) (_dummydiff1 s)
  (_dummydiff2 s) (_mirrorfb s) (_fb2full s) (_compare_mask s) v (_period_mode0 s) (_synced_em s)
  (_synced_scanline s) (_pcb s) (_fb s) (_diff s) (_dma_state s) (_last_delta s) (_timeframestart s)
  (_last_y s) (_slinitpos s) (_em_async s) (_margin s) (_prev_caset_x s) (_prev_paset_y s) (_pitcb
  s) (_spi_clock s) (_spi_clock_read s) (_touch_request_read s) (_touch_cs s) (_touch_irq s)
  (_touched_read s) (_touch_x s) (_touch_y s) (_touch_z s) (_em_touched_read s) (stats s).
Definition set_period_mode0 (v : Z) (s : ILI9341Driver) : ILI9341Driver := Build_ILI9341Driver
  (_width s) (_height s) (_rotation s) (_refreshmode s) (_late_start_ratio s)
  (_late_start_ratio_override s) (_diff_gap s) (_vsync_spacing s) (_diff1 s) (_diff2 s) (_fb1 s)
  (_fb2 s) (_dummydiff1 s) (_dummydiff2 s) (_mirrorfb s) (_fb2full s) (_compare_mask s) (_period s)
  v (_synced_em s) (_synced_scanline s) (_pcb s) (_fb s) (_diff s) (_dma_state s) (_last_delta s)
  (_timeframestart s) (_last_y s) (_slinitpos s) (_em_async s) (_margin s) (_prev_caset_x s)
  (_prev_paset_y s) (_pitcb s) (_spi_clock s) (_spi_clock_read s) (_touch_request_read s) (_touch_cs
  s) (_touch_irq s) (_touched_read s) (_touch_x s) (_touch_y s) (_touch_z s) (_em_touched_read s)
  (stats s).
Definition set_synced_em (v : elapsedMicros) (s : ILI9341Driver) : ILI9341Driver :=
  Build_ILI9341Driver (_width s) (_height s) (_rotation s) (_refreshmode s) (_late_start_ratio s)
  (_late_start_ratio_override s) (_diff_gap s) (_vsync_spacing s) (_diff1 s) (_diff2 s) (_fb1 s)
  (_fb2 s) (_dummydiff1 s) (_dummydiff2 s) (_mirrorfb s) (_fb2full s) (_compare_mask s) (_period s)
  (_period_mode0 s) v (_synced_scanline s) (_pcb s) (_fb s) (_diff s) (_dma_state s) (_last_delta s)
  (_timeframestart s) (_last_y s) (_slinitpos s) (_em_async s) (_margin s) (_prev_caset_x s)
  (_prev_paset_y s) (_pitcb s) (_spi_clock s) (_spi_clock_read s) (_touch_request_read s) (_touch_cs
  s) (_touch_irq s) (_touched_read s) (_touch_x s) (_touch_y s) (_touch_z s) (_em_touched_read s)
  (stats s).
Definition set_synced_scanline (v : Z) (s : ILI9341Driver) : ILI9341Driver := Build_ILI9341Driver
  (_width s) (_height s) (_rotation s) (_refreshmode s) (_late_start_ratio s)
  (_late_start_ratio_override s) (_diff_gap s) (_vsync_spacing s) (_diff1 s) (_diff2 s) (_fb1 s)
  (_fb2 s) (_dummydiff1 s) (_dummydiff2 s) (_mirrorfb s) (_fb2full s) (_compare_mask s) (_period s)
  (_period_mode0 s) (_synced_em s) v (_pcb s) (_fb s) (_diff s) (_dma_state s) (_last_delta s)
  (_timeframestart s) (_last_y s) (_slinitpos s) (_em_async s) (_margin s) (_prev_caset_x s)
  (_prev_paset_y s) (_pitcb s) (_spi_clock s) (_spi_clock_read s) (_touch_request_read s) (_touch_cs
  s) (_touch_irq s) (_touched_read s) (_touch_x s) (_touch_y s) (_touch_z s) (_em_touched_read s)
  (stats s).
Definition set_pcb (v : option methodCB) (s : ILI9341Driver) : ILI9341Driver := Build_ILI9341Driver
  (_width s) (_height s) (_rotation s) (_refreshmode s) (_late_start_ratio s)
  (_late_start_ratio_override s) (_diff_gap s) (_vsync_spacing s) (_diff1 s) (_diff2 s) (_fb1 s)
  (_fb2 s) (_dummydiff1 s) (_dummydiff2 s) (_mirrorfb s) (_fb2full s) (_compare_mask s) (_period s)
  (_period_mode0 s) (_synced_em s) (_synced_scanline s) v (_fb s) (_diff s) (_dma_state s)
  (_last_delta s) (_timeframestart s) (_last_y s) (_slinitpos s) (_em_async s) (_margin s)
  (_prev_caset_x s) (_prev_paset_y s) (_pitcb s) (_spi_clock s) (_spi_clock_read s)
  (_touch_request_read s) (_touch_cs s) (_touch_irq s) (_touched_read s) (_touch_x s) (_touch_y s)
  (_touch_z s) (_em_touched_read s) (stats s).
Definition set_fb (v : fbptr) (s : ILI9341Driver) : ILI9341Driver := Build_ILI9341Driver (_width s)
  (_height s) (_rotation s) (_refreshmode s) (_late_start_ratio s) (_late_start_ratio_override s)
  (_diff_gap s) (_vsync_spacing s) (_diff1 s) (_diff2 s) (_fb1 s) (_fb2 s) (_dummydiff1 s)
  (_dummydiff2 s) (_mirrorfb s) (_fb2full s) (_compare_mask s) (_period s) (_period_mode0 s)
  (_synced_em s) (_synced_scanline s) (_pcb s) v (_diff s) (_dma_state s) (_last_delta s)
  (_timeframestart s) (_last_y s) (_slinitpos s) (_em_async s) (_margin s) (_prev_caset_x s)
  (_prev_paset_y s) (_pitcb s) (_spi_clock s) (_spi_clock_read s) (_touch_request_read s) (_touch_cs
  s) (_touch_irq s) (_touched_read s) (_touch_x s) (_touch_y s) (_touch_z s) (_em_touched_read s)
  (stats s).
Definition set_diff (v : diffptr) (s : ILI9341Driver) : ILI9341Driver := Build_ILI9341Driver (_width
  s) (_height s) (_rotation s) (_refreshmode s) (_late_start_ratio s) (_late_start_ratio_override s)
  (_diff_gap s) (_vsync_spacing s) (_diff1 s) (_diff2 s) (_fb1 s) (_fb2 s) (_dummydiff1 s)
  (_dummydiff2 s) (_mirrorfb s) (_fb2full s) (_compare_mask s) (_period s) (_period_mode0 s)
  (_synced_em s) (_synced_scanline s) (_pcb s) (_fb s) v (_dma_state s) (_last_delta s)
  (_timeframestart s) (_last_y s) (_slinitpos s) (_em_async s) (_margin s) (_prev_caset_x s)
  (_prev_paset_y s) (_pitcb s) (_spi_clock s) (_spi_clock_read s) (_touch_request_read s) (_touch_cs
  s) (_touch_irq s) (_touched_read s) (_touch_x s) (_touch_y s) (_touch_z s) (_em_touched_read s)
  (stats s).
Definition set_dma_state (v : dma_state) (s : ILI9341Driver) : ILI9341Driver := Build_ILI9341Driver
  (_width s) (_height s) (_rotation s) (_refreshmode s) (_late_start_ratio s)
  (_late_start_ratio_override s) (_diff_gap s) (_vsync_spacing s) (_diff1 s) (_diff2 s) (_fb1 s)
  (_fb2 s) (_dummydiff1 s) (_dummydiff2 s) (_mirrorfb s) (_fb2full s) (_compare_mask s) (_period s)
  (_period_mode0 s) (_synced_em s) (_synced_scanline s) (_pcb s) (_fb s) (_diff s) v (_last_delta s)
  (_timeframestart s) (_last_y s) (_slinitpos s) (_em_async s) (_margin s) (_prev_caset_x s)
  (_prev_paset_y s) (_pitcb s) (_spi_clock s) (_spi_clock_read s) (_touch_request_read s) (_touch_cs
  s) (_touch_irq s) (_touched_read s) (_touch_x s) (_touch_y s) (_touch_z s) (_em_touched_read s)
  (stats s).
Definition set_last_delta (v : Z) (s : ILI9341Driver) : ILI9341Driver := Build_ILI9341Driver (_width
  s) (_height s) (_rotation s) (_refreshmode s) (_late_start_ratio s) (_late_start_ratio_override s)
  (_diff_gap s) (_vsync_spacing s) (_diff1 s) (_diff2 s) (_fb1 s) (_fb2 s) (_dummydiff1 s)
  (_dummydiff2 s) (_mirrorfb s) (_fb2full s) (_compare_mask s) (_period s) (_period_mode0 s)
  (_synced_em s) (_synced_scanline s) (_pcb s) (_fb s) (_diff s) (_dma_state s) v (_timeframestart
  s) (_last_y s) (_slinitpos s) (_em_async s) (_margin s) (_prev_caset_x s) (_prev_paset_y s)
  (_pitcb s) (_spi_clock s) (_spi_clock_read s) (_touch_request_read s) (_touch_cs s) (_touch_irq s)
  (_touched_read s) (_touch_x s) (_touch_y s) (_touch_z s) (_em_touched_read s) (stats s).
Definition set_timeframestart (v : Z) (s : ILI9341Driver) : ILI9341Driver := Build_ILI9341Driver
  (_width s) (_height s) (_rotation s) (_refreshmode s) (_late_start_ratio s)
  (_late_start_ratio_override s) (_diff_gap s) (_vsync_spacing s) (_diff1 s) (_diff2 s) (_fb1 s)
  (_fb2 s) (_dummydiff1 s) (_dummydiff2 s) (_mirrorfb s) (_fb2full s) (_compare_mask s) (_period s)
  (_period_mode0 s) (_synced_em s) (_synced_scanline s) (_pcb s) (_fb s) (_diff s) (_dma_state s)
  (_last_delta s) v (_last_y s) (_slinitpos s) (_em_async s) (_margin s) (_prev_caset_x s)
  (_prev_paset_y s) (_pitcb s) (_spi_clock s) (_spi_clock_read s) (_touch_request_read s) (_touch_cs
  s) (_touch_irq s) (_touched_read s) (_touch_x s) (_touch_y s) (_touch_z s) (_em_touched_read s)
  (stats s).
Definition set_last_y (v : Z) (s : ILI9341Driver) : ILI9341Driver := Build_ILI9341Driver (_width s)
  (_height s) (_rotation s) (_refreshmode s) (_late_start_ratio s) (_late_start_ratio_override s)
  (_diff_gap s) (_vsync_spacing s) (_diff1 s) (_diff2 s) (_fb1 s) (_fb2 s) (_dummydiff1 s)
  (_dummydiff2 s) (_mirrorfb s) (_fb2full s) (_compare_mask s) (_period s) (_period_mode0 s)
  (_synced_em s) (_synced_scanline s) (_pcb s) (_fb s) (_diff s) (_dma_state s) (_last_delta s)
  (_timeframestart s) v (_slinitpos s) (_em_async s) (_margin s) (_prev_caset_x s) (_prev_paset_y s)
  (_pitcb s) (_spi_clock s) (_spi_clock_read s) (_touch_request_read s) (_touch_cs s) (_touch_irq s)
  (_touched_read s) (_touch_x s) (_touch_y s) (_touch_z s) (_em_touched_read s) (stats s).
Definition set_slinitpos (v : Z) (s : ILI9341Driver) : ILI9341Driver := Build_ILI9341Driver (_width
  s) (_height s) (_rotation s) (_refreshmode s) (_late_start_ratio s) (_late_start_ratio_override s)
  (_diff_gap s) (_vsync_spacing s) (_diff1 s) (_diff2 s) (_fb1 s) (_fb2 s) (_dummydiff1 s)
  (_dummydiff2 s) (_mirrorfb s) (_fb2full s) (_compare_mask s) (_period s) (_period_mode0 s)
  (_synced_em s) (_synced_scanline s) (_pcb s) (_fb s) (_diff s) (_dma_state s) (_last_delta s)
  (_timeframestart s) (_last_y s) v (_em_async s) (_margin s) (_prev_caset_x s) (_prev_paset_y s)
  (_pitcb s) (_spi_clock s) (_spi_clock_read s) (_touch_request_read s) (_touch_cs s) (_touch_irq s)
  (_touched_read s) (_touch_x s) (_touch_y s) (_touch_z s) (_em_touched_read s) (stats s).
Definition set_em_async (v : elapsedMicros) (s : ILI9341Driver) : ILI9341Driver :=
  Build_ILI9341Driver (_width s) (_height s) (_rotation s) (_refreshmode s) (_late_start_ratio s)
  (_late_start_ratio_override s) (_diff_gap s) (_vsync_spacing s) (_diff1 s) (_diff2 s) (_fb1 s)
  (_fb2 s) (_dummydiff1 s) (_dummydiff2 s) (_mirrorfb s) (_fb2full s) (_compare_mask s) (_period s)
  (_period_mode0 s) (_synced_em s) (_synced_scanline s) (_pcb s) (_fb s) (_diff s) (_dma_state s)
  (_last_delta s) (_timeframestart s) (_last_y s) (_slinitpos s) v (_margin s) (_prev_caset_x s)
  (_prev_paset_y s) (_pitcb s) (_spi_clock s) (_spi_clock_read s) (_touch_request_read s) (_touch_cs
  s) (_touch_irq s) (_touched_read s) (_touch_x s) (_touch_y s) (_touch_z s) (_em_touched_read s)
  (stats s).
Definition set_margin (v : Z) (s : ILI9341Driver) : ILI9341Driver := Build_ILI9341Driver (_width s)
  (_height s) (_rotation s) (_refreshmode s) (_late_start_ratio s) (_late_start_ratio_override s)
  (_diff_gap s) (_vsync_spacing s) (_diff1 s) (_diff2 s) (_fb1 s) (_fb2 s) (_dummydiff1 s)
  (_dummydiff2 s) (_mirrorfb s) (_fb2full s) (_compare_mask s) (_period s) (_period_mode0 s)
  (_synced_em s) (_synced_scanline s) (_pcb s) (_fb s) (_diff s) (_dma_state s) (_last_delta s)
  (_timeframestart s) (_last_y s) (_slinitpos s) (_em_async s) v (_prev_caset_x s) (_prev_paset_y s)
  (_pitcb s) (_spi_clock s) (_spi_clock_read s) (_touch_request_read s) (_touch_cs s) (_touch_irq s)
  (_touched_read s) (_touch_x s) (_touch_y s) (_touch_z s) (_em_touched_read s) (stats s).
Definition set_prev_caset_x (v : Z) (s : ILI9341Driver) : ILI9341Driver := Build_ILI9341Driver
  (_width s) (_height s) (_rotation s) (_refreshmode s) (_late_start_ratio s)
  (_late_start_ratio_override s) (_diff_gap s) (_vsync_spacing s) (_diff1 s) (_diff2 s) (_fb1 s)
  (_fb2 s) (_dummydiff1 s) (_dummydiff2 s) (_mirrorfb s) (_fb2full s) (_compare_mask s) (_period s)
  (_period_mode0 s) (_synced_em s) (_synced_scanline s) (_pcb s) (_fb s) (_diff s) (_dma_state s)
  (_last_delta s) (_timeframestart s) (_last_y s) (_slinitpos s) (_em_async s) (_margin s) v
  (_prev_paset_y s) (_pitcb s) (_spi_clock s) (_spi_clock_read s) (_touch_request_read s) (_touch_cs
  s) (_touch_irq s) (_touched_read s) (_touch_x s) (_touch_y s) (_touch_z s) (_em_touched_read s)
  (stats s).
Definition set_prev_paset_y (v : Z) (s : ILI9341Driver) : ILI9341Driver := Build_ILI9341Driver
  (_width s) (_height s) (_rotation s) (_refreshmode s) (_late_start_ratio s)
  (_late_start_ratio_override s) (_diff_gap s) (_vsync_spacing s) (_diff1 s) (_diff2 s) (_fb1 s)
  (_fb2 s) (_dummydiff1 s) (_dummydiff2 s) (_mirrorfb s) (_fb2full s) (_compare_mask s) (_period s)
  (_period_mode0 s) (_synced_em s) (_synced_scanline s) (_pcb s) (_fb s) (_diff s) (_dma_state s)
  (_last_delta s) (_timeframestart s) (_last_y s) (_slinitpos s) (_em_async s) (_margin s)
  (_prev_caset_x s) v (_pitcb s) (_spi_clock s) (_spi_clock_read s) (_touch_request_read s)
  (_touch_cs s) (_touch_irq s) (_touched_read s) (_touch_x s) (_touch_y s) (_touch_z s)
  (_em_touched_read s) (stats s).
Definition set_pitcb (v : option methodCB) (s : ILI9341Driver) : ILI9341Driver :=
  Build_ILI9341Driver (_width s) (_height s) (_rotation s) (_refreshmode s) (_late_start_ratio s)
  (_late_start_ratio_override s) (_diff_gap s) (_vsync_spacing s) (_diff1 s) (_diff2 s) (_fb1 s)
  (_fb2 s) (_dummydiff1 s) (_dummydiff2 s) (_mirrorfb s) (_fb2full s) (_compare_mask s) (_period s)
  (_period_mode0 s) (_synced_em s) (_synced_scanline s) (_pcb s) (_fb s) (_diff s) (_dma_state s)
  (_last_delta s) (_timeframestart s) (_last_y s) (_slinitpos s) (_em_async s) (_margin s)
  (_prev_caset_x s) (_prev_paset_y s) v (_spi_clock s) (_spi_clock_read s) (_touch_request_read s)
  (_touch_cs s) (_touch_irq s) (_touched_read s) (_touch_x s) (_touch_y s) (_touch_z s)
  (_em_touched_read s) (stats s).
Definition set_spi_clock (v : Z) (s : ILI9341Driver) : ILI9341Driver := Build_ILI9341Driver (_width
  s) (_height s) (_rotation s) (_refreshmode s) (_late_start_ratio s) (_late_start_ratio_override s)
  (_diff_gap s) (_vsync_spacing s) (_diff1 s) (_diff2 s) (_fb1 s) (_fb2 s) (_dummydiff1 s)
  (_dummydiff2 s) (_mirrorfb s) (_fb2full s) (_compare_mask s) (_period s) (_period_mode0 s)
  (_synced_em s) (_synced_scanline s) (_pcb s) (_fb s) (_diff s) (_dma_state s) (_last_delta s)
  (_timeframestart s) (_last_y s) (_slinitpos s) (_em_async s) (_margin s) (_prev_caset_x s)
  (_prev_paset_y s) (_pitcb s) v (_spi_clock_read s) (_touch_request_read s) (_touch_cs s)
  (_touch_irq s) (_touched_read s) (_touch_x s) (_touch_y s) (_touch_z s) (_em_touched_read s)
  (stats s).
Definition set_spi_clock_read (v : Z) (s : ILI9341Driver) : ILI9341Driver := Build_ILI9341Driver
  (_width s) (_height s) (_rotation s) (_refreshmode s) (_late_start_ratio s)
  (_late_start_ratio_override s) (_diff_gap s) (_vsync_spacing s) (_diff1 s) (_diff2 s) (_fb1 s)
  (_fb2 s) (_dummydiff1 s) (_dummydiff2 s) (_mirrorfb s) (_fb2full s) (_compare_mask s) (_period s)
  (_period_mode0 s) (_synced_em s) (_synced_scanline s) (_pcb s) (_fb s) (_diff s) (_dma_state s)
  (_last_delta s) (_timeframestart s) (_last_y s) (_slinitpos s) (_em_async s) (_margin s)
  (_prev_caset_x s) (_prev_paset_y s) (_pitcb s) (_spi_clock s) v (_touch_request_read s) (_touch_cs
  s) (_touch_irq s) (_touched_read s) (_touch_x s) (_touch_y s) (_touch_z s) (_em_touched_read s)
  (stats s).
Definition set_touch_request_read (v : bool) (s : ILI9341Driver) : ILI9341Driver :=
  Build_ILI9341Driver (_width s) (_height s) (_rotation s) (_refreshmode s) (_late_start_ratio s)
  (_late_start_ratio_override s) (_diff_gap s) (_vsync_spacing s) (_diff1 s) (_diff2 s) (_fb1 s)
  (_fb2 s) (_dummydiff1 s) (_dummydiff2 s) (_mirrorfb s) (_fb2full s) (_compare_mask s) (_period s)
  (_period_mode0 s) (_synced_em s) (_synced_scanline s) (_pcb s) (_fb s) (_diff s) (_dma_state s)
  (_last_delta s) (_timeframestart s) (_last_y s) (_slinitpos s) (_em_async s) (_margin s)
  (_prev_caset_x s) (_prev_paset_y s) (_pitcb s) (_spi_clock s) (_spi_clock_read s) v (_touch_cs s)
  (_touch_irq s) (_touched_read s) (_touch_x s) (_touch_y s) (_touch_z s) (_em_touched_read s)
  (stats s).
Definition set_touch_cs (v : Z) (s : ILI9341Driver) : ILI9341Driver := Build_ILI9341Driver (_width
  s) (_height s) (_rotation s) (_refreshmode s) (_late_start_ratio s) (_late_start_ratio_override s)
  (_diff_gap s) (_vsync_spacing s) (_diff1 s) (_diff2 s) (_fb1 s) (_fb2 s) (_dummydiff1 s)
  (_dummydiff2 s) (_mirrorfb s) (_fb2full s) (_compare_mask s) (_period s) (_period_mode0 s)
  (_synced_em s) (_synced_scanline s) (_pcb s) (_fb s) (_diff s) (_dma_state s) (_last_delta s)
  (_timeframestart s) (_last_y s) (_slinitpos s) (_em_async s) (_margin s) (_prev_caset_x s)
  (_prev_paset_y s) (_pitcb s) (_spi_clock s) (_spi_clock_read s) (_touch_request_read s) v
  (_touch_irq s) (_touched_read s) (_touch_x s) (_touch_y s) (_touch_z s) (_em_touched_read s)
  (stats s).
Definition set_touch_irq (v : Z) (s : ILI9341Driver) : ILI9341Driver := Build_ILI9341Driver (_width
  s) (_height s) (_rotation s) (_refreshmode s) (_late_start_ratio s) (_late_start_ratio_override s)
  (_diff_gap s) (_vsync_spacing s) (_diff1 s) (_diff2 s) (_fb1 s) (_fb2 s) (_dummydiff1 s)
  (_dummydiff2 s) (_mirrorfb s) (_fb2full s) (_compare_mask s) (_period s) (_period_mode0 s)
  (_synced_em s) (_synced_scanline s) (_pcb s) (_fb s) (_diff s) (_dma_state s) (_last_delta s)
  (_timeframestart s) (_last_y s) (_slinitpos s) (_em_async s) (_margin s) (_prev_caset_x s)
  (_prev_paset_y s) (_pitcb s) (_spi_clock s) (_spi_clock_read s) (_touch_request_read s) (_touch_cs
  s) v (_touched_read s) (_touch_x s) (_touch_y s) (_touch_z s) (_em_touched_read s) (stats s).
Definition set_touched_read (v : bool) (s : ILI9341Driver) : ILI9341Driver := Build_ILI9341Driver
  (_width s) (_height s) (_rotation s) (_refreshmode s) (_late_start_ratio s)
  (_late_start_ratio_override s) (_diff_gap s) (_vsync_spacing s) (_diff1 s) (_diff2 s) (_fb1 s)
  (_fb2 s) (_dummydiff1 s) (_dummydiff2 s) (_mirrorfb s) (_fb2full s) (_compare_mask s) (_period s)
  (_period_mode0 s) (_synced_em s) (_synced_scanline s) (_pcb s) (_fb s) (_diff s) (_dma_state s)
  (_last_delta s) (_timeframestart s) (_last_y s) (_slinitpos s) (_em_async s) (_margin s)
  (_prev_caset_x s) (_prev_paset_y s) (_pitcb s) (_spi_clock s) (_spi_clock_read s)
  (_touch_request_read s) (_touch_cs s) (_touch_irq s) v (_touch_x s) (_touch_y s) (_touch_z s)
  (_em_touched_read s) (stats s).
Definition set_touch_x (v : Z) (s : ILI9341Driver) : ILI9341Driver := Build_ILI9341Driver (_width s)
  (_height s) (_rotation s) (_refreshmode s) (_late_start_ratio s) (_late_start_ratio_override s)
  (_diff_gap s) (_vsync_spacing s) (_diff1 s) (_diff2 s) (_fb1 s) (_fb2 s) (_dummydiff1 s)
  (_dummydiff2 s) (_mirrorfb s) (_fb2full s) (_compare_mask s) (_period s) (_period_mode0 s)
  (_synced_em s) (_synced_scanline s) (_pcb s) (_fb s) (_diff s) (_dma_state s) (_last_delta s)
  (_timeframestart s) (_last_y s) (_slinitpos s) (_em_async s) (_margin s) (_prev_caset_x s)
  (_prev_paset_y s) (_pitcb s) (_spi_clock s) (_spi_clock_read s) (_touch_request_read s) (_touch_cs
  s) (_touch_irq s) (_touched_read s) v (_touch_y s) (_touch_z s) (_em_touched_read s) (stats s).
Definition set_touch_y (v : Z) (s : ILI9341Driver) : ILI9341Driver := Build_ILI9341Driver (_width s)
  (_height s) (_rotation s) (_refreshmode s) (_late_start_ratio s) (_late_start_ratio_override s)
  (_diff_gap s) (_vsync_spacing s) (_diff1 s) (_diff2 s) (_fb1 s) (_fb2 s) (_dummydiff1 s)
  (_dummydiff2 s) (_mirrorfb s) (_fb2full s) (_compare_mask s) (_period s) (_period_mode0 s)
  (_synced_em s) (_synced_scanline s) (_pcb s) (_fb s) (_diff s) (_dma_state s) (_last_delta s)
  (_timeframestart s) (_last_y s) (_slinitpos s) (_em_async s) (_margin s) (_prev_caset_x s)
  (_prev_paset_y s) (_pitcb s) (_spi_clock s) (_spi_clock_read s) (_touch_request_read s) (_touch_cs
  s) (_touch_irq s) (_touched_read s) (_touch_x s) v (_touch_z s) (_em_touched_read s) (stats s).
Definition set_touch_z (v : Z) (s : ILI9341Driver) : ILI9341Driver := Build_ILI9341Driver (_width s)
  (_height s) (_rotation s) (_refreshmode s) (_late_start_ratio s) (_late_start_ratio_override s)
  (_diff_gap s) (_vsync_spacing s) (_diff1 s) (_diff2 s) (_fb1 s) (_fb2 s) (_dummydiff1 s)
  (_dummydiff2 s) (_mirrorfb s) (_fb2full s) (_compare_mask s) (_period s) (_period_mode0 s)
  (_synced_em s) (_synced_scanline s) (_pcb s) (_fb s) (_diff s) (_dma_state s) (_last_delta s)
  (_timeframestart s) (_last_y s) (_slinitpos s) (_em_async s) (_margin s) (_prev_caset_x s)
  (_prev_paset_y s) (_pitcb s) (_spi_clock s) (_spi_clock_read s) (_touch_request_read s) (_touch_cs
  s) (_touch_irq s) (_touched_read s) (_touch_x s) (_touch_y s) v (_em_touched_read s) (stats s).
Definition set_em_touched_read (v : elapsedMillis) (s : ILI9341Driver) : ILI9341Driver :=
  Build_ILI9341Driver (_width s) (_height s) (_rotation s) (_refreshmode s) (_late_start_ratio s)
  (_late_start_ratio_override s) (_diff_gap s) (_vsync_spacing s) (_diff1 s) (_diff2 s) (_fb1 s)
  (_fb2 s) (_dummydiff1 s) (_dummydiff2 s) (_mirrorfb s) (_fb2full s) (_compare_mask s) (_period s)
  (_period_mode0 s) (_synced_em s) (_synced_scanline s) (_pcb s) (_fb s) (_diff s) (_dma_state s)
  (_last_delta s) (_timeframestart s) (_last_y s) (_slinitpos s) (_em_async s) (_margin s)
  (_prev_caset_x s) (_prev_paset_y s) (_pitcb s) (_spi_clock s) (_spi_clock_read s)
  (_touch_request_read s) (_touch_cs s) (_touch_irq s) (_touched_read s) (_touch_x s) (_touch_y s)
  (_touch_z s) v (stats s).
Definition setstats (v : Stats) (s : ILI9341Driver) : ILI9341Driver := Build_ILI9341Driver (_width
  s) (_height s) (_rotation s) (_refreshmode s) (_late_start_ratio s) (_late_start_ratio_override s)
  (_diff_gap s) (_vsync_spacing s) (_diff1 s) (_diff2 s) (_fb1 s) (_fb2 s) (_dummydiff1 s)
  (_dummydiff2 s) (_mirrorfb s) (_fb2full s) (_compare_mask s) (_period s) (_period_mode0 s)
  (_synced_em s) (_synced_scanline s) (_pcb s) (_fb s) (_diff s) (_dma_state s) (_last_delta s)
  (_timeframestart s) (_last_y s) (_slinitpos s) (_em_async s) (_margin s) (_prev_caset_x s)
  (_prev_paset_y s) (_pitcb s) (_spi_clock s) (_spi_clock_read s) (_touch_request_read s) (_touch_cs
  s) (_touch_irq s) (_touched_read s) (_touch_x s) (_touch_y s) (_touch_z s) (_em_touched_read s) v.

Record Hardware : Type := {
  clock : Z;  (* free-running microsecond counter *)
  ram : nat -> Z -> Z;  (* contents of the caller's framebuffers *)
  rx : list (Z * Z);  (* SPI receive queue: (microseconds until it arrives, value) *)
  irq_sched : list (Z * list irq);  (* interrupt arrivals: (microseconds later, interrupts raised) *)
  diff_reads : list read_result;  (* answers of the coming readDiff calls *)
  irq_masked : bool;  (* between noInterrupts() and interrupts() *)
  in_isr : bool;  (* an interrupt handler is running *)
  dma_enabled : bool;  (* the transmit DMA chain is running *)
  trace : list event  (* what the driver did so far, oldest first *)
}.

Definition set_clock (v : Z) (s : Hardware) : Hardware := Build_Hardware v (ram s) (rx s) (irq_sched
  s) (diff_reads s) (irq_masked s) (in_isr s) (dma_enabled s) (trace s).
Definition set_ram (v : nat -> Z -> Z) (s : Hardware) : Hardware := Build_Hardware (clock s) v (rx
  s) (irq_sched s) (diff_reads s) (irq_masked s) (in_isr s) (dma_enabled s) (trace s).
Definition set_rx (v : list (Z * Z)) (s : Hardware) : Hardware := Build_Hardware (clock s) (ram s) v
  (irq_sched s) (diff_reads s) (irq_masked s) (in_isr s) (dma_enabled s) (trace s).
Definition set_irq_sched (v : list (Z * list irq)) (s : Hardware) : Hardware := Build_Hardware
  (clock s) (ram s) (rx s) v (diff_reads s) (irq_masked s) (in_isr s) (dma_enabled s) (trace s).
Definition set_diff_reads (v : list read_result) (s : Hardware) : Hardware := Build_Hardware (clock
  s) (ram s) (rx s) (irq_sched s) v (irq_masked s) (in_isr s) (dma_enabled s) (trace s).
Definition set_irq_masked (v : bool) (s : Hardware) : Hardware := Build_Hardware (clock s) (ram s)
  (rx s) (irq_sched s) (diff_reads s) v (in_isr s) (dma_enabled s) (trace s).
Definition set_in_isr (v : bool) (s : Hardware) : Hardware := Build_Hardware (clock s) (ram s) (rx
  s) (irq_sched s) (diff_reads s) (irq_masked s) v (dma_enabled s) (trace s).
Definition set_dma_enabled (v : bool) (s : Hardware) : Hardware := Build_Hardware (clock s) (ram s)
  (rx s) (irq_sched s) (diff_reads s) (irq_masked s) (in_isr s) v (trace s).
Definition set_trace (v : list event) (s : Hardware) : Hardware := Build_Hardware (clock s) (ram s)
  (rx s) (irq_sched s) (diff_reads s) (irq_masked s) (in_isr s) (dma_enabled s) v.

(** ** The state monad of the driver *)

Record world : Type := {
  drv : ILI9341Driver;
  hw : Hardware;
  board : Board
}.

(** A member function either returns a value and the next state, or never
    returns ([None]): a wait loop that nothing ends, or a trapping
    operation. *)
Definition M (A : Type) : Type := world -> option (A * world).

Definition ret {A : Type} (a : A) : M A := fun w => Some (a, w).

Definition bind {A B : Type} (c : M A) (k : A -> M B) : M B :=
  fun w => match c w with
           | Some (a, w') => k a w'
           | None => None
           end.

Definition stuck {A : Type} : M A := fun _ => None.

Notation "x <- c1 ;; c2" := (bind c1 (fun x => c2))
  (at level 61, c1 at next level, right associativity).
Notation "' pat <- c1 ;; c2" := (bind c1 (fun x => match x with pat => c2 end))
  (at level 61, pat pattern, c1 at next level, right associativity).
Notation "c1 ;; c2" := (bind c1 (fun _ => c2))
  (at level 61, right associativity).

Definition when (b : bool) (c : M unit) : M unit := if b then c else ret tt.

(** Reading and writing a member variable. *)
Definition rd {A : Type} (f : ILI9341Driver -> A) : M A :=
  fun w => Some (f (drv w), w).

Definition wr {A : Type} (set : A -> ILI9341Driver -> ILI9341Driver) (v : A) : M unit :=
  fun w => Some (tt, Build_world (set v (drv w)) (hw w) (board w)).

Definition rds {A : Type} (f : Stats -> A) : M A := rd (fun d => f (stats d)).

Definition wrs {A : Type} (set : A -> Stats -> Stats) (v : A) : M unit :=
  fun w => Some (tt, Build_world (setstats (set v (stats (drv w))) (drv w)) (hw w) (board w)).

(** Reading and writing the hardware. *)
Definition hrd {A : Type} (f : Hardware -> A) : M A :=
  fun w => Some (f (hw w), w).

Definition hwr {A : Type} (set : A -> Hardware -> Hardware) (v : A) : M unit :=
  fun w => Some (tt, Build_world (drv w) (set v (hw w)) (board w)).

Definition const (f : Board -> Z) : M Z := fun w => Some (f (board w), w).

(** Bounded iteration: [body] returns [inl s] to go round again with loop
    state [s], [inr r] to leave the loop with [r]. *)
Fixpoint iterate {St R : Type} (n : nat) (body : St -> M (St + R)) (s : St) : M R :=
  match n with
  | O => stuck
  | S k =>
      r <- body s ;;
      match r with
      | inl s' => iterate k body s'
      | inr x => ret x
      end
  end.

(** Every loop of the driver that has no bound of its own polls the
    hardware: each round takes a received word, an interrupt arrival or an
    answer of the diff reader.  What is left of those bounds the rounds. *)
Definition budget (w : world) : nat :=
  S (length (rx (hw w)) + length (irq_sched (hw w)) + length (diff_reads (hw w))).

Definition loop {St R : Type} (body : St -> M (St + R)) (s : St) : M R :=
  fun w => iterate (budget w) body s w.

(** [while (cond) body;] *)
Definition while (cond : M bool) (body : M unit) : M unit :=
  loop (fun _ : unit => c <- cond ;; if c then body ;; ret (inl tt) else ret (inr tt)) tt.

(** [for (i = 0; i < n; i++) body;] for a body that does not read [i]. *)
Fixpoint repeat_n (n : nat) (body : M unit) : M unit :=
  match n with
  | O => ret tt
  | S k => body ;; repeat_n k body
  end.

(** Dereferencing a pointer; a null pointer traps. *)
Definition deref {A : Type} (p : option A) : M A :=
  match p with
  | Some a => ret a
  | None => stuck
  end.

(** ** Hardware primitives

    Modelled from the spec: the SPI, timer, clock and cache operations live
    in the absent header and in the Teensy core; section 6 of the spec lists
    them as the capabilities the core consumes. *)

(** Modelled from the spec: what the driver sends to the outside (SPI, timer, DMA,
    diff buffers) is recorded in order. *)
Definition emit (e : event) : M unit :=
  t <- hrd trace ;; hwr set_trace (t ++ [e]).

(** Modelled from the spec: [micros()] of the Teensy core, a 32-bit microsecond clock. *)
Definition micros : M Z := c <- hrd clock ;; ret (uint32 c).

(** Modelled from the spec: [millis()] of the Teensy core. *)
Definition millis : M Z := c <- hrd clock ;; ret (uint32 (c / 1000)).

(** Modelled from the spec: [delayMicroseconds()] of the Teensy core; time passes. *)
Definition delayMicroseconds (t : Z) : M unit :=
  c <- hrd clock ;; hwr set_clock (c + uint32 t).

(** Modelled from the spec: [delay()] of the Teensy core; time passes. *)
Definition delay (ms : Z) : M unit :=
  c <- hrd clock ;; hwr set_clock (c + 1000 * uint32 ms).

(** Modelled from the spec: [_delayMicro()] of the absent header, a busy wait. *)
Definition _delayMicro (t : Z) : M unit := delayMicroseconds t.

(** Modelled from the spec: Value of an [elapsedMicros] object. *)
Definition elapsed (em : elapsedMicros) : M Z :=
  now <- micros ;; ret (uint32 (now - em)).

(** Modelled from the spec: "SPI bus with FIFO": the transaction and
    the writes of the absent header, one event each; [_cont] and [_last] differ
    only in the chip-select bit. *)
Definition _beginSPITransaction (clk : Z) : M unit := emit (BeginSPITransaction clk).
(** Modelled from the spec: see [_beginSPITransaction]. *)
Definition _endSPITransaction : M unit := emit EndSPITransaction.
(** Modelled from the spec: see [_beginSPITransaction]. *)
Definition _writecommand_cont (c : panel_cmd) : M unit := emit (WriteCommand c).
(** Modelled from the spec: see [_beginSPITransaction]. *)
Definition _writecommand_last (c : panel_cmd) : M unit := emit (WriteCommand c).
(** Modelled from the spec: see [_beginSPITransaction]. *)
Definition _writedata8_cont (b : Z) : M unit := emit (WriteData8 (uint8 b)).
(** Modelled from the spec: see [_beginSPITransaction]. *)
Definition _writedata8_last (b : Z) : M unit := emit (WriteData8 (uint8 b)).
(** Modelled from the spec: see [_beginSPITransaction]. *)
Definition _writedata16_cont (v : Z) : M unit := emit (WriteData16 (uint16 v)).
(** Modelled from the spec: see [_beginSPITransaction]. *)
Definition _writedata16_last (v : Z) : M unit := emit (WriteData16 (uint16 v)).

(** Modelled from the spec: "cache-flush primitive for DMA source ranges". *)
Definition _flush_cache (fb : fbptr) : M unit := emit (FlushCache fb).

(** Modelled from the spec: [noInterrupts()] of the Teensy core. *)
Definition noInterrupts : M unit := hwr set_irq_masked true.

(** Modelled from the spec: Next word of the SPI receive register; polling for it takes the time
    the hardware needs. *)
Definition rx_read : M Z :=
  q <- hrd rx ;;
  match q with
  | [] => stuck
  | (dt, v) :: q' =>
      hwr set_rx q' ;;
      c <- hrd clock ;; hwr set_clock (c + dt) ;;
      ret v
  end.

(** Modelled from the spec: Contents of a framebuffer of the caller. *)
Definition pixels (fb : fbptr) : M (Z -> Z) :=
  m <- hrd ram ;;
  ret (match fb with Some a => m a | None => fun _ => 0 end).

(** ** The diff reader

    Modelled from the spec: the [DiffBuff] classes are not part of the
    sources.  [computeDiff], [computeDummyDiff], [copyfb] and [initRead] are
    recorded in the trace; the answers of [readDiff] come from the
    environment, and once it has no more to say the stream is at its end
    (code -1, arguments untouched). *)

(** Modelled from the spec: [DiffBuffBase::initRead] of the absent diff classes. *)
Definition initRead (d : diffref) : M unit := emit (InitRead d).

(** Modelled from the spec: [DiffBuffBase::readDiff]: "returns 0 (a run
    ready), > 0 (wait that many scanlines), or < 0 (end of stream)". *)
Definition readDiff (d : diffref) (xyl : Z * Z * Z) (scanline : Z) : M (Z * Z * Z * Z) :=
  let '(x, y, len) := xyl in
  q <- hrd diff_reads ;;
  match q with
  | [] => ret (x, y, len, -1)
  | r :: q' =>
      hwr set_diff_reads q' ;;
      ret (match rr_x r with Some v => int32 v | None => x end,
           match rr_y r with Some v => int32 v | None => y end,
           match rr_len r with Some v => int32 v | None => len end,
           int32 (rr_code r))
  end.

(** Modelled from the spec: [DiffBuffDummy::computeDummyDiff], the diff that
    redraws everything. *)
Definition computeDummyDiff (d : diffref) : M unit := emit (ComputeDummyDiff d).

(** ** Small members of the header

    Modelled from the spec: these inline members are defined in the absent
    header [ILI9341Driver.h]; each follows the sentence of the spec that
    describes it. *)

(** Modelled from the spec: "Buffering mode (derived): NO (no target fbs configured), DOUBLE (one
    target fb), TRIPLE (two target fbs)." *)
Definition bufferingMode : M buffering_mode :=
  fb1 <- rd _fb1 ;; fb2 <- rd _fb2 ;;
  ret (match fb1, fb2 with
       | None, None => NO_BUFFERING
       | Some _, Some _ => TRIPLE_BUFFERING
       | _, _ => DOUBLE_BUFFERING
       end).

(** Modelled from the spec: "At most one upload in flight": the upload is in flight while the DMA
    state is not idle. *)
Definition asyncUpdateActive : M bool :=
  s <- rd _dma_state ;; ret (negb (dma_state_eqb s ILI9341_T4_DMA_IDLE)).

(** Modelled from the spec: accessor of the absent header. *)
Definition getRotation : M Z := rd _rotation.
(** Modelled from the spec: accessor of the absent header. *)
Definition getRefreshMode : M Z := rd _refreshmode.

(** Modelled from the spec: "[late_start_ratio_override] forces one-shot resync behavior." *)
Definition resync : M unit := wr set_late_start_ratio_override true.

(** Modelled from the spec: "Silently clamp". *)
Definition _clip (v lo hi : Z) : Z := Z.max lo (Z.min hi v).

(** Modelled from the spec: the pending completion callback; [_setCB()]
    removes it. *)
Definition _setCB (cb : option methodCB) : M unit := wr set_pcb cb.

(** Modelled from the spec: [_swapdiff()] of the absent header exchanges the two diff
    buffers. *)
Definition _swapdiff : M unit :=
  a <- rd _diff1 ;; b <- rd _diff2 ;; wr set_diff1 b ;; wr set_diff2 a.

(** Modelled from the spec: [_swapdummydiff()] of the absent header. *)
Definition _swapdummydiff : M unit :=
  a <- rd _dummydiff1 ;; b <- rd _dummydiff2 ;; wr set_dummydiff1 b ;; wr set_dummydiff2 a.

(** Modelled from the spec: [_swapfb()] of the absent header exchanges [_fb1] and
    [_fb2]. *)
Definition _swapfb : M unit :=
  a <- rd _fb1 ;; b <- rd _fb2 ;; wr set_fb1 b ;; wr set_fb2 a.

(** Modelled from the spec: "[em_async * 320 / P]": scanlines swept during [t] microseconds. *)
Definition _nbScanlineDuring (t : Z) : M Z :=
  p <- rd _period ;; ret (cdiv (t * ILI9341_T4_NB_SCANLINES) p).

(** Modelled from the spec: "[time_for_scanlines(n)]: [n * P / 320]". *)
Definition _timeForScanlines (n : Z) : M Z :=
  p <- rd _period ;; ret (cdiv (n * p) ILI9341_T4_NB_SCANLINES).

(** Modelled from the spec: one-shot timer, "[one_shot_in(us, cb)]". *)
Definition _setTimerIn (us : Z) (cb : methodCB) : M unit :=
  emit (SetTimerIn (uint32 us) cb) ;; wr set_pitcb (Some cb).

(** Modelled from the spec: one-shot timer, "[one_shot_at(us_absolute, cb)]". *)
Definition _setTimerAt (ustime : Z) (cb : methodCB) : M unit :=
  emit (SetTimerAt (uint32 ustime) cb) ;; wr set_pitcb (Some cb).

(** Modelled from the spec: "Uses two pause/resume counters (CPU, upload) ... entries into wait
    states pause; exits resume." *)
Definition _restartCpuTime : M unit :=
  now <- micros ;; wrs set_stats_elapsed_cputime now.

(** Modelled from the spec: see [_restartCpuTime]. *)
Definition _pauseCpuTime : M unit :=
  em <- rds _stats_elapsed_cputime ;; e <- elapsed em ;;
  t <- rds _stats_cputime ;; wrs set_stats_cputime (uint32 (t + e)).

(** Modelled from the spec: see [_restartCpuTime]. *)
Definition _restartUploadTime : M unit :=
  now <- micros ;; wrs set_stats_elapsed_uploadtime now.

(** Modelled from the spec: see [_restartCpuTime]. *)
Definition _pauseUploadTime : M unit :=
  em <- rds _stats_elapsed_uploadtime ;; e <- elapsed em ;;
  t <- rds _stats_uploadtime ;; wrs set_stats_uploadtime (uint32 (t + e)).

(** Modelled from the spec: [_startframe()] of the absent header clears the
    counters of the frame and starts both clocks. *)
Definition _startframe (vsync_on : bool) : M unit :=
  wrs set_stats_nb_transactions 0 ;;
  wrs set_stats_cputime 0 ;;
  wrs set_stats_uploadtime 0 ;;
  _restartCpuTime ;;
  _restartUploadTime.

(** ** The touch controller *)

(** Modelled from the spec: [_pspi->transfer()] and [_pspi->transfer16()] of
    the Teensy core: a word is sent, the word received in exchange is the
    next one of the SPI receive register. *)
Definition transfer (c : Z) : M Z :=
  emit (Transfer c) ;; r <- rx_read ;; ret (uint8 r).

(** Modelled from the spec: see [transfer]. *)
Definition transfer16 (c : Z) : M Z :=
  emit (Transfer16 c) ;; r <- rx_read ;; ret (uint16 r).

(** The average of the two closest of three samples. *)
Definition _besttwoavg (x y z : Z) : Z :=
  let da := int16 (if y <? x then x - y else y - x) in
  let db := int16 (if z <? x then x - z else z - x) in
  let dc := int16 (if y <? z then z - y else y - z) in
  if (da <=? db) && (da <=? dc) then int16 (Z.shiftr (x + y) 1)
  else if (db <=? da) && (db <=? dc) then int16 (Z.shiftr (x + z) 1)
  else int16 (Z.shiftr (y + z) 1).

(** [int16_t v = _pspi->transfer16(c) >> 3;] *)
Definition transfer16_shr3 (c : Z) : M Z :=
  r <- transfer16 c ;; ret (int16 (Z.shiftr r 3)).

(** Read the touch controller: the pressure, and if it is high enough three
    positions of which the two closest are averaged; the position is stored
    along the rotation of the screen. *)
Definition _updateTouch2 : M unit :=
  (clk <- rd _spi_clock_read ;; emit (TouchBeginTransaction clk)) ;;
  (cs <- rd _touch_cs ;; emit (DigitalWrite cs false)) ;;
  transfer 0xB1 ;;
  z1 <- transfer16_shr3 0xC1 ;;
  let z := int32 (z1 + 4095) in
  z2 <- transfer16_shr3 0x91 ;;
  let z := int32 (z - z2) in
  thr <- const ILI9341_T4_TOUCH_Z_THRESHOLD ;;
  thr_int <- const ILI9341_T4_TOUCH_Z_THRESHOLD_INT ;;
  '(data0, data1, data2, data3) <-
    (if thr <=? z then
       transfer16 0x91 ;;
       d0 <- transfer16_shr3 0xD1 ;;
       d1 <- transfer16_shr3 0x91 ;;
       d2 <- transfer16_shr3 0xD1 ;;
       d3 <- transfer16_shr3 0x91 ;;
       ret (d0, d1, d2, d3)
     else ret (0, 0, 0, 0)) ;;
  data4 <- transfer16_shr3 0xD0 ;;
  data5 <- transfer16_shr3 0 ;;
  (cs <- rd _touch_cs ;; emit (DigitalWrite cs true)) ;;
  emit TouchEndTransaction ;;
  let z := if z <? 0 then 0 else z in
  if z <? thr then
    wr set_touch_z 0 ;;
    when (z <? thr_int)
      (irq <- rd _touch_irq ;; when (negb (irq =? 255)) (wr set_touched_read false))
  else
    wr set_touch_z z ;;
    let x := _besttwoavg data0 data2 data4 in
    let y := _besttwoavg data1 data3 data5 in
    when (thr <=? z)
      ((now <- millis ;; wr set_em_touched_read now) ;;
       rot <- rd _rotation ;;
       if rot =? 0 then wr set_touch_x (4095 - y) ;; wr set_touch_y (4095 - x)
       else if rot =? 1 then wr set_touch_x (4095 - x) ;; wr set_touch_y y
       else if rot =? 2 then wr set_touch_x y ;; wr set_touch_y x
       else wr set_touch_x x ;; wr set_touch_y (4095 - y)).

(** ** Statistics *)

Definition statsReset : M unit :=
  wrs set_stats_nb_frame 0 ;;
  (now <- millis ;; wrs set_stats_elapsed_total now) ;;
  wrs set_statsvar_cputime [] ;;
  wrs set_statsvar_uploadtime [] ;;
  wrs set_statsvar_uploaded_pixels [] ;;
  wrs set_statsvar_transactions [] ;;
  wrs set_statsvar_margin [] ;;
  wrs set_statsvar_vsyncspacing [] ;;
  wrs set_nbteared 0.

Definition push (get : Stats -> StatsVar) (set : StatsVar -> Stats -> Stats) (v : Z) : M unit :=
  l <- rds get ;; wrs set (l ++ [v]).

Definition _endframe : M unit :=
  (n <- rds _stats_nb_frame ;; wrs set_stats_nb_frame (uint32 (n + 1))) ;;
  (em <- rds _stats_elapsed_cputime ;; e <- elapsed em ;;
   t <- rds _stats_cputime ;; wrs set_stats_cputime (uint32 (t + e))) ;;
  (t <- rds _stats_cputime ;; push _statsvar_cputime set_statsvar_cputime t) ;;
  (em <- rds _stats_elapsed_uploadtime ;; e <- elapsed em ;;
   t <- rds _stats_uploadtime ;; wrs set_stats_uploadtime (uint32 (t + e))) ;;
  (t <- rds _stats_uploadtime ;; push _statsvar_uploadtime set_statsvar_uploadtime t) ;;
  (n <- rds _stats_nb_uploaded_pixels ;;
   push _statsvar_uploaded_pixels set_statsvar_uploaded_pixels n) ;;
  (n <- rds _stats_nb_transactions ;;
   push _statsvar_transactions set_statsvar_transactions n) ;;
  vs <- rd _vsync_spacing ;;
  when (0 <? vs)
    ((samples <- rds _statsvar_margin ;;
      when (0 <? Z.of_nat (length samples))
        (d <- rd _last_delta ;; push _statsvar_vsyncspacing set_statsvar_vsyncspacing d)) ;;
     (m <- rd _margin ;;
      when (m <? 0) (n <- rds _nbteared ;; wrs set_nbteared (uint32 (n + 1)))) ;;
     (m <- rd _margin ;; push _statsvar_margin set_statsvar_margin m)).

(** ** Timing and vsync *)

(** Return the current scanline in [0, 319]; talk to the panel only if
    [sync] is set. *)
Definition _getScanLine (sync : bool) : M Z :=
  if negb sync then
    sl <- rd _synced_scanline ;;
    em <- rd _synced_em ;; e <- elapsed em ;;
    p <- rd _period ;;
    if p =? 0 then stuck
    else ret (int32 (uint64 (sl + uint64 (e * ILI9341_T4_NB_SCANLINES) / p)
                     mod ILI9341_T4_NB_SCANLINES))
  else
    (clk <- rd _spi_clock_read ;; _beginSPITransaction clk) ;;
    emit ScanlineQuery ;;
    delayMicroseconds 5 ;;
    res2 <- rx_read ;;
    res1 <- rx_read ;;
    res0 <- rx_read ;;
    (now <- micros ;; wr set_synced_em now) ;;
    _endSPITransaction ;;
    let sc := int32 (2 * int32 res0 - 3) in
    let sc := if sc <? 0 then 0 else sc in
    wr set_synced_scanline (uint32 sc) ;;
    ret sc.

Definition NB_SAMPLE_FRAMES : Z := 10.

Definition _sampleRefreshRate : M unit :=
  while (s <- _getScanLine true ;; ret (negb (s =? 0))) (ret tt) ;;
  while (s <- _getScanLine true ;; ret (s =? 0)) (ret tt) ;;
  em <- micros ;;
  repeat_n (Z.to_nat NB_SAMPLE_FRAMES)
    (delayMicroseconds 5000 ;;
     while (s <- _getScanLine true ;; ret (negb (s =? 0))) (ret tt) ;;
     while (s <- _getScanLine true ;; ret (s =? 0)) (ret tt)) ;;
  e <- elapsed em ;;
  wr set_period (uint32 (round_div e NB_SAMPLE_FRAMES)).

(** The refresh rate in Hz of a refresh mode, from the period in
    microseconds measured in the fastest mode; computed in [double]. *)
Definition _refreshRateForMode (mode : Z) : M double :=
  p <- rd _period_mode0 ;;
  let freq := double_div (double_of_int 1000000) (double_of_int p) in
  let '(freq, mode) :=
    if 16 <=? mode then (double_div freq (double_of_int 2), int32 (mode - 16))
    else (freq, mode) in
  ret (double_div (double_mul freq (double_of_int 16))
                  (double_add (double_of_int 16) (double_of_int mode))).

(** Modelled from the spec: "[micros_to_reach(s, sync)]: forward distance in
    the 320-scanline cycle" (defined in the absent header). *)
Definition _microToReachScanLine (scanline : Z) (sync : bool) : M Z :=
  now <- _getScanLine sync ;;
  let d := scanline - now in
  let d := if d <? 0 then d + ILI9341_T4_NB_SCANLINES else d in
  _timeForScanlines d.

(** Modelled from the spec: "[micros_to_exit([a,b], sync)]: 0 if current
    scanline is outside [a,b], else time to exit" (defined in the absent
    header); the two-argument calls of the source resynchronise. *)
Definition _microToExitRange (a b : Z) : M Z :=
  now <- _getScanLine true ;;
  if (now <? a) || (b <? now) then ret 0
  else _timeForScanlines (b - now + 1).

(** ** Pixel pusher *)

Fixpoint _pushpixels_mode0_loop (len : nat) (fb : Z -> Z) (p : Z) : M unit :=
  match len with
  | O => ret tt
  | S k => _writedata16_cont (fb p) ;; _pushpixels_mode0_loop k fb (p + 1)
  end.

Definition _pushpixels_mode0 (fb : Z -> Z) (x y len : Z) : M unit :=
  let p := x + int32 (y * ILI9341_T4_TFTWIDTH) in
  _pushpixels_mode0_loop (Z.to_nat len) fb p.

Fixpoint _pushpixels_mode1_loop (len : nat) (fb : Z -> Z) (x y : Z) : M unit :=
  match len with
  | O => ret tt
  | S k =>
      _writedata16_cont (fb (int32 (x + int32 (ILI9341_T4_TFTHEIGHT * y)))) ;;
      let y := int32 (y - 1) in
      if y <? 0 then _pushpixels_mode1_loop k fb (int32 (x + 1)) (ILI9341_T4_TFTWIDTH - 1)
      else _pushpixels_mode1_loop k fb x y
  end.

Definition _pushpixels_mode1 (fb : Z -> Z) (xx yy len : Z) : M unit :=
  let x := yy in
  let y := int32 (ILI9341_T4_TFTWIDTH - 1 - xx) in
  _pushpixels_mode1_loop (Z.to_nat len) fb x y.

Fixpoint _pushpixels_mode2_loop (len : nat) (fb : Z -> Z) (p : Z) : M unit :=
  match len with
  | O => ret tt
  | S k => _writedata16_cont (fb p) ;; _pushpixels_mode2_loop k fb (p - 1)
  end.

Definition _pushpixels_mode2 (fb : Z -> Z) (xx yy len : Z) : M unit :=
  let x := int32 (ILI9341_T4_TFTWIDTH - 1 - xx) in
  let y := int32 (ILI9341_T4_TFTHEIGHT - 1 - yy) in
  let p := x + int32 (y * ILI9341_T4_TFTWIDTH) in
  _pushpixels_mode2_loop (Z.to_nat len) fb p.

Fixpoint _pushpixels_mode3_loop (len : nat) (fb : Z -> Z) (x y : Z) : M unit :=
  match len with
  | O => ret tt
  | S k =>
      _writedata16_cont (fb (int32 (x + int32 (ILI9341_T4_TFTHEIGHT * y)))) ;;
      let y := int32 (y + 1) in
      if ILI9341_T4_TFTWIDTH <=? y then _pushpixels_mode3_loop k fb (int32 (x - 1)) 0
      else _pushpixels_mode3_loop k fb x y
  end.

Definition _pushpixels_mode3 (fb : Z -> Z) (xx yy len : Z) : M unit :=
  let x := int32 (ILI9341_T4_TFTHEIGHT - 1 - yy) in
  let y := xx in
  _pushpixels_mode3_loop (Z.to_nat len) fb x y.

(** Modelled from the spec: the dispatcher [_pushpixels] is defined in the
    absent header; "for each rotation 0..3 ... emit [len] RGB565 words ...
    along the rotation-specific traversal". *)
Definition _pushpixels (fb : fbptr) (x y len : Z) : M unit :=
  mem <- pixels fb ;;
  rot <- rd _rotation ;;
  if rot =? 0 then _pushpixels_mode0 mem x y len
  else if rot =? 1 then _pushpixels_mode1 mem x y len
  else if rot =? 2 then _pushpixels_mode2 mem x y len
  else _pushpixels_mode3 mem x y len.

(** ** Scrolling

    The first lines of [setScroll]: the offset brought into the range of the
    vertical-scroll register, in [int] arithmetic.  The quotient
    [(-offset) / ILI9341_T4_TFTHEIGHT] is computed by the compiled code as
    [offset / (-ILI9341_T4_TFTHEIGHT)]: it is exact for every [int], also for
    the least one, whose negation alone is not an [int]. *)
Definition scroll_offset (offset : Z) : Z :=
  let offset :=
    if offset <? 0 then
      int32 (offset + int32 (int32 (cdiv offset (- ILI9341_T4_TFTHEIGHT) + 1)
                             * ILI9341_T4_TFTHEIGHT))
    else offset in
  cmod offset 320.

(** ** The driver proper

    Member functions reach one another through pointers: the completion
    callback [_pcb], the timer callback and the DMA interrupt handler.
    [invoke] is the call through such a pointer; the knot is tied after the
    section. *)

Section Driver.

Variable invoke : methodCB -> M unit.

(** [if (_pcb) { (this->*_pcb)(); }] *)
Definition call_pcb : M unit :=
  cb <- rd _pcb ;;
  match cb with
  | Some m => invoke m
  | None => ret tt
  end.

(** *** Interrupts

    Modelled from the spec: "two preemptive interrupt contexts: (i) the
    SPI/DMA-channel completion IRQ and (ii) the periodic-interval-timer
    IRQ".  The timer is one-shot; the DMA chain disables itself on
    completion.  An interrupt that finds nothing armed does nothing. *)

(** Modelled from the spec: the handler an interrupt runs, the timer callback for
    the timer and [_dmaInterruptDiff] for the DMA channel; handlers do not
    nest. *)
Definition deliver (i : irq) : M unit :=
  match i with
  | IRQ_PIT =>
      cb <- rd _pitcb ;;
      match cb with
      | Some m =>
          wr set_pitcb None ;;
          hwr set_in_isr true ;; invoke m ;; hwr set_in_isr false
      | None => ret tt
      end
  | IRQ_DMA =>
      on <- hrd dma_enabled ;;
      if on then
        hwr set_dma_enabled false ;;
        hwr set_in_isr true ;; invoke cb_dmaInterruptDiff ;; hwr set_in_isr false
      else ret tt
  end.

(** Modelled from the spec: interrupts that arrive together are served in turn. *)
Fixpoint deliver_all (l : list irq) : M unit :=
  match l with
  | [] => ret tt
  | i :: l' => deliver i ;; deliver_all l'
  end.

(** Modelled from the spec: a point where the running code can be
    interrupted: the interrupts
    that arrive next, if any and if they are let through, run here. *)
Definition preempt : M unit :=
  masked <- hrd irq_masked ;; isr <- hrd in_isr ;;
  if masked || isr then ret tt
  else
    q <- hrd irq_sched ;;
    match q with
    | [] => ret tt
    | (dt, l) :: q' =>
        hwr set_irq_sched q' ;;
        (c <- hrd clock ;; hwr set_clock (c + dt)) ;;
        deliver_all l
    end.

(** Modelled from the spec: one round of a loop that waits for an
    interrupt handler to change
    something: without interrupts it spins forever. *)
Definition wait_irq : M unit :=
  masked <- hrd irq_masked ;; isr <- hrd in_isr ;;
  if masked || isr then stuck
  else
    q <- hrd irq_sched ;;
    match q with
    | [] => stuck
    | (dt, l) :: q' =>
        hwr set_irq_sched q' ;;
        (c <- hrd clock ;; hwr set_clock (c + dt)) ;;
        deliver_all l
    end.

(** Modelled from the spec: [interrupts()] of the Teensy core; what was held back
    runs at once. *)
Definition interrupts : M unit := hwr set_irq_masked false ;; preempt.

(** Modelled from the spec: "[wait_for_idle()]" of the absent header,
    [while (_dma_state != ILI9341_T4_DMA_IDLE);]. *)
Definition waitUpdateAsyncComplete : M unit :=
  while asyncUpdateActive wait_irq.

(** Modelled from the spec: [DiffBuff::computeDiff] and [DiffBuff::copyfb]
    are long computations of the absent diff module, open to interrupts. *)
Definition computeDiff (d : diffref) (fb_old fb_new : fbptr) (rot gap : Z)
                       (copy_new_over_old : bool) (compare_mask : Z) : M unit :=
  emit (ComputeDiff d fb_old fb_new rot gap copy_new_over_old compare_mask) ;; preempt.

(** Modelled from the spec: [DiffBuffBase::copyfb], see [computeDiff]. *)
Definition copyfb (fb_dst fb_src : fbptr) (rot : Z) : M unit :=
  emit (CopyFb fb_dst fb_src rot) ;; preempt.

(** [d->computeDiff(_fb1, fb, getRotation(), _diff_gap, copy, _compare_mask)] *)
Definition computeDiff_fb1 (d : diffref) (fb : fbptr) (copy : bool) : M unit :=
  fb1 <- rd _fb1 ;; rot <- getRotation ;; gap <- rd _diff_gap ;; mask <- rd _compare_mask ;;
  computeDiff d fb1 fb rot gap copy mask.

(** *** Misc. commands *)

Definition sleep (enable : bool) : M unit :=
  waitUpdateAsyncComplete ;;
  wr set_mirrorfb None ;;
  (clk <- rd _spi_clock ;; _beginSPITransaction (clk / 4)) ;;
  (if enable then
     _writecommand_cont ILI9341_T4_DISPOFF ;;
     _writecommand_last ILI9341_T4_SLPIN ;;
     _endSPITransaction ;;
     delay 200
   else
     _writecommand_cont ILI9341_T4_DISPON ;;
     _writecommand_last ILI9341_T4_SLPOUT ;;
     _endSPITransaction ;;
     delay 20) ;;
  resync.

Definition invertDisplay (i : bool) : M unit :=
  waitUpdateAsyncComplete ;;
  (clk <- rd _spi_clock ;; _beginSPITransaction (clk / 4)) ;;
  _writecommand_last (if i then ILI9341_T4_INVON else ILI9341_T4_INVOFF) ;;
  _endSPITransaction ;;
  resync.

Definition setScroll (offset : Z) : M unit :=
  let offset := scroll_offset offset in
  waitUpdateAsyncComplete ;;
  (clk <- rd _spi_clock ;; _beginSPITransaction clk) ;;
  _writecommand_cont ILI9341_T4_VSCRSADD ;;
  _writedata16_cont offset ;;
  _writecommand_cont ILI9341_T4_RAMWR ;;
  _writecommand_last ILI9341_T4_NOP ;;
  _endSPITransaction.

(** *** Screen orientation *)

Definition setRotation (m : Z) : M unit :=
  let m := _clip (uint8 m) 0 3 in
  r <- rd _rotation ;;
  if m =? r then ret tt
  else
    waitUpdateAsyncComplete ;;
    wr set_mirrorfb None ;;
    statsReset ;;
    wr set_rotation m ;;
    (if (m =? 0) || (m =? 2) then
       wr set_width ILI9341_T4_TFTWIDTH ;;
       wr set_height ILI9341_T4_TFTHEIGHT
     else
       wr set_width ILI9341_T4_TFTHEIGHT ;;
       wr set_height ILI9341_T4_TFTWIDTH) ;;
    resync.

(** *** Timing and vsync *)

Definition setRefreshMode (mode : Z) : M unit :=
  if (mode <? 0) || (31 <? mode) then ret tt
  else
    wr set_refreshmode mode ;;
    let diva := if 16 <=? mode then 1 else 0 in
    let mode := if 16 <=? mode then mode - 16 else mode in
    waitUpdateAsyncComplete ;;
    (clk <- rd _spi_clock ;; _beginSPITransaction (clk / 4)) ;;
    _writecommand_cont ILI9341_T4_FRMCTR1 ;;
    _writedata8_cont diva ;;
    _writedata8_last (0x10 + mode) ;;
    _endSPITransaction ;;
    delayMicroseconds 50 ;;
    _sampleRefreshRate ;;
    statsReset ;;
    resync.

(** *** Buffering mode and diff buffers *)

Definition setFramebuffers (fb1 fb2 : fbptr) : M unit :=
  waitUpdateAsyncComplete ;;
  wr set_mirrorfb None ;;
  wr set_fb2full false ;;
  (if negb (is_null fb1) then wr set_fb1 fb1 ;; wr set_fb2 fb2
   else wr set_fb1 fb2 ;; wr set_fb2 fb1) ;;
  resync.

Definition setDiffBuffers (diff1 diff2 : diffptr) : M unit :=
  waitUpdateAsyncComplete ;;
  (if negb (is_null diff1) then wr set_diff1 diff1 ;; wr set_diff2 diff2
   else wr set_diff1 diff2 ;; wr set_diff2 diff1).

(** *** Update *)

(** [sc1 + ((ILI9341_T4_NB_SCANLINES - 1 - sc1) * _late_start_ratio)]: the
    maximum 'late' scanline. *)
Definition late_scanline (sc1 : Z) : M Z :=
  ratio <- rd _late_start_ratio ;;
  ret (int_of_float
         (float_add (float_of_int sc1)
            (float_mul (float_of_int (int32 (ILI9341_T4_NB_SCANLINES - 1 - sc1))) ratio))).

(** The block "note the next time" of an empty diff under vsync; when both
    candidate times fall in the same frame [_updateNow] moves [t1] onto
    [t2], [_updateAsync] moves [t2] onto [t1]. *)
Definition note_next_time (in_updateNow : bool) : M unit :=
  now <- micros ;; r <- _microToReachScanLine 0 true ;;
  tfs0 <- rd _timeframestart ;; vs <- rd _vsync_spacing ;; p <- rd _period ;;
  maxvs <- const ILI9341_T4_MAX_VSYNC_SPACING ;;
  ov <- rd _late_start_ratio_override ;;
  let t1 := uint32 (now + r) in
  let t2 := uint32 (tfs0 + uint32 (vs * p)) in
  let same := (uint32 (t1 - t2) <? p / 3) && (uint32 (t2 - t1) <? p / 3) in
  let t1 := if same && in_updateNow then t2 else t1 in
  let t2 := if same && negb in_updateNow then t1 else t2 in
  let tfs := if ov || (t2 <? t1) || (uint32 ((maxvs + 1) * p) <? uint32 (t2 - t1))
             then t1 else t2 in
  let tfs := if tfs <? tfs0 then t2 else tfs in
  wr set_late_start_ratio_override false ;;
  wr set_last_delta (int32 (round_div (uint32 (tfs - tfs0)) p)) ;;
  wr set_timeframestart tfs.

(** Save the initial scanline position, start the counter and note the
    time when this frame starts being displayed. *)
Definition start_of_upload : M unit :=
  (s <- _getScanLine false ;; wr set_slinitpos s) ;;
  (now <- micros ;; wr set_em_async now) ;;
  now <- micros ;; r <- _microToReachScanLine 0 false ;;
  let tfs := uint32 (now + r) in
  tfs0 <- rd _timeframestart ;; p <- rd _period ;;
  wr set_last_delta (int32 (round_div (uint32 (tfs - tfs0)) p)) ;;
  wr set_timeframestart tfs.

(** [_slinitpos + _nbScanlineDuring(_em_async)] under vsync, else
    [2 * ILI9341_T4_TFTHEIGHT]. *)
Definition current_asl : M Z :=
  vs <- rd _vsync_spacing ;;
  if 0 <? vs then
    sl <- rd _slinitpos ;; em <- rd _em_async ;; e <- elapsed em ;;
    n <- _nbScanlineDuring e ;;
    ret (int32 (sl + n))
  else ret (2 * ILI9341_T4_TFTHEIGHT).

(** The end of an upload: pending touch read, DMA state back to idle, then
    the one-shot completion callback. *)
Definition end_of_upload : M unit :=
  (tr <- rd _touch_request_read ;;
   when tr (_updateTouch2 ;; wr set_touch_request_read false)) ;;
  wr set_dma_state ILI9341_T4_DMA_IDLE ;;
  call_pcb ;;
  wr set_pcb None.

Definition _updateNow (fb : fbptr) (diff : diffptr) : M unit :=
  match fb, diff with
  | Some _, Some d =>
      waitUpdateAsyncComplete ;;
      (vs <- rd _vsync_spacing ;; _startframe (0 <? vs)) ;;
      wr set_margin ILI9341_T4_NB_SCANLINES ;;
      wrs set_stats_nb_uploaded_pixels 0 ;;
      initRead d ;;
      '(x, y, len, sc1) <- readDiff d (0, 0, 0) 0 ;;
      vs <- rd _vsync_spacing ;;
      if sc1 <? 0 then
        when (0 <? vs) (note_next_time true) ;;
        _endframe
      else
        when (0 <? vs)
          ((now <- micros ;; tfs0 <- rd _timeframestart ;; p <- rd _period ;;
            let dd := uint32 (uint32 (tfs0 + uint32 ((vs - 1) * p)) - now) in
            _pauseUploadTime ;; _delayMicro dd ;; _restartUploadTime) ;;
           sc2 <- late_scanline sc1 ;;
           t2 <- _microToReachScanLine sc2 true ;;
           t <- _microToReachScanLine sc1 false ;;
           ov <- rd _late_start_ratio_override ;;
           t <- (if ov then wr set_late_start_ratio_override false ;; ret t
                 else ret (if t2 <? t then 0 else t)) ;;
           _pauseUploadTime ;;
           when (0 <? t) (delayMicroseconds t) ;;
           loop (fun _ : unit =>
                   t <- _microToExitRange 0 sc1 ;;
                   if t =? 0 then ret (inr tt)
                   else delayMicroseconds t ;; ret (inl tt)) tt ;;
           _restartUploadTime ;;
           start_of_upload) ;;
        (clk <- rd _spi_clock ;; _beginSPITransaction clk) ;;
        _writecommand_cont ILI9341_T4_CASET ;;
        _writedata16_cont x ;;
        _writedata16_cont ILI9341_T4_TFTWIDTH ;;
        _writecommand_cont ILI9341_T4_PASET ;;
        _writedata16_cont y ;;
        _writedata16_last ILI9341_T4_TFTHEIGHT ;;
        loop (fun '(x, y, len, prev_x, prev_y) =>
                asl <- current_asl ;;
                '(x, y, len, r) <- readDiff d (x, y, len) asl ;;
                if 0 <? r then
                  t <- _timeForScanlines (int32 (r - asl + 1)) ;;
                  minw <- const ILI9341_T4_MIN_WAIT_TIME ;;
                  let t := if int32 t <? minw then minw else int32 t in
                  _pauseUploadTime ;; _delayMicro t ;; _restartUploadTime ;;
                  ret (inl (x, y, len, prev_x, prev_y))
                else if r <? 0 then
                  _writecommand_last ILI9341_T4_NOP ;;
                  _endSPITransaction ;;
                  _endframe ;;
                  ret (inr tt)
                else
                  (n <- rds _stats_nb_uploaded_pixels ;;
                   wrs set_stats_nb_uploaded_pixels (uint32 (n + len))) ;;
                  (n <- rds _stats_nb_transactions ;;
                   wrs set_stats_nb_transactions (uint32 (n + 1))) ;;
                  prev_x <- (if negb (x =? prev_x) then
                               _writecommand_cont ILI9341_T4_CASET ;;
                               _writedata16_cont x ;; ret x
                             else ret prev_x) ;;
                  prev_y <- (if negb (y =? prev_y) then
                               _writecommand_cont ILI9341_T4_PASET ;;
                               _writedata16_cont y ;; ret y
                             else ret prev_y) ;;
                  _writecommand_cont ILI9341_T4_RAMWR ;;
                  _pushpixels fb x y len ;;
                  vs <- rd _vsync_spacing ;;
                  when (0 <? vs)
                    (sl <- rd _slinitpos ;; em <- rd _em_async ;; e <- elapsed em ;;
                     n <- _nbScanlineDuring e ;;
                     let m := int32 (cdiv (int32 (ILI9341_T4_TFTWIDTH * y + x + len))
                                          ILI9341_T4_TFTWIDTH
                                     + ILI9341_T4_TFTHEIGHT - sl - n) in
                     mg <- rd _margin ;;
                     when (m <? mg) (wr set_margin m)) ;;
                  ret (inl (x, y, len, prev_x, prev_y)))
             (x, y, len, x, y)
  | _, _ => ret tt
  end.

Definition _updateAsync (fb : fbptr) (diff : diffptr) : M unit :=
  match fb, diff with
  | Some _, Some d =>
      waitUpdateAsyncComplete ;;
      (vs <- rd _vsync_spacing ;; _startframe (0 <? vs)) ;;
      wrs set_stats_nb_uploaded_pixels 0 ;;
      wr set_margin ILI9341_T4_NB_SCANLINES ;;
      wr set_dma_state ILI9341_T4_DMA_ON ;;
      wr set_fb fb ;;
      wr set_diff diff ;;
      initRead d ;;
      '(x, y, len, sc1) <- readDiff d (0, 0, 0) 0 ;;
      vs <- rd _vsync_spacing ;;
      if sc1 <? 0 then
        when (0 <? vs) (note_next_time false) ;;
        _endframe ;;
        end_of_upload
      else
        (clk <- rd _spi_clock ;; _beginSPITransaction clk) ;;
        _writecommand_cont ILI9341_T4_CASET ;;
        _writedata16_cont x ;;
        _writedata16_cont ILI9341_T4_TFTWIDTH ;;
        _writecommand_cont ILI9341_T4_PASET ;;
        _writedata16_cont y ;;
        _writedata16_last ILI9341_T4_TFTHEIGHT ;;
        _endSPITransaction ;;
        wr set_prev_caset_x x ;;
        wr set_prev_paset_y y ;;
        wr set_slinitpos sc1 ;;
        (if vs <=? 0 then
           _pauseUploadTime ;;
           _setTimerIn 1 cb_subFrameTimerStartcb
         else
           _pauseUploadTime ;;
           tfs0 <- rd _timeframestart ;; p <- rd _period ;;
           _setTimerAt (tfs0 + uint32 ((vs - 1) * p)) cb_subFrameTimerStartcb) ;;
        _pauseCpuTime
  | _, _ => ret tt
  end.

Definition _subFrameTimerStartcb : M unit :=
  _restartCpuTime ;;
  _restartUploadTime ;;
  vs <- rd _vsync_spacing ;;
  (if vs <=? 0 then
     _pauseUploadTime ;;
     _setTimerIn 1 cb_subFrameTimerStartcb2
   else
     sc1 <- rd _slinitpos ;;
     sc2 <- late_scanline sc1 ;;
     t2 <- _microToReachScanLine sc2 true ;;
     t <- _microToReachScanLine sc1 false ;;
     ov <- rd _late_start_ratio_override ;;
     t <- (if ov then wr set_late_start_ratio_override false ;; ret t
           else ret (if t2 <? t then 0 else t)) ;;
     _pauseUploadTime ;;
     _setTimerIn t cb_subFrameTimerStartcb2) ;;
  _pauseCpuTime.

(** Hand the run [(x, y, len)] of [_fb] to the DMA chain. *)
Definition dma_run (x y len : Z) : M unit :=
  fb <- rd _fb ;;
  emit (DmaPixels fb (x + int32 (y * ILI9341_T4_TFTWIDTH)) len) ;;
  hwr set_dma_enabled true.

Definition _subFrameTimerStartcb2 : M unit :=
  _restartUploadTime ;;
  _restartCpuTime ;;
  vs <- rd _vsync_spacing ;;
  when (0 <? vs)
    (loop (fun _ : unit =>
             sl <- rd _slinitpos ;;
             t <- _microToExitRange 0 sl ;;
             if t =? 0 then ret (inr tt)
             else delayMicroseconds t ;; ret (inl tt)) tt ;;
     start_of_upload) ;;
  asl <- (vs <- rd _vsync_spacing ;;
          if 0 <? vs then rd _slinitpos else ret (2 * ILI9341_T4_TFTHEIGHT)) ;;
  d <- (p <- rd _diff ;; deref p) ;;
  '(x, y, len, r) <- readDiff d (0, 0, 0) asl ;;
  px <- rd _prev_caset_x ;; py <- rd _prev_paset_y ;;
  if negb (r =? 0) || (len =? 0) || negb (x =? px) || negb (y =? py) then
    _endframe ;;
    end_of_upload
  else
    wr set_last_y (cdiv (int32 (ILI9341_T4_TFTWIDTH * y + x + len)) ILI9341_T4_TFTWIDTH) ;;
    wrs set_stats_nb_uploaded_pixels (uint32 len) ;;
    (clk <- rd _spi_clock ;; _beginSPITransaction clk) ;;
    emit (WriteCommand ILI9341_T4_RAMWR) ;;
    dma_run x y len ;;
    _pauseCpuTime.

(** "check margin when using vsync": the first block of
    [_subFrameInterruptDiff]. *)
Definition check_margin : M unit :=
  vs <- rd _vsync_spacing ;;
  when (0 <? vs)
    (ly <- rd _last_y ;; sl <- rd _slinitpos ;;
     em <- rd _em_async ;; e <- elapsed em ;; n <- _nbScanlineDuring e ;;
     let m := int32 (ly + ILI9341_T4_TFTHEIGHT - sl - n) in
     mg <- rd _margin ;;
     when (m <? mg) (wr set_margin m)).

Definition _subFrameInterruptDiff : M unit :=
  check_margin ;;
  asl <- current_asl ;;
  d <- (p <- rd _diff ;; deref p) ;;
  '(x, y, len, r) <- readDiff d (0, 0, 0) asl ;;
  if r <? 0 then
    emit DmaFinish ;;
    _endSPITransaction ;;
    _endframe ;;
    end_of_upload
  else if 0 <? r then
    t <- _timeForScanlines (int32 (r - asl + 1)) ;;
    minw <- const ILI9341_T4_MIN_WAIT_TIME ;;
    let t := if int32 t <? minw then minw else int32 t in
    _pauseUploadTime ;;
    _setTimerIn t cb_subFrameInterruptDiff2 ;;
    _pauseCpuTime
  else
    (px <- rd _prev_caset_x ;;
     when (negb (x =? px))
       (emit (WriteCommand ILI9341_T4_CASET) ;;
        emit (WriteData16 (uint16 x)) ;;
        wr set_prev_caset_x x)) ;;
    (py <- rd _prev_paset_y ;;
     when (negb (y =? py))
       (emit (WriteCommand ILI9341_T4_PASET) ;;
        emit (WriteData16 (uint16 y)) ;;
        wr set_prev_paset_y y)) ;;
    emit (WriteCommand ILI9341_T4_RAMWR) ;;
    wr set_last_y (cdiv (int32 (ILI9341_T4_TFTWIDTH * y + x + len)) ILI9341_T4_TFTWIDTH) ;;
    (n <- rds _stats_nb_uploaded_pixels ;;
     wrs set_stats_nb_uploaded_pixels (uint32 (n + len))) ;;
    dma_run x y len.

Definition _subFrameInterruptDiff2 : M unit :=
  noInterrupts ;;
  _restartUploadTime ;;
  _restartCpuTime ;;
  _subFrameInterruptDiff ;;
  _pauseCpuTime ;;
  interrupts.

Definition _dmaInterruptDiff : M unit :=
  noInterrupts ;;
  _restartCpuTime ;;
  (n <- rds _stats_nb_transactions ;; wrs set_stats_nb_transactions (uint32 (n + 1))) ;;
  _subFrameInterruptDiff ;;
  _pauseCpuTime ;;
  interrupts.

Definition _buffer2fullCB : M unit :=
  m <- rd _mirrorfb ;;
  (if negb (is_null m) then
     _swapdiff ;;
     _swapfb ;;
     (fb1 <- rd _fb1 ;; wr set_mirrorfb fb1) ;;
     wr set_fb2full false ;;
     (fb1 <- rd _fb1 ;; d <- rd _diff1 ;; _updateAsync fb1 d)
   else
     _swapdummydiff ;;
     _swapfb ;;
     (fb1 <- rd _fb1 ;; wr set_mirrorfb fb1) ;;
     wr set_fb2full false ;;
     (fb1 <- rd _fb1 ;; d <- rd _dummydiff1 ;; _updateAsync fb1 (Some d))) ;;
  _setCB None.

(** Complete redraw: dummy diff against [_fb1], copy into [_fb1], launch. *)
Definition redraw_fb1 (fb : fbptr) : M unit :=
  (d <- rd _dummydiff1 ;; computeDiff_fb1 d fb true) ;;
  (fb1 <- rd _fb1 ;; _flush_cache fb1) ;;
  (fb1 <- rd _fb1 ;; d <- rd _dummydiff1 ;; _updateAsync fb1 (Some d)).

(** Differential redraw: diff into [_diff1], copy into [_fb1], launch. *)
Definition diff_fb1 (fb : fbptr) : M unit :=
  (d <- (p <- rd _diff1 ;; deref p) ;; computeDiff_fb1 d fb true) ;;
  (fb1 <- rd _fb1 ;; _flush_cache fb1) ;;
  (fb1 <- rd _fb1 ;; d <- rd _diff1 ;; _updateAsync fb1 d).

Definition update (fb : fbptr) (force_full_redraw : bool) : M unit :=
  mode <- bufferingMode ;;
  match mode with
  | NO_BUFFERING =>
      waitUpdateAsyncComplete ;;
      wr set_mirrorfb None ;;
      (d <- rd _dummydiff1 ;; computeDummyDiff d) ;;
      (d <- rd _dummydiff1 ;; _updateNow fb (Some d))
  | DOUBLE_BUFFERING =>
      vs <- rd _vsync_spacing ;; active <- asyncUpdateActive ;;
      if (vs =? -1) && active then ret tt
      else
        diff1 <- rd _diff1 ;; mirror <- rd _mirrorfb ;;
        if is_null diff1 || is_null mirror || force_full_redraw then
          waitUpdateAsyncComplete ;;
          redraw_fb1 fb ;;
          (fb1 <- rd _fb1 ;; wr set_mirrorfb fb1)
        else
          diff2 <- rd _diff2 ;;
          if is_null diff2 then
            waitUpdateAsyncComplete ;;
            (mirror <- rd _mirrorfb ;;
             if is_null mirror || force_full_redraw then redraw_fb1 fb
             else diff_fb1 fb) ;;
            (fb1 <- rd _fb1 ;; wr set_mirrorfb fb1)
          else
            (active <- asyncUpdateActive ;;
             if active then
               (d <- (p <- rd _diff2 ;; deref p) ;; computeDiff_fb1 d fb false) ;;
               waitUpdateAsyncComplete ;;
               (fb1 <- rd _fb1 ;; rot <- getRotation ;; copyfb fb1 fb rot) ;;
               _swapdiff ;;
               (fb1 <- rd _fb1 ;; _flush_cache fb1) ;;
               (fb1 <- rd _fb1 ;; d <- rd _diff1 ;; _updateAsync fb1 d)
             else diff_fb1 fb) ;;
            (fb1 <- rd _fb1 ;; wr set_mirrorfb fb1)
  | TRIPLE_BUFFERING =>
      active <- asyncUpdateActive ;;
      if negb active then
        (diff2 <- rd _diff2 ;; mirror <- rd _mirrorfb ;;
         if is_null diff2 || is_null mirror || force_full_redraw then redraw_fb1 fb
         else diff_fb1 fb) ;;
        (fb1 <- rd _fb1 ;; wr set_mirrorfb fb1)
      else
        (vs <- rd _vsync_spacing ;;
         when (negb (vs =? -1)) (while (rd _fb2full) wait_irq)) ;;
        noInterrupts ;;
        active <- asyncUpdateActive ;;
        if active then
          _setCB None ;;
          interrupts ;;
          mirror <- rd _mirrorfb ;; diff2 <- rd _diff2 ;;
          if negb (is_null mirror) && negb force_full_redraw && negb (is_null diff2) then
            (d <- (p <- rd _diff2 ;; deref p) ;; computeDiff_fb1 d fb false) ;;
            (fb2 <- rd _fb2 ;; rot <- getRotation ;; copyfb fb2 fb rot) ;;
            (fb2 <- rd _fb2 ;; _flush_cache fb2) ;;
            noInterrupts ;;
            active <- asyncUpdateActive ;;
            if active then
              _setCB (Some cb_buffer2fullCB) ;;
              wr set_fb2full true ;;
              (fb2 <- rd _fb2 ;; wr set_mirrorfb fb2) ;;
              interrupts
            else
              interrupts ;;
              _swapdiff ;;
              _swapfb ;;
              (fb1 <- rd _fb1 ;; wr set_mirrorfb fb1) ;;
              (fb1 <- rd _fb1 ;; d <- rd _diff1 ;; _updateAsync fb1 d)
          else
            (d <- rd _dummydiff2 ;; computeDiff_fb1 d fb false) ;;
            (fb2 <- rd _fb2 ;; rot <- getRotation ;; copyfb fb2 fb rot) ;;
            (fb2 <- rd _fb2 ;; _flush_cache fb2) ;;
            noInterrupts ;;
            active <- asyncUpdateActive ;;
            if active then
              _setCB (Some cb_buffer2fullCB) ;;
              wr set_fb2full true ;;
              wr set_mirrorfb None ;;
              interrupts
            else
              interrupts ;;
              _swapdummydiff ;;
              _swapfb ;;
              (fb1 <- rd _fb1 ;; wr set_mirrorfb fb1) ;;
              (fb1 <- rd _fb1 ;; d <- rd _dummydiff1 ;; _updateAsync fb1 (Some d))
        else
          (mirror <- rd _mirrorfb ;; diff2 <- rd _diff2 ;;
           if is_null mirror || force_full_redraw || is_null diff2 then redraw_fb1 fb
           else diff_fb1 fb) ;;
          (fb1 <- rd _fb1 ;; wr set_mirrorfb fb1)
  end.

(** The member function behind a pointer. *)
Definition dispatch (m : methodCB) : M unit :=
  match m with
  | cb_buffer2fullCB => _buffer2fullCB
  | cb_subFrameTimerStartcb => _subFrameTimerStartcb
  | cb_subFrameTimerStartcb2 => _subFrameTimerStartcb2
  | cb_subFrameInterruptDiff2 => _subFrameInterruptDiff2
  | cb_dmaInterruptDiff => _dmaInterruptDiff
  end.

End Driver.

(** The call through a member pointer, [depth] calls deep at most. *)
Fixpoint invoke (depth : nat) (m : methodCB) : M unit :=
  match depth with
  | O => stuck
  | S k => dispatch (invoke k) m
  end.

(** ** The driver as constructed, and a bench to run it on *)

Definition Stats_new : Stats :=
  {| _stats_nb_frame := 0; _stats_elapsed_total := 0;
     _stats_cputime := 0; _stats_uploadtime := 0;
     _stats_elapsed_cputime := 0; _stats_elapsed_uploadtime := 0;
     _stats_nb_uploaded_pixels := 0; _stats_nb_transactions := 0;
     _statsvar_cputime := []; _statsvar_uploadtime := [];
     _statsvar_uploaded_pixels := []; _statsvar_transactions := [];
     _statsvar_margin := []; _statsvar_vsyncspacing := [];
     _nbteared := 0 |}.

(** The constructor.  The three defaults of the buffering section come from
    the absent header and are arguments here; members the constructor leaves
    unset start at zero. *)
Definition ILI9341Driver_new (late_start_ratio : float) (diff_gap vsync_spacing : Z)
  : ILI9341Driver :=
  {| _width := ILI9341_T4_TFTWIDTH; _height := ILI9341_T4_TFTHEIGHT;
     _rotation := 0; _refreshmode := 0;
     _late_start_ratio := late_start_ratio; _late_start_ratio_override := true;
     _diff_gap := diff_gap; _vsync_spacing := vsync_spacing;
     _diff1 := None; _diff2 := None; _fb1 := None; _fb2 := None;
     _dummydiff1 := dd1; _dummydiff2 := dd2;
     _mirrorfb := None; _fb2full := false; _compare_mask := 0;
     _period := 0; _period_mode0 := 0; _synced_em := 0; _synced_scanline := 0;
     _pcb := None; _fb := None; _diff := None; _dma_state := ILI9341_T4_DMA_IDLE;
     _last_delta := 0; _timeframestart := 0; _last_y := 0; _slinitpos := 0;
     _em_async := 0; _margin := 0; _prev_caset_x := 0; _prev_paset_y := 0;
     _pitcb := None;
     _spi_clock := 0; _spi_clock_read := 0;
     _touch_request_read := false;
     _touch_cs := 255; _touch_irq := 255; _touched_read := true;
     _touch_x := 0; _touch_y := 0; _touch_z := 0; _em_touched_read := 0;
     stats := Stats_new |}.

(** A board, hardware on which nothing happens by itself, and a driver after
    [begin]: SPI clocks set, a period of 16 ms measured. *)
Definition bench_board : Board :=
  {| ILI9341_T4_MIN_WAIT_TIME := 300; ILI9341_T4_MAX_VSYNC_SPACING := 5;
     ILI9341_T4_TOUCH_Z_THRESHOLD := 400; ILI9341_T4_TOUCH_Z_THRESHOLD_INT := 75 |}.

Definition bench_hardware : Hardware :=
  {| clock := 1000; ram := fun _ i => i; rx := []; irq_sched := [];
     diff_reads := []; irq_masked := false; in_isr := false; dma_enabled := false;
     trace := [] |}.

Definition bench_driver (vsync_spacing : Z) : ILI9341Driver :=
  set_spi_clock 30000000
    (set_spi_clock_read 4000000
       (set_period 16000
          (set_period_mode0 16000 (ILI9341Driver_new (float_div (float_of_int 1) (float_of_int 3)) 6 vsync_spacing)))).

Definition bench (vsync_spacing : Z) : world :=
  {| drv := bench_driver vsync_spacing; hw := bench_hardware; board := bench_board |}.

(** The panel answering scanline queries: three words a query, the last one is
    the raw scanline. *)
Definition scanline_answer (raw : Z) : list (Z * Z) := [(3, 0); (3, 0); (3, raw)].

(** The answers that let [_sampleRefreshRate] see the scan pass line 0 once
    at the start and once in each of its ten frames. *)
Definition eleven_frames : list (Z * Z) :=
  concat (repeat (scanline_answer 0 ++ scanline_answer 80) 11).

(** Two framebuffers and two diff buffers bound, an upload in flight. *)
Definition uploading (d : ILI9341Driver) : ILI9341Driver :=
  set_dma_state ILI9341_T4_DMA_ON
    (set_mirrorfb (Some 1%nat)
       (set_fb1 (Some 1%nat)
          (set_fb2 (Some 2%nat)
             (set_diff1 (Some (UserDiff 1))
                (set_diff2 (Some (UserDiff 2)) d))))).

(** The bench with the panel answering the scanline queries of one
    refresh-rate measurement. *)
Definition bench_sampling (vsync_spacing : Z) : world :=
  {| drv := bench_driver vsync_spacing;
     hw := set_rx eleven_frames bench_hardware;
     board := bench_board |}.

(** Triple buffering with two diff buffers while an upload is in flight and
    nothing interrupts. *)
Definition bench_uploading (vsync_spacing : Z) : world :=
  {| drv := uploading (bench_driver vsync_spacing);
     hw := bench_hardware;
     board := bench_board |}.

(** Double buffering with one framebuffer bound, nothing in flight. *)
Definition bench_double (vsync_spacing : Z) : world :=
  {| drv := set_fb1 (Some 1%nat) (bench_driver vsync_spacing);
     hw := bench_hardware;
     board := bench_board |}.

(** The bench of a refresh-rate measurement, the mirror valid. *)
Definition bench_sampling_mirrored : world :=
  {| drv := set_mirrorfb (Some 1%nat) (set_fb1 (Some 1%nat) (bench_driver 2));
     hw := set_rx eleven_frames bench_hardware;
     board := bench_board |}.

(** An upload armed and waiting for [_subFrameTimerStartcb2], vsync off; the
    diff reader will answer "end of stream" where a run is expected. *)
Definition bench_armed : world :=
  {| drv := set_fb (Some 1%nat) (set_diff (Some (UserDiff 1)) (uploading (bench_driver 0)));
     hw := bench_hardware;
     board := bench_board |}.

(** The same with a frame staged in [_fb2] under a dummy diff (mirror null,
    callback set); after the corrupt read the reader has one full-screen run
    to offer. *)
Definition bench_armed_staged : world :=
  {| drv := set_pcb (Some cb_buffer2fullCB)
              (set_fb2full true
                 (set_mirrorfb None (drv bench_armed)));
     hw := set_diff_reads
             [ {| rr_code := -1; rr_x := None; rr_y := None; rr_len := None |};
               {| rr_code := 1; rr_x := Some 0; rr_y := Some 0;
                  rr_len := Some ILI9341_T4_NB_PIXELS |} ]
             bench_hardware;
     board := bench_board |}.

(** * Reasoning about member functions *)

(** Arithmetic is left to [lia]; simplification only moves data around. *)
#[local] Arguments Z.add : simpl never.
#[local] Arguments Z.sub : simpl never.
#[local] Arguments Z.mul : simpl never.
#[local] Arguments Z.div : simpl never.
#[local] Arguments Z.modulo : simpl never.
#[local] Arguments Z.quot : simpl never.
#[local] Arguments Z.rem : simpl never.
#[local] Arguments Z.pow : simpl never.
#[local] Arguments Z.opp : simpl never.
#[local] Arguments Z.leb : simpl never.
#[local] Arguments Z.ltb : simpl never.
#[local] Arguments Z.eqb : simpl never.

(** ** Partial-correctness triples *)

Definition hoare {A : Type} (P : world -> Prop) (c : M A) (Q : A -> world -> Prop) : Prop :=
  forall w a w', P w -> c w = Some (a, w') -> Q a w'.

(** [I] holds after [c] whenever it held before. *)
Definition stable {A : Type} (I : world -> Prop) (c : M A) : Prop :=
  hoare I c (fun _ => I).

Lemma bind_inv {A B : Type} (c : M A) (k : A -> M B) w b w' :
  bind c k w = Some (b, w') ->
  exists a w1, c w = Some (a, w1) /\ k a w1 = Some (b, w').
Proof.
  unfold bind. destruct (c w) as [[a w1]|] eqn:E; [|discriminate].
  intros H. exists a, w1. split; [reflexivity|exact H].
Qed.

Lemma bind_intro {A B : Type} (c : M A) (k : A -> M B) w a w1 :
  c w = Some (a, w1) -> bind c k w = k a w1.
Proof. intros H. unfold bind. rewrite H. reflexivity. Qed.

Lemma hoare_ret {A : Type} (P : world -> Prop) (a : A) (Q : A -> world -> Prop) :
  (forall w, P w -> Q a w) -> hoare P (ret a) Q.
Proof. intros H w b w' HP E. inversion E; subst. apply H, HP. Qed.

Lemma hoare_stuck {A : Type} (P : world -> Prop) (Q : A -> world -> Prop) :
  hoare P stuck Q.
Proof. intros w b w' _ E. discriminate E. Qed.

Lemma hoare_bind {A B : Type} (P : world -> Prop) (R : A -> world -> Prop)
      (Q : B -> world -> Prop) (c : M A) (k : A -> M B) :
  hoare P c R -> (forall a, hoare (R a) (k a) Q) -> hoare P (bind c k) Q.
Proof.
  intros Hc Hk w b w' HP E.
  apply bind_inv in E. destruct E as (a & w1 & E1 & E2).
  eapply Hk; [|exact E2]. eapply Hc; eauto.
Qed.

Lemma hoare_conseq {A : Type} (P P' : world -> Prop) (Q Q' : A -> world -> Prop) (c : M A) :
  hoare P' c Q' -> (forall w, P w -> P' w) -> (forall a w, Q' a w -> Q a w) ->
  hoare P c Q.
Proof. intros H HP HQ w a w' Hw E. apply HQ. eapply H; eauto. Qed.

Lemma hoare_top {A : Type} (P : world -> Prop) (c : M A) :
  hoare P c (fun _ _ => True).
Proof. intros w a w' _ _. exact I. Qed.

Lemma hoare_case {A : Type} (P P1 P2 : world -> Prop) (Q : A -> world -> Prop) (c : M A) :
  (forall w, P w -> P1 w \/ P2 w) -> hoare P1 c Q -> hoare P2 c Q -> hoare P c Q.
Proof.
  intros H H1 H2 w a w' HP E.
  destruct (H w HP); [eapply H1|eapply H2]; eauto.
Qed.

Lemma hoare_iterate {St R : Type} (I : St -> world -> Prop) (Q : R -> world -> Prop)
      (body : St -> M (St + R)) :
  (forall s, hoare (I s) (body s)
                   (fun r w => match r with inl s' => I s' w | inr x => Q x w end)) ->
  forall n s, hoare (I s) (iterate n body s) Q.
Proof.
  intros Hb n. induction n as [|n IH]; intros s; simpl.
  - apply hoare_stuck.
  - eapply hoare_bind; [apply Hb|].
    intros [s'|x]; [apply IH|].
    apply hoare_ret. auto.
Qed.

Lemma hoare_loop {St R : Type} (I : St -> world -> Prop) (Q : R -> world -> Prop)
      (body : St -> M (St + R)) (s : St) :
  (forall s, hoare (I s) (body s)
                   (fun r w => match r with inl s' => I s' w | inr x => Q x w end)) ->
  hoare (I s) (loop body s) Q.
Proof.
  intros Hb w a w' HI E. unfold loop in E.
  eapply hoare_iterate; eauto.
Qed.

(** ** Stability *)

Section Stable.

Variable I : world -> Prop.

Lemma stable_ret {A : Type} (a : A) : stable I (ret a).
Proof. apply hoare_ret. auto. Qed.

Lemma stable_stuck {A : Type} : stable I (@stuck A).
Proof. apply hoare_stuck. Qed.

Lemma stable_bind {A B : Type} (c : M A) (k : A -> M B) :
  stable I c -> (forall a, stable I (k a)) -> stable I (bind c k).
Proof. intros Hc Hk. eapply hoare_bind; [exact Hc|exact Hk]. Qed.

Lemma stable_when (b : bool) (c : M unit) : stable I c -> stable I (when b c).
Proof. intros Hc. destruct b; simpl; [exact Hc|apply stable_ret]. Qed.

Lemma stable_iterate {St R : Type} (body : St -> M (St + R)) :
  (forall s, stable I (body s)) -> forall n s, stable I (iterate n body s).
Proof.
  intros Hb n s.
  apply (hoare_iterate (fun _ => I) (fun _ => I)).
  intros s0 w r w' HI E. specialize (Hb s0 w r w' HI E). destruct r; exact Hb.
Qed.

Lemma stable_loop {St R : Type} (body : St -> M (St + R)) (s : St) :
  (forall s, stable I (body s)) -> stable I (loop body s).
Proof.
  intros Hb w a w' HI E. unfold loop in E.
  eapply stable_iterate; eauto.
Qed.

Lemma stable_while (cond : M bool) (body : M unit) :
  stable I cond -> stable I body -> stable I (while cond body).
Proof.
  intros Hc Hb. unfold while. apply stable_loop. intros _.
  apply stable_bind; [exact Hc|]. intros [|].
  - apply stable_bind; [exact Hb|]. intros _. apply stable_ret.
  - apply stable_ret.
Qed.

Lemma stable_repeat_n (n : nat) (body : M unit) :
  stable I body -> stable I (repeat_n n body).
Proof.
  intros Hb. induction n as [|n IH]; simpl.
  - apply stable_ret.
  - apply stable_bind; [exact Hb|]. intros _. exact IH.
Qed.

Lemma stable_rd {A : Type} (f : ILI9341Driver -> A) : stable I (rd f).
Proof. intros w a w' HI E. inversion E; subst. exact HI. Qed.

Lemma stable_rds {A : Type} (f : Stats -> A) : stable I (rds f).
Proof. apply stable_rd. Qed.

Lemma stable_hrd {A : Type} (f : Hardware -> A) : stable I (hrd f).
Proof. intros w a w' HI E. inversion E; subst. exact HI. Qed.

Lemma stable_const (f : Board -> Z) : stable I (const f).
Proof. intros w a w' HI E. inversion E; subst. exact HI. Qed.

Lemma stable_deref {A : Type} (p : option A) : stable I (deref p).
Proof. destruct p; [apply stable_ret|apply stable_stuck]. Qed.

Lemma stable_wr {A : Type} (set : A -> ILI9341Driver -> ILI9341Driver) (v : A) :
  (forall w, I w -> I (Build_world (set v (drv w)) (hw w) (board w))) ->
  stable I (wr set v).
Proof. intros H w a w' HI E. inversion E; subst. apply H, HI. Qed.

Lemma stable_wrs {A : Type} (set : A -> Stats -> Stats) (v : A) :
  (forall w, I w ->
             I (Build_world (setstats (set v (stats (drv w))) (drv w)) (hw w) (board w))) ->
  stable I (wrs set v).
Proof. intros H w a w' HI E. inversion E; subst. apply H, HI. Qed.

Lemma stable_hwr {A : Type} (set : A -> Hardware -> Hardware) (v : A) :
  (forall w, I w -> I (Build_world (drv w) (set v (hw w)) (board w))) ->
  stable I (hwr set v).
Proof. intros H w a w' HI E. inversion E; subst. apply H, HI. Qed.

End Stable.

(** ** Commands that always return *)

Definition total {A : Type} (c : M A) : Prop :=
  forall w, exists a w', c w = Some (a, w').

Lemma total_ret {A : Type} (a : A) : total (ret a).
Proof. intros w. exists a, w. reflexivity. Qed.

Lemma total_bind {A B : Type} (c : M A) (k : A -> M B) :
  total c -> (forall a, total (k a)) -> total (bind c k).
Proof.
  intros Hc Hk w. destruct (Hc w) as (a & w1 & E).
  destruct (Hk a w1) as (b & w2 & E2).
  exists b, w2. unfold bind. rewrite E. exact E2.
Qed.

Lemma total_rd {A : Type} (f : ILI9341Driver -> A) : total (rd f).
Proof. intros w. eexists. eexists. reflexivity. Qed.

Lemma total_wr {A : Type} (set : A -> ILI9341Driver -> ILI9341Driver) v : total (wr set v).
Proof. intros w. eexists. eexists. reflexivity. Qed.

Lemma total_hrd {A : Type} (f : Hardware -> A) : total (hrd f).
Proof. intros w. eexists. eexists. reflexivity. Qed.

Lemma total_hwr {A : Type} (set : A -> Hardware -> Hardware) v : total (hwr set v).
Proof. intros w. eexists. eexists. reflexivity. Qed.

Lemma total_wrs {A : Type} (set : A -> Stats -> Stats) v : total (wrs set v).
Proof. intros w. eexists. eexists. reflexivity. Qed.

Lemma total_unit (c : M unit) w : total c -> exists w', c w = Some (tt, w').
Proof. intros H. destruct (H w) as ([] & w' & E). exists w'. exact E. Qed.

Lemma total_when b c : total c -> total (when b c).
Proof. intros H. unfold when. destruct b; [exact H|apply total_ret]. Qed.

Ltac total_step :=
  lazymatch goal with
  | |- total (ret _) => apply total_ret
  | |- total (rd _) => apply total_rd
  | |- total (wr _ _) => apply total_wr
  | |- total (wrs _ _) => apply total_wrs
  | |- total (hrd _) => apply total_hrd
  | |- total (hwr _ _) => apply total_hwr
  | |- total (bind _ _) => apply total_bind; [|intros ?]
  | |- total (when _ _) => apply total_when
  | |- total (if ?b then _ else _) => destruct b
  | |- total _ => solve [auto 1 with nocore]
  end.

Ltac total_steps := repeat total_step.


(** [c] returns from every state in which [P] holds. *)
Definition returns {A : Type} (P : world -> Prop) (c : M A) : Prop :=
  forall w, P w -> exists a w', c w = Some (a, w').

Lemma returns_total {A : Type} (P : world -> Prop) (c : M A) : total c -> returns P c.
Proof. intros H w _. apply H. Qed.

Lemma returns_bind {A B : Type} (P : world -> Prop) (c : M A) (k : A -> M B) :
  returns P c -> stable P c -> (forall a, returns P (k a)) -> returns P (bind c k).
Proof.
  intros Hc Hs Hk w HP. destruct (Hc w HP) as (a & w1 & E).
  destruct (Hk a w1 (Hs w a w1 HP E)) as (b & w2 & E2).
  exists b, w2. unfold bind. rewrite E. exact E2.
Qed.


Create HintDb stab discriminated.

(** One step of a stability proof, by the shape of the command; [leaf]
    settles a write. *)
Ltac stable_step leaf :=
  lazymatch goal with
  | |- stable _ (ret _) => apply stable_ret
  | |- stable _ stuck => apply stable_stuck
  | |- stable _ (rd _) => apply stable_rd
  | |- stable _ (rds _) => apply stable_rds
  | |- stable _ (hrd _) => apply stable_hrd
  | |- stable _ (const _) => apply stable_const
  | |- stable _ (deref _) => apply stable_deref
  | |- stable _ (bind _ _) => apply stable_bind; [ | intros ]
  | |- stable _ (when _ _) => apply stable_when
  | |- stable _ (while _ _) => apply stable_while
  | |- stable _ (loop _ _) => apply stable_loop; intros
  | |- stable _ (repeat_n _ _) => apply stable_repeat_n
  | |- stable _ (wr _ _) => apply stable_wr; leaf
  | |- stable _ (wrs _ _) => apply stable_wrs; leaf
  | |- stable _ (hwr _ _) => apply stable_hwr; leaf
  | |- stable _ (if ?b then _ else _) => destruct b
  | |- stable _ (match ?x with _ => _ end) => destruct x
  | |- stable _ (let _ := _ in _) => cbv zeta
  | |- stable _ _ => solve [auto 1 with stab nocore]
  end.

Ltac stable_steps leaf := repeat (stable_step leaf).

(** ** What the coordinator shares with the interrupt handlers *)

(** The mirror, the two framebuffers, the pending callback and the
    "second buffer full" flag. *)
Definition coord (w : world) : fbptr * fbptr * fbptr * option methodCB * bool :=
  (_mirrorfb (drv w), _fb1 (drv w), _fb2 (drv w), _pcb (drv w), _fb2full (drv w)).

(** A property of the shared variables only survives everything that leaves
    them alone: all of the driver except the coordinator's own assignments
    and the end of an upload, where the completion callback runs. *)
Section Coordination.

Variable X : world -> Prop.
Hypothesis X_coord : forall w w', coord w' = coord w -> X w -> X w'.

Ltac coord_leaf :=
  let w := fresh "w" in let H := fresh "H" in
  intros w H; apply (X_coord w); [reflexivity | exact H].

Ltac coord_auto := stable_steps coord_leaf.

Lemma coord_emit e : stable X (emit e).
Proof. unfold emit. coord_auto. Qed.
Lemma coord_micros : stable X micros.
Proof. unfold micros. coord_auto. Qed.
Lemma coord_millis : stable X millis.
Proof. unfold millis. coord_auto. Qed.
Lemma coord_delayMicroseconds t : stable X (delayMicroseconds t).
Proof. unfold delayMicroseconds. coord_auto. Qed.
Lemma coord_delay t : stable X (delay t).
Proof. unfold delay. coord_auto. Qed.
Lemma coord_rx_read : stable X rx_read.
Proof. unfold rx_read. coord_auto. Qed.
Lemma coord_pixels fb : stable X (pixels fb).
Proof. unfold pixels. coord_auto. Qed.
Lemma coord_readDiff d xyl s : stable X (readDiff d xyl s).
Proof. unfold readDiff. destruct xyl as [[x y] len]. coord_auto. Qed.
Lemma coord_noInterrupts : stable X noInterrupts.
Proof. unfold noInterrupts. coord_auto. Qed.
Local Hint Resolve coord_emit coord_micros coord_millis coord_delayMicroseconds coord_delay
  coord_rx_read coord_pixels coord_readDiff coord_noInterrupts : stab.

Lemma coord_elapsed em : stable X (elapsed em).
Proof. unfold elapsed. coord_auto. Qed.
Lemma coord__delayMicro t : stable X (_delayMicro t).
Proof. unfold _delayMicro. coord_auto. Qed.
Lemma coord__beginSPITransaction c : stable X (_beginSPITransaction c).
Proof. unfold _beginSPITransaction. coord_auto. Qed.
Lemma coord__endSPITransaction : stable X _endSPITransaction.
Proof. unfold _endSPITransaction. coord_auto. Qed.
Lemma coord__writecommand_cont c : stable X (_writecommand_cont c).
Proof. unfold _writecommand_cont. coord_auto. Qed.
Lemma coord__writecommand_last c : stable X (_writecommand_last c).
Proof. unfold _writecommand_last. coord_auto. Qed.
Lemma coord__writedata8_cont c : stable X (_writedata8_cont c).
Proof. unfold _writedata8_cont. coord_auto. Qed.
Lemma coord__writedata8_last c : stable X (_writedata8_last c).
Proof. unfold _writedata8_last. coord_auto. Qed.
Lemma coord__writedata16_cont c : stable X (_writedata16_cont c).
Proof. unfold _writedata16_cont. coord_auto. Qed.
Lemma coord__writedata16_last c : stable X (_writedata16_last c).
Proof. unfold _writedata16_last. coord_auto. Qed.
Lemma coord__flush_cache fb : stable X (_flush_cache fb).
Proof. unfold _flush_cache. coord_auto. Qed.
Lemma coord_initRead d : stable X (initRead d).
Proof. unfold initRead. coord_auto. Qed.
Lemma coord_computeDummyDiff d : stable X (computeDummyDiff d).
Proof. unfold computeDummyDiff. coord_auto. Qed.
Lemma coord_transfer c : stable X (transfer c).
Proof. unfold transfer, emit. coord_auto. Qed.
Lemma coord_transfer16 c : stable X (transfer16 c).
Proof. unfold transfer16, emit. coord_auto. Qed.
Lemma coord_transfer16_shr3 c : stable X (transfer16_shr3 c).
Proof. pose proof coord_transfer16. unfold transfer16_shr3. coord_auto. Qed.
Lemma coord__updateTouch2 : stable X _updateTouch2.
Proof.
  pose proof coord_transfer. pose proof coord_transfer16.
  pose proof coord_transfer16_shr3.
  unfold _updateTouch2. coord_auto.
Qed.
Local Hint Resolve coord_elapsed coord__delayMicro coord__beginSPITransaction
  coord__endSPITransaction coord__writecommand_cont coord__writecommand_last
  coord__writedata8_cont coord__writedata8_last coord__writedata16_cont
  coord__writedata16_last coord__flush_cache coord_initRead coord_computeDummyDiff
  coord__updateTouch2 : stab.

Lemma coord_bufferingMode : stable X bufferingMode.
Proof. unfold bufferingMode. coord_auto. Qed.
Lemma coord_asyncUpdateActive : stable X asyncUpdateActive.
Proof. unfold asyncUpdateActive. coord_auto. Qed.
Lemma coord_getRotation : stable X getRotation.
Proof. unfold getRotation. coord_auto. Qed.
Lemma coord_resync : stable X resync.
Proof. unfold resync. coord_auto. Qed.
Lemma coord__swapdiff : stable X _swapdiff.
Proof. unfold _swapdiff. coord_auto. Qed.
Lemma coord__swapdummydiff : stable X _swapdummydiff.
Proof. unfold _swapdummydiff. coord_auto. Qed.
Lemma coord__nbScanlineDuring t : stable X (_nbScanlineDuring t).
Proof. unfold _nbScanlineDuring. coord_auto. Qed.
Lemma coord__timeForScanlines t : stable X (_timeForScanlines t).
Proof. unfold _timeForScanlines. coord_auto. Qed.
Lemma coord__setTimerIn t cb : stable X (_setTimerIn t cb).
Proof. unfold _setTimerIn. coord_auto. Qed.
Lemma coord__setTimerAt t cb : stable X (_setTimerAt t cb).
Proof. unfold _setTimerAt. coord_auto. Qed.
Lemma coord__restartCpuTime : stable X _restartCpuTime.
Proof. unfold _restartCpuTime. coord_auto. Qed.
Lemma coord__restartUploadTime : stable X _restartUploadTime.
Proof. unfold _restartUploadTime. coord_auto. Qed.
Local Hint Resolve coord_bufferingMode coord_asyncUpdateActive coord_getRotation coord_resync
  coord__swapdiff coord__swapdummydiff coord__nbScanlineDuring coord__timeForScanlines
  coord__setTimerIn coord__setTimerAt coord__restartCpuTime coord__restartUploadTime : stab.

Lemma coord__pauseCpuTime : stable X _pauseCpuTime.
Proof. unfold _pauseCpuTime. coord_auto. Qed.
Lemma coord__pauseUploadTime : stable X _pauseUploadTime.
Proof. unfold _pauseUploadTime. coord_auto. Qed.
Lemma coord__startframe b : stable X (_startframe b).
Proof. unfold _startframe. coord_auto. Qed.
Lemma coord_statsReset : stable X statsReset.
Proof. unfold statsReset. coord_auto. Qed.
Lemma coord_push g s v : stable X (push g s v).
Proof. unfold push. coord_auto. Qed.
Local Hint Resolve coord__pauseCpuTime coord__pauseUploadTime coord__startframe
  coord_statsReset coord_push : stab.

Lemma coord__endframe : stable X _endframe.
Proof. unfold _endframe. coord_auto. Qed.
Lemma coord__getScanLine b : stable X (_getScanLine b).
Proof. unfold _getScanLine. coord_auto. Qed.
Local Hint Resolve coord__endframe coord__getScanLine : stab.

Lemma coord__sampleRefreshRate : stable X _sampleRefreshRate.
Proof. unfold _sampleRefreshRate. coord_auto. Qed.
Lemma coord__microToReachScanLine s b : stable X (_microToReachScanLine s b).
Proof. unfold _microToReachScanLine. coord_auto. Qed.
Lemma coord__microToExitRange a b : stable X (_microToExitRange a b).
Proof. unfold _microToExitRange. coord_auto. Qed.
Local Hint Resolve coord__sampleRefreshRate coord__microToReachScanLine
  coord__microToExitRange : stab.

Lemma coord__pushpixels_mode0_loop n fb p : stable X (_pushpixels_mode0_loop n fb p).
Proof. revert p. induction n; intros p; simpl; coord_auto. Qed.
Lemma coord__pushpixels_mode1_loop n fb x y : stable X (_pushpixels_mode1_loop n fb x y).
Proof. revert x y. induction n; intros x y; simpl; coord_auto. Qed.
Lemma coord__pushpixels_mode2_loop n fb p : stable X (_pushpixels_mode2_loop n fb p).
Proof. revert p. induction n; intros p; simpl; coord_auto. Qed.
Lemma coord__pushpixels_mode3_loop n fb x y : stable X (_pushpixels_mode3_loop n fb x y).
Proof. revert x y. induction n; intros x y; simpl; coord_auto. Qed.
Local Hint Resolve coord__pushpixels_mode0_loop coord__pushpixels_mode1_loop
  coord__pushpixels_mode2_loop coord__pushpixels_mode3_loop : stab.

Lemma coord__pushpixels fb x y len : stable X (_pushpixels fb x y len).
Proof.
  unfold _pushpixels, _pushpixels_mode0, _pushpixels_mode1, _pushpixels_mode2,
    _pushpixels_mode3.
  coord_auto.
Qed.
Local Hint Resolve coord__pushpixels : stab.

(** *** Handlers and the functions that wait for them *)

Variable invoke : methodCB -> M unit.
Hypothesis X_invoke : forall m, stable X (invoke m).
Hypothesis X_end_of_upload : stable X (end_of_upload invoke).
Local Hint Resolve X_invoke X_end_of_upload : stab.

Lemma coord_deliver i : stable X (deliver invoke i).
Proof. unfold deliver. coord_auto. Qed.
Local Hint Resolve coord_deliver : stab.

Lemma coord_deliver_all l : stable X (deliver_all invoke l).
Proof. induction l; simpl; coord_auto. Qed.
Local Hint Resolve coord_deliver_all : stab.

Lemma coord_preempt : stable X (preempt invoke).
Proof. unfold preempt. coord_auto. Qed.
Lemma coord_wait_irq : stable X (wait_irq invoke).
Proof. unfold wait_irq. coord_auto. Qed.
Local Hint Resolve coord_preempt coord_wait_irq : stab.

Lemma coord_interrupts : stable X (interrupts invoke).
Proof. unfold interrupts. coord_auto. Qed.
Lemma coord_waitUpdateAsyncComplete : stable X (waitUpdateAsyncComplete invoke).
Proof. unfold waitUpdateAsyncComplete. coord_auto. Qed.
Lemma coord_computeDiff d a b r g c m : stable X (computeDiff invoke d a b r g c m).
Proof. unfold computeDiff. coord_auto. Qed.
Lemma coord_copyfb a b r : stable X (copyfb invoke a b r).
Proof. unfold copyfb. coord_auto. Qed.
Local Hint Resolve coord_interrupts coord_waitUpdateAsyncComplete coord_computeDiff
  coord_copyfb : stab.

Lemma coord_computeDiff_fb1 d fb c : stable X (computeDiff_fb1 invoke d fb c).
Proof. unfold computeDiff_fb1. coord_auto. Qed.
Lemma coord_late_scanline s : stable X (late_scanline s).
Proof. unfold late_scanline. coord_auto. Qed.
Lemma coord_note_next_time b : stable X (note_next_time b).
Proof. unfold note_next_time. coord_auto. Qed.
Lemma coord_start_of_upload : stable X start_of_upload.
Proof. unfold start_of_upload. coord_auto. Qed.
Lemma coord_current_asl : stable X current_asl.
Proof. unfold current_asl. coord_auto. Qed.
Lemma coord_dma_run x y len : stable X (dma_run x y len).
Proof. unfold dma_run. coord_auto. Qed.
Lemma coord_check_margin : stable X check_margin.
Proof. unfold check_margin. coord_auto. Qed.
Local Hint Resolve coord_computeDiff_fb1 coord_late_scanline coord_note_next_time
  coord_start_of_upload coord_current_asl coord_dma_run coord_check_margin : stab.

Lemma coord__updateNow fb d : stable X (_updateNow invoke fb d).
Proof. unfold _updateNow. coord_auto. Qed.
Lemma coord__updateAsync fb d : stable X (_updateAsync invoke fb d).
Proof. unfold _updateAsync. coord_auto. Qed.
Lemma coord__subFrameTimerStartcb : stable X _subFrameTimerStartcb.
Proof. unfold _subFrameTimerStartcb. coord_auto. Qed.
Lemma coord__subFrameTimerStartcb2 : stable X (_subFrameTimerStartcb2 invoke).
Proof. unfold _subFrameTimerStartcb2. coord_auto. Qed.
Lemma coord__subFrameInterruptDiff : stable X (_subFrameInterruptDiff invoke).
Proof. unfold _subFrameInterruptDiff. coord_auto. Qed.
Local Hint Resolve coord__updateNow coord__updateAsync coord__subFrameTimerStartcb
  coord__subFrameTimerStartcb2 coord__subFrameInterruptDiff : stab.

Lemma coord__subFrameInterruptDiff2 : stable X (_subFrameInterruptDiff2 invoke).
Proof. unfold _subFrameInterruptDiff2. coord_auto. Qed.
Lemma coord__dmaInterruptDiff : stable X (_dmaInterruptDiff invoke).
Proof. unfold _dmaInterruptDiff. coord_auto. Qed.
Lemma coord_redraw_fb1 fb : stable X (redraw_fb1 invoke fb).
Proof. unfold redraw_fb1. coord_auto. Qed.
Lemma coord_diff_fb1 fb : stable X (diff_fb1 invoke fb).
Proof. unfold diff_fb1. coord_auto. Qed.

End Coordination.

(** ** The mirror and the first framebuffer *)

Definition mirror_is_fb1 (w : world) : Prop :=
  _mirrorfb (drv w) = _fb1 (drv w).

(** A frame waits in [_fb2] for the upload in flight to end: the callback
    is set, the buffer marked full, and the mirror tells which diff was
    staged ([_fb2]: a real diff in [_diff2]; null: a dummy diff). *)
Definition frame_queued (w : world) : Prop :=
  _pcb (drv w) = Some cb_buffer2fullCB /\
  _fb2full (drv w) = true /\
  (_mirrorfb (drv w) = _fb2 (drv w) \/ _mirrorfb (drv w) = None).

Definition no_framebuffers (w : world) : Prop :=
  _fb1 (drv w) = None /\ _fb2 (drv w) = None.

Lemma mirror_is_fb1_coord w w' : coord w' = coord w -> mirror_is_fb1 w -> mirror_is_fb1 w'.
Proof. unfold coord, mirror_is_fb1. intros E H. inversion E. congruence. Qed.

Lemma frame_queued_coord w w' : coord w' = coord w -> frame_queued w -> frame_queued w'.
Proof.
  unfold coord, frame_queued. intros E H. inversion E as [[E1 E2 E3 E4 E5]].
  rewrite E1, E3, E4, E5. exact H.
Qed.

Lemma no_framebuffers_coord w w' :
  coord w' = coord w -> no_framebuffers w -> no_framebuffers w'.
Proof. unfold coord, no_framebuffers. intros E [H1 H2]. inversion E. split; congruence. Qed.

Lemma stable_conj {A : Type} (I J : world -> Prop) (c : M A) :
  stable I c -> stable J c -> stable (fun w => I w /\ J w) c.
Proof. intros HI HJ w a w' [H1 H2] E. split; [eapply HI|eapply HJ]; eauto. Qed.

(** Passing over a command that the property at hand does not depend on. *)
Ltac hoare_skip := eapply hoare_bind; [apply hoare_top | intros ?; cbv beta].

(** A write to a variable that the property does not mention. *)
Ltac same_leaf := let H := fresh in intros ? H; exact H.

(** From here on the property is simply kept. *)
Ltac as_stable :=
  lazymatch goal with |- hoare ?I ?c _ => change (stable I c) end.

(** [_mirrorfb = _fb1;] *)
Lemma set_mirror_fb1 (P : world -> Prop) :
  hoare P (fb1 <- rd _fb1 ;; wr set_mirrorfb fb1) (fun _ => mirror_is_fb1).
Proof. intros w a w' _ E. inversion E; subst. reflexivity. Qed.

Section MirrorAtDepth.

Variable invoke : methodCB -> M unit.
Hypothesis mirror_invoke : forall m, stable mirror_is_fb1 (invoke m).
Hypothesis nofb_invoke : forall m, stable no_framebuffers (invoke m).

Lemma mirror_end_of_upload : stable mirror_is_fb1 (end_of_upload invoke).
Proof.
  pose proof (coord__updateTouch2 _ mirror_is_fb1_coord).
  unfold end_of_upload, call_pcb.
  stable_steps same_leaf; auto.
Qed.

Lemma nofb_end_of_upload : stable no_framebuffers (end_of_upload invoke).
Proof.
  pose proof (coord__updateTouch2 _ no_framebuffers_coord).
  unfold end_of_upload, call_pcb.
  stable_steps same_leaf; auto.
Qed.

Lemma mirror__buffer2fullCB :
  hoare (fun _ => True) (_buffer2fullCB invoke) (fun _ => mirror_is_fb1).
Proof.
  assert (HU : forall fb d, stable mirror_is_fb1 (_updateAsync invoke fb d)).
  { intros fb d. apply coord__updateAsync;
      first [exact mirror_is_fb1_coord | exact mirror_invoke | exact mirror_end_of_upload]. }
  unfold _buffer2fullCB.
  hoare_skip.
  eapply hoare_bind with (R := fun _ => mirror_is_fb1).
  - match goal with |- hoare _ (if ?b then _ else _) _ => destruct b end.
    + do 2 hoare_skip.
      eapply hoare_bind; [apply set_mirror_fb1|]. intros ?. as_stable.
      stable_steps same_leaf.
    + do 2 hoare_skip.
      eapply hoare_bind; [apply set_mirror_fb1|]. intros ?. as_stable.
      stable_steps same_leaf.
  - intros ?. unfold _setCB. as_stable.
    stable_steps same_leaf.
Qed.

Lemma nofb__swapfb : stable no_framebuffers _swapfb.
Proof.
  intros w a w' [H1 H2] E. inversion E; subst. split; simpl; assumption.
Qed.

Lemma nofb__buffer2fullCB : stable no_framebuffers (_buffer2fullCB invoke).
Proof.
  assert (HU : forall fb d, stable no_framebuffers (_updateAsync invoke fb d)).
  { intros fb d. apply coord__updateAsync;
      first [exact no_framebuffers_coord | exact nofb_invoke | exact nofb_end_of_upload]. }
  pose proof (coord__swapdiff _ no_framebuffers_coord).
  pose proof (coord__swapdummydiff _ no_framebuffers_coord).
  pose proof nofb__swapfb.
  unfold _buffer2fullCB, _setCB.
  stable_steps same_leaf; auto.
Qed.

Lemma mirror_dispatch m : stable mirror_is_fb1 (dispatch invoke m).
Proof.
  destruct m; simpl.
  - unfold stable.
    eapply hoare_conseq with (P' := fun _ => True) (Q' := fun _ => mirror_is_fb1);
      [apply mirror__buffer2fullCB | intros; exact I | intros ? ? H; exact H].
  - apply coord__subFrameTimerStartcb, mirror_is_fb1_coord.
  - apply coord__subFrameTimerStartcb2;
      first [exact mirror_is_fb1_coord | exact mirror_invoke | exact mirror_end_of_upload].
  - apply coord__subFrameInterruptDiff2;
      first [exact mirror_is_fb1_coord | exact mirror_invoke | exact mirror_end_of_upload].
  - apply coord__dmaInterruptDiff;
      first [exact mirror_is_fb1_coord | exact mirror_invoke | exact mirror_end_of_upload].
Qed.

Lemma nofb_dispatch m : stable no_framebuffers (dispatch invoke m).
Proof.
  destruct m; simpl.
  - apply nofb__buffer2fullCB.
  - apply coord__subFrameTimerStartcb, no_framebuffers_coord.
  - apply coord__subFrameTimerStartcb2;
      first [exact no_framebuffers_coord | exact nofb_invoke | exact nofb_end_of_upload].
  - apply coord__subFrameInterruptDiff2;
      first [exact no_framebuffers_coord | exact nofb_invoke | exact nofb_end_of_upload].
  - apply coord__dmaInterruptDiff;
      first [exact no_framebuffers_coord | exact nofb_invoke | exact nofb_end_of_upload].
Qed.

End MirrorAtDepth.

Lemma mirror_invoke depth : forall m, stable mirror_is_fb1 (invoke depth m).
Proof.
  induction depth as [|k IH]; intros m; simpl.
  - apply stable_stuck.
  - apply mirror_dispatch, IH.
Qed.

Lemma nofb_invoke depth : forall m, stable no_framebuffers (invoke depth m).
Proof.
  induction depth as [|k IH]; intros m; simpl.
  - apply stable_stuck.
  - apply nofb_dispatch, IH.
Qed.

(** The completion callback always leaves the mirror on [_fb1]. *)
Lemma buffer2fullCB_sets_mirror depth :
  hoare (fun _ => True) (invoke depth cb_buffer2fullCB) (fun _ => mirror_is_fb1).
Proof.
  destruct depth as [|k]; simpl.
  - apply hoare_stuck.
  - apply mirror__buffer2fullCB, mirror_invoke.
Qed.

(** After [update]: the mirror is [_fb1], or the frame waits in [_fb2]. *)
Definition mirror_or_queued (w : world) : Prop :=
  mirror_is_fb1 w \/ frame_queued w.

Lemma mirror_or_queued_coord w w' :
  coord w' = coord w -> mirror_or_queued w -> mirror_or_queued w'.
Proof.
  intros E [H|H]; [left|right];
    eauto using mirror_is_fb1_coord, frame_queued_coord.
Qed.

Lemma hoare_elim {A : Type} (P : world -> Prop) (c : M A) (Q : A -> world -> Prop) w a w' :
  hoare P c Q -> P w -> c w = Some (a, w') -> Q a w'.
Proof. intros H. apply H. Qed.

(** At the end of an upload the pending callback, if any, puts the mirror
    on [_fb1]; a queued frame is always served by [_buffer2fullCB]. *)
Lemma queued_call_pcb depth :
  hoare mirror_or_queued (call_pcb (invoke depth)) (fun _ => mirror_is_fb1).
Proof.
  intros w a w' HJ E. unfold call_pcb in E.
  apply bind_inv in E. destruct E as (cb & w1 & E1 & E2).
  inversion E1; subst; clear E1.
  destruct HJ as [HI|(Hcb & _)].
  - destruct (_pcb (drv w1)) as [m|].
    + eapply mirror_invoke; eauto.
    + inversion E2; subst. exact HI.
  - rewrite Hcb in E2.
    eapply buffer2fullCB_sets_mirror; eauto.
Qed.

Lemma queued_end_of_upload depth :
  stable mirror_or_queued (end_of_upload (invoke depth)).
Proof.
  unfold end_of_upload.
  eapply hoare_bind with (R := fun _ => mirror_or_queued).
  { pose proof (coord__updateTouch2 _ mirror_or_queued_coord).
    as_stable. stable_steps same_leaf. }
  intros ?.
  eapply hoare_bind with (R := fun _ => mirror_or_queued).
  { as_stable. stable_steps same_leaf. }
  intros ?.
  eapply hoare_bind; [apply queued_call_pcb|].
  intros ? w0 ? w1 H0 E. inversion E; subst. left. exact H0.
Qed.

Lemma queued_invoke depth : forall m, stable mirror_or_queued (invoke depth m).
Proof.
  induction depth as [|k IH]; intros m; simpl.
  - apply stable_stuck.
  - destruct m; simpl.
    + unfold stable.
      eapply hoare_conseq with (P' := fun _ => True) (Q' := fun _ => mirror_is_fb1);
        [apply (buffer2fullCB_sets_mirror (S k)) | intros; exact I
        | intros ? ? H; left; exact H].
    + apply coord__subFrameTimerStartcb, mirror_or_queued_coord.
    + apply coord__subFrameTimerStartcb2;
        first [exact mirror_or_queued_coord | exact IH | apply queued_end_of_upload].
    + apply coord__subFrameInterruptDiff2;
        first [exact mirror_or_queued_coord | exact IH | apply queued_end_of_upload].
    + apply coord__dmaInterruptDiff;
        first [exact mirror_or_queued_coord | exact IH | apply queued_end_of_upload].
Qed.

Lemma queued_interrupts depth : stable mirror_or_queued (interrupts (invoke depth)).
Proof.
  apply coord_interrupts;
    first [exact mirror_or_queued_coord | apply queued_invoke].
Qed.

Lemma mirror__updateAsync depth fb d :
  stable mirror_is_fb1 (_updateAsync (invoke depth) fb d).
Proof.
  apply coord__updateAsync;
    first [exact mirror_is_fb1_coord | apply mirror_invoke
          | apply mirror_end_of_upload, mirror_invoke].
Qed.

(** The frame is staged behind the upload in flight. *)
Lemma update_queues_real depth (P : world -> Prop) :
  hoare P
    (_setCB (Some cb_buffer2fullCB) ;;
     wr set_fb2full true ;;
     (fb2 <- rd _fb2 ;; wr set_mirrorfb fb2) ;;
     interrupts (invoke depth))
    (fun _ => mirror_or_queued).
Proof.
  intros w a w' _ E.
  apply bind_inv in E. destruct E as (? & w1 & E1 & E).
  apply bind_inv in E. destruct E as (? & w2 & E2 & E).
  apply bind_inv in E. destruct E as (? & w3 & E3 & E).
  inversion E1; subst; clear E1. inversion E2; subst; clear E2.
  inversion E3; subst; clear E3.
  eapply queued_interrupts; [|exact E].
  right. unfold frame_queued. simpl. auto.
Qed.

Lemma update_queues_dummy depth (P : world -> Prop) :
  hoare P
    (_setCB (Some cb_buffer2fullCB) ;;
     wr set_fb2full true ;;
     wr set_mirrorfb None ;;
     interrupts (invoke depth))
    (fun _ => mirror_or_queued).
Proof.
  intros w a w' _ E.
  apply bind_inv in E. destruct E as (? & w1 & E1 & E).
  apply bind_inv in E. destruct E as (? & w2 & E2 & E).
  apply bind_inv in E. destruct E as (? & w3 & E3 & E).
  inversion E1; subst; clear E1. inversion E2; subst; clear E2.
  inversion E3; subst; clear E3.
  eapply queued_interrupts; [|exact E].
  right. unfold frame_queued. simpl. auto.
Qed.

(** The upload ended meanwhile: swap, set the mirror, launch. *)
Lemma update_launches_swapped (P : world -> Prop) (launch : M unit) :
  stable mirror_is_fb1 launch ->
  hoare P
    ((fb1 <- rd _fb1 ;; wr set_mirrorfb fb1) ;; launch)
    (fun _ => mirror_or_queued).
Proof.
  intros Hl.
  eapply hoare_bind; [apply set_mirror_fb1|]. intros ?.
  intros w0 u w1 H E. left. eapply Hl; eauto.
Qed.

(** Every path of [update] ends in one of these three ways. *)
Ltac mirror_tail :=
  lazymatch goal with
  | |- hoare _ (bind (rd _fb1) (fun fb1 => wr set_mirrorfb fb1)) _ =>
      eapply hoare_conseq;
      [ apply (set_mirror_fb1 (fun _ => True)) | intros; exact I
      | intros ? ? ?; left; assumption ]
  | |- hoare _ (bind (bind (rd _fb1) (fun fb1 => wr set_mirrorfb fb1)) (fun _ => bind _ _)) _ =>
      simple apply update_launches_swapped; stable_steps same_leaf
  | |- hoare _ (bind (_setCB (Some cb_buffer2fullCB))
                     (fun _ => bind _ (fun _ => bind (wr set_mirrorfb None) _))) _ =>
      simple apply update_queues_dummy
  | |- hoare _ (bind (_setCB (Some cb_buffer2fullCB)) _) _ =>
      simple apply update_queues_real
  | |- hoare _ (bind _ _) _ => hoare_skip; mirror_tail
  | |- hoare _ (if ?b then _ else _) _ => destruct b; mirror_tail
  | |- hoare _ (match ?x with _ => _ end) _ => destruct x; mirror_tail
  end.

(** [update] returns at once, leaving the frame aside: double buffering,
    [vsync_spacing == -1] and an upload in flight. *)
Definition drops_frame (w : world) : bool :=
  match _fb1 (drv w), _fb2 (drv w) with
  | None, None => false
  | Some _, Some _ => false
  | _, _ =>
      (_vsync_spacing (drv w) =? -1)
      && negb (dma_state_eqb (_dma_state (drv w)) ILI9341_T4_DMA_IDLE)
  end.

(** Only triple buffering with an upload in flight at the call can stage
    the frame in [_fb2]. *)
Definition may_stage (w : world) : bool :=
  match _fb1 (drv w), _fb2 (drv w) with
  | Some _, Some _ => negb (dma_state_eqb (_dma_state (drv w)) ILI9341_T4_DMA_IDLE)
  | _, _ => false
  end.

(** Every other path of [update] ends with [_mirrorfb = _fb1]. *)
Ltac strict_tail :=
  lazymatch goal with
  | |- hoare _ (bind (rd _fb1) (fun fb1 => wr set_mirrorfb fb1)) _ =>
      apply set_mirror_fb1
  | |- hoare _ (bind _ _) _ => hoare_skip; strict_tail
  | |- hoare _ (if ?b then _ else _) _ => destruct b; strict_tail
  | |- hoare _ (match ?x with _ => _ end) _ => destruct x; strict_tail
  end.

Lemma bufferingMode_eq w :
  bufferingMode w = Some (match _fb1 (drv w), _fb2 (drv w) with
                          | None, None => NO_BUFFERING
                          | Some _, Some _ => TRIPLE_BUFFERING
                          | _, _ => DOUBLE_BUFFERING
                          end, w).
Proof. reflexivity. Qed.

Lemma update_no_buffering depth fb force w w' :
  no_framebuffers w ->
  update (invoke depth) fb force w = Some (tt, w') ->
  mirror_is_fb1 w'.
Proof.
  intros Hn E. unfold update in E.
  rewrite (bind_intro _ _ _ _ _ (bufferingMode_eq w)) in E.
  pose proof Hn as [H1 H2]. rewrite H1, H2 in E.
  revert E. generalize tt. intros u E.
  eapply hoare_elim with (P := no_framebuffers) (Q := fun _ => mirror_is_fb1);
    [|exact Hn|exact E].
  eapply hoare_bind with (R := fun _ => no_framebuffers).
  { as_stable. apply coord_waitUpdateAsyncComplete;
      first [exact no_framebuffers_coord | apply nofb_invoke]. }
  intros ?.
  eapply hoare_bind
    with (R := fun _ w => mirror_is_fb1 w /\ no_framebuffers w).
  { intros w0 ? w2 [H3 H4] E0. inversion E0; subst.
    unfold mirror_is_fb1, no_framebuffers. simpl. rewrite H3. auto. }
  intros ?.
  eapply hoare_conseq
    with (P' := fun w => mirror_is_fb1 w /\ no_framebuffers w)
         (Q' := fun _ w => mirror_is_fb1 w /\ no_framebuffers w);
    [|auto|intros ? ? [H _]; exact H].
  as_stable.
  pose proof (coord_computeDummyDiff _ mirror_is_fb1_coord).
  pose proof (coord_computeDummyDiff _ no_framebuffers_coord).
  assert (forall d, stable mirror_is_fb1 (_updateNow (invoke depth) fb d)).
  { intros d. apply coord__updateNow;
      first [exact mirror_is_fb1_coord | apply mirror_invoke]. }
  assert (forall d, stable no_framebuffers (_updateNow (invoke depth) fb d)).
  { intros d. apply coord__updateNow;
      first [exact no_framebuffers_coord | apply nofb_invoke]. }
  repeat first [ apply stable_conj; solve [auto]
               | apply stable_rd | apply stable_bind; [|intros ?] ].
Qed.

(** Without a frame staged, [update] returns with the mirror on [_fb1]:
    no buffering, double buffering, and triple buffering with no upload in
    flight at the call. *)
Lemma update_mirror_fb1 depth fb force w w' :
  drops_frame w = false ->
  may_stage w = false ->
  update (invoke depth) fb force w = Some (tt, w') ->
  mirror_is_fb1 w'.
Proof.
  intros Hd Hs E.
  destruct (_fb1 (drv w)) as [a|] eqn:F1; destruct (_fb2 (drv w)) as [b|] eqn:F2.
  - (* triple buffering, no upload in flight *)
    unfold may_stage in Hs. rewrite F1, F2 in Hs.
    unfold update in E.
    rewrite (bind_intro _ _ _ _ _ (bufferingMode_eq w)) in E.
    rewrite F1, F2 in E.
    apply bind_inv in E. destruct E as (active & w1 & E1 & E).
    inversion E1; subst active w1; clear E1.
    rewrite Hs in E. cbv iota in E.
    eapply hoare_elim with (P := fun _ => True) (Q := fun _ => mirror_is_fb1);
      [|exact I|exact E].
    strict_tail.
  - (* double buffering *)
    unfold drops_frame in Hd. rewrite F1, F2 in Hd.
    unfold update in E.
    rewrite (bind_intro _ _ _ _ _ (bufferingMode_eq w)) in E.
    rewrite F1, F2 in E.
    apply bind_inv in E. destruct E as (vs & w1 & E1 & E).
    inversion E1; subst vs w1; clear E1.
    apply bind_inv in E. destruct E as (active & w2 & E1 & E).
    inversion E1; subst active w2; clear E1.
    rewrite Hd in E.
    eapply hoare_elim with (P := fun _ => True) (Q := fun _ => mirror_is_fb1);
      [|exact I|exact E].
    strict_tail.
  - unfold drops_frame in Hd. rewrite F1, F2 in Hd.
    unfold update in E.
    rewrite (bind_intro _ _ _ _ _ (bufferingMode_eq w)) in E.
    rewrite F1, F2 in E.
    apply bind_inv in E. destruct E as (vs & w1 & E1 & E).
    inversion E1; subst vs w1; clear E1.
    apply bind_inv in E. destruct E as (active & w2 & E1 & E).
    inversion E1; subst active w2; clear E1.
    rewrite Hd in E.
    eapply hoare_elim with (P := fun _ => True) (Q := fun _ => mirror_is_fb1);
      [|exact I|exact E].
    strict_tail.
  - apply (update_no_buffering depth fb force w w'); [split; assumption|exact E].
Qed.

Lemma update_mirror_or_queued depth fb force w w' :
  drops_frame w = false ->
  update (invoke depth) fb force w = Some (tt, w') ->
  mirror_or_queued w'.
Proof.
  intros Hd E.
  destruct (may_stage w) eqn:Hs.
  2:{ left. eapply update_mirror_fb1; eauto. }
  unfold may_stage in Hs.
  destruct (_fb1 (drv w)) as [a|] eqn:F1; [|discriminate Hs].
  destruct (_fb2 (drv w)) as [b|] eqn:F2; [|discriminate Hs].
  unfold update in E.
  rewrite (bind_intro _ _ _ _ _ (bufferingMode_eq w)) in E.
  rewrite F1, F2 in E.
  eapply hoare_elim with (P := fun _ => True) (Q := fun _ => mirror_or_queued);
    [|exact I|exact E].
  pose proof (mirror__updateAsync depth).
  mirror_tail.
Qed.

(** The upload in flight ends: the callback of the staged frame runs and
    puts the mirror on [_fb1]. *)
Lemma staged_frame_served depth w w' :
  frame_queued w ->
  end_of_upload (invoke depth) w = Some (tt, w') ->
  mirror_is_fb1 w' /\ _pcb (drv w') = None.
Proof.
  intros Hq E. unfold end_of_upload in E.
  apply bind_inv in E. destruct E as ([] & w1 & E1 & E).
  assert (Hq1 : frame_queued w1).
  { eapply hoare_elim with (P := frame_queued) (Q := fun _ => frame_queued);
      [|exact Hq|exact E1].
    pose proof (coord__updateTouch2 _ frame_queued_coord).
    as_stable. stable_steps same_leaf. }
  apply bind_inv in E. destruct E as ([] & w2 & E2 & E).
  inversion E2; subst w2; clear E2.
  apply bind_inv in E. destruct E as ([] & w3 & E3 & E).
  inversion E; subst w'; clear E.
  split; [|reflexivity].
  change (mirror_is_fb1 w3).
  eapply (queued_call_pcb depth); [|exact E3].
  right. exact Hq1.
Qed.

(** ** What reaches the outside

    [since allowed t0 w]: from the trace [t0] on, the driver did only things
    that [allowed] lets through. *)

Definition since (allowed : event -> bool) (t0 : list event) (w : world) : Prop :=
  exists l, trace (hw w) = t0 ++ l /\ forallb allowed l = true.

Lemma since_refl allowed w : since allowed (trace (hw w)) w.
Proof. exists []. split; [symmetry; apply app_nil_r|reflexivity]. Qed.

Section TraceSince.

Variable allowed : event -> bool.
Variable t0 : list event.

Ltac since_auto := stable_steps same_leaf.

Lemma since_emit e : allowed e = true -> stable (since allowed t0) (emit e).
Proof.
  intros He w a w' (l & Hl & Hf) E. inversion E; subst.
  exists (l ++ [e]). simpl. split.
  - rewrite Hl. symmetry. apply app_assoc.
  - rewrite forallb_app, Hf. simpl. rewrite He. reflexivity.
Qed.

Lemma since_micros : stable (since allowed t0) micros.
Proof. unfold micros. since_auto. Qed.
Lemma since_millis : stable (since allowed t0) millis.
Proof. unfold millis. since_auto. Qed.
Lemma since_delayMicroseconds t : stable (since allowed t0) (delayMicroseconds t).
Proof. unfold delayMicroseconds. since_auto. Qed.
Lemma since_rx_read : stable (since allowed t0) rx_read.
Proof. unfold rx_read. since_auto. Qed.
Lemma since_readDiff d xyl s : stable (since allowed t0) (readDiff d xyl s).
Proof. unfold readDiff. destruct xyl as [[x y] len]. since_auto. Qed.
Local Hint Resolve since_micros since_millis since_delayMicroseconds since_rx_read
  since_readDiff : stab.

Lemma since_elapsed em : stable (since allowed t0) (elapsed em).
Proof. unfold elapsed. since_auto. Qed.
Lemma since_resync : stable (since allowed t0) resync.
Proof. unfold resync. since_auto. Qed.
Lemma since__nbScanlineDuring t : stable (since allowed t0) (_nbScanlineDuring t).
Proof. unfold _nbScanlineDuring. since_auto. Qed.
Lemma since__timeForScanlines t : stable (since allowed t0) (_timeForScanlines t).
Proof. unfold _timeForScanlines. since_auto. Qed.
Lemma since__restartCpuTime : stable (since allowed t0) _restartCpuTime.
Proof. unfold _restartCpuTime. since_auto. Qed.
Lemma since__restartUploadTime : stable (since allowed t0) _restartUploadTime.
Proof. unfold _restartUploadTime. since_auto. Qed.
Lemma since_statsReset : stable (since allowed t0) statsReset.
Proof. unfold statsReset. since_auto. Qed.
Lemma since_push g s v : stable (since allowed t0) (push g s v).
Proof. unfold push. since_auto. Qed.
Local Hint Resolve since_elapsed since_resync since__nbScanlineDuring
  since__timeForScanlines since__restartCpuTime since__restartUploadTime
  since_statsReset since_push : stab.

Lemma since__pauseCpuTime : stable (since allowed t0) _pauseCpuTime.
Proof. unfold _pauseCpuTime. since_auto. Qed.
Lemma since__pauseUploadTime : stable (since allowed t0) _pauseUploadTime.
Proof. unfold _pauseUploadTime. since_auto. Qed.
Lemma since__startframe b : stable (since allowed t0) (_startframe b).
Proof. unfold _startframe. since_auto. Qed.
Lemma since__endframe : stable (since allowed t0) _endframe.
Proof. unfold _endframe. since_auto. Qed.
Lemma since__swapdiff : stable (since allowed t0) _swapdiff.
Proof. unfold _swapdiff. since_auto. Qed.
Lemma since__swapdummydiff : stable (since allowed t0) _swapdummydiff.
Proof. unfold _swapdummydiff. since_auto. Qed.
Lemma since__swapfb : stable (since allowed t0) _swapfb.
Proof. unfold _swapfb. since_auto. Qed.
Lemma since_asyncUpdateActive : stable (since allowed t0) asyncUpdateActive.
Proof. unfold asyncUpdateActive. since_auto. Qed.
Local Hint Resolve since__pauseCpuTime since__pauseUploadTime since__startframe
  since__endframe since__swapdiff since__swapdummydiff since__swapfb
  since_asyncUpdateActive : stab.

(** The scanline query and what hangs on it. *)
Hypothesis allowed_begin : forall c, allowed (BeginSPITransaction c) = true.
Hypothesis allowed_end : allowed EndSPITransaction = true.
Hypothesis allowed_query : allowed ScanlineQuery = true.

Lemma since__beginSPITransaction c : stable (since allowed t0) (_beginSPITransaction c).
Proof. apply since_emit, allowed_begin. Qed.
Lemma since__endSPITransaction : stable (since allowed t0) _endSPITransaction.
Proof. apply since_emit, allowed_end. Qed.
Lemma since_query : stable (since allowed t0) (emit ScanlineQuery).
Proof. apply since_emit, allowed_query. Qed.
Local Hint Resolve since__beginSPITransaction since__endSPITransaction since_query : stab.

Lemma since__getScanLine b : stable (since allowed t0) (_getScanLine b).
Proof. unfold _getScanLine. since_auto. Qed.
Local Hint Resolve since__getScanLine : stab.

Lemma since__sampleRefreshRate : stable (since allowed t0) _sampleRefreshRate.
Proof. unfold _sampleRefreshRate. since_auto. Qed.
Lemma since__microToReachScanLine s b : stable (since allowed t0) (_microToReachScanLine s b).
Proof. unfold _microToReachScanLine. since_auto. Qed.
Lemma since__microToExitRange a b : stable (since allowed t0) (_microToExitRange a b).
Proof. unfold _microToExitRange. since_auto. Qed.
Local Hint Resolve since__microToReachScanLine since__microToExitRange : stab.

Lemma since_start_of_upload : stable (since allowed t0) start_of_upload.
Proof. unfold start_of_upload. since_auto. Qed.
Lemma since_note_next_time b : stable (since allowed t0) (note_next_time b).
Proof. unfold note_next_time. since_auto. Qed.

End TraceSince.

(** * Properties of the driver *)

(** ** Refresh mode *)

Definition is_panel_write (e : event) : bool :=
  match e with
  | WriteCommand _ | WriteData8 _ | WriteData16 _ => true
  | _ => false
  end.

Definition not_panel_write (e : event) : bool := negb (is_panel_write e).

Lemma bind_ret_eq {A B : Type} (c : M A) (k : A -> M B) w a w1 r :
  c w = Some (a, w1) -> bind c k w = r -> k a w1 = r.
Proof. intros H. unfold bind. rewrite H. auto. Qed.

(** Without an upload in flight the wait for it returns at once. *)
Lemma waitUpdateAsyncComplete_idle invoke w :
  _dma_state (drv w) = ILI9341_T4_DMA_IDLE ->
  waitUpdateAsyncComplete invoke w = Some (tt, w).
Proof.
  intros H. unfold waitUpdateAsyncComplete, while, loop, budget.
  simpl. unfold bind, asyncUpdateActive, bind, rd, ret. rewrite H. reflexivity.
Qed.

Lemma total_statsReset : total statsReset.
Proof. unfold statsReset, rds, millis. total_steps. Qed.

Lemma total_resync : total resync.
Proof. unfold resync. total_steps. Qed.

(** The state once the driver has sent [l]. *)
Definition sent (l : list event) (w : world) : world :=
  Build_world (drv w) (set_trace (trace (hw w) ++ l) (hw w)) (board w).

Lemma emit_sent e l w : emit e (sent l w) = Some (tt, sent (l ++ [e]) w).
Proof.
  unfold emit, sent, bind, hrd, hwr, set_trace. simpl.
  rewrite <- app_assoc. reflexivity.
Qed.

Lemma emit_sent_first e w : emit e w = Some (tt, sent [e] w).
Proof. reflexivity. Qed.

(** What the specification has [setRefreshMode] write: FRMCTR1, the prescaler byte
    and the register value, in one SPI transaction at a quarter of the
    clock. *)
Definition FRMCTR1_write (clk mode : Z) : list event :=
  [ BeginSPITransaction (clk / 4);
    WriteCommand ILI9341_T4_FRMCTR1;
    WriteData8 (if 16 <=? mode then 1 else 0);
    WriteData8 (0x10 + (if 16 <=? mode then mode - 16 else mode));
    EndSPITransaction ].

Lemma FRMCTR1_written mode (k : M unit) w1 :
  0 <= mode <= 31 ->
  ((clk <- rd _spi_clock ;; _beginSPITransaction (clk / 4)) ;;
   _writecommand_cont ILI9341_T4_FRMCTR1 ;;
   _writedata8_cont (if 16 <=? mode then 1 else 0) ;;
   _writedata8_last (0x10 + (if 16 <=? mode then mode - 16 else mode)) ;;
   _endSPITransaction ;;
   k) w1
  = k (sent (FRMCTR1_write (_spi_clock (drv w1)) mode) w1).
Proof.
  intros H.
  set (diva := if 16 <=? mode then 1 else 0).
  set (val := 0x10 + (if 16 <=? mode then mode - 16 else mode)).
  set (b := BeginSPITransaction (_spi_clock (drv w1) / 4)).
  rewrite (bind_intro _ _ w1 tt (sent [b] w1) eq_refl).
  rewrite (bind_intro _ _ _ tt _ (emit_sent (WriteCommand ILI9341_T4_FRMCTR1) [b] w1)).
  rewrite (bind_intro _ _ _ tt _ (emit_sent (WriteData8 (uint8 diva)) _ w1)).
  rewrite (bind_intro _ _ _ tt _ (emit_sent (WriteData8 (uint8 val)) _ w1)).
  rewrite (bind_intro _ _ _ tt _ (emit_sent EndSPITransaction _ w1)).
  subst diva val b.
  f_equal. unfold FRMCTR1_write. simpl.
  rewrite !uint8_id; [reflexivity| |];
    destruct (16 <=? mode) eqn:Hm;
    try apply Z.leb_le in Hm; try apply Z.leb_gt in Hm; lia.
Qed.

(** [setRefreshMode] returns as soon as its two waits do: the one for the
    upload in flight and the one for the panel to answer the scanline
    queries of the refresh-rate measurement. *)
Lemma setRefreshMode_returns invoke mode w w1 w2 :
  0 <= mode <= 31 ->
  waitUpdateAsyncComplete invoke
    (Build_world (set_refreshmode mode (drv w)) (hw w) (board w)) = Some (tt, w1) ->
  (delayMicroseconds 50 ;; _sampleRefreshRate)
    (sent (FRMCTR1_write (_spi_clock (drv w1)) mode) w1) = Some (tt, w2) ->
  exists w', setRefreshMode invoke mode w = Some (tt, w').
Proof.
  intros H E1 E2. unfold setRefreshMode.
  replace ((mode <? 0) || (31 <? mode)) with false
    by (symmetry; apply orb_false_iff; split; apply Z.ltb_ge; lia).
  rewrite (bind_intro _ _ w tt _ eq_refl).
  rewrite (bind_intro _ _ _ tt w1 E1).
  rewrite FRMCTR1_written by exact H.
  apply bind_inv in E2. destruct E2 as ([] & w3 & E2 & E3).
  rewrite (bind_intro _ _ _ tt w3 E2).
  rewrite (bind_intro _ _ _ tt w2 E3).
  apply total_unit.
  pose proof total_statsReset. pose proof total_resync.
  total_steps.
Qed.

(** C8: a mode outside [0,31] makes [setRefreshMode] return at once with
    nothing changed and nothing written; a mode in [0,31] makes it write, once
    the upload in flight is over, FRMCTR1 followed by the prescaler byte
    (1 for modes 16..31, 0 for modes 0..15) and by 0x10 + mode (less 16 for
    modes 16..31), and nothing else to the panel.  The call returns as soon
    as the upload in flight has come to its end and the panel has answered
    the scanline queries of the refresh-rate measurement that follows the
    write. *)
Theorem setRefreshMode_writes_FRMCTR1 depth mode w :
  ((mode < 0 \/ 31 < mode) -> setRefreshMode (invoke depth) mode w = Some (tt, w)) /\
  (0 <= mode <= 31 ->
   forall w', setRefreshMode (invoke depth) mode w = Some (tt, w') ->
   exists w1 l,
     waitUpdateAsyncComplete (invoke depth)
       (Build_world (set_refreshmode mode (drv w)) (hw w) (board w)) = Some (tt, w1) /\
     trace (hw w') = trace (hw w1) ++ FRMCTR1_write (_spi_clock (drv w1)) mode ++ l /\
     forallb not_panel_write l = true) /\
  (0 <= mode <= 31 ->
   forall w1 w2,
     waitUpdateAsyncComplete (invoke depth)
       (Build_world (set_refreshmode mode (drv w)) (hw w) (board w)) = Some (tt, w1) ->
     (delayMicroseconds 50 ;; _sampleRefreshRate)
       (sent (FRMCTR1_write (_spi_clock (drv w1)) mode) w1) = Some (tt, w2) ->
     exists w', setRefreshMode (invoke depth) mode w = Some (tt, w')).
Proof.
  split; [|split].
  - intros H. unfold setRefreshMode.
    replace ((mode <? 0) || (31 <? mode)) with true; [reflexivity|].
    symmetry. apply orb_true_iff. destruct H; [left|right]; apply Z.ltb_lt; lia.
  - intros H w' E. unfold FRMCTR1_write. unfold setRefreshMode in E.
    replace ((mode <? 0) || (31 <? mode)) with false in E
      by (symmetry; apply orb_false_iff; split; apply Z.ltb_ge; lia).
    apply bind_inv in E. destruct E as (? & w0 & E0 & E).
    inversion E0; subst; clear E0.
    apply bind_inv in E. destruct E as ([] & w1 & E1 & E).
    exists w1.
    apply bind_inv in E. destruct E as (? & w2 & E2 & E).
    inversion E2; subst; clear E2.
    apply bind_inv in E. destruct E as (? & w3 & E3 & E).
    inversion E3; subst; clear E3.
    apply bind_inv in E. destruct E as (? & w4 & E4 & E).
    inversion E4; subst; clear E4.
    apply bind_inv in E. destruct E as (? & w5 & E5 & E).
    inversion E5; subst; clear E5.
    apply bind_inv in E. destruct E as (? & w6 & E6 & E).
    inversion E6; subst; clear E6.
    set (t1 := trace (hw w1)
               ++ [ BeginSPITransaction (_spi_clock (drv w1) / 4);
                    WriteCommand ILI9341_T4_FRMCTR1;
                    WriteData8 (if 16 <=? mode then 1 else 0);
                    WriteData8 (0x10 + (if 16 <=? mode then mode - 16 else mode));
                    EndSPITransaction ]).
    assert (HS : since not_panel_write t1 w').
    { eapply hoare_elim
        with (P := since not_panel_write t1) (Q := fun _ => since not_panel_write t1);
        [| |exact E].
      - as_stable.
        pose proof (since_delayMicroseconds not_panel_write).
        pose proof (since__sampleRefreshRate not_panel_write).
        pose proof (since_statsReset not_panel_write).
        pose proof (since_resync not_panel_write).
        stable_steps same_leaf; auto.
      - exists []. unfold t1. simpl. rewrite app_nil_r. repeat rewrite <- app_assoc. simpl.
        split; [|reflexivity].
        do 4 f_equal.
        + destruct (16 <=? mode); reflexivity.
        + f_equal. f_equal. apply uint8_id.
          destruct (16 <=? mode) eqn:Hm;
            [apply Z.leb_le in Hm|apply Z.leb_gt in Hm]; lia. }
    destruct HS as (l & Hl & Hf). exists l. split; [exact E1|].
    split; [|exact Hf]. rewrite Hl. unfold t1. rewrite <- app_assoc. reflexivity.
  - intros H w1 w2 E1 E2. eapply setRefreshMode_returns; eassumption.
Qed.

Lemma setRefreshMode_writes_FRMCTR1_witness :
  setRefreshMode (invoke 1) 32 (bench 2) = Some (tt, bench 2) /\
  (exists w',
     setRefreshMode (invoke 1) 20 (bench_sampling 2) = Some (tt, w') /\
     exists w1 l,
       waitUpdateAsyncComplete (invoke 1)
         (Build_world (set_refreshmode 20 (drv (bench_sampling 2)))
            (hw (bench_sampling 2)) (board (bench_sampling 2))) = Some (tt, w1) /\
       trace (hw w') = trace (hw w1) ++ FRMCTR1_write (_spi_clock (drv w1)) 20 ++ l /\
       forallb not_panel_write l = true) /\
  (exists w', setRefreshMode (invoke 1) 20 (bench_sampling 2) = Some (tt, w')).
Proof.
  pose (w1 := Build_world (set_refreshmode 20 (drv (bench_sampling 2)))
                (hw (bench_sampling 2)) (board (bench_sampling 2))).
  assert (E1 : waitUpdateAsyncComplete (invoke 1) w1 = Some (tt, w1))
    by (vm_compute; reflexivity).
  destruct ((delayMicroseconds 50 ;; _sampleRefreshRate)
              (sent (FRMCTR1_write (_spi_clock (drv w1)) 20) w1))
    as [[[] w2]|] eqn:E2; [|vm_compute in E2; discriminate E2].
  destruct (proj2 (proj2 (setRefreshMode_writes_FRMCTR1 1 20 (bench_sampling 2)))
              ltac:(lia) w1 w2 E1 E2) as [w' E].
  split; [|split].
  - apply (proj1 (setRefreshMode_writes_FRMCTR1 1 32 (bench 2))). right. lia.
  - exists w'. split; [exact E|].
    apply (proj1 (proj2 (setRefreshMode_writes_FRMCTR1 1 20 (bench_sampling 2))));
      [lia|exact E].
  - exists w'. exact E.
Defined.

(** ** The scanline oracle *)

Lemma scanline_remap v :
  0 <= v <= 161 ->
  (let sc := int32 (2 * int32 v - 3) in if sc <? 0 then 0 else sc) = Z.max 0 (2 * v - 3).
Proof.
  intros H. cbv zeta.
  rewrite (int32_id v) by (unfold INT_MIN, INT_MAX; lia).
  rewrite int32_id by (unfold INT_MIN, INT_MAX; lia).
  destruct (2 * v - 3 <? 0) eqn:E;
    [apply Z.ltb_lt in E|apply Z.ltb_ge in E]; lia.
Qed.

(** Microseconds on the [elapsedMicros] object [_synced_em]. *)
Definition synced_elapsed (w : world) : Z :=
  uint32 (uint32 (clock (hw w)) - _synced_em (drv w)).

(** C6: when the panel answers a scanline query with the raw value [v] in
    [0,161], [_getScanLine(true)] stores and returns [max(0, 2v - 3)]; with a
    period [P > 0], [_getScanLine(false)] returns
    [(synced_scanline + elapsed_us * 320 / P) mod 320], in exact integer
    arithmetic. *)
Theorem getScanLine_remap_and_prediction w :
  (forall a b dt v q,
      rx (hw w) = a :: b :: (dt, v) :: q -> 0 <= v <= 161 ->
      exists w',
        _getScanLine true w = Some (Z.max 0 (2 * v - 3), w') /\
        _synced_scanline (drv w') = Z.max 0 (2 * v - 3)) /\
  (0 < _period (drv w) -> 0 <= _synced_scanline (drv w) < 2 ^ 32 ->
   _getScanLine false w =
     Some ((_synced_scanline (drv w) + synced_elapsed w * 320 / _period (drv w)) mod 320, w)).
Proof.
  split.
  - intros [da va] [db vb] dt v q Hrx Hv.
    pose proof (scanline_remap v Hv) as Hs. cbv zeta in Hs.
    unfold _getScanLine, bind, rd, wr, hrd, hwr, emit, _beginSPITransaction,
      _endSPITransaction, delayMicroseconds, rx_read, micros, ret, bind.
    simpl. rewrite Hrx. simpl. rewrite Hs.
    eexists. split; [reflexivity|].
    simpl. apply uint32_id. lia.
  - intros HP Hsl.
    unfold _getScanLine, elapsed, micros, bind, rd, hrd, ret, synced_elapsed.
    simpl.
    destruct (_period (drv w) =? 0) eqn:E0; [apply Z.eqb_eq in E0; lia|].
    set (e := uint32 (uint32 (clock (hw w)) - _synced_em (drv w))).
    assert (He : 0 <= e < 2 ^ 32) by (apply Z.mod_pos_bound; lia).
    change ILI9341_T4_NB_SCANLINES with 320.
    assert (H1 : uint64 (e * 320) = e * 320).
    { unfold uint64. apply Z.mod_small. lia. }
    rewrite H1.
    assert (H2 : 0 <= e * 320 / _period (drv w) <= e * 320).
    { split; [apply Z.div_pos; lia|].
      apply Z.div_le_upper_bound; [lia|]. nia. }
    assert (H3 : uint64 (_synced_scanline (drv w) + e * 320 / _period (drv w))
                 = _synced_scanline (drv w) + e * 320 / _period (drv w)).
    { unfold uint64. apply Z.mod_small. lia. }
    rewrite H3.
    rewrite int32_id; [reflexivity|].
    pose proof (Z.mod_pos_bound
                  (_synced_scanline (drv w) + e * 320 / _period (drv w)) 320
                  ltac:(lia)).
    unfold INT_MIN, INT_MAX. lia.
Qed.

Lemma getScanLine_remap_and_prediction_witness :
  (exists w',
      _getScanLine true (Build_world (bench_driver 2)
                           (set_rx (scanline_answer 100) bench_hardware) bench_board)
      = Some (Z.max 0 (2 * 100 - 3), w') /\
      _synced_scanline (drv w') = Z.max 0 (2 * 100 - 3)) /\
  _getScanLine false (bench 2) =
    Some ((_synced_scanline (drv (bench 2))
           + synced_elapsed (bench 2) * 320 / _period (drv (bench 2))) mod 320, bench 2).
Proof.
  split.
  - apply (proj1 (getScanLine_remap_and_prediction
                    (Build_world (bench_driver 2)
                       (set_rx (scanline_answer 100) bench_hardware) bench_board))
             (3, 0) (3, 0) 3 100 []); [reflexivity|lia].
  - apply (proj2 (getScanLine_remap_and_prediction (bench 2))); simpl; lia.
Defined.

(** ** Scrolling *)

Lemma int32_add_int32 a b : int32 (a + int32 b) = int32 (a + b).
Proof.
  unfold int32. f_equal.
  replace (a + ((b + 2 ^ 31) mod 2 ^ 32 - 2 ^ 31) + 2 ^ 31)
    with (a + (b + 2 ^ 31) mod 2 ^ 32) by ring.
  rewrite Z.add_mod_idemp_r by lia. f_equal. ring.
Qed.

(** For every [int] the offset written is [offset mod 320], a value in
    [0,319]. *)
Lemma scroll_offset_mod offset :
  INT_MIN <= offset <= INT_MAX ->
  scroll_offset offset = offset mod 320 /\ 0 <= scroll_offset offset <= 319.
Proof.
  unfold INT_MIN, INT_MAX. intros H.
  assert (Hr : 0 <= offset mod 320 < 320) by (apply Z.mod_pos_bound; lia).
  cut (scroll_offset offset = offset mod 320); [intros ->; lia|].
  unfold scroll_offset, cdiv, cmod.
  destruct (offset <? 0) eqn:E; [apply Z.ltb_lt in E|apply Z.ltb_ge in E].
  - rewrite Z.quot_opp_r, <- Z.quot_opp_l by discriminate.
    change ILI9341_T4_TFTHEIGHT with 320.
    set (q := Z.quot (- offset) 320).
    assert (Hq : - offset = 320 * q + Z.rem (- offset) 320) by apply Z.quot_rem'.
    assert (Hrem : 0 <= Z.rem (- offset) 320 < 320) by (apply Z.rem_bound_pos; lia).
    rewrite (int32_id (q + 1)) by (unfold INT_MIN, INT_MAX; lia).
    rewrite int32_add_int32.
    rewrite int32_id by (unfold INT_MIN, INT_MAX; lia).
    rewrite Z.rem_mod_nonneg by lia.
    apply Z.mod_add. lia.
  - apply Z.rem_mod_nonneg; lia.
Qed.

(** What [setScroll] writes, in general. *)
Lemma setScroll_writes depth offset w :
  _dma_state (drv w) = ILI9341_T4_DMA_IDLE ->
  exists w',
    setScroll (invoke depth) offset w = Some (tt, w') /\
    trace (hw w') =
      trace (hw w)
      ++ [ BeginSPITransaction (_spi_clock (drv w));
           WriteCommand ILI9341_T4_VSCRSADD;
           WriteData16 (uint16 (scroll_offset offset));
           WriteCommand ILI9341_T4_RAMWR;
           WriteCommand ILI9341_T4_NOP;
           EndSPITransaction ].
Proof.
  intros Hidle. unfold setScroll. cbv zeta.
  erewrite bind_intro by (apply waitUpdateAsyncComplete_idle; exact Hidle).
  eexists. split; [reflexivity|].
  simpl. repeat rewrite <- app_assoc. reflexivity.
Qed.

(** C10: for every [int] offset, negative ones and the least one included,
    [setScroll] writes [offset mod 320], a value in [0,319], to the
    vertical-scroll register, once the upload in flight, if any, is over:
    the transaction it sends is VSCRSADD with that value, then RAMWR and
    NOP. *)
Theorem setScroll_writes_every_offset_mod_320 depth offset w w1 :
  INT_MIN <= offset <= INT_MAX ->
  waitUpdateAsyncComplete (invoke depth) w = Some (tt, w1) ->
  0 <= offset mod 320 <= 319 /\
  exists w',
    setScroll (invoke depth) offset w = Some (tt, w') /\
    trace (hw w') =
      trace (hw w1)
      ++ [ BeginSPITransaction (_spi_clock (drv w1));
           WriteCommand ILI9341_T4_VSCRSADD;
           WriteData16 (offset mod 320);
           WriteCommand ILI9341_T4_RAMWR;
           WriteCommand ILI9341_T4_NOP;
           EndSPITransaction ].
Proof.
  intros Ho Hwait.
  destruct (scroll_offset_mod offset Ho) as [Hs Hr]. rewrite Hs in Hr.
  split; [exact Hr|].
  unfold setScroll. cbv zeta.
  rewrite (bind_intro _ _ w tt w1 Hwait).
  eexists. split; [reflexivity|].
  simpl. repeat rewrite <- app_assoc. rewrite Hs, uint16_id by lia. reflexivity.
Qed.

(** The least [int], on a driver at rest. *)
Lemma setScroll_writes_every_offset_mod_320_witness :
  (0 <= INT_MIN mod 320 <= 319 /\
   exists w',
     setScroll (invoke 1) INT_MIN (bench 2) = Some (tt, w') /\
     trace (hw w') =
       trace (hw (bench 2))
       ++ [ BeginSPITransaction (_spi_clock (drv (bench 2)));
            WriteCommand ILI9341_T4_VSCRSADD;
            WriteData16 (INT_MIN mod 320);
            WriteCommand ILI9341_T4_RAMWR;
            WriteCommand ILI9341_T4_NOP;
            EndSPITransaction ]) /\
  INT_MIN mod 320 = 192.
Proof.
  split; [|vm_compute; reflexivity].
  apply (setScroll_writes_every_offset_mod_320 1 INT_MIN (bench 2) (bench 2)).
  - unfold INT_MIN, INT_MAX. lia.
  - vm_compute. reflexivity.
Defined.


(** ** Pixel pusher *)

(** The words that go out when the pixels at [idx 0], [idx 1], ... of the
    framebuffer are pushed. *)
Definition pushed (fb : Z -> Z) (idx : Z -> Z) (len : Z) : list event :=
  map (fun k => WriteData16 (uint16 (fb (idx (Z.of_nat k))))) (seq 0 (Z.to_nat len)).

(** [c] returns, changes nothing in the driver and sends exactly [l]. *)
Definition sends (c : M unit) (w : world) (l : list event) : Prop :=
  exists w', c w = Some (tt, w') /\ drv w' = drv w /\ trace (hw w') = trace (hw w) ++ l.

Lemma sends_nil w : sends (ret tt) w [].
Proof. exists w. split; [reflexivity|]. split; [reflexivity|]. symmetry. apply app_nil_r. Qed.

Lemma sends_cons v (c : M unit) w l :
  (forall w1, drv w1 = drv w -> trace (hw w1) = trace (hw w) ++ [WriteData16 (uint16 v)] ->
              sends c w1 l) ->
  sends (_writedata16_cont v ;; c) w (WriteData16 (uint16 v) :: l).
Proof.
  intros H.
  destruct (H (Build_world (drv w)
                 (set_trace (trace (hw w) ++ [WriteData16 (uint16 v)]) (hw w)) (board w))
              eq_refl eq_refl) as (w' & E & Hd & Ht).
  exists w'. split; [exact E|]. split; [exact Hd|].
  rewrite Ht. simpl. rewrite <- app_assoc. reflexivity.
Qed.

Lemma map_seq_shift {A : Type} (f : nat -> A) n :
  map f (seq 1 n) = map (fun k => f (S k)) (seq 0 n).
Proof. rewrite <- seq_shift, map_map. reflexivity. Qed.

Lemma sends_ext c w l l' : l = l' -> sends c w l -> sends c w l'.
Proof. intros ->. auto. Qed.

Lemma mode0_loop_sends fb n : forall p w,
  sends (_pushpixels_mode0_loop n fb p) w
        (map (fun k => WriteData16 (uint16 (fb (p + Z.of_nat k)))) (seq 0 n)).
Proof.
  induction n as [|n IH]; intros p w.
  - apply sends_nil.
  - simpl _pushpixels_mode0_loop. cbn [seq map].
    rewrite map_seq_shift.
    replace (p + Z.of_nat 0) with p by lia.
    apply sends_cons. intros w1 _ _.
    eapply sends_ext; [|apply IH].
    apply map_ext. intros k. do 3 f_equal. lia.
Qed.

Lemma mode2_loop_sends fb n : forall p w,
  sends (_pushpixels_mode2_loop n fb p) w
        (map (fun k => WriteData16 (uint16 (fb (p - Z.of_nat k)))) (seq 0 n)).
Proof.
  induction n as [|n IH]; intros p w.
  - apply sends_nil.
  - simpl _pushpixels_mode2_loop. cbn [seq map].
    rewrite map_seq_shift.
    replace (p - Z.of_nat 0) with p by lia.
    apply sends_cons. intros w1 _ _.
    eapply sends_ext; [|apply IH].
    apply map_ext. intros k. do 3 f_equal. lia.
Qed.

(** Rotation 1: from column [x], row [y] of the landscape framebuffer the
    walk goes up the column, one row of 320 words at a time, and on to the
    bottom of the next column. *)
Lemma mode1_loop_sends fb n : forall x y w,
  0 <= y < 240 -> 0 <= x -> x + Z.of_nat n <= 2 ^ 30 ->
  sends (_pushpixels_mode1_loop n fb x y) w
        (map (fun k => WriteData16 (uint16 (fb (x + (239 - y + Z.of_nat k) / 240
                                                + 320 * (239 - (239 - y + Z.of_nat k) mod 240)))))
             (seq 0 n)).
Proof.
  induction n as [|n IH]; intros x y w Hy Hx Hn.
  - apply sends_nil.
  - simpl _pushpixels_mode1_loop. cbn [seq map].
    rewrite map_seq_shift.
    change ILI9341_T4_TFTHEIGHT with 320. change ILI9341_T4_TFTWIDTH with 240.
    rewrite (int32_id (320 * y)) by (unfold INT_MIN, INT_MAX; lia).
    rewrite (int32_id (x + 320 * y)) by (unfold INT_MIN, INT_MAX; lia).
    rewrite (int32_id (y - 1)) by (unfold INT_MIN, INT_MAX; lia).
    rewrite (int32_id (x + 1)) by (unfold INT_MIN, INT_MAX; lia).
    replace (x + (239 - y + Z.of_nat 0) / 240
             + 320 * (239 - (239 - y + Z.of_nat 0) mod 240))
      with (x + 320 * y).
    2:{ replace (239 - y + Z.of_nat 0) with (239 - y) by lia.
        rewrite Z.div_small, Z.mod_small by lia. lia. }
    apply sends_cons. intros w1 _ _.
    destruct (y - 1 <? 0) eqn:E; [apply Z.ltb_lt in E|apply Z.ltb_ge in E].
    + eapply sends_ext; [|apply IH; lia].
      apply map_ext. intros k. do 3 f_equal.
      assert (y = 0) by lia. subst y.
      replace (239 - 0 + Z.of_nat (S k)) with (Z.of_nat k + 1 * 240) by lia.
      replace (239 - (240 - 1) + Z.of_nat k) with (Z.of_nat k) by lia.
      rewrite Z.div_add, Z.mod_add by lia. lia.
    + eapply sends_ext; [|apply IH; lia].
      apply map_ext. intros k. do 3 f_equal.
      replace (239 - (y - 1) + Z.of_nat k) with (239 - y + Z.of_nat (S k)) by lia.
      reflexivity.
Qed.

(** Rotation 3: down the column, one row of 320 words at a time, and on to
    the top of the previous column. *)
Lemma mode3_loop_sends fb n : forall x y w,
  0 <= y < 240 -> - 2 ^ 30 <= x - Z.of_nat n -> x <= 2 ^ 30 ->
  sends (_pushpixels_mode3_loop n fb x y) w
        (map (fun k => WriteData16 (uint16 (fb (x - (y + Z.of_nat k) / 240
                                                + 320 * ((y + Z.of_nat k) mod 240)))))
             (seq 0 n)).
Proof.
  induction n as [|n IH]; intros x y w Hy Hx Hn.
  - apply sends_nil.
  - simpl _pushpixels_mode3_loop. cbn [seq map].
    rewrite map_seq_shift.
    change ILI9341_T4_TFTHEIGHT with 320. change ILI9341_T4_TFTWIDTH with 240.
    rewrite (int32_id (320 * y)) by (unfold INT_MIN, INT_MAX; lia).
    rewrite (int32_id (x + 320 * y)) by (unfold INT_MIN, INT_MAX; lia).
    rewrite (int32_id (y + 1)) by (unfold INT_MIN, INT_MAX; lia).
    rewrite (int32_id (x - 1)) by (unfold INT_MIN, INT_MAX; lia).
    replace (x - (y + Z.of_nat 0) / 240 + 320 * ((y + Z.of_nat 0) mod 240))
      with (x + 320 * y).
    2:{ replace (y + Z.of_nat 0) with y by lia.
        rewrite Z.div_small, Z.mod_small by lia. lia. }
    apply sends_cons. intros w1 _ _.
    destruct (240 <=? y + 1) eqn:E; [apply Z.leb_le in E|apply Z.leb_gt in E].
    + eapply sends_ext; [|apply IH; lia].
      apply map_ext. intros k. do 3 f_equal.
      assert (y = 239) by lia. subst y.
      replace (239 + Z.of_nat (S k)) with (Z.of_nat k + 1 * 240) by lia.
      replace (0 + Z.of_nat k) with (Z.of_nat k) by lia.
      rewrite Z.div_add, Z.mod_add by lia. lia.
    + eapply sends_ext; [|apply IH; lia].
      apply map_ext. intros k. do 3 f_equal.
      replace (y + 1 + Z.of_nat k) with (y + Z.of_nat (S k)) by lia.
      reflexivity.
Qed.

(** Two successive pixels of a run are read [s] words apart. *)
Definition stride_between_pixels (push : (Z -> Z) -> Z -> Z -> Z -> M unit) (s : Z) : Prop :=
  forall fb x y w,
    0 <= x < 239 -> 0 <= y < 320 ->
    exists i,
      sends (push fb x y 2) w
            [WriteData16 (uint16 (fb i)); WriteData16 (uint16 (fb (i + s)))].

Lemma pushed_ext fb idx idx' len :
  (forall k, 0 <= k < len -> idx k = idx' k) -> pushed fb idx len = pushed fb idx' len.
Proof.
  intros H. unfold pushed. apply map_ext_in. intros k Hk.
  apply in_seq in Hk. rewrite H; [reflexivity|]. lia.
Qed.

(** C4, as the code has it: rotation 0 reads [len] consecutive words forward
    from index [x + 240*y]; rotation 2 reads [len] consecutive words backward
    from the mirrored position; rotations 1 and 3 read the landscape
    framebuffer, whose rows are 320 words long, along its columns: 320 words
    back (rotation 1) or forth (rotation 3) from one pixel to the next, and on
    to the neighbouring column after 240 pixels. *)
Theorem pushpixels_traversal fb x y len w :
  0 <= x < 240 -> 0 <= y < 320 -> 0 <= len <= ILI9341_T4_NB_PIXELS ->
  sends (_pushpixels_mode0 fb x y len) w
        (pushed fb (fun k => x + 240 * y + k) len) /\
  sends (_pushpixels_mode2 fb x y len) w
        (pushed fb (fun k => (239 - x) + 240 * (319 - y) - k) len) /\
  sends (_pushpixels_mode1 fb x y len) w
        (pushed fb (fun k => (y + (x + k) / 240) + 320 * (239 - (x + k) mod 240)) len) /\
  sends (_pushpixels_mode3 fb x y len) w
        (pushed fb (fun k => (319 - y - (x + k) / 240) + 320 * ((x + k) mod 240)) len) /\
  stride_between_pixels _pushpixels_mode1 (- 320) /\
  stride_between_pixels _pushpixels_mode3 320.
Proof.
  intros Hx Hy Hlen. change ILI9341_T4_NB_PIXELS with 76800 in Hlen.
  assert (Hn : Z.of_nat (Z.to_nat len) = len) by lia.
  repeat split.
  - unfold _pushpixels_mode0. change ILI9341_T4_TFTWIDTH with 240.
    rewrite int32_id by (unfold INT_MIN, INT_MAX; lia).
    eapply sends_ext; [|apply mode0_loop_sends].
    unfold pushed. apply map_ext. intros k. do 3 f_equal; lia.
  - unfold _pushpixels_mode2.
    change ILI9341_T4_TFTWIDTH with 240. change ILI9341_T4_TFTHEIGHT with 320.
    rewrite (int32_id (240 - 1 - x)) by (unfold INT_MIN, INT_MAX; lia).
    rewrite (int32_id (320 - 1 - y)) by (unfold INT_MIN, INT_MAX; lia).
    rewrite int32_id by (unfold INT_MIN, INT_MAX; lia).
    eapply sends_ext; [|apply mode2_loop_sends].
    unfold pushed. apply map_ext. intros k. do 3 f_equal; lia.
  - unfold _pushpixels_mode1. change ILI9341_T4_TFTWIDTH with 240.
    rewrite int32_id by (unfold INT_MIN, INT_MAX; lia).
    eapply sends_ext; [|apply mode1_loop_sends; lia].
    unfold pushed. apply map_ext. intros k. do 3 f_equal.
    replace (239 - (240 - 1 - x) + Z.of_nat k) with (x + Z.of_nat k) by lia.
    reflexivity.
  - unfold _pushpixels_mode3. change ILI9341_T4_TFTHEIGHT with 320.
    rewrite int32_id by (unfold INT_MIN, INT_MAX; lia).
    eapply sends_ext; [|apply mode3_loop_sends; lia].
    unfold pushed. apply map_ext. intros k. do 3 f_equal; lia.
  - intros fb0 x0 y0 w0 Hx0 Hy0.
    exists (y0 + 320 * (239 - x0)).
    unfold _pushpixels_mode1. change ILI9341_T4_TFTWIDTH with 240.
    rewrite int32_id by (unfold INT_MIN, INT_MAX; lia).
    eapply sends_ext; [|apply mode1_loop_sends; simpl; lia].
    simpl. do 2 f_equal; [|f_equal]; do 2 f_equal.
    + replace (239 - (240 - 1 - x0) + 0) with x0 by lia.
      rewrite Z.div_small, Z.mod_small by lia. lia.
    + replace (239 - (240 - 1 - x0) + 1) with (x0 + 1) by lia.
      rewrite Z.div_small, Z.mod_small by lia. lia.
  - intros fb0 x0 y0 w0 Hx0 Hy0.
    exists (319 - y0 + 320 * x0).
    unfold _pushpixels_mode3. change ILI9341_T4_TFTHEIGHT with 320.
    rewrite int32_id by (unfold INT_MIN, INT_MAX; lia).
    eapply sends_ext; [|apply mode3_loop_sends; simpl; lia].
    simpl. do 2 f_equal; [|f_equal]; do 2 f_equal.
    + replace (x0 + 0) with x0 by lia.
      rewrite Z.div_small, Z.mod_small by lia. lia.
    + rewrite Z.div_small, Z.mod_small by lia. lia.
Qed.

Lemma pushpixels_traversal_witness :
  sends (_pushpixels_mode0 (fun i => i) 10 20 3) (bench 2)
        (pushed (fun i => i) (fun k => 10 + 240 * 20 + k) 3) /\
  sends (_pushpixels_mode2 (fun i => i) 10 20 3) (bench 2)
        (pushed (fun i => i) (fun k => (239 - 10) + 240 * (319 - 20) - k) 3) /\
  sends (_pushpixels_mode1 (fun i => i) 10 20 3) (bench 2)
        (pushed (fun i => i)
                (fun k => (20 + (10 + k) / 240) + 320 * (239 - (10 + k) mod 240)) 3) /\
  sends (_pushpixels_mode3 (fun i => i) 10 20 3) (bench 2)
        (pushed (fun i => i)
                (fun k => (319 - 20 - (10 + k) / 240) + 320 * ((10 + k) mod 240)) 3) /\
  stride_between_pixels _pushpixels_mode1 (- 320) /\
  stride_between_pixels _pushpixels_mode3 320.
Proof.
  apply (pushpixels_traversal (fun i => i) 10 20 3 (bench 2));
    [lia | lia | vm_compute; split; discriminate].
Defined.

(** C4, as stated, fails: in rotations 1 and 3 the pixels of a run are not
    240 words apart, whichever the direction.  Pushing two pixels of the
    framebuffer that holds its own indices shows words 320 apart. *)
Lemma pushpixels_stride_not_240 :
  ~ (exists s, Z.abs s = 240 /\ stride_between_pixels _pushpixels_mode1 s) /\
  ~ (exists s, Z.abs s = 240 /\ stride_between_pixels _pushpixels_mode3 s).
Proof.
  split; intros (s & Hs & H).
  - destruct (H (fun i => i) 0 0 (bench 2) ltac:(lia) ltac:(lia))
      as (i & w' & E & _ & Ht).
    vm_compute in E. inversion E; subst w'; clear E.
    cbn [hw trace bench_hardware app] in Ht.
    inversion Ht as [[H1 H2]].
    unfold uint16 in H1, H2.
    rewrite <- Z.add_mod_idemp_l, <- H1 in H2 by lia.
    assert (s = 240 \/ s = -240) as [->| ->] by lia; vm_compute in H2; discriminate.
  - destruct (H (fun i => i) 0 319 (bench 2) ltac:(lia) ltac:(lia))
      as (i & w' & E & _ & Ht).
    vm_compute in E. inversion E; subst w'; clear E.
    cbn [hw trace bench_hardware app] in Ht.
    inversion Ht as [[H1 H2]].
    unfold uint16 in H1, H2.
    rewrite <- Z.add_mod_idemp_l, <- H1 in H2 by lia.
    assert (s = 240 \/ s = -240) as [->| ->] by lia; vm_compute in H2; discriminate.
Qed.

(** ** Dropping a frame *)

(** C3, as the code has it: in double buffering, a call of [update] while
    [vsync_spacing == -1] and an upload is in flight returns at once and
    changes nothing: no diff computed, no framebuffer copied, mirror,
    [_fb2full] and the pending callback as they were, nothing launched. *)
Theorem update_double_buffering_drops invoke fb force w :
  bufferingMode w = Some (DOUBLE_BUFFERING, w) ->
  _vsync_spacing (drv w) = -1 ->
  _dma_state (drv w) <> ILI9341_T4_DMA_IDLE ->
  update invoke fb force w = Some (tt, w).
Proof.
  intros Hm Hvs Hdma. unfold update.
  erewrite bind_intro by exact Hm.
  unfold bind at 1. unfold rd at 1.
  unfold bind at 1. unfold asyncUpdateActive, bind, rd, ret.
  rewrite Hvs.
  destruct (_dma_state (drv w)); [contradiction|reflexivity].
Qed.

Lemma update_double_buffering_drops_witness :
  update (invoke 1) (Some 7%nat) false
         (Build_world (set_dma_state ILI9341_T4_DMA_ON (drv (bench_double (-1))))
                      bench_hardware bench_board)
  = Some (tt, Build_world (set_dma_state ILI9341_T4_DMA_ON (drv (bench_double (-1))))
                          bench_hardware bench_board).
Proof.
  apply update_double_buffering_drops; [reflexivity|reflexivity|discriminate].
Defined.

(** C3, as stated for every buffering mode, fails: in triple buffering the
    same call stages the new frame in [_fb2] behind the upload in flight. *)
Lemma update_triple_buffering_stages :
  ~ (forall fb force w,
        _vsync_spacing (drv w) = -1 ->
        _dma_state (drv w) <> ILI9341_T4_DMA_IDLE ->
        update (invoke 1) fb force w = Some (tt, w)).
Proof.
  intros H.
  specialize (H (Some 7%nat) false (bench_uploading (-1)) eq_refl
                ltac:(discriminate)).
  vm_compute in H. discriminate H.
Qed.

(** What the staging leaves behind: the mirror on [_fb2], the callback set,
    [_fb2full] set, a diff computed and the frame copied. *)
Lemma triple_buffering_staging_example :
  option_map (fun r => (coord (snd r), trace (hw (snd r))))
             (update (invoke 1) (Some 7%nat) false (bench_uploading (-1)))
  = Some ((Some 2%nat, Some 1%nat, Some 2%nat, Some cb_buffer2fullCB, true),
          [ ComputeDiff (UserDiff 2) (Some 1%nat) (Some 7%nat) 0 6 false 0;
            CopyFb (Some 2%nat) (Some 7%nat) 0;
            FlushCache (Some 2%nat) ]).
Proof. vm_compute. reflexivity. Qed.

(** ** The mirror after [update] *)

(** C2, as the code has it: a call of [update] that does not drop the frame
    returns with the mirror on [_fb1], in no buffering, in double buffering
    and in triple buffering with no upload in flight at the call.  Only in
    triple buffering with an upload in flight may it stage the frame in
    [_fb2] instead: it then returns with the mirror on [_fb1], or with the
    completion callback set, [_fb2full] set and the mirror on [_fb2] (real
    diff staged) or null (dummy diff staged).  When the upload in flight
    ends with a frame staged, the callback puts the mirror on [_fb1]. *)
Theorem update_mirror_fb1_unless_staged depth fb force w w' :
  drops_frame w = false ->
  update (invoke depth) fb force w = Some (tt, w') ->
  (if may_stage w then mirror_is_fb1 w' \/ frame_queued w' else mirror_is_fb1 w') /\
  (forall k w1 w2,
      frame_queued w1 ->
      end_of_upload (invoke k) w1 = Some (tt, w2) ->
      mirror_is_fb1 w2 /\ _pcb (drv w2) = None).
Proof.
  intros Hd E. split.
  - destruct (may_stage w) eqn:Hs.
    + eapply update_mirror_or_queued; eauto.
    + eapply update_mirror_fb1; eauto.
  - intros k w1 w2. apply staged_frame_served.
Qed.

Lemma update_mirror_fb1_unless_staged_witness :
  (exists w',
      update (invoke 1) (Some 7%nat) false (bench_double 0) = Some (tt, w') /\
      mirror_is_fb1 w') /\
  (exists w',
      update (invoke 1) (Some 7%nat) false (bench_uploading (-1)) = Some (tt, w') /\
      (mirror_is_fb1 w' \/ frame_queued w')).
Proof.
  split.
  - destruct (update (invoke 1) (Some 7%nat) false (bench_double 0))
      as [[[] w']|] eqn:E; [|exfalso; vm_compute in E; discriminate E].
    exists w'. split; [reflexivity|].
    exact (proj1 (update_mirror_fb1_unless_staged 1 (Some 7%nat) false
                    (bench_double 0) w' eq_refl E)).
  - destruct (update (invoke 1) (Some 7%nat) false (bench_uploading (-1)))
      as [[[] w']|] eqn:E; [|exfalso; vm_compute in E; discriminate E].
    exists w'. split; [reflexivity|].
    exact (proj1 (update_mirror_fb1_unless_staged 1 (Some 7%nat) false
                    (bench_uploading (-1)) w' eq_refl E)).
Defined.

(** C2, as stated, fails: staged behind an upload in flight, the frame is
    not dropped and [update] returns with the mirror on [_fb2]. *)
Lemma update_staged_mirror_not_fb1 :
  ~ (forall depth fb force w w',
        drops_frame w = false ->
        update (invoke depth) fb force w = Some (tt, w') ->
        _mirrorfb (drv w') = _fb1 (drv w')).
Proof.
  intros H.
  pose proof triple_buffering_staging_example as D.
  destruct (update (invoke 1) (Some 7%nat) false (bench_uploading (-1)))
    as [[[] w']|] eqn:E; [|discriminate D].
  specialize (H 1%nat (Some 7%nat) false (bench_uploading (-1)) w' eq_refl E).
  simpl in D. unfold coord in D. inversion D as [[Hm Hf]].
  rewrite Hm, Hf in H. discriminate H.
Qed.

(** ** Rotation and refresh mode *)

Definition mirror_is (m : fbptr) (w : world) : Prop := _mirrorfb (drv w) = m.

Lemma mirror_is_coord m w w' : coord w' = coord w -> mirror_is m w -> mirror_is m w'.
Proof. unfold coord, mirror_is. intros E H. inversion E. congruence. Qed.

Lemma setRotation_returns invoke m w :
  0 <= m <= 3 -> m <> _rotation (drv w) ->
  _dma_state (drv w) = ILI9341_T4_DMA_IDLE ->
  exists w1, setRotation invoke m w = Some (tt, w1).
Proof.
  intros Hm Hr Hidle. unfold setRotation. cbv zeta.
  assert (Hc : _clip (uint8 m) 0 3 = m).
  { unfold _clip. rewrite uint8_id by lia. lia. }
  rewrite Hc.
  rewrite (bind_intro (rd _rotation) _ w (_rotation (drv w)) w eq_refl).
  replace (m =? _rotation (drv w)) with false
    by (symmetry; apply Z.eqb_neq; exact Hr).
  rewrite (bind_intro _ _ w tt w (waitUpdateAsyncComplete_idle invoke w Hidle)).
  apply total_unit.
  pose proof total_statsReset. pose proof total_resync.
  total_steps.
Qed.

(** C1, as the code has it: a call of [setRotation] that changes the rotation
    returns with the mirror null; [setRefreshMode] never assigns the mirror:
    called with a valid mode and no upload in flight it returns with the
    mirror as it found it.  With no upload in flight [setRotation] does
    return, and so does [setRefreshMode] once the panel has answered the
    scanline queries of its refresh-rate measurement. *)
Theorem rotation_clears_mirror_refresh_mode_keeps_it depth w w' :
  (forall m, 0 <= m <= 3 -> m <> _rotation (drv w) ->
             setRotation (invoke depth) m w = Some (tt, w') ->
             _mirrorfb (drv w') = None) /\
  (forall mode, 0 <= mode <= 31 -> _dma_state (drv w) = ILI9341_T4_DMA_IDLE ->
                setRefreshMode (invoke depth) mode w = Some (tt, w') ->
                _mirrorfb (drv w') = _mirrorfb (drv w)) /\
  (forall m, 0 <= m <= 3 -> m <> _rotation (drv w) ->
             _dma_state (drv w) = ILI9341_T4_DMA_IDLE ->
             exists w1, setRotation (invoke depth) m w = Some (tt, w1)) /\
  (forall mode w2,
      0 <= mode <= 31 -> _dma_state (drv w) = ILI9341_T4_DMA_IDLE ->
      (delayMicroseconds 50 ;; _sampleRefreshRate)
        (sent (FRMCTR1_write (_spi_clock (drv w)) mode)
              (Build_world (set_refreshmode mode (drv w)) (hw w) (board w)))
      = Some (tt, w2) ->
      exists w1, setRefreshMode (invoke depth) mode w = Some (tt, w1)).
Proof.
  split; [|split; [|split]].
  - intros m Hm Hr E. unfold setRotation in E. cbv zeta in E.
    assert (Hc : _clip (uint8 m) 0 3 = m).
    { unfold _clip. rewrite uint8_id by lia. lia. }
    rewrite Hc in E.
    apply bind_inv in E. destruct E as (r & w0 & E0 & E).
    inversion E0; subst; clear E0.
    replace (m =? _rotation (drv w0)) with false in E
      by (symmetry; apply Z.eqb_neq; exact Hr).
    apply bind_inv in E. destruct E as ([] & w1 & _ & E).
    apply bind_inv in E. destruct E as ([] & w2 & E2 & E).
    assert (H2 : mirror_is None w2) by (inversion E2; subst; reflexivity).
    eapply hoare_elim with (P := mirror_is None) (Q := fun _ => mirror_is None);
      [|exact H2|exact E].
    as_stable.
    pose proof (coord_statsReset _ (mirror_is_coord None)).
    pose proof (coord_resync _ (mirror_is_coord None)).
    stable_steps same_leaf.
  - intros mode Hm Hidle E. unfold setRefreshMode in E.
    replace ((mode <? 0) || (31 <? mode)) with false in E
      by (symmetry; apply orb_false_iff; split; apply Z.ltb_ge; lia).
    apply bind_inv in E. destruct E as ([] & w0 & E0 & E).
    inversion E0; subst; clear E0.
    erewrite bind_intro in E by (apply waitUpdateAsyncComplete_idle; exact Hidle).
    eapply hoare_elim with (P := mirror_is (_mirrorfb (drv w)))
                           (Q := fun _ => mirror_is (_mirrorfb (drv w)));
      [| |exact E]; [|reflexivity].
    as_stable.
    pose proof (coord_statsReset _ (mirror_is_coord (_mirrorfb (drv w)))).
    pose proof (coord_resync _ (mirror_is_coord (_mirrorfb (drv w)))).
    pose proof (coord__sampleRefreshRate _ (mirror_is_coord (_mirrorfb (drv w)))).
    pose proof (coord_delayMicroseconds _ (mirror_is_coord (_mirrorfb (drv w)))).
    pose proof (coord__beginSPITransaction _ (mirror_is_coord (_mirrorfb (drv w)))).
    pose proof (coord__endSPITransaction _ (mirror_is_coord (_mirrorfb (drv w)))).
    pose proof (coord__writecommand_cont _ (mirror_is_coord (_mirrorfb (drv w)))).
    pose proof (coord__writedata8_cont _ (mirror_is_coord (_mirrorfb (drv w)))).
    pose proof (coord__writedata8_last _ (mirror_is_coord (_mirrorfb (drv w)))).
    stable_steps same_leaf.
  - intros m Hm Hr Hidle. apply setRotation_returns; assumption.
  - intros mode w2 Hm Hidle E.
    eapply setRefreshMode_returns; [exact Hm| |exact E].
    apply waitUpdateAsyncComplete_idle. exact Hidle.
Qed.

Lemma rotation_clears_mirror_refresh_mode_keeps_it_witness :
  (exists w',
      setRotation (invoke 1) 1 bench_sampling_mirrored = Some (tt, w') /\
      _mirrorfb (drv w') = None) /\
  (exists w',
      setRefreshMode (invoke 1) 20 bench_sampling_mirrored = Some (tt, w') /\
      _mirrorfb (drv w') = _mirrorfb (drv bench_sampling_mirrored)).
Proof.
  split.
  - destruct (proj1 (proj2 (proj2 (rotation_clears_mirror_refresh_mode_keeps_it
                                     1 bench_sampling_mirrored bench_sampling_mirrored)))
                1 ltac:(lia) ltac:(discriminate) eq_refl) as [w' E].
    exists w'. split; [exact E|].
    apply (proj1 (rotation_clears_mirror_refresh_mode_keeps_it
                    1 bench_sampling_mirrored w') 1);
      [lia|discriminate|exact E].
  - destruct ((delayMicroseconds 50 ;; _sampleRefreshRate)
                (sent (FRMCTR1_write (_spi_clock (drv bench_sampling_mirrored)) 20)
                      (Build_world (set_refreshmode 20 (drv bench_sampling_mirrored))
                                   (hw bench_sampling_mirrored)
                                   (board bench_sampling_mirrored))))
      as [[[] w2]|] eqn:E2; [|vm_compute in E2; discriminate E2].
    destruct (proj2 (proj2 (proj2 (rotation_clears_mirror_refresh_mode_keeps_it
                                     1 bench_sampling_mirrored bench_sampling_mirrored)))
                20 w2 ltac:(lia) eq_refl E2) as [w' E].
    exists w'. split; [exact E|].
    apply (proj1 (proj2 (rotation_clears_mirror_refresh_mode_keeps_it
                           1 bench_sampling_mirrored w')) 20);
      [lia|reflexivity|exact E].
Defined.

(** A valid mirror outlives a change of refresh mode. *)
Lemma setRefreshMode_mirror_example :
  option_map (fun r => _mirrorfb (drv (snd r)))
             (setRefreshMode (invoke 1) 20 bench_sampling_mirrored)
  = Some (Some 1%nat).
Proof. vm_compute. reflexivity. Qed.

(** C1, as stated, fails for the refresh mode: [setRefreshMode] with a valid
    mode returns with the mirror still set. *)
Lemma setRefreshMode_keeps_mirror :
  ~ (forall depth mode w w',
        0 <= mode <= 31 ->
        setRefreshMode (invoke depth) mode w = Some (tt, w') ->
        _mirrorfb (drv w') = None).
Proof.
  intros H.
  pose proof setRefreshMode_mirror_example as D.
  destruct (setRefreshMode (invoke 1) 20 bench_sampling_mirrored)
    as [[[] w']|] eqn:E; [|discriminate D].
  specialize (H 1%nat 20 bench_sampling_mirrored w' ltac:(lia) E).
  simpl in D. rewrite H in D. discriminate D.
Qed.

(** ** A corrupt first read *)

(** Pixel data reaches the panel after a RAMWR command, by the DMA chain in
    the asynchronous path. *)
Definition no_pixel_data (e : event) : bool :=
  match e with
  | WriteCommand ILI9341_T4_RAMWR => false
  | DmaPixels _ _ _ => false
  | _ => true
  end.

(** The only completion callback the driver ever installs is
    [_buffer2fullCB]. *)
Definition pcb_ok (w : world) : Prop :=
  _pcb (drv w) = None \/ _pcb (drv w) = Some cb_buffer2fullCB.

Definition idle (w : world) : Prop :=
  _dma_state (drv w) = ILI9341_T4_DMA_IDLE.

Definition quiet (t0 : list event) (w : world) : Prop :=
  since no_pixel_data t0 w /\ pcb_ok w.

Definition quiet_idle (t0 : list event) (w : world) : Prop :=
  quiet t0 w /\ idle w.

Lemma quiet_emit t0 e : no_pixel_data e = true -> stable (quiet t0) (emit e).
Proof.
  intros He w a w' [Hs Hp] E. split.
  - eapply since_emit; eauto.
  - inversion E; subst. exact Hp.
Qed.

Lemma quiet_readDiff t0 d xyl s : stable (quiet t0) (readDiff d xyl s).
Proof. unfold readDiff. destruct xyl as [[x y] len]. stable_steps same_leaf. Qed.

Ltac quiet_steps :=
  repeat first
    [ lazymatch goal with
      | |- stable (quiet _) (emit _) => apply quiet_emit; reflexivity
      | |- stable (quiet _) (readDiff _ _ _) => apply quiet_readDiff
      end
    | stable_step same_leaf ].

Ltac unfold_upload :=
  unfold _startframe, _restartCpuTime, _restartUploadTime, _pauseCpuTime,
    _pauseUploadTime, initRead, note_next_time, start_of_upload,
    _microToReachScanLine, _microToExitRange, _getScanLine, _timeForScanlines,
    _endframe, push, _beginSPITransaction, _endSPITransaction, _writecommand_cont,
    _writedata16_cont, _writedata16_last, _setTimerIn, _setTimerAt, _updateTouch2,
    transfer16_shr3, transfer16, transfer, millis,
    elapsed, rx_read, delayMicroseconds, micros.

Section QuietAtDepth.

Variable t0 : list event.
Variable invoke : methodCB -> M unit.
Hypothesis quiet_cb :
  hoare (quiet_idle t0) (invoke cb_buffer2fullCB) (fun _ => quiet t0).

Lemma quiet_call_pcb : hoare (quiet_idle t0) (call_pcb invoke) (fun _ => quiet t0).
Proof.
  intros w a w' [[Hs Hp] Hi] E. unfold call_pcb in E.
  apply bind_inv in E. destruct E as (cb & w1 & E1 & E).
  inversion E1; subst; clear E1.
  destruct Hp as [Hp|Hp]; rewrite Hp in E.
  - inversion E; subst. split; [exact Hs|left; exact Hp].
  - eapply quiet_cb; [|exact E]. repeat split; auto. right. exact Hp.
Qed.

Lemma quiet_end_of_upload : stable (quiet t0) (end_of_upload invoke).
Proof.
  unfold end_of_upload.
  eapply hoare_bind with (R := fun _ => quiet t0).
  { as_stable. unfold_upload. quiet_steps. }
  intros ?.
  eapply hoare_bind with (R := fun _ => quiet_idle t0).
  { intros w0 ? w1 H0 E. inversion E; subst. split; [exact H0|reflexivity]. }
  intros ?.
  eapply hoare_bind; [apply quiet_call_pcb|].
  intros ? w0 ? w1 [H0 _] E. inversion E; subst.
  split; [exact H0|left; reflexivity].
Qed.

Lemma quiet__updateAsync fb d :
  hoare (quiet_idle t0) (_updateAsync invoke fb d) (fun _ => quiet t0).
Proof.
  unfold _updateAsync.
  destruct fb as [a|]; [destruct d as [d|]|];
    try (intros w ? w' [H0 _] E; inversion E; subst; exact H0).
  eapply hoare_bind with (R := fun _ => quiet t0).
  { intros w ? w' [H0 Hi] E.
    rewrite waitUpdateAsyncComplete_idle in E by exact Hi.
    inversion E; subst. exact H0. }
  intros ?. as_stable.
  pose proof quiet_end_of_upload.
  unfold_upload. quiet_steps.
Qed.

Lemma quiet__buffer2fullCB :
  hoare (quiet_idle t0) (_buffer2fullCB invoke) (fun _ => quiet t0).
Proof.
  unfold _buffer2fullCB.
  eapply hoare_bind with (R := fun _ => quiet_idle t0).
  { as_stable. stable_steps same_leaf. }
  intros m.
  eapply hoare_bind with (R := fun _ => quiet t0).
  - destruct (negb (is_null m)).
    + eapply hoare_bind with (R := fun _ => quiet_idle t0).
      { as_stable. unfold _swapdiff. stable_steps same_leaf. }
      intros ?.
      eapply hoare_bind with (R := fun _ => quiet_idle t0).
      { as_stable. unfold _swapfb. stable_steps same_leaf. }
      intros ?.
      eapply hoare_bind with (R := fun _ => quiet_idle t0).
      { as_stable. stable_steps same_leaf. }
      intros ?.
      eapply hoare_bind with (R := fun _ => quiet_idle t0).
      { as_stable. stable_steps same_leaf. }
      intros ?.
      eapply hoare_bind with (R := fun _ => quiet_idle t0).
      { as_stable. stable_steps same_leaf. }
      intros fb1.
      eapply hoare_bind with (R := fun _ => quiet_idle t0).
      { as_stable. stable_steps same_leaf. }
      intros d. apply quiet__updateAsync.
    + eapply hoare_bind with (R := fun _ => quiet_idle t0).
      { as_stable. unfold _swapdummydiff. stable_steps same_leaf. }
      intros ?.
      eapply hoare_bind with (R := fun _ => quiet_idle t0).
      { as_stable. unfold _swapfb. stable_steps same_leaf. }
      intros ?.
      eapply hoare_bind with (R := fun _ => quiet_idle t0).
      { as_stable. stable_steps same_leaf. }
      intros ?.
      eapply hoare_bind with (R := fun _ => quiet_idle t0).
      { as_stable. stable_steps same_leaf. }
      intros ?.
      eapply hoare_bind with (R := fun _ => quiet_idle t0).
      { as_stable. stable_steps same_leaf. }
      intros fb1.
      eapply hoare_bind with (R := fun _ => quiet_idle t0).
      { as_stable. stable_steps same_leaf. }
      intros d. apply quiet__updateAsync.
  - intros ? w0 ? w1 [H0 _] E. inversion E; subst.
    split; [exact H0|left; reflexivity].
Qed.

End QuietAtDepth.

(** However deep the callback nests, no pixel data goes out before the
    timer callbacks of the upload it launches. *)
Lemma quiet_invoke t0 depth :
  hoare (quiet_idle t0) (invoke depth cb_buffer2fullCB) (fun _ => quiet t0).
Proof.
  induction depth as [|k IH]; simpl.
  - apply hoare_stuck.
  - apply quiet__buffer2fullCB, IH.
Qed.

(** What the first [readDiff] of [_subFrameTimerStartcb2] returns in [x],
    [y], [len] and as its code. *)
Definition first_read (w : world) : Z * Z * Z * Z :=
  match diff_reads (hw w) with
  | [] => (0, 0, 0, -1)
  | r :: _ =>
      (match rr_x r with Some v => int32 v | None => 0 end,
       match rr_y r with Some v => int32 v | None => 0 end,
       match rr_len r with Some v => int32 v | None => 0 end,
       int32 (rr_code r))
  end.

(** "This should not happen": the code is not 0, or the run is empty, or it
    does not start where CASET and PASET were programmed. *)
Definition corrupt_first_read (w : world) : bool :=
  let '(x, y, len, r) := first_read w in
  negb (r =? 0) || (len =? 0)
  || negb (x =? _prev_caset_x (drv w)) || negb (y =? _prev_paset_y (drv w)).

(** What the start of [_subFrameTimerStartcb2] leaves alone. *)
Definition kept (w : world) :=
  (_prev_caset_x (drv w), _prev_paset_y (drv w), coord w,
   _stats_nb_frame (stats (drv w)), diff_reads (hw w)).

Definition keeps (v : Z * Z * (fbptr * fbptr * fbptr * option methodCB * bool)
                      * Z * list read_result)
           (t0 : list event) (w : world) : Prop :=
  quiet t0 w /\ kept w = v.

Lemma keeps_emit v t0 e : no_pixel_data e = true -> stable (keeps v t0) (emit e).
Proof.
  intros He w a w' [Hq Hk] E. split.
  - eapply quiet_emit; eauto.
  - inversion E; subst w'. exact Hk.
Qed.

Ltac keeps_steps :=
  repeat first
    [ lazymatch goal with
      | |- stable (keeps _ _) (emit _) => apply keeps_emit; reflexivity
      end
    | stable_step same_leaf ].

Lemma keeps_sync v t0 :
  stable (keeps v t0)
    (loop (fun _ : unit =>
             sl <- rd _slinitpos ;;
             t <- _microToExitRange 0 sl ;;
             if t =? 0 then ret (inr tt)
             else delayMicroseconds t ;; ret (inl tt)) tt ;;
     start_of_upload).
Proof. unfold_upload. keeps_steps. Qed.

Lemma keeps_readDiff v t0 d asl w :
  kept w = v ->
  hoare (keeps v t0) (readDiff d (0, 0, 0) asl)
        (fun res w1 => res = first_read w /\ quiet t0 w1
                       /\ _prev_caset_x (drv w1) = _prev_caset_x (drv w)
                       /\ _prev_paset_y (drv w1) = _prev_paset_y (drv w)
                       /\ coord w1 = coord w
                       /\ _stats_nb_frame (stats (drv w1)) = _stats_nb_frame (stats (drv w))).
Proof.
  intros Hv w1 res w2 [Hq Hk] E.
  rewrite <- Hv in Hk.
  pose proof (f_equal (fun p => fst (fst (fst (fst p)))) Hk) as H1.
  pose proof (f_equal (fun p => snd (fst (fst (fst p)))) Hk) as H2.
  pose proof (f_equal (fun p => snd (fst (fst p))) Hk) as H3.
  pose proof (f_equal (fun p => snd (fst p)) Hk) as H4.
  pose proof (f_equal snd Hk) as H5.
  cbn [kept fst snd] in H1, H2, H3, H4, H5. clear Hk.
  unfold readDiff in E. unfold first_read. rewrite <- H5.
  apply bind_inv in E. destruct E as (q & w3 & E1 & E).
  inversion E1; subst; clear E1.
  destruct (diff_reads (hw w3)) as [|r q'].
  - inversion E; subst. split; [reflexivity|]. split; [exact Hq|]. auto.
  - apply bind_inv in E. destruct E as ([] & w4 & E1 & E).
    inversion E1; subst; clear E1. inversion E; subst.
    split; [reflexivity|]. split; [exact Hq|]. auto.
Qed.

(** Up to the dispatch of the completion callback the failure branch leaves
    the mirror and the pending callback alone and counts the frame. *)
Definition finished (m : fbptr) (p : option methodCB) (n : Z) (w : world) : Prop :=
  _mirrorfb (drv w) = m /\ _pcb (drv w) = p /\ _stats_nb_frame (stats (drv w)) = n.

Lemma finished__endframe m p n :
  hoare (finished m p n) _endframe (fun _ => finished m p (uint32 (n + 1))).
Proof.
  unfold _endframe.
  eapply hoare_bind with (R := fun _ => finished m p (uint32 (n + 1))).
  { intros w ? w' (H1 & H2 & H3) E. inversion E; subst w'.
    unfold finished. simpl. rewrite H3. auto. }
  intros ?. as_stable. unfold_upload. stable_steps same_leaf.
Qed.

Lemma finished_touch m p n :
  stable (finished m p n)
    (tr <- rd _touch_request_read ;;
     when tr (_updateTouch2 ;; wr set_touch_request_read false)).
Proof. unfold_upload. unfold emit. stable_steps same_leaf. Qed.

Lemma quiet_touch t0 :
  stable (quiet t0)
    (tr <- rd _touch_request_read ;;
     when tr (_updateTouch2 ;; wr set_touch_request_read false)).
Proof. unfold_upload. quiet_steps. Qed.

(** The end of an upload, cut where the completion callback is dispatched. *)
Lemma end_of_upload_dispatch invoke t0 m p n w w' :
  quiet t0 w -> finished m p n w ->
  end_of_upload invoke w = Some (tt, w') ->
  exists w1,
    quiet t0 w1 /\ finished m p n w1 /\ idle w1 /\
    (call_pcb invoke ;; wr set_pcb None) w1 = Some (tt, w').
Proof.
  intros Hq Hf E. unfold end_of_upload in E.
  apply bind_inv in E. destruct E as ([] & w2 & E1 & E).
  apply bind_inv in E. destruct E as ([] & w3 & E2 & E).
  inversion E2; subst w3; clear E2.
  pose proof (quiet_touch t0 w tt w2 Hq E1) as Hq2.
  pose proof (finished_touch m p n w tt w2 Hf E1) as Hf2.
  eexists. split; [|split; [|split; [|exact E]]].
  - exact Hq2.
  - exact Hf2.
  - reflexivity.
Qed.

Lemma total_emit e : total (emit e).
Proof. unfold emit. total_steps. Qed.

Lemma total_elapsed em : total (elapsed em).
Proof. unfold elapsed, micros. total_steps. Qed.

Lemma total__endframe : total _endframe.
Proof.
  pose proof total_elapsed.
  unfold _endframe, push, rds.
  total_steps.
Qed.

Lemma total_readDiff d xyl s : total (readDiff d xyl s).
Proof.
  unfold readDiff. destruct xyl as [[x y] len].
  apply total_bind; [apply total_hrd|]. intros q. destruct q; total_steps.
Qed.


(** An upload armed without vsync, with no completion callback pending and
    no touch read requested. *)
Definition armed_plain (w : world) : Prop :=
  _pcb (drv w) = None /\ _vsync_spacing (drv w) <= 0 /\ _diff (drv w) <> None
  /\ _touch_request_read (drv w) = false.

Lemma returns_call_pcb invoke : returns armed_plain (call_pcb invoke).
Proof.
  intros w (Hp & _ & _ & _). unfold call_pcb, bind, rd. rewrite Hp.
  exists tt, w. reflexivity.
Qed.

Lemma stable_call_pcb_plain invoke : stable armed_plain (call_pcb invoke).
Proof.
  intros w a w' HP E. destruct HP as (Hp & Hv & Hd & Ht).
  unfold call_pcb, bind, rd in E. rewrite Hp in E. inversion E; subst w'.
  repeat split; assumption.
Qed.

Lemma returns_deref_diff : returns armed_plain (p <- rd _diff ;; deref p).
Proof.
  intros w (_ & _ & Hd & _). unfold bind, rd, deref.
  destruct (_diff (drv w)) as [d|]; [|contradiction].
  exists d, w. reflexivity.
Qed.

Ltac plain_steps := unfold_upload; unfold emit; stable_steps same_leaf.

Lemma returns_end_of_upload invoke : returns armed_plain (end_of_upload invoke).
Proof.
  unfold end_of_upload.
  apply returns_bind.
  { intros w (_ & _ & _ & Ht). unfold bind at 1. unfold rd at 1. rewrite Ht.
    exists tt, w. reflexivity. }
  { intros w a w' HP E. pose proof HP as (_ & _ & _ & Ht).
    unfold bind at 1 in E. unfold rd at 1 in E. rewrite Ht in E.
    inversion E; subst w'. exact HP. }
  intros ?. apply returns_bind.
  { apply returns_total. total_steps. }
  { plain_steps. }
  intros ?. apply returns_bind.
  { apply returns_call_pcb. }
  { apply stable_call_pcb_plain. }
  intros ?. apply returns_total. total_steps.
Qed.

Lemma total_dma_run x y len : total (dma_run x y len).
Proof. unfold dma_run. pose proof total_emit. total_steps. Qed.

Lemma total__pauseCpuTime : total _pauseCpuTime.
Proof. unfold _pauseCpuTime, rds. pose proof total_elapsed. total_steps. Qed.

Lemma _subFrameTimerStartcb2_returns invoke w :
  armed_plain w -> exists w', _subFrameTimerStartcb2 invoke w = Some (tt, w').
Proof.
  intros HP.
  assert (H : returns armed_plain (_subFrameTimerStartcb2 invoke)).
  2:{ destruct (H w HP) as ([] & w' & E). exists w'. exact E. }
  clear w HP. unfold _subFrameTimerStartcb2.
  apply returns_bind.
  { apply returns_total. unfold _restartUploadTime, micros. total_steps. }
  { plain_steps. }
  intros ?. apply returns_bind.
  { apply returns_total. unfold _restartCpuTime, micros. total_steps. }
  { plain_steps. }
  intros ?.
  intros w HP. unfold bind at 1. unfold rd at 1.
  replace (0 <? _vsync_spacing (drv w)) with false
    by (symmetry; apply Z.ltb_ge; apply HP).
  unfold when. rewrite (bind_intro _ _ w tt w eq_refl).
  revert w HP.
  change (returns armed_plain
            (asl <- (vs <- rd _vsync_spacing ;;
                     if 0 <? vs then rd _slinitpos else ret (2 * ILI9341_T4_TFTHEIGHT)) ;;
             d <- (p <- rd _diff ;; deref p) ;;
             '(x, y, len, r) <- readDiff d (0, 0, 0) asl ;;
             px <- rd _prev_caset_x ;; py <- rd _prev_paset_y ;;
             if negb (r =? 0) || (len =? 0) || negb (x =? px) || negb (y =? py) then
               _endframe ;; end_of_upload invoke
             else
               wr set_last_y (cdiv (int32 (ILI9341_T4_TFTWIDTH * y + x + len))
                                   ILI9341_T4_TFTWIDTH) ;;
               wrs set_stats_nb_uploaded_pixels (uint32 len) ;;
               (clk <- rd _spi_clock ;; _beginSPITransaction clk) ;;
               emit (WriteCommand ILI9341_T4_RAMWR) ;;
               dma_run x y len ;;
               _pauseCpuTime)).
  apply returns_bind.
  { apply returns_total. total_steps. }
  { stable_steps same_leaf. }
  intros asl. apply returns_bind.
  { apply returns_deref_diff. }
  { stable_steps same_leaf. }
  intros d. apply returns_bind.
  { apply returns_total. apply total_readDiff. }
  { unfold readDiff. stable_steps same_leaf. }
  intros [[[x y] len] r].
  apply returns_bind; [apply returns_total; total_steps|stable_steps same_leaf|].
  intros px.
  apply returns_bind; [apply returns_total; total_steps|stable_steps same_leaf|].
  intros py.
  destruct (negb (r =? 0) || (len =? 0) || negb (x =? px) || negb (y =? py)).
  - apply returns_bind.
    + apply returns_total. apply total__endframe.
    + plain_steps.
    + intros ?. apply returns_end_of_upload.
  - apply returns_total.
    pose proof total_emit. pose proof total_dma_run. pose proof total__pauseCpuTime.
    unfold _beginSPITransaction. total_steps.
Qed.

(** C5, as the code has it: when the first read of the diff in
    [_subFrameTimerStartcb2] is corrupt, the failure branch ends the frame
    without writing any pixel data (no RAMWR command, no DMA transfer) and
    without modifying the mirror pointer, counts the frame and sets the DMA
    state to idle; in that state [w1] it dispatches the one-shot completion
    callback, and nothing else follows.  With no callback pending the
    function returns in that very state.  A pending [_buffer2fullCB] goes on
    from there with the frame staged in [_fb2]: when it returns the mirror is
    [_fb1], and still no pixel data has been written.  With no callback
    pending, no touch read requested and vsync off the function does
    return. *)
Theorem corrupt_first_read_ends_frame depth w :
  corrupt_first_read w = true ->
  pcb_ok w ->
  (forall w',
      _subFrameTimerStartcb2 (invoke depth) w = Some (tt, w') ->
      (exists w1,
          since no_pixel_data (trace (hw w)) w1 /\
          _mirrorfb (drv w1) = _mirrorfb (drv w) /\
          _dma_state (drv w1) = ILI9341_T4_DMA_IDLE /\
          _pcb (drv w1) = _pcb (drv w) /\
          _stats_nb_frame (stats (drv w1))
          = uint32 (_stats_nb_frame (stats (drv w)) + 1) /\
          (call_pcb (invoke depth) ;; wr set_pcb None) w1 = Some (tt, w')) /\
      since no_pixel_data (trace (hw w)) w' /\
      _pcb (drv w') = None /\
      (_pcb (drv w) = None ->
       _mirrorfb (drv w') = _mirrorfb (drv w) /\
       _dma_state (drv w') = ILI9341_T4_DMA_IDLE /\
       _stats_nb_frame (stats (drv w'))
       = uint32 (_stats_nb_frame (stats (drv w)) + 1)) /\
      (_pcb (drv w) = Some cb_buffer2fullCB -> mirror_is_fb1 w')) /\
  (_pcb (drv w) = None -> _vsync_spacing (drv w) <= 0 -> _diff (drv w) <> None ->
   _touch_request_read (drv w) = false ->
   exists w', _subFrameTimerStartcb2 (invoke depth) w = Some (tt, w')).
Proof.
  intros Hc Hp. split.
  2:{ intros H1 H2 H3 H4. apply _subFrameTimerStartcb2_returns.
      repeat split; assumption. }
  intros w' E.
  set (t0 := trace (hw w)). set (v := kept w).
  assert (Hcut : exists w3 w0,
             quiet t0 w0 /\
             finished (_mirrorfb (drv w)) (_pcb (drv w))
                      (_stats_nb_frame (stats (drv w))) w0 /\
             _endframe w0 = Some (tt, w3) /\
             end_of_upload (invoke depth) w3 = Some (tt, w')).
  { revert E.
    set (Post := fun w' : world =>
           exists w3 w0,
             quiet t0 w0 /\
             finished (_mirrorfb (drv w)) (_pcb (drv w))
                      (_stats_nb_frame (stats (drv w))) w0 /\
             _endframe w0 = Some (tt, w3) /\
             end_of_upload (invoke depth) w3 = Some (tt, w')).
    intros E. change (Post w').
    eapply hoare_elim with (P := keeps v t0) (Q := fun _ => Post); [| |exact E].
    2:{ split; [split; [apply since_refl|exact Hp]|reflexivity]. }
    unfold _subFrameTimerStartcb2.
    eapply hoare_bind with (R := fun _ => keeps v t0).
    { as_stable. unfold_upload. keeps_steps. }
    intros ?.
    eapply hoare_bind with (R := fun _ => keeps v t0).
    { as_stable. unfold_upload. keeps_steps. }
    intros ?.
    eapply hoare_bind with (R := fun _ => keeps v t0).
    { as_stable. keeps_steps. }
    intros vs.
    eapply hoare_bind with (R := fun _ => keeps v t0).
    { as_stable. apply stable_when. apply keeps_sync. }
    intros ?.
    eapply hoare_bind with (R := fun _ => keeps v t0).
    { as_stable. keeps_steps. }
    intros asl.
    eapply hoare_bind with (R := fun _ => keeps v t0).
    { as_stable. keeps_steps. }
    intros d.
    eapply hoare_bind; [apply (keeps_readDiff v t0 d asl w); reflexivity|].
    intros [[[x y] len] r]. cbv beta iota.
    intros w1 u w2 (Hres & Hq & Hx & Hy & Hco & Hnb) E1.
    apply bind_inv in E1. destruct E1 as (px & w3 & E2 & E1).
    inversion E2; subst px w3; clear E2.
    apply bind_inv in E1. destruct E1 as (py & w3 & E2 & E1).
    inversion E2; subst py w3; clear E2.
    rewrite Hx, Hy in E1.
    unfold corrupt_first_read in Hc. rewrite <- Hres in Hc. rewrite Hc in E1.
    apply bind_inv in E1. destruct E1 as ([] & w3 & E2 & E1).
    destruct u. exists w3, w1. split; [exact Hq|]. split; [|split; assumption].
    unfold coord in Hco. inversion Hco as [[Hm Hf1 Hf2 Hpc Hfull]].
    unfold finished. rewrite Hm, Hpc, Hnb. auto. }
  destruct Hcut as (w3 & w0 & Hq0 & Hf0 & E2 & E1).
  assert (Hq3 : quiet t0 w3).
  { eapply hoare_elim with (P := quiet t0) (Q := fun _ => quiet t0);
      [| |exact E2]; [|exact Hq0].
    as_stable. unfold_upload. quiet_steps. }
  pose proof (finished__endframe _ _ _ w0 tt w3 Hf0 E2) as Hf3.
  destruct (end_of_upload_dispatch _ _ _ _ _ _ _ Hq3 Hf3 E1)
    as (w1 & [Hs1 Hp1] & (G1 & G2 & G3) & Hi1 & Ed).
  split.
  { exists w1. repeat split; assumption. }
  split.
  { eapply (quiet_end_of_upload t0 (invoke depth) (quiet_invoke t0 depth));
      [exact Hq3|exact E1]. }
  apply bind_inv in Ed. destruct Ed as ([] & w4 & Ec & Ed).
  inversion Ed; subst w'; clear Ed.
  split; [reflexivity|].
  unfold call_pcb in Ec.
  apply bind_inv in Ec. destruct Ec as (cb & w5 & Er & Ec).
  inversion Er; subst cb w5; clear Er. rewrite G2 in Ec.
  split.
  - intros Hn. rewrite Hn in Ec. inversion Ec; subst w4.
    simpl. repeat split; assumption.
  - intros Hb. rewrite Hb in Ec.
    exact (buffer2fullCB_sets_mirror depth w1 tt w4 I Ec).
Qed.

Lemma corrupt_first_read_ends_frame_witness :
  (exists w',
      _subFrameTimerStartcb2 (invoke 1) bench_armed = Some (tt, w') /\
      since no_pixel_data (trace (hw bench_armed)) w' /\
      _mirrorfb (drv w') = _mirrorfb (drv bench_armed) /\
      _dma_state (drv w') = ILI9341_T4_DMA_IDLE /\
      _pcb (drv w') = None /\
      _stats_nb_frame (stats (drv w'))
      = uint32 (_stats_nb_frame (stats (drv bench_armed)) + 1)) /\
  (exists w',
      _subFrameTimerStartcb2 (invoke 1) bench_armed_staged = Some (tt, w') /\
      since no_pixel_data (trace (hw bench_armed_staged)) w' /\
      mirror_is_fb1 w' /\ _pcb (drv w') = None).
Proof.
  split.
  - destruct (corrupt_first_read_ends_frame 1 bench_armed eq_refl (or_introl eq_refl))
      as [H1 H2].
    destruct (H2 eq_refl ltac:(vm_compute; discriminate) ltac:(discriminate) eq_refl)
      as [w' E].
    destruct (H1 w' E) as (_ & Hs & Hp & Hn & _).
    destruct (Hn eq_refl) as (Hm & Hi & Hf).
    exists w'. repeat split; assumption.
  - destruct (_subFrameTimerStartcb2 (invoke 1) bench_armed_staged)
      as [[[] w']|] eqn:E; [|exfalso; vm_compute in E; discriminate E].
    destruct (corrupt_first_read_ends_frame 1 bench_armed_staged eq_refl
                (or_intror eq_refl)) as [H1 _].
    destruct (H1 w' E) as (_ & Hs & Hp & _ & Hb).
    exists w'. repeat split; [exact Hs|exact (Hb eq_refl)|exact Hp].
Defined.

(** With a frame staged under a dummy diff, the callback that runs at the
    end of the failed upload swaps the framebuffers, sets the mirror and
    launches the staged frame: on return the DMA state is on again. *)
Lemma corrupt_first_read_staged_example :
  corrupt_first_read bench_armed_staged = true /\
  option_map (fun r => (coord (snd r), _dma_state (drv (snd r))))
             (_subFrameTimerStartcb2 (invoke 1) bench_armed_staged)
  = Some ((Some 2%nat, Some 2%nat, Some 1%nat, None, false), ILI9341_T4_DMA_ON).
Proof. split; vm_compute; reflexivity. Qed.

(** C5, read as a postcondition of the whole function, fails when a
    completion callback is pending: on return the mirror is modified and the
    DMA state is not idle. *)
Lemma corrupt_first_read_runs_callback :
  ~ (forall depth w w',
        corrupt_first_read w = true ->
        _subFrameTimerStartcb2 (invoke depth) w = Some (tt, w') ->
        _mirrorfb (drv w') = _mirrorfb (drv w) /\
        _dma_state (drv w') = ILI9341_T4_DMA_IDLE).
Proof.
  intros H.
  destruct corrupt_first_read_staged_example as [Hc D].
  destruct (_subFrameTimerStartcb2 (invoke 1) bench_armed_staged)
    as [[[] w']|] eqn:E; [|discriminate D].
  destruct (H 1%nat bench_armed_staged w' Hc E) as [_ Hi].
  simpl in D. inversion D as [[Hm Hf1 Hf2 Hp Hfull Hdma]].
  rewrite Hi in Hdma. discriminate Hdma.
Qed.
(** ** Margin and teared frames *)

(** [em_async] converted to scanlines through the period. *)
Definition elapsed_scanlines (w : world) : Z :=
  cdiv (uint32 (uint32 (clock (hw w)) - _em_async (drv w)) * ILI9341_T4_NB_SCANLINES)
       (_period (drv w)).

(** The margin, the teared-frame counter and the margins recorded so far. *)
Definition margin_is (m n : Z) (l : StatsVar) (w : world) : Prop :=
  _margin (drv w) = m /\ _nbteared (stats (drv w)) = n
  /\ _statsvar_margin (stats (drv w)) = l.

(** No completion callback pending, no touch read requested. *)
Definition plain (w : world) : Prop :=
  _pcb (drv w) = None /\ _touch_request_read (drv w) = false.

Lemma check_margin_min w :
  0 < _vsync_spacing (drv w) ->
  INT_MIN <= _last_y (drv w) + 320 - _slinitpos (drv w) - elapsed_scanlines w <= INT_MAX ->
  exists d',
    check_margin w = Some (tt, Build_world d' (hw w) (board w)) /\
    _margin d' = Z.min (_margin (drv w))
                       (_last_y (drv w) + 320 - _slinitpos (drv w) - elapsed_scanlines w) /\
    _vsync_spacing d' = _vsync_spacing (drv w) /\
    _diff d' = _diff (drv w) /\
    _pcb d' = _pcb (drv w) /\
    _touch_request_read d' = _touch_request_read (drv w) /\
    stats d' = stats (drv w).
Proof.
  intros Hvs Hr. apply Z.ltb_lt in Hvs.
  unfold check_margin, bind, rd, elapsed, micros, bind, hrd, ret, _nbScanlineDuring,
    bind, rd, ret.
  rewrite Hvs. unfold when.
  change ILI9341_T4_TFTHEIGHT with 320.
  fold (elapsed_scanlines w).
  rewrite int32_id by exact Hr.
  set (m := _last_y (drv w) + 320 - _slinitpos (drv w) - elapsed_scanlines w).
  destruct (m <? _margin (drv w)) eqn:E;
    [apply Z.ltb_lt in E|apply Z.ltb_ge in E].
  - exists (set_margin m (drv w)). split; [reflexivity|].
    simpl. repeat split; try reflexivity. lia.
  - exists (drv w). split; [destruct w; reflexivity|].
    repeat split; try reflexivity. lia.
Qed.

Lemma current_asl_reads w : exists asl, current_asl w = Some (asl, w).
Proof.
  unfold current_asl, bind, rd, elapsed, micros, _nbScanlineDuring, bind, hrd, rd, ret.
  destruct (0 <? _vsync_spacing (drv w)); eexists; reflexivity.
Qed.

Lemma readDiff_first_read d asl w :
  exists h',
    readDiff d (0, 0, 0) asl w = Some (first_read w, Build_world (drv w) h' (board w)).
Proof.
  unfold readDiff, first_read, bind, hrd, hwr, ret.
  destruct (diff_reads (hw w)) as [|r q].
  - exists (hw w). destruct w; reflexivity.
  - eexists. reflexivity.
Qed.

Lemma margin__endframe m n l :
  hoare (fun w => margin_is m n l w /\ 0 < _vsync_spacing (drv w)) _endframe
        (fun _ => margin_is m (if m <? 0 then uint32 (n + 1) else n) (l ++ [m])).
Proof.
  unfold _endframe.
  do 7 (eapply hoare_bind
          with (R := fun _ w => margin_is m n l w /\ 0 < _vsync_spacing (drv w));
        [as_stable; unfold push, elapsed, micros; stable_steps same_leaf|intros ?]).
  intros w u w' [(H1 & H2 & H3) Hvs] E. apply Z.ltb_lt in Hvs.
  unfold bind at 1 in E. unfold rd at 1 in E. rewrite Hvs in E. unfold when at 1 in E.
  apply bind_inv in E. destruct E as ([] & w1 & E1 & E).
  assert (K1 : margin_is m n l w1).
  { eapply hoare_elim with (P := margin_is m n l) (Q := fun _ => margin_is m n l);
      [|repeat split; eassumption|exact E1].
    as_stable. unfold push. stable_steps same_leaf. }
  clear E1. destruct K1 as (K1 & K2 & K3).
  unfold push, when, rds, wrs, bind, rd, wr, ret in E. simpl in E.
  rewrite ?K1, ?K2, ?K3 in E.
  destruct (m <? 0); simpl in E; rewrite ?K1, ?K2, ?K3 in E;
    inversion E; subst w'; unfold margin_is; simpl; auto.
Qed.

Lemma plain_end_of_upload invoke w :
  plain w ->
  end_of_upload invoke w
  = Some (tt, Build_world (set_pcb None (set_dma_state ILI9341_T4_DMA_IDLE (drv w)))
                          (hw w) (board w)).
Proof.
  intros [Hp Ht]. unfold end_of_upload, call_pcb, bind, rd, wr, when, ret.
  rewrite Ht. simpl. rewrite Hp. reflexivity.
Qed.

Lemma total_const f : total (const f).
Proof. intros w. eexists. eexists. reflexivity. Qed.

Ltac unfold_isr :=
  unfold _timeForScanlines, _pauseUploadTime, _pauseCpuTime, _setTimerIn,
    _endSPITransaction, dma_run, push, elapsed, micros, emit, rds.

(** C7: under vsync ([_vsync_spacing > 0]), [_subFrameInterruptDiff], which
    runs after each completed run and after each wait, leaves the margin at
    [min(margin, last_y + 320 - slinitpos - elapsed_scanlines)], where
    [elapsed_scanlines] is [em_async] converted to scanlines through the
    period.  While the diff has runs or waits to offer, it returns with the
    teared-frame counter as it was.  When the diff is at its end the frame
    ends: the counter is incremented exactly when this final margin is
    negative, and the margin is recorded.  [_endframe] by itself, wherever
    it is called from, increments the counter exactly when the margin it
    finds is negative. *)
Theorem margin_min_and_tear_count depth w :
  0 < _vsync_spacing (drv w) ->
  0 < _period (drv w) ->
  INT_MIN <= _last_y (drv w) + 320 - _slinitpos (drv w) - elapsed_scanlines w <= INT_MAX ->
  _diff (drv w) <> None ->
  let m := Z.min (_margin (drv w))
                 (_last_y (drv w) + 320 - _slinitpos (drv w) - elapsed_scanlines w) in
  let r := snd (first_read w) in
  (0 <= r ->
   exists w',
     _subFrameInterruptDiff (invoke depth) w = Some (tt, w') /\
     _margin (drv w') = m /\
     _nbteared (stats (drv w')) = _nbteared (stats (drv w)) /\
     _statsvar_margin (stats (drv w')) = _statsvar_margin (stats (drv w))) /\
  (r < 0 ->
   _pcb (drv w) = None ->
   _touch_request_read (drv w) = false ->
   exists w',
     _subFrameInterruptDiff (invoke depth) w = Some (tt, w') /\
     _margin (drv w') = m /\
     _nbteared (stats (drv w'))
     = (if m <? 0 then uint32 (_nbteared (stats (drv w)) + 1)
        else _nbteared (stats (drv w))) /\
     _statsvar_margin (stats (drv w')) = _statsvar_margin (stats (drv w)) ++ [m]) /\
  (exists w',
     _endframe w = Some (tt, w') /\
     _margin (drv w') = _margin (drv w) /\
     _nbteared (stats (drv w'))
     = (if _margin (drv w) <? 0 then uint32 (_nbteared (stats (drv w)) + 1)
        else _nbteared (stats (drv w)))).
Proof.
  intros Hvs Hper Hr Hd m r.
  assert (Hend : exists w',
             _endframe w = Some (tt, w') /\
             _margin (drv w') = _margin (drv w) /\
             _nbteared (stats (drv w'))
             = (if _margin (drv w) <? 0 then uint32 (_nbteared (stats (drv w)) + 1)
                else _nbteared (stats (drv w)))).
  { destruct (total_unit _ w total__endframe) as [w' E]. exists w'.
    split; [exact E|].
    destruct (margin__endframe _ _ _ w tt w'
                (conj (conj eq_refl (conj eq_refl eq_refl)) Hvs) E) as (G1 & G2 & _).
    split; assumption. }
  destruct (check_margin_min w Hvs Hr) as (d' & E0 & Hm & Hvs' & Hd' & Hp' & Ht' & Hst).
  fold m in Hm.
  set (w1 := Build_world d' (hw w) (board w)) in *.
  destruct (current_asl_reads w1) as [asl Ea].
  destruct (_diff (drv w)) as [d|] eqn:Ed; [clear Hd|contradiction].
  destruct (readDiff_first_read d asl w1) as [h' Er].
  change (first_read w1) with (first_read w) in Er.
  change (drv w1) with d' in Er. change (board w1) with (board w) in Er.
  set (w2 := Build_world d' h' (board w)) in *.
  assert (K : margin_is m (_nbteared (stats (drv w))) (_statsvar_margin (stats (drv w))) w2).
  { unfold margin_is. simpl. rewrite Hst. auto. }
  unfold _subFrameInterruptDiff.
  rewrite (bind_intro _ _ _ _ _ E0).
  rewrite (bind_intro _ _ _ _ _ Ea).
  assert (Edf : (p <- rd _diff ;; deref p) w1 = Some (d, w1)).
  { unfold bind, rd, deref. change (drv w1) with d'. rewrite Hd'. reflexivity. }
  rewrite (bind_intro _ _ _ _ _ Edf).
  rewrite (bind_intro _ _ _ _ _ Er).
  subst r. destruct (first_read w) as [[[x y] len] r]. cbn [snd].
  split; [|split; [|exact Hend]]; clear Hend.
  - intros H0. replace (r <? 0) with false by (symmetry; apply Z.ltb_ge; exact H0).
    match goal with
    | |- exists w', ?c w2 = _ /\ _ =>
        assert (T : total c);
        [|assert (S : stable (margin_is m (_nbteared (stats (drv w)))
                                        (_statsvar_margin (stats (drv w)))) c)]
    end.
    { pose proof total_const. unfold_isr. total_steps. }
    { unfold_isr. stable_steps same_leaf. }
    destruct (total_unit _ w2 T) as [w' E].
    exists w'. split; [exact E|]. exact (S w2 tt w' K E).
  - intros H0 Hp Ht. replace (r <? 0) with true by (symmetry; apply Z.ltb_lt; exact H0).
    assert (P2 : plain w2 /\ 0 < _vsync_spacing (drv w2)).
    { unfold plain. simpl. rewrite Hp', Ht', Hvs'. auto. }
    set (Inv := fun w : world =>
           margin_is m (_nbteared (stats (drv w))) (_statsvar_margin (stats (drv w))) w
           /\ plain w /\ 0 < _vsync_spacing (drv w)).
    assert (SI : forall e, stable
                   (fun w0 => margin_is m (_nbteared (stats (drv w)))
                                        (_statsvar_margin (stats (drv w))) w0
                              /\ plain w0 /\ 0 < _vsync_spacing (drv w0))
                   (emit e)).
    { intros e. unfold emit. stable_steps same_leaf. }
    clear Inv.
    destruct (total_unit _ w2 (total_emit DmaFinish)) as [w3 E3].
    pose proof (SI _ w2 tt w3 (conj K P2) E3) as K3.
    destruct (total_unit _ w3 (total_emit EndSPITransaction)) as [w3' E3'].
    pose proof (SI _ w3 tt w3' K3 E3') as K3'.
    destruct K3' as [K3' [P3 V3]].
    destruct (total_unit _ w3' total__endframe) as [w4 E4].
    pose proof (margin__endframe _ _ _ w3' tt w4 (conj K3' V3) E4) as K4.
    assert (P4 : plain w4).
    { eapply hoare_elim with (P := plain) (Q := fun _ => plain); [|exact P3|exact E4].
      as_stable. unfold _endframe. unfold_isr. unfold when. stable_steps same_leaf. }
    eexists.
    split.
    { rewrite (bind_intro _ _ _ _ _ E3).
      unfold _endSPITransaction.
      rewrite (bind_intro _ _ _ _ _ E3').
      rewrite (bind_intro _ _ _ _ _ E4).
      apply plain_end_of_upload. exact P4. }
    destruct K4 as (G1 & G2 & G3). simpl. auto.
Qed.

(** An upload under vsync that has fallen behind the scan: 20 ms after its
    start the last run ended on line 10 and the diff has nothing more to
    offer. *)
Definition bench_late_upload : world :=
  {| drv := set_margin 320
              (set_last_y 10
                 (set_fb (Some 1%nat)
                    (set_diff (Some (UserDiff 1)) (uploading (bench_driver 2)))));
     hw := set_clock 20000 bench_hardware;
     board := bench_board |}.

(** The same upload 2 ms after its start, with one more run to draw. *)
Definition bench_early_upload : world :=
  {| drv := drv bench_late_upload;
     hw := set_diff_reads
             [ {| rr_code := 0; rr_x := Some 0; rr_y := Some 11; rr_len := Some 240 |} ]
             (set_clock 2000 bench_hardware);
     board := bench_board |}.

Lemma margin_min_and_tear_count_witness :
  (exists w',
      _subFrameInterruptDiff (invoke 1) bench_late_upload = Some (tt, w') /\
      _margin (drv w') = -70 /\
      _nbteared (stats (drv w')) = 1 /\
      _statsvar_margin (stats (drv w')) = [-70]) /\
  (exists w',
      _subFrameInterruptDiff (invoke 1) bench_early_upload = Some (tt, w') /\
      _margin (drv w') = 290 /\
      _nbteared (stats (drv w')) = 0 /\
      _statsvar_margin (stats (drv w')) = []).
Proof.
  split.
  - destruct (margin_min_and_tear_count 1 bench_late_upload
                eq_refl eq_refl ltac:(vm_compute; split; discriminate)
                ltac:(discriminate)) as (_ & H & _).
    destruct (H eq_refl eq_refl eq_refl) as (w' & E & G1 & G2 & G3).
    vm_compute in G1, G2, G3.
    exists w'. repeat split; assumption.
  - destruct (margin_min_and_tear_count 1 bench_early_upload
                eq_refl eq_refl ltac:(vm_compute; split; discriminate)
                ltac:(discriminate)) as (H & _ & _).
    destruct (H ltac:(vm_compute; discriminate)) as (w' & E & G1 & G2 & G3).
    vm_compute in G1, G2, G3.
    exists w'. repeat split; assumption.
Defined.
(** ** Rounding in binary64 *)

Lemma digits2_pos_bounds p :
  2 ^ (Zpos (digits2_pos p) - 1) <= Zpos p < 2 ^ Zpos (digits2_pos p).
Proof.
  induction p as [p IH|p IH|]; cbn [digits2_pos].
  - rewrite Pos2Z.inj_succ.
    replace (Z.succ (Zpos (digits2_pos p)) - 1) with (Z.succ (Zpos (digits2_pos p) - 1)) by lia.
    rewrite !Z.pow_succ_r by lia. lia.
  - rewrite Pos2Z.inj_succ.
    replace (Z.succ (Zpos (digits2_pos p)) - 1) with (Z.succ (Zpos (digits2_pos p) - 1)) by lia.
    rewrite !Z.pow_succ_r by lia. lia.
  - simpl. lia.
Qed.

Lemma Zdigits2_unique m d :
  0 < d -> 2 ^ (d - 1) <= m < 2 ^ d -> Zdigits2 m = d.
Proof.
  intros Hd H.
  assert (0 < m) by (pose proof (Z.pow_pos_nonneg 2 (d - 1)); lia).
  destruct m as [|p|p]; try lia.
  cbn [Zdigits2]. pose proof (digits2_pos_bounds p) as B.
  set (e := Zpos (digits2_pos p)) in *.
  assert (0 < e) by (unfold e; lia).
  destruct (Z.lt_trichotomy e d) as [L|[L|L]]; [|exact L|].
  - exfalso. assert (2 ^ e <= 2 ^ (d - 1)) by (apply Z.pow_le_mono_r; lia). lia.
  - exfalso. assert (2 ^ d <= 2 ^ (e - 1)) by (apply Z.pow_le_mono_r; lia). lia.
Qed.

(** [mrs] is the integer part of [N / D] with its round and sticky bits. *)
Definition located (N D : Z) (mrs : shr_record) : Prop :=
  0 < D /\ 0 <= N /\
  shr_m mrs = N / D /\
  shr_r mrs = (D <=? 2 * (N mod D)) /\
  shr_s mrs = negb ((N mod D =? 0) || (2 * (N mod D) =? D)).

Lemma located_shr_1 N D mrs : located N D mrs -> located N (D * 2) (shr_1 mrs).
Proof.
  intros (HD & HN & Hm & Hr & Hs).
  pose proof (Z.div_mod N D ltac:(lia)) as E.
  pose proof (Z.mod_pos_bound N D HD) as B.
  assert (Hq : 0 <= N / D) by (apply Z.div_pos; lia).
  pose proof (Zdiv.Zdiv_Zdiv N D 2 ltac:(lia) ltac:(lia)) as Q.
  pose proof (Z.rem_mul_r N D 2 ltac:(lia) ltac:(lia)) as R.
  pose proof (Z.div_mod (N / D) 2 ltac:(lia)) as E2.
  pose proof (Z.mod_pos_bound (N / D) 2 ltac:(lia)) as B2.
  assert (Hrs : (shr_r mrs || shr_s mrs) = negb (N mod D =? 0)).
  { rewrite Hr, Hs.
    destruct (Z.leb_spec D (2 * (N mod D))), (Z.eqb_spec (N mod D) 0),
      (Z.eqb_spec (2 * (N mod D)) D); simpl; try reflexivity; lia. }
  destruct mrs as [m r s]. cbn [shr_m shr_r shr_s] in *.
  assert (G : forall (m' : Z) (b : bool),
             m = 2 * m' + (if b then 1 else 0) ->
             located N (D * 2) {| shr_m := m'; shr_r := b; shr_s := r || s |}).
  { intros m' b Hmb. unfold located. cbn [shr_m shr_r shr_s].
    assert (N / D / 2 = m' /\ (N / D) mod 2 = if b then 1 else 0) as [Q1 Q2].
    { destruct b; lia. }
    split; [lia|]. split; [exact HN|]. rewrite <- Q, Q1. split; [reflexivity|].
    rewrite R, Q2, Hrs.
    destruct b;
      destruct (Z.leb_spec (D * 2) (2 * (N mod D + D * 1)));
      destruct (Z.leb_spec (D * 2) (2 * (N mod D + D * 0)));
      destruct (Z.eqb_spec (N mod D) 0);
      destruct (Z.eqb_spec (N mod D + D * 1) 0);
      destruct (Z.eqb_spec (N mod D + D * 0) 0);
      destruct (Z.eqb_spec (2 * (N mod D + D * 1)) (D * 2));
      destruct (Z.eqb_spec (2 * (N mod D + D * 0)) (D * 2));
      simpl; try (split; reflexivity); lia. }
  destruct m as [|[p|p|]|p]; cbn [shr_1].
  - apply (G 0 false). lia.
  - apply (G (Zpos p) true). lia.
  - apply (G (Zpos p) false). lia.
  - apply (G 0 true). lia.
  - lia.
Qed.

Lemma located_iter_pos p : forall N D mrs,
  located N D mrs -> located N (D * 2 ^ Zpos p) (iter_pos shr_1 p mrs).
Proof.
  induction p as [p IH|p IH|]; intros N D mrs H; cbn [iter_pos].
  - replace (D * 2 ^ Zpos p~1) with (D * 2 * 2 ^ Zpos p * 2 ^ Zpos p).
    + apply IH. apply IH. apply located_shr_1. exact H.
    + assert (E : Zpos p~1 = 1 + Zpos p + Zpos p) by lia.
      rewrite E, !Z.pow_add_r by lia. change (2 ^ 1) with 2. ring.
  - replace (D * 2 ^ Zpos p~0) with (D * 2 ^ Zpos p * 2 ^ Zpos p).
    + apply IH. apply IH. exact H.
    + assert (E : Zpos p~0 = Zpos p + Zpos p) by lia.
      rewrite E, !Z.pow_add_r by lia. ring.
  - change (2 ^ 1) with 2. apply located_shr_1. exact H.
Qed.

Lemma located_shr N D mrs e n :
  0 <= n -> located N D mrs ->
  located N (D * 2 ^ n) (fst (shr mrs e n)) /\ snd (shr mrs e n) = e + n.
Proof.
  intros Hn H. unfold shr. destruct n as [|p|p]; cbn [fst snd].
  - rewrite Z.mul_1_r. split; [exact H|lia].
  - split; [apply located_iter_pos; exact H|reflexivity].
  - lia.
Qed.

(** Rounding to nearest is off by half a unit at most. *)
Lemma located_round N D mrs :
  located N D mrs ->
  let m := round_nearest_even (shr_m mrs) (loc_of_shr_record mrs) in
  N / D <= m <= N / D + 1 /\ - D <= 2 * (m * D - N) <= D.
Proof.
  intros (HD & HN & Hm & Hr & Hs).
  pose proof (Z.div_mod N D ltac:(lia)) as E.
  pose proof (Z.mod_pos_bound N D HD) as B.
  destruct mrs as [m r s]. cbn [shr_m shr_r shr_s] in *. subst m.
  set (q := N / D) in *. set (t := N mod D) in *.
  assert (E' : q * D = N - t) by lia.
  unfold loc_of_shr_record, round_nearest_even.
  destruct (Z.leb_spec D (2 * t)), (Z.eqb_spec t 0), (Z.eqb_spec (2 * t) D);
    simpl in Hr, Hs; subst r s; cbv zeta;
    try destruct (IntDef.Z.even q); split; nia.
Qed.

Lemma located_exact N : 0 <= N -> located N 1 (shr_record_of_loc N loc_Exact).
Proof.
  intros H. unfold located. cbn [shr_record_of_loc shr_m shr_r shr_s].
  rewrite Z.div_1_r, Z.mod_1_r. repeat split; try lia; reflexivity.
Qed.

Lemma located_div N D :
  0 <= N -> 0 < D ->
  located N D (shr_record_of_loc (N / D) (new_location D (N mod D))).
Proof.
  intros HN HD.
  pose proof (Z.mod_pos_bound N D HD) as B.
  set (t := N mod D) in *.
  assert (G : forall l,
             (l = loc_Exact /\ t = 0) \/ (l = loc_Inexact Lt /\ 0 < t /\ 2 * t < D)
             \/ (l = loc_Inexact Eq /\ 2 * t = D) \/ (l = loc_Inexact Gt /\ D < 2 * t) ->
             located N D (shr_record_of_loc (N / D) l)).
  { intros l Hl. unfold located. fold t.
    split; [exact HD|]. split; [exact HN|].
    destruct Hl as [[-> H]|[[-> H]|[[-> H]|[-> H]]]];
      cbn [shr_record_of_loc shr_m shr_r shr_s];
      (split; [reflexivity|]);
      destruct (Z.leb_spec D (2 * t)), (Z.eqb_spec t 0), (Z.eqb_spec (2 * t) D);
      simpl; try (split; reflexivity); lia. }
  apply G.
  unfold new_location, new_location_even, new_location_odd.
  change (IntDef.Z.even D) with (Z.even D).
  destruct (Z.even D) eqn:Ev.
  - destruct (Z.eqb_spec t 0) as [H0|H0]; [left; auto|].
    right. destruct (Z.compare_spec (2 * t) D) as [H|H|H].
    + right. left. auto.
    + left. split; [reflexivity|lia].
    + right. right. auto.
  - destruct (Z.eqb_spec t 0) as [H0|H0]; [left; auto|].
    right.
    assert (Hodd : 2 * t <> D).
    { intros Hc. rewrite <- Hc, Z.even_mul in Ev. discriminate Ev. }
    destruct (Z.compare_spec (2 * t + 1) D) as [H|H|H].
    + left. split; [reflexivity|lia].
    + left. split; [reflexivity|lia].
    + right. right. split; [reflexivity|lia].
Qed.

Lemma fexp_normal e : -1074 <= e - 53 -> fexp 53 1024 e = e - 53.
Proof.
  intros H. unfold fexp, emin. change IntDef.Z.max with Z.max.
  apply Z.max_l. lia.
Qed.

(** The last step of every binary64 operation: the quotient [N / D], known
    by its integer part [mx] of at least 53 bits and the position of the
    rest, is rounded to 53 bits; the result is off by half a unit of its
    last place at most. *)
Lemma round_aux_correct N D mx ex lx d :
  located N D (shr_record_of_loc mx lx) ->
  53 <= d -> 2 ^ (d - 1) <= mx < 2 ^ d ->
  -1074 <= d + ex - 53 -> d + ex - 52 <= 971 ->
  exists mz ez,
    binary_round_aux 53 1024 false mx ex lx = S754_finite false mz ez /\
    2 ^ 52 <= Zpos mz < 2 ^ 53 /\
    ex + d - 53 <= ez <= ex + d - 52 /\
    - (D * 2 ^ (ez - ex)) <= 2 * (Zpos mz * 2 ^ (ez - ex) * D - N) <= D * 2 ^ (ez - ex).
Proof.
  intros HL Hd Hmx Hlo Hhi.
  assert (Hm : mx = N / D).
  { destruct HL as (_ & _ & H & _). destruct lx as [|[| |]]; exact H. }
  pose proof HL as (HD & HN & _).
  unfold binary_round_aux, shr_fexp.
  rewrite (Zdigits2_unique mx d) by lia.
  rewrite fexp_normal by lia.
  set (n := d + ex - 53 - ex).
  assert (Hn : n = d - 53) by (unfold n; lia).
  destruct (located_shr N D (shr_record_of_loc mx lx) ex n ltac:(lia) HL) as [L1 E1].
  destruct (shr (shr_record_of_loc mx lx) ex n) as [mrs' e']. cbn [fst snd] in L1, E1.
  pose proof (located_round _ _ _ L1) as R. cbv zeta in R.
  set (m2 := round_nearest_even (shr_m mrs') (loc_of_shr_record mrs')) in *.
  assert (P2 : 0 < 2 ^ n) by (apply Z.pow_pos_nonneg; lia).
  assert (Hq : N / (D * 2 ^ n) = mx / 2 ^ n).
  { rewrite Hm. symmetry. apply Zdiv.Zdiv_Zdiv; lia. }
  assert (Hp : 2 ^ (d - 1) = 2 ^ 52 * 2 ^ n /\ 2 ^ d = 2 ^ 53 * 2 ^ n).
  { rewrite <- !Z.pow_add_r by lia. split; f_equal; lia. }
  destruct Hp as [Hp1 Hp2].
  assert (Hm1 : 2 ^ 52 <= mx / 2 ^ n < 2 ^ 53).
  { split.
    - apply Z.div_le_lower_bound; lia.
    - apply Z.div_lt_upper_bound; lia. }
  destruct R as [R1 R2]. rewrite Hq in R1.
  assert (He' : -1074 <= e' <= 970) by lia.
  destruct (Z.eq_dec m2 (2 ^ 53)) as [Hc|Hc].
  - (* the mantissa overflows to 2^53 *)
    rewrite Hc.
    change (Zdigits2 (2 ^ 53)) with 54.
    rewrite fexp_normal by lia.
    replace (54 + e' - 53 - e') with 1 by lia.
    cbn [shr_record_of_loc shr iter_pos].
    change (shr_1 {| shr_m := 2 ^ 53; shr_r := false; shr_s := false |})
      with {| shr_m := 2 ^ 52; shr_r := false; shr_s := false |}.
    cbn [shr_m].
    change (2 ^ 52) with (Zpos (2 ^ 52)).
    change (1024 - 53) with 971.
    replace (e' + 1 <=? 971) with true by (symmetry; apply Z.leb_le; lia).
    exists (2 ^ 52)%positive, (e' + 1).
    split; [reflexivity|]. split; [split; [lia|reflexivity]|]. split; [lia|].
    replace (e' + 1 - ex) with (n + 1) by lia.
    rewrite Z.pow_add_r by lia. change (2 ^ 1) with 2.
    change (Zpos (2 ^ 52)) with (2 ^ 52).
    rewrite Hc in R2.
    change (2 ^ 53) with (2 ^ 52 * 2) in R2. nia.
  - assert (H2 : 2 ^ 52 <= m2 < 2 ^ 53) by lia.
    rewrite (Zdigits2_unique m2 53) by lia.
    rewrite fexp_normal by lia.
    replace (53 + e' - 53 - e') with 0 by lia.
    cbn [shr_record_of_loc shr shr_m].
    destruct m2 as [|p|p] eqn:Em2; try lia.
    change (1024 - 53) with 971.
    replace (e' <=? 971) with true by (symmetry; apply Z.leb_le; lia).
    exists p, e'.
    split; [reflexivity|]. split; [exact H2|]. split; [lia|].
    replace (e' - ex) with n by lia. nia.
Qed.

(** The rational number a binary float stands for. *)
Definition B2Q (x : spec_float) : Q :=
  match x with
  | S754_finite s m e => inject_Z (cond_Zopp s (Zpos m)) * 2 ^ e
  | _ => 0
  end.

(** Half a unit in the last place of a 53-bit mantissa. *)
Definition ulp_half : Q := 1 # 2 ^ 53.

Lemma pow2_pos e : (0 < 2 ^ e)%Q.
Proof. apply Qpower_0_lt. reflexivity. Qed.

Lemma pow2_add a b : (2 ^ (a + b) == 2 ^ a * 2 ^ b)%Q.
Proof. apply Qpower_plus. discriminate. Qed.

Lemma pow2_Z k : 0 <= k -> (2 ^ k == inject_Z (2 ^ k))%Q.
Proof. intros H. rewrite Zpower_Qpower by exact H. reflexivity. Qed.

Lemma round_aux_Q N D mx ex lx d :
  located N D (shr_record_of_loc mx lx) ->
  53 <= d -> 2 ^ (d - 1) <= mx < 2 ^ d ->
  -1074 <= d + ex - 53 -> d + ex - 52 <= 971 ->
  exists mz ez,
    binary_round_aux 53 1024 false mx ex lx = S754_finite false mz ez /\
    2 ^ 52 <= Zpos mz < 2 ^ 53 /\
    ex + d - 53 <= ez <= ex + d - 52 /\
    ((1 - ulp_half) * (B2Q (S754_finite false mz ez) * inject_Z D)
     <= inject_Z N * 2 ^ ex
     <= (1 + ulp_half) * (B2Q (S754_finite false mz ez) * inject_Z D))%Q.
Proof.
  intros HL Hd Hmx Hlo Hhi.
  pose proof HL as (HD & HN & _).
  destruct (round_aux_correct N D mx ex lx d HL Hd Hmx Hlo Hhi)
    as (mz & ez & E & Hn & He & [F1 F2]).
  exists mz, ez. split; [exact E|]. split; [exact Hn|]. split; [exact He|].
  cbn [B2Q cond_Zopp].
  set (k := ez - ex) in *.
  assert (Hk : 0 <= k) by (unfold k; lia).
  assert (Ez : (2 ^ ez == 2 ^ ex * inject_Z (2 ^ k))%Q).
  { replace ez with (ex + k) by (unfold k; lia).
    rewrite pow2_add, (pow2_Z k Hk). reflexivity. }
  rewrite Ez.
  pose proof (pow2_pos ex) as Ha.
  assert (HK : 0 < 2 ^ k) by (apply Z.pow_pos_nonneg; lia).
  rewrite Zle_Qle in F1, F2.
  rewrite Zlt_Qlt in HD, HK.
  destruct Hn as [Hn1 _]. rewrite Zle_Qle in Hn1.
  unfold Z.sub in F1, F2.
  repeat first [ rewrite inject_Z_mult in F1 | rewrite inject_Z_plus in F1
               | rewrite inject_Z_opp in F1 ].
  repeat first [ rewrite inject_Z_mult in F2 | rewrite inject_Z_plus in F2
               | rewrite inject_Z_opp in F2 ].
  change (inject_Z 2) with (2 # 1)%Q in F1, F2.
  change (inject_Z (2 ^ 52)) with (4503599627370496 # 1)%Q in Hn1.
  change (inject_Z 0) with 0%Q in HD, HK.
  unfold ulp_half. change (2 ^ 53)%positive with 9007199254740992%positive.
  set (Zq := inject_Z (Zpos mz)) in *. clearbody Zq.
  set (K := inject_Z (2 ^ k)) in *. clearbody K.
  set (Dq := inject_Z D) in *. clearbody Dq.
  set (Nq := inject_Z N) in *. clearbody Nq.
  set (a := (2 ^ ex)%Q) in *. clearbody a.
  assert (HW : (0 < K * Dq)%Q) by nra.
  assert (HS : ((4503599627370496 # 1) * (K * Dq) <= Zq * (K * Dq))%Q) by nra.
  set (S := (Zq * (K * Dq))%Q) in *.
  set (W := (K * Dq)%Q) in *.
  assert (G1 : ((1 - (1 # 9007199254740992)) * S <= Nq)%Q).
  { assert (F : (2 * (S - Nq) <= W)%Q).
    { unfold S, W. lra. }
    lra. }
  assert (G2 : (Nq <= (1 + (1 # 9007199254740992)) * S)%Q).
  { assert (F : (- W <= 2 * (S - Nq))%Q).
    { unfold S, W. lra. }
    lra. }
  split.
  - setoid_replace ((1 - (1 # 9007199254740992)) * (Zq * (a * K) * Dq))%Q
      with (a * ((1 - (1 # 9007199254740992)) * S))%Q by (unfold S, W; ring).
    rewrite (Qmult_comm Nq a). apply Qmult_le_l; assumption.
  - setoid_replace ((1 + (1 # 9007199254740992)) * (Zq * (a * K) * Dq))%Q
      with (a * ((1 + (1 # 9007199254740992)) * S))%Q by (unfold S, W; ring).
    rewrite (Qmult_comm Nq a). apply Qmult_le_l; assumption.
Qed.

Lemma scale_bounds (c A B C : Q) :
  (0 < c -> A <= B <= C -> c * A <= c * B <= c * C)%Q.
Proof. intros Hc [H1 H2]. split; apply Qmult_le_l; assumption. Qed.

(** A finite positive double with a full 53-bit mantissa. *)
Definition normal_double (x : double) (m : positive) (e : Z) : Prop :=
  x = S754_finite false m e /\ 2 ^ 52 <= Zpos m < 2 ^ 53.

Lemma B2Q_pos x m e : normal_double x m e -> (0 < B2Q x)%Q.
Proof.
  intros [-> [H _]]. cbn [B2Q cond_Zopp].
  apply Qmult_lt_0_compat; [|apply pow2_pos].
  change 0%Q with (inject_Z 0). rewrite <- Zlt_Qlt. lia.
Qed.

(** Division rounds the quotient of the operands. *)
Lemma double_div_correct x mx ex y my ey :
  normal_double x mx ex -> normal_double y my ey ->
  -1000 <= ex - ey <= 1000 ->
  exists mz ez,
    normal_double (double_div x y) mz ez /\
    ex - ey - 53 <= ez <= ex - ey - 51 /\
    ((1 - ulp_half) * (B2Q (double_div x y) * B2Q y) <= B2Q x
     <= (1 + ulp_half) * (B2Q (double_div x y) * B2Q y))%Q.
Proof.
  intros [-> Hx] [-> Hy] He.
  unfold double_div, SFdiv, SFdiv_core_binary.
  rewrite (Zdigits2_unique (Zpos mx) 53), (Zdigits2_unique (Zpos my) 53) by lia.
  rewrite fexp_normal by lia.
  change IntDef.Z.min with Z.min. rewrite Z.min_l by lia.
  replace (ex - ey - (53 + ex - (53 + ey) - 53)) with 53 by lia.
  change IntDef.Z.shiftl with Z.shiftl. rewrite Z.shiftl_mul_pow2 by lia.
  change IntDef.Z.div_eucl with Z.div_eucl.
  set (N := Zpos mx * 2 ^ 53). set (D := Zpos my).
  assert (HN : 0 <= N) by (unfold N; lia).
  assert (HD : 0 < D) by (unfold D; lia).
  pose proof (located_div N D HN HD) as HL.
  assert (Hq : N / D = fst (Z.div_eucl N D)) by reflexivity.
  assert (Hr : N mod D = snd (Z.div_eucl N D)) by reflexivity.
  destruct (Z.div_eucl N D) as [q r]. cbn [fst snd] in Hq, Hr.
  rewrite Hq, Hr in HL. cbn [xorb].
  assert (Bq : 2 ^ 52 <= q < 2 ^ 54).
  { rewrite <- Hq. split.
    - apply Z.div_le_lower_bound; [exact HD|]. unfold N, D. nia.
    - apply Z.div_lt_upper_bound; [exact HD|]. unfold N, D.
      change (2 ^ 54) with (2 * 2 ^ 53). nia. }
  set (e0 := 53 + ex - (53 + ey) - 53) in *.
  assert (He0 : e0 = ex - ey - 53) by (unfold e0; lia).
  assert (G : exists d, 53 <= d <= 54 /\ 2 ^ (d - 1) <= q < 2 ^ d).
  { destruct (Z_lt_le_dec q (2 ^ 53)).
    - exists 53. change (2 ^ (53 - 1)) with (2 ^ 52). lia.
    - exists 54. change (2 ^ (54 - 1)) with (2 ^ 53). lia. }
  destruct G as (d & Hd & Bd).
  destruct (round_aux_Q N D q e0 (new_location D r) d HL ltac:(lia) Bd
              ltac:(lia) ltac:(lia)) as (mz & ez & E & Hn & Hez & HQ).
  rewrite E. exists mz, ez.
  split; [split; [reflexivity|exact Hn]|]. split; [lia|].
  pose proof (scale_bounds (2 ^ ey)%Q _ _ _ (pow2_pos ey) HQ) as S.
  cbn [B2Q cond_Zopp] in S |- *.
  assert (EN : (2 ^ ey * (inject_Z N * 2 ^ e0) == inject_Z (Zpos mx) * 2 ^ ex)%Q).
  { unfold N. rewrite inject_Z_mult.
    replace ex with (53 + e0 + ey) by lia.
    rewrite !pow2_add, (pow2_Z 53) by lia. ring. }
  rewrite EN in S.
  destruct S as [S1 S2]. split.
  - eapply Qle_trans; [|exact S1]. apply Qle_lteq. right. unfold D. ring.
  - eapply Qle_trans; [exact S2|]. apply Qle_lteq. right. unfold D. ring.
Qed.

(** Multiplication rounds the product of the operands. *)
Lemma double_mul_correct x mx ex y my ey :
  normal_double x mx ex -> normal_double y my ey ->
  -1000 <= ex + ey <= 800 ->
  exists mz ez,
    normal_double (double_mul x y) mz ez /\
    ex + ey + 52 <= ez <= ex + ey + 54 /\
    ((1 - ulp_half) * B2Q (double_mul x y) <= B2Q x * B2Q y
     <= (1 + ulp_half) * B2Q (double_mul x y))%Q.
Proof.
  intros [-> Hx] [-> Hy] He.
  unfold double_mul, SFmul. cbn [xorb].
  set (N := Zpos (mx * my)).
  assert (EN : N = Zpos mx * Zpos my) by (unfold N; lia).
  assert (BN : 2 ^ 104 <= N < 2 ^ 106).
  { rewrite EN. change (2 ^ 104) with (2 ^ 52 * 2 ^ 52).
    change (2 ^ 106) with (2 ^ 53 * 2 ^ 53). nia. }
  pose proof (located_exact N ltac:(lia)) as HL.
  assert (G : exists d, 105 <= d <= 106 /\ 2 ^ (d - 1) <= N < 2 ^ d).
  { destruct (Z_lt_le_dec N (2 ^ 105)).
    - exists 105. change (2 ^ (105 - 1)) with (2 ^ 104). lia.
    - exists 106. change (2 ^ (106 - 1)) with (2 ^ 105). lia. }
  destruct G as (d & Hd & Bd).
  destruct (round_aux_Q N 1 N (ex + ey) loc_Exact d HL ltac:(lia) Bd
              ltac:(lia) ltac:(lia)) as (mz & ez & E & Hn & Hez & HQ).
  rewrite E. exists mz, ez.
  split; [split; [reflexivity|exact Hn]|]. split; [lia|].
  cbn [B2Q cond_Zopp] in HQ |- *.
  assert (EQ : (inject_Z N * 2 ^ (ex + ey)
                == inject_Z (Zpos mx) * 2 ^ ex * (inject_Z (Zpos my) * 2 ^ ey))%Q).
  { rewrite EN, inject_Z_mult, pow2_add. ring. }
  rewrite EQ in HQ.
  destruct HQ as [S1 S2]. split.
  - eapply Qle_trans; [|exact S1]. apply Qle_lteq. right.
    change (inject_Z 1) with 1%Q. ring.
  - eapply Qle_trans; [exact S2|]. apply Qle_lteq. right.
    change (inject_Z 1) with 1%Q. ring.
Qed.

Lemma round_aux_exact m e :
  2 ^ 52 <= Zpos m < 2 ^ 53 -> -1074 <= e <= 971 ->
  binary_round_aux 53 1024 false (Zpos m) e loc_Exact = S754_finite false m e.
Proof.
  intros Hm He. unfold binary_round_aux, shr_fexp.
  rewrite (Zdigits2_unique (Zpos m) 53) by lia.
  rewrite fexp_normal by lia.
  replace (53 + e - 53 - e) with 0 by lia.
  cbn [shr_record_of_loc shr shr_m loc_of_shr_record round_nearest_even].
  rewrite (Zdigits2_unique (Zpos m) 53) by lia.
  rewrite fexp_normal by lia.
  replace (53 + e - 53 - e) with 0 by lia.
  cbn [shr_record_of_loc shr shr_m].
  change (1024 - 53) with 971.
  replace (e <=? 971) with true by (symmetry; apply Z.leb_le; lia).
  reflexivity.
Qed.

Lemma iter_xO p k : Zpos (Pos.iter xO p k) = Zpos p * 2 ^ Zpos k.
Proof.
  induction k as [|k IH] using Pos.peano_ind.
  - simpl. lia.
  - rewrite Pos.iter_succ, Pos2Z.inj_succ, Z.pow_succ_r by lia.
    rewrite Pos2Z.inj_xO, IH. ring.
Qed.

(** An integer below [2^53] converts to a double without rounding. *)
Lemma double_of_int_exact P :
  0 < P < 2 ^ 53 ->
  exists m e,
    normal_double (double_of_int P) m e /\
    -52 <= e <= 0 /\
    (P < 2 ^ 32 -> -52 <= e <= -21) /\
    (B2Q (double_of_int P) == inject_Z P)%Q.
Proof.
  intros HP. destruct P as [|p|p]; try lia.
  unfold double_of_int, binary_normalize, binary_round.
  pose proof (digits2_pos_bounds p) as B.
  set (d := Zpos (digits2_pos p)) in *.
  assert (Hd : 1 <= d <= 53).
  { split; [unfold d; lia|].
    destruct (Z_le_gt_dec d 53) as [L|L]; [exact L|exfalso].
    assert (2 ^ 53 <= 2 ^ (d - 1)) by (apply Z.pow_le_mono_r; lia). lia. }
  assert (Hd32 : Zpos p < 2 ^ 32 -> d <= 32).
  { intros H32. destruct (Z_le_gt_dec d 32) as [L|L]; [exact L|exfalso].
    assert (2 ^ 32 <= 2 ^ (d - 1)) by (apply Z.pow_le_mono_r; lia). lia. }
  rewrite fexp_normal by lia.
  unfold shl_align.
  assert (Hp : 2 ^ (d - 1) * 2 ^ (53 - d) = 2 ^ 52 /\ 2 ^ d * 2 ^ (53 - d) = 2 ^ 53).
  { rewrite <- !Z.pow_add_r by lia. split; f_equal; lia. }
  destruct Hp as [Hp1 Hp2].
  assert (P2 : 0 < 2 ^ (53 - d)) by (apply Z.pow_pos_nonneg; lia).
  destruct (d + 0 - 53 - 0) as [|k|k] eqn:Ek; try lia.
  - assert (d = 53) by lia.
    replace (53 - d) with 0 in * by lia. change (2 ^ 0) with 1 in *.
    rewrite round_aux_exact by lia.
    exists p, 0.
    split; [split; [reflexivity|lia]|]. split; [lia|]. split; [intros H32; specialize (Hd32 H32); lia|].
    cbn [B2Q cond_Zopp]. change (2 ^ 0)%Q with 1%Q. ring.
  - assert (Hk : Zpos k = 53 - d) by lia.
    pose proof (iter_xO p k) as Ei. rewrite Hk in Ei.
    rewrite round_aux_exact by (rewrite ?Ei; nia).
    exists (Pos.iter xO p k), (d + 0 - 53).
    split; [split; [reflexivity|rewrite Ei; nia]|]. split; [lia|].
    split; [intros H32; specialize (Hd32 H32); lia|].
    cbn [B2Q cond_Zopp]. rewrite Ei, inject_Z_mult.
    rewrite <- (pow2_Z (53 - d)) by lia.
    rewrite <- Qmult_assoc, <- pow2_add.
    replace (53 - d + (d + 0 - 53)) with 0 by lia.
    change (2 ^ 0)%Q with 1%Q. ring.
Qed.

(** The accumulated error of four roundings stays below [2^-50]. *)
Definition rate_error : Q := 1 # 2 ^ 50.

Lemma four_roundings (v1 vP v2 v3 A h : Q) :
  (0 < vP)%Q -> (h == 1 \/ h == 2)%Q ->
  ((1 - ulp_half) * (v1 * vP) <= 1000000 <= (1 + ulp_half) * (v1 * vP))%Q ->
  ((1 - ulp_half) * (v2 * h) <= v1 <= (1 + ulp_half) * (v2 * h))%Q ->
  ((1 - ulp_half) * v3 <= v2 * 16 <= (1 + ulp_half) * v3)%Q ->
  ((1 - ulp_half) * A <= v3 <= (1 + ulp_half) * A)%Q ->
  (16000000 * (1 - rate_error) <= h * (A * vP) <= 16000000 * (1 + rate_error))%Q.
Proof.
  unfold ulp_half, rate_error.
  change (2 ^ 53)%positive with 9007199254740992%positive.
  change (2 ^ 50)%positive with 1125899906842624%positive.
  intros HP Hh R1 R2 R3 R4.
  set (u := (1 # 9007199254740992)%Q) in *.
  assert (L : ((1 - u) * (1 - u) * (1 - u) * (h * A) <= 16 * v1
               <= (1 + u) * (1 + u) * (1 + u) * (h * A))%Q).
  { unfold u in *. destruct Hh as [Hh|Hh]; rewrite Hh in *; lra. }
  set (k1 := ((1 - u) * (1 - u) * (1 - u))%Q) in *.
  set (k2 := ((1 + u) * (1 + u) * (1 + u))%Q) in *.
  destruct (scale_bounds vP _ _ _ HP L) as [M1 M2].
  set (B := (h * (A * vP))%Q).
  set (X := (v1 * vP)%Q) in *.
  assert (N1 : (k1 * B <= 16 * X)%Q).
  { eapply Qle_trans; [|eapply Qle_trans; [exact M1|]];
      apply Qle_lteq; right; unfold B, X; ring. }
  assert (N2 : (16 * X <= k2 * B)%Q).
  { eapply Qle_trans; [|eapply Qle_trans; [exact M2|]];
      apply Qle_lteq; right; unfold B, X; ring. }
  unfold k1, k2, u in *. lra.
Qed.

Lemma div_bounds (a T v lo hi : Q) :
  (0 < T -> a * lo <= v * T -> v * T <= a * hi ->
   a / T * lo <= v <= a / T * hi)%Q.
Proof.
  intros HT H1 H2. split.
  - setoid_replace (a / T * lo)%Q with (a * lo / T)%Q
      by (field; intros E; rewrite E in HT; discriminate HT).
    apply Qle_shift_div_r; assumption.
  - setoid_replace (a / T * hi)%Q with (a * hi / T)%Q
      by (field; intros E; rewrite E in HT; discriminate HT).
    apply Qle_shift_div_l; assumption.
Qed.

Lemma double_add_16 m :
  0 <= m <= 15 ->
  double_add (double_of_int 16) (double_of_int m) = double_of_int (16 + m).
Proof.
  intros H.
  assert (C : m = 0 \/ m = 1 \/ m = 2 \/ m = 3 \/ m = 4 \/ m = 5 \/ m = 6 \/ m = 7
              \/ m = 8 \/ m = 9 \/ m = 10 \/ m = 11 \/ m = 12 \/ m = 13 \/ m = 14
              \/ m = 15) by lia.
  repeat (destruct C as [->|C]; [vm_compute; reflexivity|]).
  subst m. vm_compute. reflexivity.
Qed.

Lemma normal_1000000 :
  normal_double (double_of_int 1000000) 8589934592000000 (-33).
Proof. split; [vm_compute; reflexivity|lia]. Qed.

Lemma normal_2 : normal_double (double_of_int 2) 4503599627370496 (-51).
Proof. split; [vm_compute; reflexivity|lia]. Qed.

Lemma normal_16 : normal_double (double_of_int 16) 4503599627370496 (-48).
Proof. split; [vm_compute; reflexivity|lia]. Qed.

(** The rate computed for the divider [c = 16 + m'], halved or not. *)
Lemma rate_correct P c (halve : bool) :
  0 < P < 2 ^ 32 -> 16 <= c <= 31 ->
  let freq := double_div (double_of_int 1000000) (double_of_int P) in
  let freq' := if halve then double_div freq (double_of_int 2) else freq in
  let r := double_div (double_mul freq' (double_of_int 16)) (double_of_int c) in
  let h := if halve then 2 else 1 in
  exists m e,
    r = S754_finite false m e /\
    (16000000 / (inject_Z P * inject_Z c * inject_Z h) * (1 - rate_error)
     <= B2Q r
     <= 16000000 / (inject_Z P * inject_Z c * inject_Z h) * (1 + rate_error))%Q.
Proof.
  intros HP Hc freq freq' r h.
  destruct (double_of_int_exact P ltac:(lia)) as (mP & eP & NP & _ & EP & VP).
  specialize (EP ltac:(lia)).
  destruct (double_of_int_exact c ltac:(lia)) as (mc & ec & Nc & _ & Ec & Vc).
  specialize (Ec ltac:(lia)).
  destruct (double_div_correct _ _ _ _ _ _ normal_1000000 NP ltac:(lia))
    as (m1 & e1 & N1 & E1 & R1).
  fold freq in N1, R1.
  assert (V6 : (B2Q (double_of_int 1000000) == 1000000)%Q) by (vm_compute; reflexivity).
  rewrite V6 in R1.
  assert (G2 : exists m2 e2,
             normal_double freq' m2 e2 /\ e1 - 2 <= e2 <= e1 /\
             ((1 - ulp_half) * (B2Q freq' * inject_Z h) <= B2Q freq
              <= (1 + ulp_half) * (B2Q freq' * inject_Z h))%Q).
  { unfold freq', h. destruct halve.
    - destruct (double_div_correct _ _ _ _ _ _ N1 normal_2 ltac:(lia))
        as (m2 & e2 & N2 & E2 & R2).
      exists m2, e2. split; [exact N2|]. split; [lia|].
      assert (V2 : (B2Q (double_of_int 2) == inject_Z 2)%Q) by (vm_compute; reflexivity).
      rewrite V2 in R2. exact R2.
    - exists m1, e1. split; [exact N1|]. split; [lia|].
      pose proof (B2Q_pos _ _ _ N1) as Hpos.
      unfold ulp_half. change (2 ^ 53)%positive with 9007199254740992%positive.
      change (inject_Z 1) with 1%Q.
      set (v := B2Q freq) in *. clearbody v. lra. }
  destruct G2 as (m2 & e2 & N2 & E2 & R2).
  destruct (double_mul_correct _ _ _ _ _ _ N2 normal_16 ltac:(lia))
    as (m3 & e3 & N3 & E3 & R3).
  destruct (double_div_correct _ _ _ _ _ _ N3 Nc ltac:(lia))
    as (m4 & e4 & N4 & E4 & R4).
  fold r in N4, R4.
  exists m4, e4. split; [apply N4|].
  pose proof (B2Q_pos _ _ _ NP) as PP.
  assert (V16 : (B2Q (double_of_int 16) == 16)%Q) by (vm_compute; reflexivity).
  rewrite V16 in R3.
  assert (Hh : (inject_Z h == 1 \/ inject_Z h == 2)%Q).
  { unfold h. destruct halve; [right|left]; reflexivity. }
  pose proof (four_roundings _ _ _ _ _ _ PP Hh R1 R2 R3 R4) as [F1 F2].
  apply div_bounds.
  - rewrite <- VP, <- Vc.
    repeat apply Qmult_lt_0_compat; try assumption.
    + apply (B2Q_pos _ _ _ Nc).
    + destruct Hh as [Hh|Hh]; rewrite Hh; reflexivity.
  - eapply Qle_trans; [exact F1|]. apply Qle_lteq. right.
    rewrite <- VP, <- Vc. ring.
  - eapply Qle_trans; [|exact F2]. apply Qle_lteq. right.
    rewrite <- VP, <- Vc. ring.
Qed.

(** ** The refresh rate of a mode *)

(** The rate of the specification, in Hz: [(1/P0) * 16/(16 + m')], halved
    from mode 16 on, where the period [P0] is given in microseconds, so that
    [1/P0] is [10^6 / P0] per second. *)
Definition spec_refresh_rate (P0 mode : Z) : Q :=
  let m' := if mode <? 16 then mode else mode - 16 in
  let rate := (1000000 / inject_Z P0 * (16 / (16 + inject_Z m')))%Q in
  if mode <? 16 then rate else (rate / 2)%Q.

Lemma spec_refresh_rate_eq P0 mode :
  0 < P0 -> 0 <= mode <= 31 ->
  (spec_refresh_rate P0 mode
   == 16000000 / (inject_Z P0
                  * inject_Z (16 + (if mode <? 16 then mode else mode - 16))
                  * inject_Z (if mode <? 16 then 1 else 2)))%Q.
Proof.
  intros HP Hm. unfold spec_refresh_rate.
  assert (NP : ~ (inject_Z P0 == 0)%Q).
  { intros E. unfold Qeq in E. cbn [Qnum Qden inject_Z] in E. lia. }
  assert (Nm : forall m, 0 <= m -> ~ (16 + inject_Z m == 0)%Q).
  { intros m H0 E. change 16%Q with (inject_Z 16) in E.
    rewrite <- inject_Z_plus in E.
    unfold Qeq in E. cbn [Qnum Qden inject_Z] in E. lia. }
  destruct (Z.ltb_spec mode 16).
  - rewrite inject_Z_plus. change (inject_Z 16) with 16%Q.
    change (inject_Z 1) with 1%Q. field. split; [apply Nm; lia|exact NP].
  - rewrite inject_Z_plus. change (inject_Z 16) with 16%Q.
    change (inject_Z 2) with 2%Q. field. split; [apply Nm; lia|exact NP].
Qed.

(** C9, as the code has it: for every mode in [0,31] and every period
    [P0 > 0] that fits [uint32_t], [_refreshRateForMode] returns a finite
    positive [double] that is the rate [(1/P0) * 16/(16 + m')] of the
    specification ([P0] in microseconds, the rate in Hz, divided by 2 from
    mode 16 on) up to the rounding of its three or four floating-point
    operations: the relative error is at most [2^-50]. *)
Theorem refreshRateForMode_within_rounding mode w :
  0 <= mode <= 31 ->
  0 < _period_mode0 (drv w) < 2 ^ 32 ->
  exists m e,
    _refreshRateForMode mode w = Some (S754_finite false m e, w) /\
    (spec_refresh_rate (_period_mode0 (drv w)) mode * (1 - rate_error)
     <= B2Q (S754_finite false m e)
     <= spec_refresh_rate (_period_mode0 (drv w)) mode * (1 + rate_error))%Q.
Proof.
  intros Hm HP.
  unfold _refreshRateForMode, bind, rd, ret.
  pose proof (spec_refresh_rate_eq _ mode (proj1 HP) Hm) as S.
  destruct (Z.leb_spec 16 mode) as [H|H].
  - replace (mode <? 16) with false in S by (symmetry; apply Z.ltb_ge; exact H).
    rewrite int32_id by (unfold INT_MIN, INT_MAX; lia).
    rewrite double_add_16 by lia.
    destruct (rate_correct (_period_mode0 (drv w)) (16 + (mode - 16)) true HP
                ltac:(lia)) as (m & e & E & B).
    cbv zeta in E, B. cbv iota in E, B.
    exists m, e. rewrite E. split; [reflexivity|]. rewrite <- E, S. exact B.
  - replace (mode <? 16) with true in S by (symmetry; apply Z.ltb_lt; exact H).
    rewrite double_add_16 by lia.
    destruct (rate_correct (_period_mode0 (drv w)) (16 + mode) false HP
                ltac:(lia)) as (m & e & E & B).
    cbv zeta in E, B. cbv iota in E, B.
    exists m, e. rewrite E. split; [reflexivity|]. rewrite <- E, S. exact B.
Qed.

(** A period of 16667 microseconds, the usual 60 Hz. *)
Definition bench_60Hz : world :=
  {| drv := set_period_mode0 16667 (bench_driver 0);
     hw := bench_hardware;
     board := bench_board |}.

Lemma refreshRateForMode_within_rounding_witness :
  exists m e,
    _refreshRateForMode 20 bench_60Hz = Some (S754_finite false m e, bench_60Hz) /\
    (spec_refresh_rate 16667 20 * (1 - rate_error)
     <= B2Q (S754_finite false m e)
     <= spec_refresh_rate 16667 20 * (1 + rate_error))%Q.
Proof.
  apply (refreshRateForMode_within_rounding 20 bench_60Hz); [lia|].
  split; [reflexivity|reflexivity].
Defined.

(** Where the rate is a binary fraction nothing is rounded: a period of
    16 ms in mode 20 gives exactly 25 Hz. *)
Lemma refreshRateForMode_example :
  _refreshRateForMode 20 (bench 0)
  = Some (S754_finite false 7036874417766400 (-48), bench 0) /\
  (B2Q (S754_finite false 7036874417766400 (-48)) == 25)%Q /\
  (spec_refresh_rate 16000 20 == 25)%Q.
Proof. repeat split; vm_compute; reflexivity. Qed.

(** C9, as stated, fails: the rate computed in [double] is rounded.  With a
    period of 16667 microseconds in mode 0 it is not [10^6 / 16667]. *)
Lemma refreshRateForMode_is_rounded :
  ~ (forall mode w,
        0 <= mode <= 31 ->
        0 < _period_mode0 (drv w) < 2 ^ 32 ->
        exists f,
          _refreshRateForMode mode w = Some (f, w) /\
          (B2Q f == spec_refresh_rate (_period_mode0 (drv w)) mode)%Q).
Proof.
  intros H.
  destruct (H 0 bench_60Hz ltac:(lia) ltac:(split; reflexivity)) as (f & E & V).
  assert (Ef : _refreshRateForMode 0 bench_60Hz
               = Some (S754_finite false 8444080419711286 (-47), bench_60Hz))
    by (vm_compute; reflexivity).
  rewrite Ef in E. injection E as <-.
  vm_compute in V. discriminate V.
Qed.
(** * More of the driver *)

(** ** Running straight-line code *)

Lemma bind_assoc {A B C : Type} (c : M A) (k1 : A -> M B) (k2 : B -> M C) w :
  bind (bind c k1) k2 w = bind c (fun a => bind (k1 a) k2) w.
Proof. unfold bind. destruct (c w) as [[a w1]|]; reflexivity. Qed.

Lemma bind_ret {A B : Type} (a : A) (k : A -> M B) w : bind (ret a) k w = k a w.
Proof. reflexivity. Qed.

Lemma bind_rd {A B : Type} (f : ILI9341Driver -> A) (k : A -> M B) w :
  bind (rd f) k w = k (f (drv w)) w.
Proof. reflexivity. Qed.

Lemma bind_hrd {A B : Type} (f : Hardware -> A) (k : A -> M B) w :
  bind (hrd f) k w = k (f (hw w)) w.
Proof. reflexivity. Qed.

Lemma bind_const {B : Type} (f : Board -> Z) (k : Z -> M B) w :
  bind (const f) k w = k (f (board w)) w.
Proof. reflexivity. Qed.

Lemma bind_wr {A B : Type} (set : A -> ILI9341Driver -> ILI9341Driver) v (k : unit -> M B) w :
  bind (wr set v) k w = k tt (Build_world (set v (drv w)) (hw w) (board w)).
Proof. reflexivity. Qed.

Lemma bind_wrs {A B : Type} (set : A -> Stats -> Stats) v (k : unit -> M B) w :
  bind (wrs set v) k w
  = k tt (Build_world (setstats (set v (stats (drv w))) (drv w)) (hw w) (board w)).
Proof. reflexivity. Qed.

Lemma bind_hwr {A B : Type} (set : A -> Hardware -> Hardware) v (k : unit -> M B) w :
  bind (hwr set v) k w = k tt (Build_world (drv w) (set v (hw w)) (board w)).
Proof. reflexivity. Qed.

Lemma bind_stuck {A B : Type} (k : A -> M B) w : bind stuck k w = None.
Proof. reflexivity. Qed.

(** The last command of a sequence, seen as one more step. *)
Lemma last_step {A : Type} (c : M A) w : c w = bind c ret w.
Proof. unfold bind, ret. destruct (c w) as [[a w1]|]; reflexivity. Qed.

Lemma ret_run {A : Type} (a : A) w : ret a w = Some (a, w).
Proof. reflexivity. Qed.

(** The state of the driver is kept as a record of its fields. *)
Ltac state_cbn E :=
  cbn beta iota zeta delta
  [
    rr_code rr_x rr_y rr_len drv hw board _stats_nb_frame _stats_elapsed_total _stats_cputime
    _stats_uploadtime _stats_elapsed_cputime _stats_elapsed_uploadtime
    _stats_nb_uploaded_pixels _stats_nb_transactions _statsvar_cputime
    _statsvar_uploadtime _statsvar_uploaded_pixels _statsvar_transactions
    _statsvar_margin _statsvar_vsyncspacing _nbteared _width _height _rotation
    _refreshmode _late_start_ratio _late_start_ratio_override _diff_gap
    _vsync_spacing _diff1 _diff2 _fb1 _fb2 _dummydiff1 _dummydiff2 _mirrorfb
    _fb2full _compare_mask _period _period_mode0 _synced_em _synced_scanline _pcb
    _fb _diff _dma_state _last_delta _timeframestart _last_y _slinitpos _em_async
    _margin _prev_caset_x _prev_paset_y _pitcb _spi_clock _spi_clock_read
    _touch_request_read _touch_cs _touch_irq _touched_read _touch_x _touch_y _touch_z
    _em_touched_read stats clock ram rx irq_sched diff_reads irq_masked in_isr
    dma_enabled trace set_stats_nb_frame set_stats_elapsed_total set_stats_cputime
    set_stats_uploadtime set_stats_elapsed_cputime set_stats_elapsed_uploadtime
    set_stats_nb_uploaded_pixels set_stats_nb_transactions set_statsvar_cputime
    set_statsvar_uploadtime set_statsvar_uploaded_pixels set_statsvar_transactions
    set_statsvar_margin set_statsvar_vsyncspacing set_nbteared set_width set_height
    set_rotation set_refreshmode set_late_start_ratio set_late_start_ratio_override
    set_diff_gap set_vsync_spacing set_diff1 set_diff2 set_fb1 set_fb2
    set_dummydiff1 set_dummydiff2 set_mirrorfb set_fb2full set_compare_mask
    set_period set_period_mode0 set_synced_em set_synced_scanline set_pcb set_fb
    set_diff set_dma_state set_last_delta set_timeframestart set_last_y
    set_slinitpos set_em_async set_margin set_prev_caset_x set_prev_paset_y
    set_pitcb set_spi_clock set_spi_clock_read set_touch_request_read set_touch_cs
    set_touch_irq set_touched_read set_touch_x set_touch_y set_touch_z set_em_touched_read setstats
    set_clock set_ram set_rx set_irq_sched set_diff_reads set_irq_masked set_in_isr
    set_dma_enabled set_trace ] in E.

(** One step of the run recorded in [E]. *)
Ltac exec_step E :=
  lazymatch type of E with
  | bind (bind _ _) _ _ = _ => rewrite bind_assoc in E
  | bind (ret _) _ _ = _ => rewrite bind_ret in E
  | bind (rd _) _ _ = _ => rewrite bind_rd in E
  | bind (rds _) _ _ = _ => unfold rds at 1 in E; rewrite bind_rd in E
  | bind (hrd _) _ _ = _ => rewrite bind_hrd in E
  | bind (const _) _ _ = _ => rewrite bind_const in E
  | bind (wr _ _) _ _ = _ => rewrite bind_wr in E
  | bind (wrs _ _) _ _ = _ => rewrite bind_wrs in E
  | bind (hwr _ _) _ _ = _ => rewrite bind_hwr in E
  | bind stuck _ _ = _ => rewrite bind_stuck in E
  | bind (when ?b _) _ _ = _ => unfold when at 1 in E
  | bind (emit _) _ _ = _ => unfold emit at 1 in E
  | ret _ _ = _ => rewrite ret_run in E
  | bind _ _ _ = _ => fail
  | ?c ?w = _ =>
      lazymatch type of w with
      | world => rewrite (last_step c w) in E
      end
  end;
  state_cbn E.

Ltac exec E := repeat (exec_step E).

(** Name the result of a run, compute it step by step, and go on with what
    is to be shown of it. *)
Ltac run_to :=
  lazymatch goal with
  | |- exists w', ?c = Some (tt, w') /\ _ =>
      let E := fresh "E" in
      let w1 := fresh "w'" in
      destruct c as [[[] w1]|] eqn:E;
      [ exec E; injection E as E; exists w1; split; [reflexivity|]; subst w1; cbn
      | exec E; discriminate E ]
  | |- exists w', ?c = Some (tt, w') =>
      let E := fresh "E" in
      let w1 := fresh "w'" in
      destruct c as [[[] w1]|] eqn:E;
      [ exists w1; reflexivity | exec E; discriminate E ]
  end.
(** ** Binding framebuffers and diff buffers *)

(** No upload in flight and none armed: the DMA state idle, no completion
    callback pending, the one-shot timer and the DMA channel off. *)
Definition at_rest (w : world) : Prop :=
  _dma_state (drv w) = ILI9341_T4_DMA_IDLE /\
  _pcb (drv w) = None /\
  _pitcb (drv w) = None /\
  dma_enabled (hw w) = false.

(** [setFramebuffers] waits for the upload in flight, then binds the buffers
    so that a single one always lands in [_fb1]: [_fb1] is null only when
    both arguments are, [_fb2] is set only when both are.  The mirror and the
    "second buffer full" flag are cleared.  With no upload in flight the call
    returns. *)
Theorem setFramebuffers_single_buffer_is_fb1 depth fb1 fb2 w :
  (forall w', setFramebuffers (invoke depth) fb1 fb2 w = Some (tt, w') ->
              _mirrorfb (drv w') = None /\
              _fb2full (drv w') = false /\
              _fb1 (drv w') = (if is_null fb1 then fb2 else fb1) /\
              _fb2 (drv w') = (if is_null fb1 then None else fb2) /\
              (_fb2 (drv w') <> None -> _fb1 (drv w') <> None)) /\
  (_dma_state (drv w) = ILI9341_T4_DMA_IDLE ->
   exists w', setFramebuffers (invoke depth) fb1 fb2 w = Some (tt, w')).
Proof.
  split.
  - intros w' E. unfold setFramebuffers in E.
    apply bind_inv in E. destruct E as ([] & w1 & _ & E).
    unfold resync in E.
    destruct fb1 as [a|]; cbn [is_null negb] in E; exec E; injection E as E; subst w'; cbn.
    + repeat split; auto. intros _. discriminate.
    + repeat split; auto.
  - intros Hidle. unfold setFramebuffers.
    rewrite (bind_intro _ _ w tt w (waitUpdateAsyncComplete_idle _ w Hidle)).
    unfold resync. destruct fb1; cbn [is_null negb]; run_to.
Qed.

Lemma setFramebuffers_single_buffer_is_fb1_witness :
  exists w',
    setFramebuffers (invoke 1) None (Some 5%nat) (bench 2) = Some (tt, w') /\
    _mirrorfb (drv w') = None /\
    _fb2full (drv w') = false /\
    _fb1 (drv w') = Some 5%nat /\
    _fb2 (drv w') = None /\
    (_fb2 (drv w') <> None -> _fb1 (drv w') <> None).
Proof.
  destruct (setFramebuffers_single_buffer_is_fb1 1 None (Some 5%nat) (bench 2))
    as [H1 H2].
  destruct (H2 eq_refl) as [w' E].
  exists w'. split; [exact E|]. exact (H1 w' E).
Defined.

(** [setDiffBuffers] waits for the upload in flight, then binds the diff
    buffers so that a single one always lands in [_diff1]; it leaves the
    mirror and the framebuffers as they are.  With no upload in flight the
    call returns. *)
Theorem setDiffBuffers_single_diff_is_diff1 depth diff1 diff2 w :
  (forall w', setDiffBuffers (invoke depth) diff1 diff2 w = Some (tt, w') ->
              _diff1 (drv w') = (if is_null diff1 then diff2 else diff1) /\
              _diff2 (drv w') = (if is_null diff1 then None else diff2) /\
              (_diff2 (drv w') <> None -> _diff1 (drv w') <> None)) /\
  (_dma_state (drv w) = ILI9341_T4_DMA_IDLE ->
   exists w', setDiffBuffers (invoke depth) diff1 diff2 w = Some (tt, w') /\
              coord w' = coord w).
Proof.
  split.
  - intros w' E. unfold setDiffBuffers in E.
    apply bind_inv in E. destruct E as ([] & w1 & _ & E).
    destruct diff1 as [a|]; cbn [is_null negb] in E; exec E; injection E as E; subst w'; cbn.
    + repeat split; auto. intros _. discriminate.
    + repeat split; auto.
  - intros Hidle. unfold setDiffBuffers.
    rewrite (bind_intro _ _ w tt w (waitUpdateAsyncComplete_idle _ w Hidle)).
    destruct diff1; cbn [is_null negb]; run_to; reflexivity.
Qed.

Lemma setDiffBuffers_single_diff_is_diff1_witness :
  exists w',
    setDiffBuffers (invoke 1) None (Some (UserDiff 3)) (bench 2) = Some (tt, w') /\
    coord w' = coord (bench 2) /\
    _diff1 (drv w') = Some (UserDiff 3) /\
    _diff2 (drv w') = None.
Proof.
  destruct (setDiffBuffers_single_diff_is_diff1 1 None (Some (UserDiff 3)) (bench 2))
    as [H1 H2].
  destruct (H2 eq_refl) as (w' & E & Hc).
  exists w'. split; [exact E|]. split; [exact Hc|].
  destruct (H1 w' E) as (A & B & _). split; [exact A|exact B].
Defined.
(** ** Commands to the panel *)

(** With no upload in flight, [sleep] sends DISPOFF then SLPIN (to sleep) or
    DISPON then SLPOUT (to wake) in one transaction at a quarter of the SPI
    clock and nothing else, lets 200 ms (to sleep) or 20 ms (to wake) pass,
    and returns with the mirror null, so that the next update is a full
    redraw. *)
Theorem sleep_commands_and_mirror depth enable w :
  _dma_state (drv w) = ILI9341_T4_DMA_IDLE ->
  exists w',
    sleep (invoke depth) enable w = Some (tt, w') /\
    trace (hw w') =
      trace (hw w)
      ++ [ BeginSPITransaction (_spi_clock (drv w) / 4);
           WriteCommand (if enable then ILI9341_T4_DISPOFF else ILI9341_T4_DISPON);
           WriteCommand (if enable then ILI9341_T4_SLPIN else ILI9341_T4_SLPOUT);
           EndSPITransaction ] /\
    clock (hw w') = clock (hw w) + (if enable then 200000 else 20000) /\
    _mirrorfb (drv w') = None.
Proof.
  intros Hidle.
  unfold sleep, resync, delay, _beginSPITransaction, _endSPITransaction,
    _writecommand_cont, _writecommand_last.
  rewrite (bind_intro _ _ w tt w (waitUpdateAsyncComplete_idle _ w Hidle)).
  destruct enable; run_to; repeat rewrite <- app_assoc; repeat split; reflexivity.
Qed.

Lemma sleep_commands_and_mirror_witness :
  exists w',
    sleep (invoke 1) true (bench_double 2) = Some (tt, w') /\
    trace (hw w') =
      trace (hw (bench_double 2))
      ++ [ BeginSPITransaction (_spi_clock (drv (bench_double 2)) / 4);
           WriteCommand ILI9341_T4_DISPOFF;
           WriteCommand ILI9341_T4_SLPIN;
           EndSPITransaction ] /\
    clock (hw w') = clock (hw (bench_double 2)) + 200000 /\
    _mirrorfb (drv w') = None.
Proof. apply (sleep_commands_and_mirror 1 true (bench_double 2)). reflexivity. Defined.

(** With no upload in flight, [invertDisplay] sends the one command INVON or
    INVOFF in a transaction at a quarter of the SPI clock; unlike [sleep] it
    leaves the mirror, the framebuffers and the pending callback as they
    are, so the next update stays differential. *)
Theorem invertDisplay_keeps_mirror depth i w :
  _dma_state (drv w) = ILI9341_T4_DMA_IDLE ->
  exists w',
    invertDisplay (invoke depth) i w = Some (tt, w') /\
    trace (hw w') =
      trace (hw w)
      ++ [ BeginSPITransaction (_spi_clock (drv w) / 4);
           WriteCommand (if i then ILI9341_T4_INVON else ILI9341_T4_INVOFF);
           EndSPITransaction ] /\
    coord w' = coord w.
Proof.
  intros Hidle.
  unfold invertDisplay, resync, _beginSPITransaction, _endSPITransaction,
    _writecommand_last.
  rewrite (bind_intro _ _ w tt w (waitUpdateAsyncComplete_idle _ w Hidle)).
  run_to; repeat rewrite <- app_assoc; repeat split; reflexivity.
Qed.

Lemma invertDisplay_keeps_mirror_witness :
  exists w',
    invertDisplay (invoke 1) true bench_sampling_mirrored = Some (tt, w') /\
    trace (hw w') =
      trace (hw bench_sampling_mirrored)
      ++ [ BeginSPITransaction (_spi_clock (drv bench_sampling_mirrored) / 4);
           WriteCommand ILI9341_T4_INVON;
           EndSPITransaction ] /\
    coord w' = coord bench_sampling_mirrored.
Proof.
  apply (invertDisplay_keeps_mirror 1 true bench_sampling_mirrored). reflexivity.
Defined.

(** For every offset but the least [int], and with no upload in flight,
    [setScroll] writes [offset mod 320], a value in [0,319], to the
    vertical-scroll register, followed by RAMWR and NOP; offsets that differ
    by a multiple of 320 write the same value. *)
Theorem setScroll_writes_offset_mod_320 depth offset w :
  INT_MIN < offset <= INT_MAX ->
  _dma_state (drv w) = ILI9341_T4_DMA_IDLE ->
  0 <= offset mod 320 <= 319 /\
  exists w',
    setScroll (invoke depth) offset w = Some (tt, w') /\
    trace (hw w') =
      trace (hw w)
      ++ [ BeginSPITransaction (_spi_clock (drv w));
           WriteCommand ILI9341_T4_VSCRSADD;
           WriteData16 (offset mod 320);
           WriteCommand ILI9341_T4_RAMWR;
           WriteCommand ILI9341_T4_NOP;
           EndSPITransaction ].
Proof.
  intros Ho Hidle.
  destruct (scroll_offset_mod offset (conj (Z.lt_le_incl _ _ (proj1 Ho)) (proj2 Ho)))
    as [Hs Hr].
  rewrite Hs in Hr.
  split; [exact Hr|].
  destruct (setScroll_writes depth offset w Hidle) as (w' & E & Ht).
  exists w'. split; [exact E|].
  rewrite Ht, Hs. rewrite uint16_id by lia. reflexivity.
Qed.

Lemma setScroll_writes_offset_mod_320_witness :
  0 <= (-1) mod 320 <= 319 /\
  exists w',
    setScroll (invoke 1) (-1) (bench 2) = Some (tt, w') /\
    trace (hw w') =
      trace (hw (bench 2))
      ++ [ BeginSPITransaction (_spi_clock (drv (bench 2)));
           WriteCommand ILI9341_T4_VSCRSADD;
           WriteData16 ((-1) mod 320);
           WriteCommand ILI9341_T4_RAMWR;
           WriteCommand ILI9341_T4_NOP;
           EndSPITransaction ].
Proof.
  apply (setScroll_writes_offset_mod_320 1 (-1) (bench 2));
    [vm_compute; split; [reflexivity|discriminate] | reflexivity].
Defined.

(** [setRotation] is done in software.  Called with the rotation already in
    force it changes nothing at all.  Called with another rotation in [0,3]
    and no upload in flight, it returns with the new rotation stored, the
    width and height set to 240x320 (rotations 0, 2) or 320x240 (rotations 1,
    3), the frame statistics reset, and nothing sent to the panel. *)
Theorem setRotation_in_software depth m w :
  0 <= m <= 3 ->
  (m = _rotation (drv w) -> setRotation (invoke depth) m w = Some (tt, w)) /\
  (m <> _rotation (drv w) -> _dma_state (drv w) = ILI9341_T4_DMA_IDLE ->
   exists w',
     setRotation (invoke depth) m w = Some (tt, w') /\
     trace (hw w') = trace (hw w) /\
     _rotation (drv w') = m /\
     (_width (drv w'), _height (drv w'))
     = (if (m =? 0) || (m =? 2) then (240, 320) else (320, 240)) /\
     _stats_nb_frame (stats (drv w')) = 0 /\
     _statsvar_margin (stats (drv w')) = [] /\
     _nbteared (stats (drv w')) = 0).
Proof.
  intros Hm.
  assert (Hc : _clip (uint8 m) 0 3 = m).
  { unfold _clip. rewrite uint8_id by lia. lia. }
  split.
  - intros He. unfold setRotation. cbv zeta. rewrite Hc.
    rewrite (bind_intro _ _ w (_rotation (drv w)) w eq_refl).
    rewrite He, Z.eqb_refl. reflexivity.
  - intros Hr Hidle. unfold setRotation, statsReset, resync, millis. cbv zeta. rewrite Hc.
    rewrite (bind_intro _ _ w (_rotation (drv w)) w eq_refl).
    replace (m =? _rotation (drv w)) with false
      by (symmetry; apply Z.eqb_neq; exact Hr).
    rewrite (bind_intro _ _ w tt w (waitUpdateAsyncComplete_idle _ w Hidle)).
    destruct ((m =? 0) || (m =? 2)); run_to; repeat split; reflexivity.
Qed.

Lemma setRotation_in_software_witness :
  exists w',
    setRotation (invoke 1) 3 (bench 2) = Some (tt, w') /\
    trace (hw w') = trace (hw (bench 2)) /\
    _rotation (drv w') = 3 /\
    (_width (drv w'), _height (drv w')) = (320, 240) /\
    _stats_nb_frame (stats (drv w')) = 0 /\
    _statsvar_margin (stats (drv w')) = [] /\
    _nbteared (stats (drv w')) = 0.
Proof.
  apply (proj2 (setRotation_in_software 1 3 (bench 2) ltac:(lia)));
    [discriminate|reflexivity].
Defined.
(** ** The scanline oracle, once more *)

Lemma getScanLine_unsynced w :
  0 < _period (drv w) -> 0 <= _synced_scanline (drv w) < 2 ^ 32 ->
  _getScanLine false w =
    Some ((_synced_scanline (drv w) + synced_elapsed w * 320 / _period (drv w)) mod 320, w).
Proof.
  intros HP Hsl.
  unfold _getScanLine, elapsed, micros, bind, rd, hrd, ret, synced_elapsed.
  simpl.
  destruct (_period (drv w) =? 0) eqn:E0; [apply Z.eqb_eq in E0; lia|].
  set (e := uint32 (uint32 (clock (hw w)) - _synced_em (drv w))).
  assert (He : 0 <= e < 2 ^ 32) by (apply Z.mod_pos_bound; lia).
  change ILI9341_T4_NB_SCANLINES with 320.
  assert (H1 : uint64 (e * 320) = e * 320).
  { unfold uint64. apply Z.mod_small. lia. }
  rewrite H1.
  assert (H2 : 0 <= e * 320 / _period (drv w) <= e * 320).
  { split; [apply Z.div_pos; lia|].
    apply Z.div_le_upper_bound; [lia|]. nia. }
  assert (H3 : uint64 (_synced_scanline (drv w) + e * 320 / _period (drv w))
               = _synced_scanline (drv w) + e * 320 / _period (drv w)).
  { unfold uint64. apply Z.mod_small. lia. }
  rewrite H3.
  rewrite int32_id; [reflexivity|].
  pose proof (Z.mod_pos_bound
                (_synced_scanline (drv w) + e * 320 / _period (drv w)) 320
                ltac:(lia)).
  unfold INT_MIN, INT_MAX. lia.
Qed.

(** With a period measured ([P > 0]), the scanline predicted without a
    query is always a scanline of the panel, in [0,319]; and right after a
    query that the panel answered with a raw value in [0,161], the
    prediction is the scanline the query returned. *)
Theorem getScanLine_prediction_in_range w :
  0 < _period (drv w) ->
  (0 <= _synced_scanline (drv w) < 2 ^ 32 ->
   exists s, _getScanLine false w = Some (s, w) /\ 0 <= s <= 319) /\
  (forall a b dt v q,
      rx (hw w) = a :: b :: (dt, v) :: q -> 0 <= v <= 161 ->
      exists s w',
        _getScanLine true w = Some (s, w') /\
        0 <= s <= 319 /\
        _getScanLine false w' = Some (s, w')).
Proof.
  intros HP. split.
  - intros Hsl. rewrite (getScanLine_unsynced w HP Hsl).
    eexists. split; [reflexivity|].
    pose proof (Z.mod_pos_bound
                  (_synced_scanline (drv w) + synced_elapsed w * 320 / _period (drv w))
                  320 ltac:(lia)).
    lia.
  - intros [da va] [db vb] dt v q Hrx Hv.
    pose proof (scanline_remap v Hv) as Hs. cbv zeta in Hs.
    assert (Hr : 0 <= Z.max 0 (2 * v - 3) <= 319) by lia.
    exists (Z.max 0 (2 * v - 3)).
    destruct (_getScanLine true w) as [[s w']|] eqn:E.
    2:{ unfold _getScanLine in E. cbn [negb] in E.
        unfold _beginSPITransaction, _endSPITransaction, delayMicroseconds, rx_read,
          micros in E.
        exec E. rewrite Hrx in E. exec E. discriminate E. }
    unfold _getScanLine in E. cbn [negb] in E.
    unfold _beginSPITransaction, _endSPITransaction, delayMicroseconds, rx_read,
      micros in E.
    exec E. rewrite Hrx in E. exec E.
    rewrite Hs in E. injection E as Es Ew. subst s.
    exists w'. split; [reflexivity|]. split; [exact Hr|].
    assert (Hp' : _period (drv w') = _period (drv w)) by (subst w'; reflexivity).
    assert (Hsl' : _synced_scanline (drv w') = Z.max 0 (2 * v - 3)).
    { subst w'. cbn. apply uint32_id. lia. }
    assert (He' : synced_elapsed w' = 0).
    { subst w'. unfold synced_elapsed. cbn.
      rewrite Z.sub_diag. reflexivity. }
    rewrite getScanLine_unsynced by (rewrite ?Hp', ?Hsl'; lia).
    rewrite Hsl', He', Hp'. f_equal. f_equal.
    rewrite Z.mul_0_l, Z.div_0_l by lia. rewrite Z.add_0_r.
    apply Z.mod_small. lia.
Qed.

Lemma getScanLine_prediction_in_range_witness :
  (exists s, _getScanLine false (bench 2) = Some (s, bench 2) /\ 0 <= s <= 319) /\
  (exists s w',
      _getScanLine true (Build_world (bench_driver 2)
                           (set_rx (scanline_answer 100) bench_hardware) bench_board)
      = Some (s, w') /\
      0 <= s <= 319 /\
      _getScanLine false w' = Some (s, w')).
Proof.
  split.
  - apply (proj1 (getScanLine_prediction_in_range (bench 2) ltac:(reflexivity))).
    vm_compute. split; [discriminate|reflexivity].
  - apply (proj2 (getScanLine_prediction_in_range
                    (Build_world (bench_driver 2)
                       (set_rx (scanline_answer 100) bench_hardware) bench_board)
                    ltac:(reflexivity))
             (3, 0) (3, 0) 3 100 []); [reflexivity|lia].
Defined.
(** ** The refresh period is never measured as zero *)

(** Time the panel takes to deliver the words of the receive queue. *)
Fixpoint rx_time (q : list (Z * Z)) : Z :=
  match q with
  | [] => 0
  | (dt, _) :: q' => dt + rx_time q'
  end.

(** Time is running forward: no word of the receive queue arrives before it
    was asked for. *)
Definition rx_forward (q : list (Z * Z)) : Prop := Forall (fun p => 0 <= fst p) q.

Lemma rx_time_nonneg q : rx_forward q -> 0 <= rx_time q.
Proof.
  induction 1 as [|[dt v] q H _ IH]; simpl in *; lia.
Qed.

(** The clock is at [lo] or later, and the scanline queries that the panel
    can still answer end at [hi] or earlier. *)
Definition clock_between (lo hi : Z) (w : world) : Prop :=
  rx_forward (rx (hw w)) /\
  lo <= clock (hw w) /\
  clock (hw w) + rx_time (rx (hw w)) + 5 * Z.of_nat (length (rx (hw w))) <= hi.

Lemma clock_between__getScanLine lo hi :
  stable (clock_between lo hi) (_getScanLine true).
Proof.
  intros w s w' (Hf & Hlo & Hhi) E.
  unfold _getScanLine in E. cbn [negb] in E.
  unfold _beginSPITransaction, _endSPITransaction, delayMicroseconds, rx_read, micros in E.
  exec E.
  destruct (rx (hw w)) as [|[d1 v1] [|[d2 v2] [|[d3 v3] q]]] eqn:Hrx;
    exec E; try discriminate E.
  injection E as _ E. subst w'.
  inversion Hf as [|? ? H1 Hf1]; subst. inversion Hf1 as [|? ? H2 Hf2]; subst.
  inversion Hf2 as [|? ? H3 Hf3]; subst.
  cbn [fst] in H1, H2, H3.
  unfold clock_between. cbn.
  change (uint32 5) with 5.
  cbn [rx_time length] in Hhi.
  split; [exact Hf3|]. split; lia.
Qed.

Definition scan_passes_line_0 : M unit :=
  while (s <- _getScanLine true ;; ret (negb (s =? 0))) (ret tt) ;;
  while (s <- _getScanLine true ;; ret (s =? 0)) (ret tt).

Lemma clock_between_scan lo hi : stable (clock_between lo hi) scan_passes_line_0.
Proof.
  pose proof (clock_between__getScanLine lo hi).
  unfold scan_passes_line_0. stable_steps same_leaf.
Qed.

Lemma clock_between_delay lo hi t :
  0 <= t < 2 ^ 32 ->
  hoare (clock_between lo hi) (delayMicroseconds t)
        (fun _ => clock_between (lo + t) (hi + t)).
Proof.
  intros Ht w a w' (Hf & Hlo & Hhi) E.
  unfold delayMicroseconds in E. exec E. injection E as _ E. subst w'.
  unfold clock_between. cbn. rewrite uint32_id by exact Ht.
  split; [exact Hf|]. split; lia.
Qed.

Lemma clock_between_frames n lo hi :
  hoare (clock_between lo hi)
        (repeat_n n (delayMicroseconds 5000 ;; scan_passes_line_0))
        (fun _ => clock_between (lo + 5000 * Z.of_nat n) (hi + 5000 * Z.of_nat n)).
Proof.
  revert lo hi. induction n as [|n IH]; intros lo hi.
  - cbn [repeat_n]. apply hoare_ret. intros w H.
    replace (lo + 5000 * Z.of_nat 0) with lo by lia.
    replace (hi + 5000 * Z.of_nat 0) with hi by lia. exact H.
  - cbn [repeat_n].
    eapply hoare_bind.
    + eapply hoare_bind; [apply (clock_between_delay lo hi 5000); lia|].
      intros ?. apply clock_between_scan.
    + intros ?. cbv beta.
      eapply hoare_conseq; [apply (IH (lo + 5000) (hi + 5000))|auto|].
      intros ? w. cbv beta.
      replace (lo + 5000 + 5000 * Z.of_nat n) with (lo + 5000 * Z.of_nat (S n)) by lia.
      replace (hi + 5000 + 5000 * Z.of_nat n) with (hi + 5000 * Z.of_nat (S n)) by lia.
      auto.
Qed.

Lemma uint32_sub_uint32 a b : uint32 (uint32 a - uint32 b) = uint32 (a - b).
Proof. unfold uint32. rewrite Zminus_mod_idemp_l, Zminus_mod_idemp_r. reflexivity. Qed.

(** [_sampleRefreshRate] lets ten frames of at least 5 ms each go by, so the
    period it stores is at least 5000 microseconds, whatever the panel
    answers: it is never zero, and the scanline prediction that divides by it
    is defined afterwards.  (Time runs forward, and the measurement is over
    before the 32-bit microsecond counter wraps.) *)
Theorem sampleRefreshRate_period_at_least_5000 w w' :
  rx_forward (rx (hw w)) ->
  rx_time (rx (hw w)) + 5 * Z.of_nat (length (rx (hw w))) + 50000 < 2 ^ 32 ->
  _sampleRefreshRate w = Some (tt, w') ->
  5000 <= _period (drv w') < 2 ^ 32 /\
  exists s, _getScanLine false w' = Some (s, w').
Proof.
  intros Hf Hb E.
  assert (HP : 5000 <= _period (drv w') < 2 ^ 32).
  { set (hi := clock (hw w) + rx_time (rx (hw w)) + 5 * Z.of_nat (length (rx (hw w)))).
    assert (H0 : clock_between (clock (hw w)) hi w).
    { split; [exact Hf|]. unfold hi. split; lia. }
    assert (Hw1 : stable (clock_between (clock (hw w)) hi)
                         (while (s <- _getScanLine true ;; ret (negb (s =? 0))) (ret tt))).
    { pose proof (clock_between__getScanLine (clock (hw w)) hi).
      stable_steps same_leaf. }
    assert (Hw2 : stable (clock_between (clock (hw w)) hi)
                         (while (s <- _getScanLine true ;; ret (s =? 0)) (ret tt))).
    { pose proof (clock_between__getScanLine (clock (hw w)) hi).
      stable_steps same_leaf. }
    unfold _sampleRefreshRate in E.
    apply bind_inv in E. destruct E as ([] & w00 & E00 & E).
    apply bind_inv in E. destruct E as ([] & w0 & E0 & E).
    pose proof (Hw2 w00 tt w0 (Hw1 w tt w00 H0 E00) E0) as (Hf0 & Hlo0 & Hhi0).
    unfold micros in E. exec E.
    apply bind_inv in E. destruct E as ([] & w1 & E1 & E).
    assert (H1 : clock_between (clock (hw w0)) hi w0).
    { split; [exact Hf0|]. split; [lia|exact Hhi0]. }
    pose proof (clock_between_frames _ _ _ w0 tt w1 H1 E1) as (Hf1 & Hlo1 & Hhi1).
    change (Z.to_nat NB_SAMPLE_FRAMES) with 10%nat in Hlo1, Hhi1.
    pose proof (rx_time_nonneg _ Hf1).
    unfold elapsed, micros in E. exec E. injection E as E. subst w'. cbn.
    rewrite uint32_sub_uint32.
    assert (Hd : 50000 <= clock (hw w1) - clock (hw w0) < 2 ^ 32) by (unfold hi in *; lia).
    rewrite (uint32_id (clock (hw w1) - clock (hw w0))) by lia.
    unfold round_div. change NB_SAMPLE_FRAMES with 10.
    set (d := clock (hw w1) - clock (hw w0)) in *.
    assert (Hq : 5000 <= (2 * d + 10) / (2 * 10) < 2 ^ 32).
    { split.
      - apply Z.div_le_lower_bound; lia.
      - apply Z.div_lt_upper_bound; lia. }
    rewrite uint32_id by lia. exact Hq. }
  split; [exact HP|].
  unfold _getScanLine. cbn [negb].
  unfold elapsed, micros.
  destruct (_period (drv w') =? 0) eqn:E0; [apply Z.eqb_eq in E0; lia|].
  unfold bind, rd, hrd, ret. rewrite E0. eexists. reflexivity.
Qed.

Lemma sampleRefreshRate_period_at_least_5000_witness :
  exists w',
    _sampleRefreshRate (bench_sampling 2) = Some (tt, w') /\
    5000 <= _period (drv w') < 2 ^ 32 /\
    exists s, _getScanLine false w' = Some (s, w').
Proof.
  destruct (_sampleRefreshRate (bench_sampling 2)) as [[[] w']|] eqn:E.
  - exists w'. split; [reflexivity|].
    apply (sampleRefreshRate_period_at_least_5000 (bench_sampling 2) w');
      [|vm_compute; reflexivity|exact E].
    unfold rx_forward. vm_compute.
    repeat (constructor; [discriminate|]). constructor.
  - vm_compute in E. discriminate E.
Defined.
(** ** The pixel pusher, once more *)

Lemma sent_sent l1 l2 w : sent l2 (sent l1 w) = sent (l1 ++ l2) w.
Proof. unfold sent. cbn. rewrite app_assoc. reflexivity. Qed.

Lemma sent_nil w : sent [] w = w.
Proof.
  destruct w as [d h b]. destruct h. unfold sent. cbn. rewrite app_nil_r. reflexivity.
Qed.

(** [c] returns after sending [l] and doing nothing else. *)
Definition only_sends (c : M unit) (l : list event) : Prop :=
  forall w, c w = Some (tt, sent l w).

Lemma only_sends_ret : only_sends (ret tt) [].
Proof. intros w. rewrite sent_nil. reflexivity. Qed.

Lemma only_sends_cons v (c : M unit) l :
  only_sends c l ->
  only_sends (_writedata16_cont v ;; c) (WriteData16 (uint16 v) :: l).
Proof.
  intros H w. unfold _writedata16_cont.
  rewrite (bind_intro _ _ w tt _ (emit_sent_first _ w)).
  rewrite H, sent_sent. reflexivity.
Qed.

Lemma only_sends_ext c l l' : l = l' -> only_sends c l -> only_sends c l'.
Proof. intros ->. auto. Qed.

Lemma mode0_loop_only_sends fb n : forall p,
  only_sends (_pushpixels_mode0_loop n fb p)
             (map (fun k => WriteData16 (uint16 (fb (p + Z.of_nat k)))) (seq 0 n)).
Proof.
  induction n as [|n IH]; intros p.
  - apply only_sends_ret.
  - simpl _pushpixels_mode0_loop. cbn [seq map].
    rewrite map_seq_shift.
    replace (p + Z.of_nat 0) with p by lia.
    apply only_sends_cons.
    eapply only_sends_ext; [|apply IH].
    apply map_ext. intros k. do 3 f_equal. lia.
Qed.

Lemma mode2_loop_only_sends fb n : forall p,
  only_sends (_pushpixels_mode2_loop n fb p)
             (map (fun k => WriteData16 (uint16 (fb (p - Z.of_nat k)))) (seq 0 n)).
Proof.
  induction n as [|n IH]; intros p.
  - apply only_sends_ret.
  - simpl _pushpixels_mode2_loop. cbn [seq map].
    rewrite map_seq_shift.
    replace (p - Z.of_nat 0) with p by lia.
    apply only_sends_cons.
    eapply only_sends_ext; [|apply IH].
    apply map_ext. intros k. do 3 f_equal. lia.
Qed.

Lemma mode1_loop_only_sends fb n : forall x y,
  0 <= y < 240 -> 0 <= x -> x + Z.of_nat n <= 2 ^ 30 ->
  only_sends (_pushpixels_mode1_loop n fb x y)
             (map (fun k => WriteData16 (uint16 (fb (x + (239 - y + Z.of_nat k) / 240
                                                     + 320 * (239 - (239 - y + Z.of_nat k) mod 240)))))
                  (seq 0 n)).
Proof.
  induction n as [|n IH]; intros x y Hy Hx Hn.
  - apply only_sends_ret.
  - simpl _pushpixels_mode1_loop. cbn [seq map].
    rewrite map_seq_shift.
    change ILI9341_T4_TFTHEIGHT with 320. change ILI9341_T4_TFTWIDTH with 240.
    rewrite (int32_id (320 * y)) by (unfold INT_MIN, INT_MAX; lia).
    rewrite (int32_id (x + 320 * y)) by (unfold INT_MIN, INT_MAX; lia).
    rewrite (int32_id (y - 1)) by (unfold INT_MIN, INT_MAX; lia).
    rewrite (int32_id (x + 1)) by (unfold INT_MIN, INT_MAX; lia).
    replace (x + (239 - y + Z.of_nat 0) / 240
             + 320 * (239 - (239 - y + Z.of_nat 0) mod 240))
      with (x + 320 * y).
    2:{ replace (239 - y + Z.of_nat 0) with (239 - y) by lia.
        rewrite Z.div_small, Z.mod_small by lia. lia. }
    apply only_sends_cons.
    destruct (y - 1 <? 0) eqn:E; [apply Z.ltb_lt in E|apply Z.ltb_ge in E].
    + eapply only_sends_ext; [|apply IH; lia].
      apply map_ext. intros k. do 3 f_equal.
      assert (y = 0) by lia. subst y.
      replace (239 - 0 + Z.of_nat (S k)) with (Z.of_nat k + 1 * 240) by lia.
      replace (239 - (240 - 1) + Z.of_nat k) with (Z.of_nat k) by lia.
      rewrite Z.div_add, Z.mod_add by lia. lia.
    + eapply only_sends_ext; [|apply IH; lia].
      apply map_ext. intros k. do 3 f_equal.
      replace (239 - (y - 1) + Z.of_nat k) with (239 - y + Z.of_nat (S k)) by lia.
      reflexivity.
Qed.

Lemma mode3_loop_only_sends fb n : forall x y,
  0 <= y < 240 -> - 2 ^ 30 <= x - Z.of_nat n -> x <= 2 ^ 30 ->
  only_sends (_pushpixels_mode3_loop n fb x y)
             (map (fun k => WriteData16 (uint16 (fb (x - (y + Z.of_nat k) / 240
                                                     + 320 * ((y + Z.of_nat k) mod 240)))))
                  (seq 0 n)).
Proof.
  induction n as [|n IH]; intros x y Hy Hx Hn.
  - apply only_sends_ret.
  - simpl _pushpixels_mode3_loop. cbn [seq map].
    rewrite map_seq_shift.
    change ILI9341_T4_TFTHEIGHT with 320. change ILI9341_T4_TFTWIDTH with 240.
    rewrite (int32_id (320 * y)) by (unfold INT_MIN, INT_MAX; lia).
    rewrite (int32_id (x + 320 * y)) by (unfold INT_MIN, INT_MAX; lia).
    rewrite (int32_id (y + 1)) by (unfold INT_MIN, INT_MAX; lia).
    rewrite (int32_id (x - 1)) by (unfold INT_MIN, INT_MAX; lia).
    replace (x - (y + Z.of_nat 0) / 240 + 320 * ((y + Z.of_nat 0) mod 240))
      with (x + 320 * y).
    2:{ replace (y + Z.of_nat 0) with y by lia.
        rewrite Z.div_small, Z.mod_small by lia. lia. }
    apply only_sends_cons.
    destruct (240 <=? y + 1) eqn:E; [apply Z.leb_le in E|apply Z.leb_gt in E].
    + eapply only_sends_ext; [|apply IH; lia].
      apply map_ext. intros k. do 3 f_equal.
      assert (y = 239) by lia. subst y.
      replace (239 + Z.of_nat (S k)) with (Z.of_nat k + 1 * 240) by lia.
      replace (0 + Z.of_nat k) with (Z.of_nat k) by lia.
      rewrite Z.div_add, Z.mod_add by lia. lia.
    + eapply only_sends_ext; [|apply IH; lia].
      apply map_ext. intros k. do 3 f_equal.
      replace (y + 1 + Z.of_nat k) with (y + Z.of_nat (S k)) by lia.
      reflexivity.
Qed.

(** The index of the [k]-th word of a run in each rotation. *)
Definition index0 (x y k : Z) : Z := x + 240 * y + k.
Definition index2 (x y k : Z) : Z := (239 - x) + 240 * (319 - y) - k.
Definition index1 (x y k : Z) : Z := (y + (x + k) / 240) + 320 * (239 - (x + k) mod 240).
Definition index3 (x y k : Z) : Z := (319 - y - (x + k) / 240) + 320 * ((x + k) mod 240).

(** A run that starts on the screen. *)
Definition starts_on_screen (x y len : Z) : Prop :=
  0 <= x < 240 /\ 0 <= y < 320 /\ 0 <= len <= ILI9341_T4_NB_PIXELS.

Lemma pushpixels_mode0_only_sends fb x y len :
  starts_on_screen x y len ->
  only_sends (_pushpixels_mode0 fb x y len) (pushed fb (index0 x y) len).
Proof.
  intros (Hx & Hy & Hlen). change ILI9341_T4_NB_PIXELS with 76800 in Hlen.
  unfold _pushpixels_mode0. change ILI9341_T4_TFTWIDTH with 240.
  rewrite int32_id by (unfold INT_MIN, INT_MAX; lia).
  eapply only_sends_ext; [|apply mode0_loop_only_sends].
  unfold pushed, index0. apply map_ext. intros k. do 3 f_equal; lia.
Qed.

Lemma pushpixels_mode2_only_sends fb x y len :
  starts_on_screen x y len ->
  only_sends (_pushpixels_mode2 fb x y len) (pushed fb (index2 x y) len).
Proof.
  intros (Hx & Hy & Hlen). change ILI9341_T4_NB_PIXELS with 76800 in Hlen.
  unfold _pushpixels_mode2.
  change ILI9341_T4_TFTWIDTH with 240. change ILI9341_T4_TFTHEIGHT with 320.
  rewrite (int32_id (240 - 1 - x)) by (unfold INT_MIN, INT_MAX; lia).
  rewrite (int32_id (320 - 1 - y)) by (unfold INT_MIN, INT_MAX; lia).
  rewrite int32_id by (unfold INT_MIN, INT_MAX; lia).
  eapply only_sends_ext; [|apply mode2_loop_only_sends].
  unfold pushed, index2. apply map_ext. intros k. do 3 f_equal; lia.
Qed.

Lemma pushpixels_mode1_only_sends fb x y len :
  starts_on_screen x y len ->
  only_sends (_pushpixels_mode1 fb x y len) (pushed fb (index1 x y) len).
Proof.
  intros (Hx & Hy & Hlen). change ILI9341_T4_NB_PIXELS with 76800 in Hlen.
  assert (Hn : Z.of_nat (Z.to_nat len) = len) by lia.
  unfold _pushpixels_mode1. change ILI9341_T4_TFTWIDTH with 240.
  rewrite int32_id by (unfold INT_MIN, INT_MAX; lia).
  eapply only_sends_ext; [|apply mode1_loop_only_sends; lia].
  unfold pushed, index1. apply map_ext. intros k. do 3 f_equal.
  replace (239 - (240 - 1 - x) + Z.of_nat k) with (x + Z.of_nat k) by lia.
  reflexivity.
Qed.

Lemma pushpixels_mode3_only_sends fb x y len :
  starts_on_screen x y len ->
  only_sends (_pushpixels_mode3 fb x y len) (pushed fb (index3 x y) len).
Proof.
  intros (Hx & Hy & Hlen). change ILI9341_T4_NB_PIXELS with 76800 in Hlen.
  assert (Hn : Z.of_nat (Z.to_nat len) = len) by lia.
  unfold _pushpixels_mode3. change ILI9341_T4_TFTHEIGHT with 320.
  rewrite int32_id by (unfold INT_MIN, INT_MAX; lia).
  eapply only_sends_ext; [|apply mode3_loop_only_sends; lia].
  unfold pushed, index3. apply map_ext. intros k. do 3 f_equal; lia.
Qed.

(** A run that lies on the screen: it starts there and does not go past the
    last pixel. *)
Definition on_screen (x y len : Z) : Prop :=
  0 <= x < 240 /\ 0 <= y < 320 /\ 0 <= len /\ x + 240 * y + len <= ILI9341_T4_NB_PIXELS.

Lemma on_screen_starts x y len : on_screen x y len -> starts_on_screen x y len.
Proof.
  unfold on_screen, starts_on_screen. change ILI9341_T4_NB_PIXELS with 76800. lia.
Qed.

Lemma index_in_framebuffer x y len k :
  on_screen x y len -> 0 <= k < len ->
  0 <= index0 x y k < ILI9341_T4_NB_PIXELS /\
  0 <= index1 x y k < ILI9341_T4_NB_PIXELS /\
  0 <= index2 x y k < ILI9341_T4_NB_PIXELS /\
  0 <= index3 x y k < ILI9341_T4_NB_PIXELS.
Proof.
  unfold on_screen, index0, index1, index2, index3.
  change ILI9341_T4_NB_PIXELS with 76800.
  intros (Hx & Hy & Hlen & Hend) Hk.
  assert (Hm : 0 <= (x + k) mod 240 < 240) by (apply Z.mod_pos_bound; lia).
  assert (Hd : 0 <= (x + k) / 240) by (apply Z.div_pos; lia).
  assert (Hq : x + k = 240 * ((x + k) / 240) + (x + k) mod 240)
    by (apply Z.div_mod; lia).
  assert (Hu : y + (x + k) / 240 <= 319) by lia.
  repeat split; lia.
Qed.

(** The pushers never read outside the framebuffer: for a run that lies on
    the screen, in each of the four rotations, what is pushed depends only on
    the 76800 words of the framebuffer. *)
Theorem pushpixels_reads_inside_framebuffer fb fb' x y len w :
  on_screen x y len ->
  (forall i, 0 <= i < ILI9341_T4_NB_PIXELS -> fb i = fb' i) ->
  _pushpixels_mode0 fb x y len w = _pushpixels_mode0 fb' x y len w /\
  _pushpixels_mode1 fb x y len w = _pushpixels_mode1 fb' x y len w /\
  _pushpixels_mode2 fb x y len w = _pushpixels_mode2 fb' x y len w /\
  _pushpixels_mode3 fb x y len w = _pushpixels_mode3 fb' x y len w.
Proof.
  intros Hs Hfb.
  pose proof (on_screen_starts _ _ _ Hs) as Hst.
  assert (He : forall idx,
             (forall k, 0 <= k < len -> 0 <= idx k < ILI9341_T4_NB_PIXELS) ->
             pushed fb idx len = pushed fb' idx len).
  { intros idx Hi. unfold pushed. apply map_ext_in. intros k Hk.
    apply in_seq in Hk. rewrite Hfb; [reflexivity|]. apply Hi. lia. }
  repeat split.
  - rewrite (pushpixels_mode0_only_sends fb _ _ _ Hst),
      (pushpixels_mode0_only_sends fb' _ _ _ Hst).
    rewrite He; [reflexivity|]. intros k Hk. apply (index_in_framebuffer x y len k Hs Hk).
  - rewrite (pushpixels_mode1_only_sends fb _ _ _ Hst),
      (pushpixels_mode1_only_sends fb' _ _ _ Hst).
    rewrite He; [reflexivity|]. intros k Hk. apply (index_in_framebuffer x y len k Hs Hk).
  - rewrite (pushpixels_mode2_only_sends fb _ _ _ Hst),
      (pushpixels_mode2_only_sends fb' _ _ _ Hst).
    rewrite He; [reflexivity|]. intros k Hk. apply (index_in_framebuffer x y len k Hs Hk).
  - rewrite (pushpixels_mode3_only_sends fb _ _ _ Hst),
      (pushpixels_mode3_only_sends fb' _ _ _ Hst).
    rewrite He; [reflexivity|]. intros k Hk. apply (index_in_framebuffer x y len k Hs Hk).
Qed.

Lemma pushpixels_reads_inside_framebuffer_witness :
  _pushpixels_mode0 (fun i => i) 230 319 10 (bench 2)
  = _pushpixels_mode0 (fun i => if i <? 76800 then i else 0) 230 319 10 (bench 2) /\
  _pushpixels_mode1 (fun i => i) 230 319 10 (bench 2)
  = _pushpixels_mode1 (fun i => if i <? 76800 then i else 0) 230 319 10 (bench 2) /\
  _pushpixels_mode2 (fun i => i) 230 319 10 (bench 2)
  = _pushpixels_mode2 (fun i => if i <? 76800 then i else 0) 230 319 10 (bench 2) /\
  _pushpixels_mode3 (fun i => i) 230 319 10 (bench 2)
  = _pushpixels_mode3 (fun i => if i <? 76800 then i else 0) 230 319 10 (bench 2).
Proof.
  apply (pushpixels_reads_inside_framebuffer
           (fun i => i) (fun i => if i <? 76800 then i else 0) 230 319 10 (bench 2)).
  - vm_compute. repeat split; discriminate.
  - intros i Hi. change ILI9341_T4_NB_PIXELS with 76800 in Hi.
    destruct (i <? 76800) eqn:E; [reflexivity|]. apply Z.ltb_ge in E. lia.
Defined.
Lemma rev_map_seq {A : Type} (f : nat -> A) n :
  rev (map f (seq 0 n)) = map (fun k => f (n - 1 - k)%nat) (seq 0 n).
Proof.
  induction n as [|n IH].
  - reflexivity.
  - rewrite seq_S at 1. cbn [plus]. rewrite map_app, rev_app_distr. cbn [map rev app].
    cbn [seq map]. f_equal.
    + f_equal. lia.
    + rewrite IH. rewrite map_seq_shift. apply map_ext_in. intros k Hk.
      apply in_seq in Hk. f_equal. lia.
Qed.

Lemma pushed_rev fb idx idx' len :
  (forall k, 0 <= k < len -> idx' k = idx (len - 1 - k)) ->
  pushed fb idx' len = rev (pushed fb idx len).
Proof.
  intros H. unfold pushed. rewrite rev_map_seq. apply map_ext_in. intros k Hk.
  apply in_seq in Hk. rewrite H by lia. do 4 f_equal. lia.
Qed.

Lemma mirrored_position q :
  0 <= q < 76800 ->
  (76799 - q) / 240 = 319 - q / 240 /\ (76799 - q) mod 240 = 239 - q mod 240.
Proof.
  intros Hq.
  assert (Hm : 0 <= q mod 240 < 240) by (apply Z.mod_pos_bound; lia).
  assert (Hd : q = 240 * (q / 240) + q mod 240) by (apply Z.div_mod; lia).
  apply (Z.div_mod_unique 240 ((76799 - q) / 240) (319 - q / 240)
           ((76799 - q) mod 240) (239 - q mod 240)).
  - left. apply Z.mod_pos_bound. lia.
  - left. lia.
  - pose proof (Z.div_mod (76799 - q) 240 ltac:(lia)). lia.
Qed.

Lemma position_split x y k :
  0 <= x < 240 -> 0 <= y -> 0 <= k ->
  (x + 240 * y + k) / 240 = y + (x + k) / 240 /\
  (x + 240 * y + k) mod 240 = (x + k) mod 240.
Proof.
  intros Hx Hy Hk.
  replace (x + 240 * y + k) with (x + k + y * 240) by lia.
  rewrite Z.div_add, Z.mod_add by lia. lia.
Qed.

(** Rotations 2 and 3 are rotations 0 and 1 read backwards: a run pushed in
    rotation 2 (resp. 3) sends the words that rotation 0 (resp. 1) sends for
    the mirrored run, the one that ends where the other starts counted from
    the last pixel of the screen, in the reverse order. *)
Theorem pushpixels_rotation_by_half_turn fb x y len w :
  on_screen x y len -> 0 < len ->
  let p := ILI9341_T4_NB_PIXELS - (x + 240 * y) - len in
  exists l0 l1,
    _pushpixels_mode0 fb (p mod 240) (p / 240) len w = Some (tt, sent l0 w) /\
    _pushpixels_mode2 fb x y len w = Some (tt, sent (rev l0) w) /\
    _pushpixels_mode1 fb (p mod 240) (p / 240) len w = Some (tt, sent l1 w) /\
    _pushpixels_mode3 fb x y len w = Some (tt, sent (rev l1) w).
Proof.
  intros Hs Hlen p.
  pose proof (on_screen_starts _ _ _ Hs) as Hst.
  destruct Hs as (Hx & Hy & _ & Hend).
  change ILI9341_T4_NB_PIXELS with 76800 in *.
  assert (Hp : 0 <= p < 76800) by (unfold p; lia).
  assert (Hpm : 0 <= p mod 240 < 240) by (apply Z.mod_pos_bound; lia).
  assert (Hpd : 0 <= p / 240 < 320).
  { split; [apply Z.div_pos; lia|]. apply Z.div_lt_upper_bound; lia. }
  assert (Hpq : p = 240 * (p / 240) + p mod 240) by (apply Z.div_mod; lia).
  assert (Hst' : starts_on_screen (p mod 240) (p / 240) len).
  { unfold starts_on_screen. change ILI9341_T4_NB_PIXELS with 76800. lia. }
  exists (pushed fb (index0 (p mod 240) (p / 240)) len),
         (pushed fb (index1 (p mod 240) (p / 240)) len).
  split; [apply pushpixels_mode0_only_sends; exact Hst'|].
  split.
  { rewrite (pushpixels_mode2_only_sends fb _ _ _ Hst). do 3 f_equal.
    apply pushed_rev. intros k Hk. unfold index2, index0. lia. }
  split; [apply pushpixels_mode1_only_sends; exact Hst'|].
  rewrite (pushpixels_mode3_only_sends fb _ _ _ Hst). do 3 f_equal.
  apply pushed_rev. intros k Hk. unfold index3, index1.
  destruct (position_split x y k Hx ltac:(lia) ltac:(lia)) as [Hd Hm].
  destruct (position_split (p mod 240) (p / 240) (len - 1 - k) Hpm ltac:(lia) ltac:(lia))
    as [Hd' Hm'].
  replace (p mod 240 + 240 * (p / 240) + (len - 1 - k))
    with (76799 - (x + 240 * y + k)) in Hd', Hm' by (unfold p in *; lia).
  destruct (mirrored_position (x + 240 * y + k) ltac:(lia)) as [Md Mm].
  rewrite <- Hd', <- Hm'. rewrite Md, Mm. rewrite Hd, Hm. lia.
Qed.

Lemma pushpixels_rotation_by_half_turn_witness :
  exists l0 l1,
    _pushpixels_mode0 (fun i => i) (76790 mod 240) (76790 / 240) 5 (bench 2)
    = Some (tt, sent l0 (bench 2)) /\
    _pushpixels_mode2 (fun i => i) 5 0 5 (bench 2) = Some (tt, sent (rev l0) (bench 2)) /\
    _pushpixels_mode1 (fun i => i) (76790 mod 240) (76790 / 240) 5 (bench 2)
    = Some (tt, sent l1 (bench 2)) /\
    _pushpixels_mode3 (fun i => i) 5 0 5 (bench 2) = Some (tt, sent (rev l1) (bench 2)).
Proof.
  apply (pushpixels_rotation_by_half_turn (fun i => i) 5 0 5 (bench 2)).
  - vm_compute. repeat split; discriminate.
  - lia.
Defined.
(** ** A synchronous upload draws every run of the diff *)

(** The answer of the diff reader that hands out the run of [len] pixels at
    column [x] of page [y]. *)
Definition run_answer (r : Z * Z * Z) : read_result :=
  let '(x, y, len) := r in
  {| rr_code := 0; rr_x := Some x; rr_y := Some y; rr_len := Some len |}.

(** A run of at least one pixel that lies on the screen. *)
Definition run_on_screen (r : Z * Z * Z) : Prop :=
  let '(x, y, len) := r in on_screen x y len /\ 0 < len.

(** The column and the page are sent again only when they change. *)
Definition address_events (px py x y : Z) : list event :=
  (if x =? px then [] else [WriteCommand ILI9341_T4_CASET; WriteData16 x])
  ++ (if y =? py then [] else [WriteCommand ILI9341_T4_PASET; WriteData16 y]).

(** The words of a run, read from the framebuffer along the rotation. *)
Definition run_pixels (rot : Z) (mem : Z -> Z) (r : Z * Z * Z) : list event :=
  let '(x, y, len) := r in
  if rot =? 0 then pushed mem (index0 x y) len
  else if rot =? 1 then pushed mem (index1 x y) len
  else if rot =? 2 then pushed mem (index2 x y) len
  else pushed mem (index3 x y) len.

(** What the panel is sent for the runs [rs], the column and page last sent
    being [px] and [py]. *)
Fixpoint drawn (rot : Z) (mem : Z -> Z) (px py : Z) (rs : list (Z * Z * Z)) : list event :=
  match rs with
  | [] => []
  | (x, y, len) :: rs' =>
      address_events px py x y
      ++ [WriteCommand ILI9341_T4_RAMWR]
      ++ run_pixels rot mem (x, y, len)
      ++ drawn rot mem x y rs'
  end.

Lemma _pushpixels_only_sends a x y len w :
  starts_on_screen x y len ->
  _pushpixels (Some a) x y len w
  = Some (tt, sent (run_pixels (_rotation (drv w)) (ram (hw w) a) (x, y, len)) w).
Proof.
  intros Hs. unfold _pushpixels, pixels, run_pixels.
  rewrite bind_assoc, bind_hrd, bind_ret, bind_rd.
  destruct (_rotation (drv w) =? 0); [apply pushpixels_mode0_only_sends; exact Hs|].
  destruct (_rotation (drv w) =? 1); [apply pushpixels_mode1_only_sends; exact Hs|].
  destruct (_rotation (drv w) =? 2); [apply pushpixels_mode2_only_sends; exact Hs|].
  apply pushpixels_mode3_only_sends; exact Hs.
Qed.

(** The loop of [_updateNow]. *)
Definition sync_body (fb : fbptr) (d : diffref) :=
  (fun '(x, y, len, prev_x, prev_y) =>
                  asl <- current_asl ;;
                  '(x, y, len, r) <- readDiff d (x, y, len) asl ;;
                  if 0 <? r then
                    t <- _timeForScanlines (int32 (r - asl + 1)) ;;
                    minw <- const ILI9341_T4_MIN_WAIT_TIME ;;
                    let t := if int32 t <? minw then minw else int32 t in
                    _pauseUploadTime ;; _delayMicro t ;; _restartUploadTime ;;
                    ret (inl (x, y, len, prev_x, prev_y))
                  else if r <? 0 then
                    _writecommand_last ILI9341_T4_NOP ;;
                    _endSPITransaction ;;
                    _endframe ;;
                    ret (inr tt)
                  else
                    (n <- rds _stats_nb_uploaded_pixels ;;
                     wrs set_stats_nb_uploaded_pixels (uint32 (n + len))) ;;
                    (n <- rds _stats_nb_transactions ;;
                     wrs set_stats_nb_transactions (uint32 (n + 1))) ;;
                    prev_x <- (if negb (x =? prev_x) then
                                 _writecommand_cont ILI9341_T4_CASET ;;
                                 _writedata16_cont x ;; ret x
                               else ret prev_x) ;;
                    prev_y <- (if negb (y =? prev_y) then
                                 _writecommand_cont ILI9341_T4_PASET ;;
                                 _writedata16_cont y ;; ret y
                               else ret prev_y) ;;
                    _writecommand_cont ILI9341_T4_RAMWR ;;
                    _pushpixels fb x y len ;;
                    vs <- rd _vsync_spacing ;;
                    when (0 <? vs)
                      (sl <- rd _slinitpos ;; em <- rd _em_async ;; e <- elapsed em ;;
                       n <- _nbScanlineDuring e ;;
                       let m := int32 (cdiv (int32 (ILI9341_T4_TFTWIDTH * y + x + len))
                                            ILI9341_T4_TFTWIDTH
                                       + ILI9341_T4_TFTHEIGHT - sl - n) in
                       mg <- rd _margin ;;
                       when (m <? mg) (wr set_margin m)) ;;
                    ret (inl (x, y, len, prev_x, prev_y))).

Lemma _endframe_eq :
  _endframe = ltac:(let b := eval unfold _endframe, push, elapsed, micros in _endframe in exact b).
Proof. reflexivity. Qed.

Lemma ltb_0_m1 : (0 <? -1) = false.
Proof. reflexivity. Qed.

Lemma ltb_m1_0 : (-1 <? 0) = true.
Proof. reflexivity. Qed.

Lemma ltb_0_0 : (0 <? 0) = false.
Proof. reflexivity. Qed.

Lemma int32_0 : int32 0 = 0.
Proof. reflexivity. Qed.

(** Pixels counted by the loop, from [n] on. *)
Definition count_pixels (n : Z) (rs : list (Z * Z * Z)) : Z :=
  fold_left (fun n r => uint32 (n + snd r)) rs n.

Lemma sync_loop a d rs : forall n px py x0 y0 len0 w,
  (length rs < n)%nat ->
  _vsync_spacing (drv w) <= 0 ->
  diff_reads (hw w) = map run_answer rs ->
  Forall run_on_screen rs ->
  exists w',
    iterate n (sync_body (Some a) d) (x0, y0, len0, px, py) w = Some (tt, w') /\
    trace (hw w') =
      trace (hw w)
      ++ drawn (_rotation (drv w)) (ram (hw w) a) px py rs
      ++ [WriteCommand ILI9341_T4_NOP; EndSPITransaction] /\
    coord w' = coord w /\
    _dma_state (drv w') = _dma_state (drv w) /\
    _stats_nb_frame (stats (drv w')) = uint32 (_stats_nb_frame (stats (drv w)) + 1) /\
    _statsvar_uploaded_pixels (stats (drv w'))
    = _statsvar_uploaded_pixels (stats (drv w))
      ++ [count_pixels (_stats_nb_uploaded_pixels (stats (drv w))) rs] /\
    diff_reads (hw w') = [].
Proof.
  induction rs as [|[[x y] len] rs IH]; intros n px py x0 y0 len0 w Hn Hvs Hdr Hon.
  - destruct n as [|n]; [cbn in Hn; lia|].
    assert (Hv : (0 <? _vsync_spacing (drv w)) = false) by (apply Z.ltb_ge; lia).
    remember (iterate (S n) (sync_body (Some a) d) (x0, y0, len0, px, py) w) as res eqn:E.
    symmetry in E. cbn [iterate] in E.
    unfold sync_body at 1, current_asl, readDiff in E.
    exec E. rewrite Hv in E. exec E. rewrite Hdr in E. cbn [map] in E. exec E.
    rewrite ltb_0_m1, ltb_m1_0 in E. cbv iota in E.
    rewrite _endframe_eq in E. unfold _writecommand_last, _endSPITransaction in E.
    exec E. rewrite Hv in E. exec E.
    subst res. eexists. split; [reflexivity|]. cbn.
    rewrite <- !app_assoc. repeat split; try reflexivity. exact Hdr.
  - destruct n as [|n]; [cbn in Hn; lia|].
    assert (Hv : (0 <? _vsync_spacing (drv w)) = false) by (apply Z.ltb_ge; lia).
    inversion Hon as [|? ? Hr Hon']; subst.
    destruct Hr as [Hs Hlen].
    pose proof (on_screen_starts _ _ _ Hs) as Hst.
    destruct Hs as (Hx & Hy & _ & Hend). change ILI9341_T4_NB_PIXELS with 76800 in Hend.
    remember (iterate (S n) (sync_body (Some a) d) (x0, y0, len0, px, py) w) as res eqn:E.
    symmetry in E. cbn [iterate] in E.
    unfold sync_body at 1, current_asl, readDiff in E.
    exec E. rewrite Hv in E. exec E. rewrite Hdr in E. cbn [map run_answer] in E. exec E.
    rewrite int32_0, ltb_0_0 in E. cbv iota in E.
    rewrite !(int32_id x), !(int32_id y), !(int32_id len) in E
      by (unfold INT_MIN, INT_MAX; lia).
    unfold _writecommand_cont, _writedata16_cont in E.
    exec E.
    assert (Hux : uint16 x = x) by (apply uint16_id; lia).
    assert (Huy : uint16 y = y) by (apply uint16_id; lia).
    rewrite Hux, Huy in E.
    cbn [drawn]. unfold address_events.
    destruct (x =? px) eqn:Hxp; destruct (y =? py) eqn:Hyp; cbn [negb] in E;
      try (apply Z.eqb_eq in Hxp; subst px); try (apply Z.eqb_eq in Hyp; subst py);
      exec E;
      erewrite (bind_intro (_pushpixels (Some a) x y len)) in E
        by (apply _pushpixels_only_sends; exact Hst);
      unfold sent in E; state_cbn E; exec E; rewrite Hv in E; exec E;
      match type of E with
      | bind (iterate _ _ _) _ ?W = _ =>
          destruct (IH n x y x y len W) as (w' & EI & Ht & Hc & Hd & Hf & Hp & Hq);
          [ cbn in Hn; lia | exact Hvs | reflexivity | exact Hon' | ]
      end;
      rewrite (bind_intro _ _ _ _ _ EI) in E; exec E; subst res;
      exists w'; (split; [reflexivity|]);
      unfold coord in Hc |- *;
      state_cbn Ht; state_cbn Hc; state_cbn Hd; state_cbn Hf; state_cbn Hp;
      (split; [rewrite Ht, ?Z.eqb_refl, ?Hxp, ?Hyp; repeat rewrite <- app_assoc;
               cbn [app]; reflexivity|]);
      (split; [exact Hc|]); (split; [exact Hd|]); (split; [exact Hf|]);
      (split; [exact Hp|exact Hq]).
Qed.
(** ** An upload without buffers *)

(** The first answer of the diff reader: the position of the first run and
    the scanline [sc1] the upload has to start behind. *)
Definition first_answer (x0 y0 sc1 : Z) : read_result :=
  {| rr_code := sc1; rr_x := Some x0; rr_y := Some y0; rr_len := Some 0 |}.

(** The window is opened at the first run: column [x0] up to 240, page [y0]
    up to 320. *)
Definition window_events (clk x0 y0 : Z) : list event :=
  [ BeginSPITransaction clk;
    WriteCommand ILI9341_T4_CASET; WriteData16 x0; WriteData16 ILI9341_T4_TFTWIDTH;
    WriteCommand ILI9341_T4_PASET; WriteData16 y0; WriteData16 ILI9341_T4_TFTHEIGHT ].

Lemma _updateNow_eq invoke a d :
  _updateNow invoke (Some a) (Some d)
  = ltac:(let b := eval unfold _updateNow in (_updateNow invoke (Some a) (Some d)) in
          let s := eval unfold sync_body in (sync_body (Some a) d) in
          match eval pattern s in b with
          | ?f _ => let r := eval cbv beta in (f (sync_body (Some a) d)) in exact r
          end).
Proof. reflexivity. Qed.

Lemma readDiff_first d x0 y0 sc1 q w :
  0 <= x0 < 240 -> 0 <= y0 < 320 -> INT_MIN <= sc1 <= INT_MAX ->
  diff_reads (hw w) = first_answer x0 y0 sc1 :: q ->
  readDiff d (0, 0, 0) 0 w
  = Some ((x0, y0, 0, sc1), Build_world (drv w) (set_diff_reads q (hw w)) (board w)).
Proof.
  intros Hx Hy Hsc H. unfold readDiff, bind, hrd, hwr, ret. rewrite H.
  cbn [first_answer rr_x rr_y rr_len rr_code].
  rewrite !int32_id by (unfold INT_MIN, INT_MAX in *; lia). reflexivity.
Qed.

Lemma _startframe_eq b :
  _startframe b = ltac:(let t := eval unfold _startframe, _restartCpuTime, _restartUploadTime, micros in (_startframe b) in exact t).
Proof. reflexivity. Qed.

Lemma _updateNow_draws depth a d x0 y0 sc1 rs w :
  _dma_state (drv w) = ILI9341_T4_DMA_IDLE ->
  _vsync_spacing (drv w) <= 0 ->
  0 <= x0 < 240 -> 0 <= y0 < 320 -> 0 <= sc1 <= INT_MAX ->
  diff_reads (hw w) = first_answer x0 y0 sc1 :: map run_answer rs ->
  Forall run_on_screen rs ->
  exists w',
    _updateNow (invoke depth) (Some a) (Some d) w = Some (tt, w') /\
    trace (hw w') =
      trace (hw w)
      ++ InitRead d :: window_events (_spi_clock (drv w)) x0 y0
      ++ drawn (_rotation (drv w)) (ram (hw w) a) x0 y0 rs
      ++ [WriteCommand ILI9341_T4_NOP; EndSPITransaction] /\
    coord w' = coord w /\
    _dma_state (drv w') = ILI9341_T4_DMA_IDLE /\
    _stats_nb_frame (stats (drv w')) = uint32 (_stats_nb_frame (stats (drv w)) + 1) /\
    _statsvar_uploaded_pixels (stats (drv w'))
    = _statsvar_uploaded_pixels (stats (drv w)) ++ [count_pixels 0 rs] /\
    diff_reads (hw w') = [].
Proof.
  intros Hidle Hvs Hx Hy Hsc Hdr Hon.
  assert (Hv : (0 <? _vsync_spacing (drv w)) = false) by (apply Z.ltb_ge; lia).
  assert (Hs : (sc1 <? 0) = false) by (apply Z.ltb_ge; lia).
  assert (Hsc' : INT_MIN <= sc1 <= INT_MAX) by (unfold INT_MIN; lia).
  remember (_updateNow (invoke depth) (Some a) (Some d) w) as res eqn:E. symmetry in E.
  rewrite _updateNow_eq in E.
  rewrite (bind_intro _ _ w tt w (waitUpdateAsyncComplete_idle _ w Hidle)) in E.
  exec E. rewrite _startframe_eq in E. exec E.
  unfold initRead in E. exec E.
  match type of E with
  | bind (readDiff _ _ _) _ ?W = _ =>
      rewrite (bind_intro _ _ W _ _
                 (readDiff_first d x0 y0 sc1 (map run_answer rs) W Hx Hy Hsc' Hdr)) in E
  end.
  state_cbn E. exec E. rewrite Hs in E. cbv iota in E. rewrite Hv in E.
  unfold _beginSPITransaction, _writecommand_cont, _writedata16_cont, _writedata16_last in E.
  exec E.
  assert (Hux : uint16 x0 = x0) by (apply uint16_id; lia).
  assert (Huy : uint16 y0 = y0) by (apply uint16_id; lia).
  rewrite Hux, Huy in E.
  match type of E with
  | bind (loop _ _) _ ?W = _ =>
      destruct (sync_loop a d rs (budget W) x0 y0 x0 y0 0 W)
        as (w' & EI & Ht & Hc & Hd & Hf & Hp & Hq);
      [ unfold budget; cbn; rewrite length_map; lia
      | exact Hvs | reflexivity | exact Hon | ];
      rewrite (bind_intro (loop _ _) _ W tt w' EI) in E
  end.
  exec E. subst res. exists w'. split; [reflexivity|].
  unfold coord in Hc |- *.
  cbn in Ht, Hc, Hd, Hf, Hp.
  split; [rewrite Ht; unfold window_events; repeat rewrite <- app_assoc; reflexivity|].
  split; [exact Hc|]. split; [rewrite Hd; exact Hidle|].
  split; [exact Hf|]. split; [exact Hp|exact Hq].
Qed.

Lemma update_eq invoke fb force :
  update invoke fb force
  = ltac:(let b := eval unfold update, bufferingMode, computeDummyDiff in (update invoke fb force) in
          exact b).
Proof. reflexivity. Qed.

(** Without framebuffers of its own and without vsync, [update] draws the
    frame before it returns: it has the dummy diff computed, opens the window
    at the first run, sends every run the diff hands out in order (the column
    and the page only where they change, then RAMWR and the pixels of the
    run read from the caller's framebuffer), and ends with a NOP.  On return
    the mirror is null, no upload is in flight, one more frame is counted
    and the pixels of the runs are recorded. *)
Theorem update_unbuffered_draws_every_run depth a force x0 y0 sc1 rs w :
  _fb1 (drv w) = None -> _fb2 (drv w) = None ->
  _dma_state (drv w) = ILI9341_T4_DMA_IDLE ->
  _vsync_spacing (drv w) <= 0 ->
  0 <= x0 < 240 -> 0 <= y0 < 320 -> 0 <= sc1 <= INT_MAX ->
  diff_reads (hw w) = first_answer x0 y0 sc1 :: map run_answer rs ->
  Forall run_on_screen rs ->
  exists w',
    update (invoke depth) (Some a) force w = Some (tt, w') /\
    trace (hw w') =
      trace (hw w)
      ++ ComputeDummyDiff (_dummydiff1 (drv w)) :: InitRead (_dummydiff1 (drv w))
         :: window_events (_spi_clock (drv w)) x0 y0
      ++ drawn (_rotation (drv w)) (ram (hw w) a) x0 y0 rs
      ++ [WriteCommand ILI9341_T4_NOP; EndSPITransaction] /\
    _mirrorfb (drv w') = None /\
    _dma_state (drv w') = ILI9341_T4_DMA_IDLE /\
    _stats_nb_frame (stats (drv w')) = uint32 (_stats_nb_frame (stats (drv w)) + 1) /\
    _statsvar_uploaded_pixels (stats (drv w'))
    = _statsvar_uploaded_pixels (stats (drv w)) ++ [count_pixels 0 rs].
Proof.
  intros H1 H2 Hidle Hvs Hx Hy Hsc Hdr Hon.
  remember (update (invoke depth) (Some a) force w) as res eqn:E. symmetry in E.
  rewrite update_eq in E. exec E. rewrite H1, H2 in E. cbv iota in E. exec E.
  rewrite (bind_intro _ _ w tt w (waitUpdateAsyncComplete_idle _ w Hidle)) in E.
  exec E.
  match type of E with
  | bind (_updateNow _ _ _) _ ?W = _ =>
      destruct (_updateNow_draws depth a (_dummydiff1 (drv w)) x0 y0 sc1 rs W)
        as (w' & EI & Ht & Hc & Hd & Hf & Hp & Hq);
      [ exact Hidle | exact Hvs | exact Hx | exact Hy | exact Hsc | exact Hdr | exact Hon | ];
      rewrite (bind_intro (_updateNow _ _ _) _ W tt w' EI) in E
  end.
  exec E. subst res. exists w'. split; [reflexivity|].
  unfold coord in Hc. cbn in Ht, Hc, Hf, Hp.
  split; [rewrite Ht; rewrite <- app_assoc; reflexivity|].
  split; [congruence|]. split; [exact Hd|]. split; [exact Hf|exact Hp].
Qed.

(** A driver without buffers, the diff reader offering a first position and
    two runs. *)
Definition bench_unbuffered : world :=
  {| drv := bench_driver 0;
     hw := set_diff_reads
             (first_answer 0 0 0 :: map run_answer [(0, 0, 240); (10, 5, 3)])
             bench_hardware;
     board := bench_board |}.

Lemma update_unbuffered_draws_every_run_witness :
  exists w',
    update (invoke 1) (Some 7%nat) false bench_unbuffered = Some (tt, w') /\
    trace (hw w') =
      trace (hw bench_unbuffered)
      ++ ComputeDummyDiff (_dummydiff1 (drv bench_unbuffered))
         :: InitRead (_dummydiff1 (drv bench_unbuffered))
         :: window_events (_spi_clock (drv bench_unbuffered)) 0 0
      ++ drawn (_rotation (drv bench_unbuffered)) (ram (hw bench_unbuffered) 7%nat) 0 0
           [(0, 0, 240); (10, 5, 3)]
      ++ [WriteCommand ILI9341_T4_NOP; EndSPITransaction] /\
    _mirrorfb (drv w') = None /\
    _dma_state (drv w') = ILI9341_T4_DMA_IDLE /\
    _stats_nb_frame (stats (drv w'))
    = uint32 (_stats_nb_frame (stats (drv bench_unbuffered)) + 1) /\
    _statsvar_uploaded_pixels (stats (drv w'))
    = _statsvar_uploaded_pixels (stats (drv bench_unbuffered))
      ++ [count_pixels 0 [(0, 0, 240); (10, 5, 3)]].
Proof.
  apply (update_unbuffered_draws_every_run 1 7%nat false 0 0 0
           [(0, 0, 240); (10, 5, 3)] bench_unbuffered).
  - reflexivity.
  - reflexivity.
  - reflexivity.
  - vm_compute. discriminate.
  - lia.
  - lia.
  - unfold INT_MAX. lia.
  - reflexivity.
  - repeat constructor; vm_compute; discriminate.
Defined.
(** ** An asynchronous upload *)

(** A completion interrupt of the DMA channel, [dt] microseconds after the
    last interrupt. *)
Definition dma_irq (dt : Z) : Z * list irq := (dt, [IRQ_DMA]).

(** An upload is in flight and the DMA is moving a run of [a]: the next
    thing to happen is the completion interrupt.  Vsync is off and nothing
    waits for the end of the upload. *)
Definition dma_running (a : nat) (d : diffref) (w : world) : Prop :=
  _dma_state (drv w) = ILI9341_T4_DMA_ON /\
  _fb (drv w) = Some a /\ _diff (drv w) = Some d /\
  _vsync_spacing (drv w) <= 0 /\
  _pcb (drv w) = None /\ _touch_request_read (drv w) = false /\
  irq_masked (hw w) = false /\ in_isr (hw w) = false /\ dma_enabled (hw w) = true.

(** What an interrupt handler sends for the runs [rs]: the column and the
    page where they change, RAMWR, and the run handed to the DMA. *)
Fixpoint dma_drawn (fb : fbptr) (px py : Z) (rs : list (Z * Z * Z)) : list event :=
  match rs with
  | [] => []
  | (x, y, len) :: rs' =>
      address_events px py x y
      ++ [WriteCommand ILI9341_T4_RAMWR; DmaPixels fb (x + y * ILI9341_T4_TFTWIDTH) len]
      ++ dma_drawn fb x y rs'
  end.

(** One round of [waitUpdateAsyncComplete]. *)
Definition wait_round (depth : nat) : unit -> M (unit + unit) :=
  fun _ : unit =>
    c <- asyncUpdateActive ;;
    if c then wait_irq (invoke depth) ;; ret (inl tt) else ret (inr tt).

Lemma waitUpdateAsyncComplete_eq depth w :
  waitUpdateAsyncComplete (invoke depth) w = iterate (budget w) (wait_round depth) tt w.
Proof. reflexivity. Qed.

Lemma wait_round_eq depth u :
  wait_round depth u
  = ltac:(let b := eval unfold wait_round, asyncUpdateActive, wait_irq in (wait_round depth u) in
          exact b).
Proof. reflexivity. Qed.

Lemma invoke_dmaInterruptDiff k :
  invoke (S k) cb_dmaInterruptDiff
  = ltac:(let b := eval unfold _dmaInterruptDiff, noInterrupts, interrupts, preempt,
                        _restartCpuTime, _pauseCpuTime, elapsed, micros in
                   (_dmaInterruptDiff (invoke k)) in exact b).
Proof. reflexivity. Qed.

Lemma _subFrameInterruptDiff_eq inv :
  _subFrameInterruptDiff inv
  = ltac:(let b := eval unfold _subFrameInterruptDiff, check_margin, current_asl, readDiff,
                        dma_run, _endSPITransaction, end_of_upload, call_pcb in
                   (_subFrameInterruptDiff inv) in exact b).
Proof. reflexivity. Qed.

Lemma deliver_all_dma inv :
  deliver_all inv [IRQ_DMA]
  = ltac:(let b := eval cbn [deliver_all] in (deliver_all inv [IRQ_DMA]) in
          let b := eval unfold deliver in b in exact b).
Proof. reflexivity. Qed.

Lemma active_on : negb (dma_state_eqb ILI9341_T4_DMA_ON ILI9341_T4_DMA_IDLE) = true.
Proof. reflexivity. Qed.

Lemma active_idle : negb (dma_state_eqb ILI9341_T4_DMA_IDLE ILI9341_T4_DMA_IDLE) = false.
Proof. reflexivity. Qed.

Lemma ltb_640 : (0 <? 2 * ILI9341_T4_TFTHEIGHT) = true.
Proof. reflexivity. Qed.

Lemma dma_loop_end depth a d n w rest dt :
  dma_running a d w ->
  irq_sched (hw w) = dma_irq dt :: rest ->
  diff_reads (hw w) = [] ->
  exists w',
    iterate (S (S n)) (wait_round (S depth)) tt w = Some (tt, w') /\
    trace (hw w') = trace (hw w) ++ [DmaFinish; EndSPITransaction] /\
    _dma_state (drv w') = ILI9341_T4_DMA_IDLE /\
    irq_sched (hw w') = rest /\
    coord w' = coord w /\
    _stats_nb_frame (stats (drv w')) = uint32 (_stats_nb_frame (stats (drv w)) + 1) /\
    _statsvar_uploaded_pixels (stats (drv w'))
    = _statsvar_uploaded_pixels (stats (drv w))
      ++ [_stats_nb_uploaded_pixels (stats (drv w))] /\
    dma_enabled (hw w') = false /\
    _pitcb (drv w') = _pitcb (drv w).
Proof.
  intros (Hon & Hfb & Hdf & Hvs & Hpcb & Htr & Hm & Hi & Hen) Hq Hdr.
  assert (Hv : (0 <? _vsync_spacing (drv w)) = false) by (apply Z.ltb_ge; lia).
  remember (iterate (S (S n)) (wait_round (S depth)) tt w) as res eqn:E.
  symmetry in E. cbn [iterate] in E.
  rewrite wait_round_eq in E.
  repeat (exec E;
          progress (rewrite ?Hon, ?active_on, ?active_idle, ?Hm, ?Hi, ?orb_false_l, ?Hq, ?Hen,
                      ?Hv, ?Hdf, ?Hdr, ?ltb_m1_0, ?Htr, ?Hpcb,
                      ?deliver_all_dma, ?invoke_dmaInterruptDiff,
                      ?_subFrameInterruptDiff_eq, ?_endframe_eq, ?wait_round_eq in E);
          unfold dma_irq, deref in E; cbv iota in E).
  exec E. subst res. eexists. split; [reflexivity|].
  unfold coord. cbn. rewrite <- app_assoc.
  repeat split; try reflexivity. rewrite Hpcb. reflexivity.
Qed.

Lemma dma_loop depth a d rs : forall n px py w rest dts,
  dma_running a d w ->
  _prev_caset_x (drv w) = px -> _prev_paset_y (drv w) = py ->
  irq_sched (hw w) = map dma_irq dts ++ rest ->
  length dts = S (length rs) ->
  diff_reads (hw w) = map run_answer rs ->
  Forall run_on_screen rs ->
  (S (length rs) < n)%nat ->
  exists w',
    iterate n (wait_round (S depth)) tt w = Some (tt, w') /\
    trace (hw w') =
      trace (hw w) ++ dma_drawn (Some a) px py rs ++ [DmaFinish; EndSPITransaction] /\
    _dma_state (drv w') = ILI9341_T4_DMA_IDLE /\
    irq_sched (hw w') = rest /\
    coord w' = coord w /\
    _stats_nb_frame (stats (drv w')) = uint32 (_stats_nb_frame (stats (drv w)) + 1) /\
    _statsvar_uploaded_pixels (stats (drv w'))
    = _statsvar_uploaded_pixels (stats (drv w))
      ++ [count_pixels (_stats_nb_uploaded_pixels (stats (drv w))) rs] /\
    dma_enabled (hw w') = false /\
    _pitcb (drv w') = _pitcb (drv w).
Proof.
  induction rs as [|[[x y] len] rs IH];
    intros n px py w rest dts Hrun Hpx Hpy Hq Hlen Hdr Hon Hn; subst px py.
  - destruct dts as [|dt [|? ?]]; try discriminate Hlen.
    destruct n as [|[|n]]; try (cbn in Hn; lia).
    cbn [map app] in Hq. cbn [dma_drawn count_pixels fold_left app].
    exact (dma_loop_end depth a d n w rest dt Hrun Hq Hdr).
  - destruct dts as [|dt dts]; [discriminate Hlen|].
    destruct n as [|n]; [cbn in Hn; lia|].
    destruct Hrun as (Hon' & Hfb & Hdf & Hvs & Hpcb & Htr & Hm & Hi & Hen).
    assert (Hv : (0 <? _vsync_spacing (drv w)) = false) by (apply Z.ltb_ge; lia).
    inversion Hon as [|? ? Hr Hrs]; subst.
    destruct Hr as [Hs Hl].
    destruct Hs as (Hx & Hy & _ & Hend). change ILI9341_T4_NB_PIXELS with 76800 in Hend.
    cbn [map app] in Hq. cbn [map] in Hdr.
    remember (iterate (S n) (wait_round (S depth)) tt w) as res eqn:E.
    symmetry in E. cbn [iterate] in E.
    rewrite wait_round_eq in E.
    repeat (exec E;
            progress (rewrite ?Hon', ?active_on, ?Hm, ?Hi, ?orb_false_l, ?Hq, ?Hen,
                        ?Hv, ?Hdf, ?Hdr, ?Htr, ?Hpcb, ?Hfb,
                        ?deliver_all_dma, ?invoke_dmaInterruptDiff,
                        ?_subFrameInterruptDiff_eq, ?int32_0, ?ltb_0_0 in E);
            unfold dma_irq, deref, run_answer in E; cbv iota in E).
    rewrite !(int32_id x), !(int32_id y), !(int32_id len) in E
      by (unfold INT_MIN, INT_MAX; lia).
    rewrite (int32_id (y * ILI9341_T4_TFTWIDTH)) in E
      by (change ILI9341_T4_TFTWIDTH with 240; unfold INT_MIN, INT_MAX; lia).
    assert (Hux : uint16 x = x) by (apply uint16_id; lia).
    assert (Huy : uint16 y = y) by (apply uint16_id; lia).
    rewrite Hux, Huy in E.
    cbn [dma_drawn]. unfold address_events.
    exec E.
    destruct (x =? _prev_caset_x (drv w)) eqn:Hxp;
      cbn [negb] in E; exec E;
      (destruct (y =? _prev_paset_y (drv w)) eqn:Hyp;
       cbn [negb] in E;
       repeat (exec E; progress (rewrite ?Hfb, ?orb_false_l in E); cbv iota in E)).
    all: exec E.
    all: match type of E with
         | bind (iterate _ _ _) _ ?W = _ =>
             destruct (IH n x y W rest dts) as (w' & EI & Ht & Hd & Hs & Hc & Hf & Hp & He & Hpit);
             [ repeat split; cbn; assumption
             | cbn; try reflexivity; symmetry; apply Z.eqb_eq; assumption
             | cbn; try reflexivity; symmetry; apply Z.eqb_eq; assumption
             | reflexivity
             | cbn in Hlen; lia
             | reflexivity
             | exact Hrs
             | cbn in Hn; lia
             | ];
             rewrite (bind_intro _ _ _ _ _ EI) in E
         end.
    all: exec E; subst res; exists w'; (split; [reflexivity|]).
    all: unfold coord in Hc |- *; cbn in Ht, Hc, Hf, Hp, Hpit.
    all: cbn [count_pixels fold_left snd].
    all: split; [rewrite Ht; repeat rewrite <- app_assoc; cbn [app]; reflexivity|].
    all: repeat split; assumption.
Qed.

Lemma _updateAsync_eq inv a d :
  _updateAsync inv (Some a) (Some d)
  = ltac:(let b := eval unfold _updateAsync, initRead, _beginSPITransaction, _endSPITransaction,
                        _writecommand_cont, _writedata16_cont, _writedata16_last,
                        _pauseUploadTime, _pauseCpuTime, _setTimerIn, elapsed, micros in
                   (_updateAsync inv (Some a) (Some d)) in exact b).
Proof. reflexivity. Qed.

Lemma deliver_all_pit inv :
  deliver_all inv [IRQ_PIT]
  = ltac:(let b := eval cbn [deliver_all] in (deliver_all inv [IRQ_PIT]) in
          let b := eval unfold deliver in b in exact b).
Proof. reflexivity. Qed.

Lemma invoke_subFrameTimerStartcb k :
  invoke (S k) cb_subFrameTimerStartcb
  = ltac:(let b := eval unfold _subFrameTimerStartcb, _restartCpuTime, _restartUploadTime,
                        _pauseUploadTime, _pauseCpuTime, _setTimerIn, elapsed, micros in
                   _subFrameTimerStartcb in exact b).
Proof. reflexivity. Qed.

Lemma invoke_subFrameTimerStartcb2 k :
  invoke (S k) cb_subFrameTimerStartcb2
  = ltac:(let b := eval unfold _subFrameTimerStartcb2, _restartCpuTime, _restartUploadTime,
                        _pauseCpuTime, _beginSPITransaction, readDiff, dma_run,
                        elapsed, micros in
                   (_subFrameTimerStartcb2 (invoke k)) in exact b).
Proof. reflexivity. Qed.

(** The upload is armed: the window is set at [(x0, y0)] and the one-shot
    timer will call [_subFrameTimerStartcb]. *)
Definition armed (a : nat) (d : diffref) (x0 y0 : Z) (w : world) : Prop :=
  _dma_state (drv w) = ILI9341_T4_DMA_ON /\
  _fb (drv w) = Some a /\ _diff (drv w) = Some d /\
  _vsync_spacing (drv w) <= 0 /\
  _pcb (drv w) = None /\ _touch_request_read (drv w) = false /\
  irq_masked (hw w) = false /\ in_isr (hw w) = false /\
  _pitcb (drv w) = Some cb_subFrameTimerStartcb /\
  _prev_caset_x (drv w) = x0 /\ _prev_paset_y (drv w) = y0.

Lemma eqb_0_0 : (0 =? 0) = true.
Proof. reflexivity. Qed.

Lemma first_run_matches : false || negb true || negb true = false.
Proof. reflexivity. Qed.

Lemma armed_upload_runs depth a d x0 y0 len1 rs dt1 dt2 dts rest w :
  armed a d x0 y0 w ->
  diff_reads (hw w) = map run_answer ((x0, y0, len1) :: rs) ->
  Forall run_on_screen ((x0, y0, len1) :: rs) ->
  irq_sched (hw w)
  = (dt1, [IRQ_PIT]) :: (dt2, [IRQ_PIT]) :: map dma_irq dts ++ rest ->
  length dts = S (length rs) ->
  exists w',
    waitUpdateAsyncComplete (invoke (S depth)) w = Some (tt, w') /\
    trace (hw w') =
      trace (hw w)
      ++ [ SetTimerIn 1 cb_subFrameTimerStartcb2;
           BeginSPITransaction (_spi_clock (drv w)) ]
      ++ dma_drawn (Some a) x0 y0 ((x0, y0, len1) :: rs)
      ++ [DmaFinish; EndSPITransaction] /\
    _dma_state (drv w') = ILI9341_T4_DMA_IDLE /\
    irq_sched (hw w') = rest /\
    coord w' = coord w /\
    _stats_nb_frame (stats (drv w')) = uint32 (_stats_nb_frame (stats (drv w)) + 1) /\
    _statsvar_uploaded_pixels (stats (drv w'))
    = _statsvar_uploaded_pixels (stats (drv w))
      ++ [count_pixels 0 ((x0, y0, len1) :: rs)] /\
    dma_enabled (hw w') = false /\
    _pitcb (drv w') = None.
Proof.
  intros (Hon' & Hfb & Hdf & Hvs & Hpcb & Htr & Hm & Hi & Hpit & Hpx & Hpy) Hdr Hon Hq Hlen.
  subst x0 y0.
  assert (Hv : (0 <? _vsync_spacing (drv w)) = false) by (apply Z.ltb_ge; lia).
  assert (Hle : (_vsync_spacing (drv w) <=? 0) = true) by (apply Z.leb_le; lia).
  inversion Hon as [|? ? Hr Hrs]; subst.
  destruct Hr as [Hscr Hl].
  destruct Hscr as (Hx & Hy & _ & Hend). change ILI9341_T4_NB_PIXELS with 76800 in Hend.
  assert (Hl0 : (len1 =? 0) = false) by (apply Z.eqb_neq; lia).
  cbn [map] in Hdr.
  assert (Hb : exists m, budget w = S (S m) /\ (S (length rs) < m)%nat).
  { exists (budget w - 2)%nat. unfold budget. rewrite Hq, Hdr. cbn [length].
    rewrite length_app, !length_map. lia. }
  destruct Hb as (m & Hb & Hm').
  remember (waitUpdateAsyncComplete (invoke (S depth)) w) as res eqn:E. symmetry in E.
  rewrite waitUpdateAsyncComplete_eq, Hb in E. cbn [iterate] in E.
  rewrite wait_round_eq in E.
  repeat (exec E;
          progress (rewrite ?Hon', ?active_on, ?Hm, ?Hi, ?orb_false_l, ?Hq,
                      ?Hv, ?Hle, ?Hdf, ?Hdr, ?Htr, ?Hpcb, ?Hfb, ?Hpit,
                      ?deliver_all_pit, ?invoke_subFrameTimerStartcb,
                      ?invoke_subFrameTimerStartcb2, ?wait_round_eq,
                      ?int32_0, ?eqb_0_0 in E);
          unfold deref, run_answer in E; cbv iota in E).
  rewrite !(int32_id len1), !(int32_id (_prev_caset_x (drv w))),
    !(int32_id (_prev_paset_y (drv w))) in E by (unfold INT_MIN, INT_MAX; lia).
  rewrite (int32_id (_prev_paset_y (drv w) * ILI9341_T4_TFTWIDTH)) in E
    by (change ILI9341_T4_TFTWIDTH with 240; unfold INT_MIN, INT_MAX; lia).
  rewrite !Z.eqb_refl, Hl0, first_run_matches in E. cbv iota in E.
  repeat (exec E; progress (rewrite ?Hfb in E)).
  exec E.
  match type of E with
  | bind (iterate _ _ _) _ ?W = _ =>
      destruct (dma_loop depth a d rs m (_prev_caset_x (drv w)) (_prev_paset_y (drv w))
                  W rest dts)
        as (w' & EI & Ht & Hd & Hs & Hc & Hf & Hp & He & Hpit');
      [ repeat split; cbn; assumption
      | reflexivity | reflexivity | reflexivity | exact Hlen | reflexivity | exact Hrs
      | exact Hm' | ];
      rewrite (bind_intro _ _ _ _ _ EI) in E
  end.
  exec E. subst res. exists w'. split; [reflexivity|].
  unfold coord in Hc |- *. cbn in Ht, Hc, Hf, Hp, Hpit'.
  cbn [count_pixels fold_left snd dma_drawn]. unfold address_events.
  rewrite !Z.eqb_refl.
  split; [rewrite Ht; repeat rewrite <- app_assoc; cbn [app]; reflexivity|].
  repeat split; assumption.
Qed.

(** An asynchronous upload without vsync.  [_updateAsync] only sets the
    window at the first position and arms the one-shot timer: it returns with
    the upload in flight and not one pixel sent.  The interrupts do the rest:
    the timer fires twice and starts the DMA on the first run, every
    completion interrupt of the DMA hands the next run to it (the column and
    the page sent where they change), and the interrupt that finds the diff
    at its end closes the transaction and puts the driver back to idle, so
    that the wait for the end of the upload returns; a frame is counted and
    the pixels of the runs are recorded. *)
Theorem updateAsync_hands_every_run_to_the_dma
  depth a d x0 y0 sc1 len1 rs dt1 dt2 dts rest w :
  _dma_state (drv w) = ILI9341_T4_DMA_IDLE ->
  _vsync_spacing (drv w) <= 0 ->
  _pcb (drv w) = None -> _touch_request_read (drv w) = false ->
  irq_masked (hw w) = false -> in_isr (hw w) = false ->
  0 <= sc1 <= INT_MAX ->
  diff_reads (hw w) = first_answer x0 y0 sc1 :: map run_answer ((x0, y0, len1) :: rs) ->
  Forall run_on_screen ((x0, y0, len1) :: rs) ->
  irq_sched (hw w)
  = (dt1, [IRQ_PIT]) :: (dt2, [IRQ_PIT]) :: map dma_irq dts ++ rest ->
  length dts = S (length rs) ->
  exists w1 w2,
    _updateAsync (invoke (S depth)) (Some a) (Some d) w = Some (tt, w1) /\
    _dma_state (drv w1) = ILI9341_T4_DMA_ON /\
    trace (hw w1) =
      trace (hw w)
      ++ InitRead d :: window_events (_spi_clock (drv w)) x0 y0
      ++ [EndSPITransaction; SetTimerIn 1 cb_subFrameTimerStartcb] /\
    waitUpdateAsyncComplete (invoke (S depth)) w1 = Some (tt, w2) /\
    trace (hw w2) =
      trace (hw w1)
      ++ [ SetTimerIn 1 cb_subFrameTimerStartcb2;
           BeginSPITransaction (_spi_clock (drv w)) ]
      ++ dma_drawn (Some a) x0 y0 ((x0, y0, len1) :: rs)
      ++ [DmaFinish; EndSPITransaction] /\
    _dma_state (drv w2) = ILI9341_T4_DMA_IDLE /\
    irq_sched (hw w2) = rest /\
    coord w2 = coord w /\
    _stats_nb_frame (stats (drv w2)) = uint32 (_stats_nb_frame (stats (drv w)) + 1) /\
    _statsvar_uploaded_pixels (stats (drv w2))
    = _statsvar_uploaded_pixels (stats (drv w))
      ++ [count_pixels 0 ((x0, y0, len1) :: rs)].
Proof.
  intros Hidle Hvs Hpcb Htr Hm Hi Hsc Hdr Hon Hq Hlen.
  assert (Hv : (0 <? _vsync_spacing (drv w)) = false) by (apply Z.ltb_ge; lia).
  assert (Hle : (_vsync_spacing (drv w) <=? 0) = true) by (apply Z.leb_le; lia).
  assert (Hs : (sc1 <? 0) = false) by (apply Z.ltb_ge; lia).
  assert (Hsc' : INT_MIN <= sc1 <= INT_MAX) by (unfold INT_MIN; lia).
  inversion Hon as [|? ? Hr Hrs]; subst.
  destruct Hr as [Hscr Hl].
  destruct Hscr as (Hx & Hy & _ & Hend).
  assert (Hux : uint16 x0 = x0) by (apply uint16_id; lia).
  assert (Huy : uint16 y0 = y0) by (apply uint16_id; lia).
  remember (_updateAsync (invoke (S depth)) (Some a) (Some d) w) as res eqn:E. symmetry in E.
  rewrite _updateAsync_eq in E.
  rewrite (bind_intro _ _ w tt w (waitUpdateAsyncComplete_idle _ w Hidle)) in E.
  exec E. rewrite _startframe_eq in E. exec E.
  match type of E with
  | bind (readDiff _ _ _) _ ?W = _ =>
      rewrite (bind_intro _ _ W _ _
                 (readDiff_first d x0 y0 sc1 _ W Hx Hy Hsc' Hdr)) in E
  end.
  state_cbn E. exec E. rewrite Hs in E. cbv iota in E. exec E.
  rewrite Hle in E. cbv iota in E. exec E. rewrite Hux, Huy in E.
  match type of E with
  | Some (tt, ?W) = _ =>
      destruct (armed_upload_runs depth a d x0 y0 len1 rs dt1 dt2 dts rest W)
        as (w2 & EW & Ht & Hd & Hs' & Hc & Hf & Hp & He & Hpit);
      [ repeat split; cbn; assumption
      | reflexivity | exact Hon | exact Hq | exact Hlen | ];
      exists W, w2
  end.
  subst res. split; [reflexivity|]. split; [reflexivity|].
  split; [cbn; unfold window_events; repeat rewrite <- app_assoc; reflexivity|].
  split; [exact EW|].
  unfold coord in Hc |- *. cbn in Hc, Hf, Hp.
  split; [exact Ht|]. repeat split; assumption.
Qed.

(** The diff reader offering a first position and two runs, the timer firing
    twice and the DMA channel completing twice. *)
Definition bench_async : world :=
  {| drv := bench_driver 0;
     hw := set_irq_sched
             [(5, [IRQ_PIT]); (5, [IRQ_PIT]); dma_irq 100; dma_irq 100]
             (set_diff_reads
                (first_answer 0 0 0 :: map run_answer [(0, 0, 240); (10, 5, 3)])
                bench_hardware);
     board := bench_board |}.

Lemma updateAsync_hands_every_run_to_the_dma_witness :
  exists w1 w2,
    _updateAsync (invoke 1) (Some 7%nat) (Some (UserDiff 1)) bench_async = Some (tt, w1) /\
    _dma_state (drv w1) = ILI9341_T4_DMA_ON /\
    trace (hw w1) =
      trace (hw bench_async)
      ++ InitRead (UserDiff 1) :: window_events (_spi_clock (drv bench_async)) 0 0
      ++ [EndSPITransaction; SetTimerIn 1 cb_subFrameTimerStartcb] /\
    waitUpdateAsyncComplete (invoke 1) w1 = Some (tt, w2) /\
    trace (hw w2) =
      trace (hw w1)
      ++ [ SetTimerIn 1 cb_subFrameTimerStartcb2;
           BeginSPITransaction (_spi_clock (drv bench_async)) ]
      ++ dma_drawn (Some 7%nat) 0 0 [(0, 0, 240); (10, 5, 3)]
      ++ [DmaFinish; EndSPITransaction] /\
    _dma_state (drv w2) = ILI9341_T4_DMA_IDLE /\
    irq_sched (hw w2) = [] /\
    coord w2 = coord bench_async /\
    _stats_nb_frame (stats (drv w2))
    = uint32 (_stats_nb_frame (stats (drv bench_async)) + 1) /\
    _statsvar_uploaded_pixels (stats (drv w2))
    = _statsvar_uploaded_pixels (stats (drv bench_async))
      ++ [count_pixels 0 [(0, 0, 240); (10, 5, 3)]].
Proof.
  apply (updateAsync_hands_every_run_to_the_dma 0 7%nat (UserDiff 1) 0 0 0 240
           [(10, 5, 3)] 5 5 [100; 100] [] bench_async).
  - reflexivity.
  - vm_compute. discriminate.
  - reflexivity.
  - reflexivity.
  - reflexivity.
  - reflexivity.
  - unfold INT_MAX. lia.
  - reflexivity.
  - repeat constructor; vm_compute; discriminate.
  - reflexivity.
  - reflexivity.
Defined.
(** ** An empty diff *)

Lemma end_of_upload_eq inv :
  end_of_upload inv
  = ltac:(let b := eval unfold end_of_upload, call_pcb in (end_of_upload inv) in exact b).
Proof. reflexivity. Qed.

(** From [w] to [w'] a frame was counted without talking to the panel: the
    diff [d] was opened for reading and its first answer taken, nothing else
    happened outside, no timer was armed, no pixel was uploaded and the
    driver is idle. *)
Definition frame_without_pixels (d : diffref) (q : list read_result) (w w' : world) : Prop :=
  trace (hw w') = trace (hw w) ++ [InitRead d] /\
  diff_reads (hw w') = q /\
  _dma_state (drv w') = ILI9341_T4_DMA_IDLE /\
  _pitcb (drv w') = _pitcb (drv w) /\
  coord w' = coord w /\
  _stats_nb_frame (stats (drv w')) = uint32 (_stats_nb_frame (stats (drv w)) + 1) /\
  _statsvar_uploaded_pixels (stats (drv w'))
  = _statsvar_uploaded_pixels (stats (drv w)) ++ [0].

(** When the diff has nothing to draw (its first answer is negative) and
    vsync is off, neither [_updateNow] nor [_updateAsync] talks to the panel:
    no transaction is opened, no window set, no timer armed.  The frame is
    counted with no pixel uploaded and the driver is idle on return. *)
Theorem empty_diff_sends_nothing depth a d x0 y0 sc1 q w :
  _dma_state (drv w) = ILI9341_T4_DMA_IDLE ->
  _vsync_spacing (drv w) <= 0 ->
  _pcb (drv w) = None -> _touch_request_read (drv w) = false ->
  0 <= x0 < 240 -> 0 <= y0 < 320 -> INT_MIN <= sc1 < 0 ->
  diff_reads (hw w) = first_answer x0 y0 sc1 :: q ->
  (exists w', _updateNow (invoke depth) (Some a) (Some d) w = Some (tt, w') /\
              frame_without_pixels d q w w') /\
  (exists w', _updateAsync (invoke depth) (Some a) (Some d) w = Some (tt, w') /\
              frame_without_pixels d q w w').
Proof.
  intros Hidle Hvs Hpcb Htr Hx Hy Hsc Hdr.
  assert (Hv : (0 <? _vsync_spacing (drv w)) = false) by (apply Z.ltb_ge; lia).
  assert (Hs : (sc1 <? 0) = true) by (apply Z.ltb_lt; lia).
  assert (Hsc' : INT_MIN <= sc1 <= INT_MAX) by (unfold INT_MAX; lia).
  split.
  - remember (_updateNow (invoke depth) (Some a) (Some d) w) as res eqn:E. symmetry in E.
    rewrite _updateNow_eq in E.
    rewrite (bind_intro _ _ w tt w (waitUpdateAsyncComplete_idle _ w Hidle)) in E.
    exec E. rewrite _startframe_eq in E. exec E.
    unfold initRead in E. exec E.
    match type of E with
    | bind (readDiff _ _ _) _ ?W = _ =>
        rewrite (bind_intro _ _ W _ _ (readDiff_first d x0 y0 sc1 q W Hx Hy Hsc' Hdr)) in E
    end.
    state_cbn E. exec E. rewrite Hs in E. cbv iota in E. rewrite Hv in E.
    exec E. rewrite _endframe_eq in E.
    repeat (exec E; progress (rewrite ?Hv in E); cbv iota in E).
    exec E. subst res. eexists. split; [reflexivity|].
    unfold frame_without_pixels, coord. cbn. rewrite Hidle. repeat split; reflexivity.
  - remember (_updateAsync (invoke depth) (Some a) (Some d) w) as res eqn:E. symmetry in E.
    rewrite _updateAsync_eq in E.
    rewrite (bind_intro _ _ w tt w (waitUpdateAsyncComplete_idle _ w Hidle)) in E.
    exec E. rewrite _startframe_eq in E. exec E.
    match type of E with
    | bind (readDiff _ _ _) _ ?W = _ =>
        rewrite (bind_intro _ _ W _ _ (readDiff_first d x0 y0 sc1 q W Hx Hy Hsc' Hdr)) in E
    end.
    state_cbn E. exec E. rewrite Hs in E. cbv iota in E. rewrite Hv in E.
    exec E. rewrite _endframe_eq, end_of_upload_eq in E.
    repeat (exec E; progress (rewrite ?Hv, ?Htr, ?Hpcb in E); cbv iota in E).
    exec E. subst res. eexists. split; [reflexivity|].
    unfold frame_without_pixels, coord. cbn. rewrite Hpcb. repeat split; reflexivity.
Qed.

(** The diff reader answering that there is nothing to draw. *)
Definition bench_empty_diff : world :=
  {| drv := bench_driver 0;
     hw := set_diff_reads [first_answer 0 0 (-1)] bench_hardware;
     board := bench_board |}.

Lemma empty_diff_sends_nothing_witness :
  (exists w', _updateNow (invoke 1) (Some 7%nat) (Some dd1) bench_empty_diff = Some (tt, w') /\
              frame_without_pixels dd1 [] bench_empty_diff w') /\
  (exists w', _updateAsync (invoke 1) (Some 7%nat) (Some dd1) bench_empty_diff = Some (tt, w') /\
              frame_without_pixels dd1 [] bench_empty_diff w').
Proof.
  apply (empty_diff_sends_nothing 1 7%nat dd1 0 0 (-1) [] bench_empty_diff).
  - reflexivity.
  - vm_compute. discriminate.
  - reflexivity.
  - reflexivity.
  - lia.
  - lia.
  - unfold INT_MIN. lia.
  - reflexivity.
Defined.
(** ** The touch controller *)

(** What [_pspi->transfer16(c) >> 3] makes of the word [v] received. *)
Definition touch_sample (v : Z) : Z := int16 (Z.shiftr (uint16 v) 3).

(** The pressure: [z1 + 4095 - z2]. *)
Definition touch_pressure (v1 v2 : Z) : Z :=
  int32 (int32 (touch_sample v1 + 4095) - touch_sample v2).

Lemma touch_sample_eq v : int16 (Z.shiftr (uint16 v) 3) = touch_sample v.
Proof. reflexivity. Qed.

Lemma touch_pressure_eq v1 v2 :
  int32 (int32 (touch_sample v1 + 4095) - touch_sample v2) = touch_pressure v1 v2.
Proof. reflexivity. Qed.

Lemma _updateTouch2_eq :
  _updateTouch2
  = ltac:(let b := eval unfold _updateTouch2, transfer16_shr3, transfer16, transfer,
                     rx_read, millis in _updateTouch2 in exact b).
Proof. reflexivity. Qed.

(** A light touch: the pressure is read in five exchanges with the
    controller and found below the threshold; [_touch_z] is cleared and the
    position is left as it was. *)
Theorem updateTouch2_low_pressure w t0 v0 t1 v1 t2 v2 t3 v3 t4 v4 rest :
  rx (hw w) = (t0, v0) :: (t1, v1) :: (t2, v2) :: (t3, v3) :: (t4, v4) :: rest ->
  0 < ILI9341_T4_TOUCH_Z_THRESHOLD (board w) ->
  touch_pressure v1 v2 < ILI9341_T4_TOUCH_Z_THRESHOLD (board w) ->
  exists w',
    _updateTouch2 w = Some (tt, w') /\
    trace (hw w') =
      trace (hw w)
      ++ [ TouchBeginTransaction (_spi_clock_read (drv w));
           DigitalWrite (_touch_cs (drv w)) false;
           Transfer 0xB1; Transfer16 0xC1; Transfer16 0x91;
           Transfer16 0xD0; Transfer16 0;
           DigitalWrite (_touch_cs (drv w)) true;
           TouchEndTransaction ] /\
    rx (hw w') = rest /\
    _touch_z (drv w') = 0 /\
    _touch_x (drv w') = _touch_x (drv w) /\
    _touch_y (drv w') = _touch_y (drv w) /\
    _touched_read (drv w')
    = (if (Z.max 0 (touch_pressure v1 v2) <? ILI9341_T4_TOUCH_Z_THRESHOLD_INT (board w))
          && negb (_touch_irq (drv w) =? 255)
       then false else _touched_read (drv w)).
Proof.
  intros Hrx Hthr Hz.
  remember (_updateTouch2 w) as res eqn:E. symmetry in E.
  rewrite _updateTouch2_eq in E.
  exec E. rewrite Hrx in E. cbv iota in E.
  exec E.
  rewrite !touch_sample_eq, touch_pressure_eq in E.
  set (z := touch_pressure v1 v2) in *.
  replace (ILI9341_T4_TOUCH_Z_THRESHOLD (board w) <=? z) with false in E
    by (symmetry; apply Z.leb_gt; exact Hz).
  exec E.
  assert (Hc : ((if z <? 0 then 0 else z) <? ILI9341_T4_TOUCH_Z_THRESHOLD (board w)) = true).
  { apply Z.ltb_lt. destruct (z <? 0); lia. }
  rewrite Hc in E. cbv iota in E. exec E.
  assert (Hm : (if z <? 0 then 0 else z) = Z.max 0 z).
  { destruct (Z.ltb_spec z 0); lia. }
  rewrite Hm in E.
  destruct (Z.max 0 z <? ILI9341_T4_TOUCH_Z_THRESHOLD_INT (board w));
    [exec E; destruct (_touch_irq (drv w) =? 255); cbn [negb] in E; cbv iota in E|];
    exec E; subst res; eexists; (split; [reflexivity|]);
    cbn; repeat rewrite <- app_assoc; repeat split; reflexivity.
Qed.



Lemma int16_id z : - 2 ^ 15 <= z < 2 ^ 15 -> int16 z = z.
Proof. unfold int16. intros H. rewrite Z.mod_small; lia. Qed.

(** A sample has 13 bits. *)
Lemma touch_sample_range v : 0 <= touch_sample v <= 8191.
Proof.
  unfold touch_sample, uint16.
  pose proof (Z.mod_pos_bound v (2 ^ 16) ltac:(lia)) as B.
  rewrite Z.shiftr_div_pow2 by lia.
  assert (0 <= v mod 2 ^ 16 / 2 ^ 3 <= 8191).
  { split; [apply Z.div_pos; lia|].
    apply Z.lt_succ_r. apply Z.div_lt_upper_bound; lia. }
  rewrite int16_id; lia.
Qed.

(** Of three samples [_besttwoavg] returns the mean, rounded down, of the
    two that are closest to each other. *)
Theorem besttwoavg_mean_of_closest_pair x y z :
  0 <= x <= 8191 -> 0 <= y <= 8191 -> 0 <= z <= 8191 ->
  exists a b,
    ((a, b) = (x, y) \/ (a, b) = (x, z) \/ (a, b) = (y, z)) /\
    _besttwoavg x y z = (a + b) / 2 /\
    Z.abs (a - b) <= Z.abs (x - y) /\
    Z.abs (a - b) <= Z.abs (x - z) /\
    Z.abs (a - b) <= Z.abs (y - z).
Proof.
  intros Hx Hy Hz. unfold _besttwoavg.
  assert (S : forall a b, 0 <= a <= 8191 -> 0 <= b <= 8191 ->
                          int16 (Z.shiftr (a + b) 1) = (a + b) / 2).
  { intros a b Ha Hb. rewrite Z.shiftr_div_pow2 by lia. change (2 ^ 1) with 2.
    assert (0 <= (a + b) / 2 <= 8191).
    { split; [apply Z.div_pos; lia|].
      apply Z.lt_succ_r. apply Z.div_lt_upper_bound; lia. }
    apply int16_id. lia. }
  rewrite !S by assumption.
  rewrite (int16_id (if y <? x then x - y else y - x))
    by (destruct (Z.ltb_spec y x); lia).
  rewrite (int16_id (if z <? x then x - z else z - x))
    by (destruct (Z.ltb_spec z x); lia).
  rewrite (int16_id (if y <? z then z - y else y - z))
    by (destruct (Z.ltb_spec y z); lia).
  cbv zeta.
  destruct (Z.ltb_spec y x), (Z.ltb_spec z x), (Z.ltb_spec y z);
    repeat match goal with
           | |- context [?a <=? ?b] => destruct (Z.leb_spec a b)
           end;
    cbn [andb];
    first [ exists x, y; split; [auto|]; split; [reflexivity|]; lia
          | exists x, z; split; [auto|]; split; [reflexivity|]; lia
          | exists y, z; split; [auto|]; split; [reflexivity|]; lia ].
Qed.

(** The bench with the touch controller answering a light touch, and a firm
    touch at the middle of the panel. *)
Definition light_touch : list (Z * Z) :=
  [(1, 0); (1, 8); (1, 32760); (1, 0); (1, 0)].


Lemma updateTouch2_low_pressure_witness :
  exists w',
    _updateTouch2 (Build_world (bench_driver 0) (set_rx light_touch bench_hardware)
                               bench_board) = Some (tt, w') /\
    rx (hw w') = [] /\
    _touch_z (drv w') = 0.
Proof.
  destruct (updateTouch2_low_pressure
              (Build_world (bench_driver 0) (set_rx light_touch bench_hardware) bench_board)
              1 0 1 8 1 32760 1 0 1 0 [] eq_refl eq_refl eq_refl)
    as (w' & E & _ & Hr & Hz & _).
  exists w'. repeat split; assumption.
Defined.


Lemma besttwoavg_mean_of_closest_pair_witness :
  exists a b,
    ((a, b) = (2048, 3000) \/ (a, b) = (2048, 2049) \/ (a, b) = (3000, 2049)) /\
    _besttwoavg 2048 3000 2049 = (a + b) / 2 /\
    Z.abs (a - b) <= Z.abs (2048 - 3000) /\
    Z.abs (a - b) <= Z.abs (2048 - 2049) /\
    Z.abs (a - b) <= Z.abs (3000 - 2049).
Proof. apply besttwoavg_mean_of_closest_pair; lia. Defined.
